(* ===== verification/_CoqProject ===== *)
-Q . S2P
Prelude.v
Str.v
Float.v
Addr.v
Socket.v
Acl.v
Blocklist.v
Config.v
Startup.v
Lists.v
Oui.v
Netinfo.v
DnsMsg.v
WireCodec.v
Cache.v
CacheHistory.v
Upstream.v
Db.v
WriterLoop.v
Reports.v
Storage.v
Monitor.v
Resolver.v
ResolverSpec.v
Serve.v
Session.v
Alerts.v
Devices.v
Discovery.v
Rows.v
Daemon.v
Ledger.v
Boot.v
Lifecycle.v
Api.v
Shown.v
Control.v
Web.v
Cases.v
AclCases.v
CacheCases.v
BlocklistCases.v
AlertsCases.v
DevicesCases.v
ConfigCases.v
OuiCases.v
NetinfoCases.v
DbCases.v
DnsCases.v
ApiCases.v
