(* ===== verification/Prelude.v ===== *)
(** * netwatch: a verification development for the Rust program under src/

    netwatch is the DNS server of a home network: it answers every device's
    queries, refuses strangers, blocks listed domains, caches answers, asks
    upstream resolvers, logs what was asked by which device, and shows it on
    a web dashboard from which domains can be blocked and allowed.  This
    library models the program in Rocq, definition by definition, and proves
    what makes each part, and the parts together, correct.

    ** How the program hangs together

    A datagram or connection reaches the serving loops (src/dns/mod.rs,
    [Serve.v]), which consult the access list (src/dns/acl.rs, [Acl.v]) and
    run the resolver (src/dns/mod.rs, [Resolver.v]).  The resolver asks the
    block list (src/blocklist.rs, [Blocklist.v]), the cache (src/dns/cache.rs,
    [Cache.v]) and the upstream servers (src/dns/mod.rs, [Upstream.v]), tells
    the device registry that the client was seen and what an answer says about
    names (src/devices.rs, [Devices.v]), and sends one event to the write
    queue (src/db.rs, [Db.v]), which a writer thread drains into the tables.
    The registry also learns from the neighbour table (src/netinfo.rs,
    [Netinfo.v]) and from DHCP and mDNS packets, looks vendors up (src/oui.rs,
    [Oui.v]) and raises alerts (src/alerts.rs, [Alerts.v]); its background
    loops are in [Discovery.v].  Two samplers (src/monitor.rs, [Monitor.v])
    send interface rates and round-trip times to the same queue.  The web
    server (src/api.rs, [Web.v] around [Api.v]) reports from the tables
    ([Reports.v]), edits the manual lists, reloads the downloaded ones
    (src/blocklist.rs, [Lists.v]), rebuilds the block list and flushes the
    cache.  src/main.rs reads the configuration (src/config.rs, [Config.v])
    with the command line's overrides ([Startup.v]), opens the database
    ([Storage.v]), and spawns the tasks ([Boot.v]), whose failures may end the
    process ([Lifecycle.v]).  [Daemon.v] is all of them running together.

    ** The files

    - [Prelude.v] (this file): results and their [let?] notation, machine
      integers, locks, time, sorting, and the tactics and hint databases the
      other files use.
    - [Str.v], [Addr.v], [Float.v]: the standard library's strings, IP
      addresses and 64-bit floats, as far as the program uses them, byte for
      byte and bit for bit.
    - [Socket.v]: the calls that set a listening socket up.
    - [DnsMsg.v]: DNS messages.  The message library is outside the
      repository: the classes [Hickory] and [Codec] are its interface, their
      laws its documented behaviour, and [simple_codec] an instance that the
      witnesses compute with.
    - [Acl.v], [Blocklist.v], [Cache.v], [Db.v], [Alerts.v], [Devices.v],
      [Oui.v], [Netinfo.v], [Config.v], [Monitor.v]: one component each; a
      definition has the name of the function it translates.  Where a name was
      taken, the header of the file or the comment of the definition says
      which function it is ([send] is [Writer::send], [get] and [insert] are
      [Cache::get] and [Cache::insert]).
    - [WriterLoop.v], [Reports.v], [Storage.v]: more of src/db.rs: the writer
      thread in time (in [Db.v] it is two steps, to receive an operation and
      to write the batch it has), the dashboard's queries, and the database file: opening,
      maintenance and rebuild.  SQLite is behind the class [Sqlite] of
      [Storage.v], with [simple_sqlite] for the witnesses.
    - [Lists.v]: list files on disk: download, health, building the matcher,
      the manual lists.
    - [Upstream.v]: one query over UDP, then TCP, over the upstreams in turn.
    - [Resolver.v]: one request.  [prepare] is [handle_inner] up to the await
      of [forward], [finish] what follows it, [budget_spent] the other arm of
      the timeout in [handle], and [handle] puts them together.
    - [ResolverSpec.v]: the abstract specification of a request and the proof
      that [handle] refines it, whatever other requests do meanwhile.
    - [Serve.v]: binding with retries, the UDP and TCP loops.  [Session.v]: a
      TCP session in time, with its limit and failing reads and writes.
    - [Discovery.v]: the background loops of src/devices.rs: the sweep, the
      mDNS and DHCP listeners, the reverse lookups.
    - [Rows.v]: what each kind of row holds, and that registry, alerts and
      samplers send only such rows and the tables keep them.
    - [Daemon.v]: everything running together as one step relation, with
      restarts.  The class [QueryObserver] of [Resolver.v] is what the resolver
      needs of the registry and the queue; [shared_observer] is the proof that
      they provide it.
    - [CacheHistory.v], [Ledger.v], [Control.v]: properties of the parts
      together: the cache against the history of its insertions; every
      question of a run accounted for; the refreshes, edits and reloads of the
      block list as interleaved tasks around the refresh lock.
    - [Shown.v]: from the question to the dashboard: an answered question is
      counted as dropped or becomes a row of the query log.
    - [Startup.v], [Boot.v], [Lifecycle.v]: src/main.rs: command line and
      configuration; the rest of the start; what becomes of the tasks.
    - [Api.v], [Web.v]: src/api.rs: the changing handlers; routes, reports and
      the layers around them.
    - [WireCodec.v], [Cases.v] and the files [*Cases.v]: the program's own
      unit tests (each [#[test]] of src/, and src/tests/check_config.rs) as
      executable definitions, with the proof that the model passes each.
      [WireCodec.v] is a second instance of the message library, in the format
      of RFC 1035, for these tests.

    ** How code becomes definitions

    Bytes and strings are Rocq strings; integers are [Z] with the wrap-around
    of their width written out ([wrap 64] on every counter, [i64] on the
    windows of the reports; the build is the release one, on a 64-bit target,
    and what a debug build does instead is said where it matters); maps are
    [gmap]s,
    with the iteration order of a hash map an argument where the result
    depends on it.  A [&mut self] method takes the state and returns it.  A
    [Result] is [result] with a structured error in place of its text.  A lock
    is a value and whether it is poisoned, so that each [if let Ok(..)] has
    both branches.  The clocks, the network, the file system and the database
    engine are arguments: every reading and every outcome is an input, and a
    theorem holds for all of them.  Statements that are no transaction (a
    prune) can stop between any two.  An await that may not end is an [Outcome].
    Tasks that interleave (serving, the daemon, the registry) are step
    relations, and their invariants are proved by induction on reachability.
    Tracing output is left out.

    ** What the theorems show

    - A request: the resolver refines its specification; replies match their
      requests; every request is answered within its budget; blocked names
      stay at home; a fetched answer serves the next client; UDP answers fit;
      only answers to the question asked are accepted.
    - Serving: requests in flight are bounded, nothing is sent to a stranger,
      TCP sessions answer in order and end in time, binding ends.
    - The daemon: cache, queue and registry stay consistent, and every row
      stored is well typed, whatever clients and upstreams do and however
      often the program restarts; the writer thread delivers in order; the
      questions asked are those stored, queued, dropped, timed out, in flight,
      cut with their TCP session or lost, to the last one; the log carries
      nothing that was not asked; and what was answered, not dropped and not
      pruned is shown by the dashboard, at its place, once.
    - The process: a configuration that passes the check starts, unless its
      subnet cannot be read, which the check does not look at; what the check
      refuses does not start, but for a dashboard address given on the command
      line; then every DNS address is bound, and served unless its limit is
      beyond what a semaphore holds, or the process exits; a signal ends it.
    - Control: beyond loopback only the administrator changes what is
      resolved; with blocking enabled and a well-formed list a blocked domain
      is blocked for the next question; a failed reload changes nothing.  When
      the tasks interleave there is one refresh at a time, the list in force
      is one that was on disk, and a handler alone is the function of
      [Api.v].
    - Components: what the access list admits; what the block list matches;
      a cache that agrees with what was inserted; validation;
      refreshes that never lose a list and store nothing but whole downloads;
      safe device names, bounded row writes, DHCP parsing; bounded reverse lookups; cooldown of alerts; exact rates;
      a rebuild of the database that succeeds or says why; reports that count
      once.

    Each property has an identifier (C1, C2, ...) in its comment; a property
    with hypotheses is followed by a witness that applies it to a concrete
    input.  Examples that show where the program departs from its comments
    stand beside the definitions they are about.

    ** Fuel and bounds

    Recursion is structural except for these: [Serve.bind_loop] runs on fuel,
    and eleven passes are proved enough for the thirty seconds of
    [BIND_RETRY_WINDOW]; [Serve.tcp_session] runs on fuel, and one more than
    the length of its input is proved enough; [Devices.parse_dhcp] gives its
    option walk one more than the length of the packet, also proved enough;
    [WriterLoop.writer_thread] needs one unit per operation that arrives,
    proved enough; [Storage.maintain] gives the vacuum loop [VACUUM_FUEL], one
    more than the pages it may free, proved enough; [Str.show_radix] prints
    with forty digits, enough for 128 bits, and [Str.trim_start_matches] is
    given the length of its string.

    ** What is not modelled

    The set-up of tracing and of the TLS provider; log lines; the parsing of
    TOML, JSON, query strings and of the command line, which are libraries';
    the texts of most error messages (errors are structured values); what
    SQLite, the kernel, the message and HTTP libraries do inside, which are
    arguments or classes; the dashboard page, the scripts, the deployment and
    build files.  Three unit tests are left out: two measure SQLite's file
    sizes, one sends a datagram between real sockets.  A test that looks for
    words in an error's text compares the structured error instead. *)
From stdpp Require Export base tactics option list gmap strings sorting relations.
From Stdlib Require Export Ascii ZArith Lia.
#[export] Set Warnings "-notation-overridden,-clear-no-such-hyp".

(* ------------------------------------------------------------------ *)
(** ** Results: Rust's [Result<T, E>] *)

Inductive result (E A : Type) : Type :=
  | Ok (a : A)
  | Err (e : E).
Arguments Ok {E A} a.
Arguments Err {E A} e.

Declare Scope nw_scope.
Delimit Scope nw_scope with nw.

(** The [?] operator of Rust on [Result] and on [Option]. *)
Notation "'let?' x ':=' r 'in' k" :=
  (match r with Ok x => k | Err e => Err e end)
  (at level 10, x pattern, r at level 100, k at level 200) : nw_scope.
Notation "'let!' x ':=' o 'in' k" :=
  (match o with Some x => k | None => None end)
  (at level 10, x pattern, o at level 100, k at level 200) : nw_scope.
Open Scope nw_scope.

Definition is_ok {E A} (r : result E A) : bool :=
  match r with Ok _ => true | Err _ => false end.
Definition ok {E A} (r : result E A) : option A :=
  match r with Ok a => Some a | Err _ => None end.
Definition ok_or {E A} (e : E) (o : option A) : result E A :=
  match o with Some a => Ok a | None => Err e end.
Definition map_err {E F A} (f : E -> F) (r : result E A) : result F A :=
  match r with Ok a => Ok a | Err e => Err (f e) end.
Definition ensure {E} (b : bool) (e : E) : result E unit :=
  if b then Ok tt else Err e.

(** What succeeded when [?] or [map_err] did. *)
Lemma let_ok {E A B} (r : result E A) (k : A -> result E B) b :
  match r with Ok x => k x | Err e => Err e end = Ok b <-> exists a, r = Ok a /\ k a = Ok b.
Proof. destruct r; naive_solver. Qed.

Lemma map_err_ok {E F A} (f : E -> F) (r : result E A) a : map_err f r = Ok a <-> r = Ok a.
Proof. destruct r; naive_solver. Qed.

#[export] Instance result_eq_dec {E A} `{EqDecision E, EqDecision A} :
  EqDecision (result E A).
Proof. solve_decision. Defined.

(** [Option::unwrap_or], [Option::is_some_and], [Option::is_none_or]. *)
Definition unwrap_or {A} (d : A) (o : option A) : A := default d o.
Definition is_some_and {A} (p : A -> bool) (o : option A) : bool :=
  match o with Some a => p a | None => false end.
Definition is_none_or {A} (p : A -> bool) (o : option A) : bool :=
  match o with Some a => p a | None => true end.
Definition is_some {A} (o : option A) : bool :=
  match o with Some _ => true | None => false end.
Definition is_none {A} (o : option A) : bool := negb (is_some o).

(* ------------------------------------------------------------------ *)
(** ** Machine integers

    An unsigned integer of width [w] is a [Z] in [0, 2^w); the operations
    of the source that can leave that range are written out. *)

Open Scope Z_scope.

Definition u8_max : Z := 255.
Definition u16_max : Z := 65535.
Definition u32_max : Z := 4294967295.
Definition u64_max : Z := 18446744073709551615.
Definition u128_max : Z := 340282366920938463463374607431768211455.

Definition wrap (w z : Z) : Z := z mod 2 ^ w.
Definition in_width (w z : Z) : Prop := 0 <= z < 2 ^ w.
Definition saturating_sub (a b : Z) : Z := Z.max 0 (a - b).
(** [Ord::clamp]. *)
Definition clamp (lo hi z : Z) : Z := if z <? lo then lo else if hi <? z then hi else z.

Lemma wrap_in_width w z : 0 <= w -> in_width w (wrap w z).
Proof. intros. apply Z.mod_pos_bound, Z.pow_pos_nonneg; lia. Qed.
Lemma wrap_small w z : in_width w z -> wrap w z = z.
Proof. apply Z.mod_small. Qed.
(** An [i64] result: two's complement, as the release build computes it. *)
Definition i64 (z : Z) : Z := wrap 64 (z + 2 ^ 63) - 2 ^ 63.
Lemma i64_small z : - 2 ^ 63 <= z < 2 ^ 63 -> i64 z = z.
Proof. intros. unfold i64. rewrite wrap_small; [lia|]. unfold in_width. lia. Qed.
Lemma clamp_bounds lo hi z : lo <= hi -> lo <= clamp lo hi z <= hi.
Proof. unfold clamp. repeat case_match; lia. Qed.
Lemma clamp_id lo hi z : lo <= z <= hi -> clamp lo hi z = z.
Proof. unfold clamp. repeat case_match; lia. Qed.

(** The prefix masks [uN::MAX << (N - prefix)] of the address code. *)
Definition prefix_mask (w prefix : Z) : Z := wrap w (Z.shiftl (2 ^ w - 1) (w - prefix)).

Lemma prefix_mask_eq w p :
  0 <= p <= w -> prefix_mask w p = Z.shiftl (Z.ones p) (w - p).
Proof.
  intros Hp. unfold prefix_mask, wrap.
  rewrite <-Z.land_ones by lia.
  replace (2 ^ w - 1) with (Z.ones w) by (rewrite Z.ones_equiv; lia).
  apply Z.bits_inj'. intros i Hi.
  rewrite Z.land_spec, !Z.shiftl_spec, !Z.testbit_ones by lia.
  repeat match goal with |- context [?a <=? ?b] => destruct (Z.leb_spec a b) end;
  repeat match goal with |- context [?a <? ?b] => destruct (Z.ltb_spec a b) end;
  simpl; try reflexivity; lia.
Qed.

(** Masking keeps exactly the top [p] bits: comparing masked addresses is
    comparing their quotients by [2 ^ (w - p)]. *)
Lemma land_prefix_mask w p a :
  0 <= p <= w -> in_width w a ->
  Z.land a (prefix_mask w p) = Z.shiftl (Z.shiftr a (w - p)) (w - p).
Proof.
  intros Hp [Ha0 Ha]. rewrite prefix_mask_eq by lia.
  apply Z.bits_inj'. intros i Hi.
  rewrite Z.land_spec, !Z.shiftl_spec, Z.testbit_ones by lia.
  destruct (Z.leb_spec 0 (i - (w - p))) as [Hle|Hlt].
  - rewrite Z.shiftr_spec by lia. replace (i - (w - p) + (w - p)) with i by lia.
    destruct (Z.ltb_spec (i - (w - p)) p); simpl; [by rewrite andb_true_r|].
    rewrite andb_false_r. symmetry. apply Z.testbit_false; [lia|].
    rewrite Z.div_small; [done|]. split; [done|].
    apply Z.lt_le_trans with (2 ^ w); [done|]. apply Z.pow_le_mono_r; lia.
  - rewrite andb_false_r. symmetry. apply Z.testbit_neg_r. lia.
Qed.

Lemma mask_eq_iff w p a b :
  0 <= p <= w -> in_width w a -> in_width w b ->
  Z.land a (prefix_mask w p) = Z.land b (prefix_mask w p) <->
  a / 2 ^ (w - p) = b / 2 ^ (w - p).
Proof.
  intros Hp Ha Hb. rewrite !land_prefix_mask by done.
  rewrite !Z.shiftl_mul_pow2, !Z.shiftr_div_pow2 by lia.
  split; [|congruence]. intros H. apply Z.mul_cancel_r in H; [done|].
  pose proof (Z.pow_pos_nonneg 2 (w - p)). lia.
Qed.

(* ------------------------------------------------------------------ *)
(** ** Locks

    A [Mutex] or [RwLock]: its value and whether a panicking holder has
    poisoned it.  [lock_ok] is [lock().ok()] (and [read().ok()],
    [write().ok()]); [lock_set] is what a writer leaves behind. *)

Record Lock (A : Type) : Type := mk_lock { lk_poisoned : bool; lk_value : A }.
Arguments mk_lock {A} lk_poisoned lk_value.
Arguments lk_poisoned {A} l.
Arguments lk_value {A} l.

Definition new_lock {A} (a : A) : Lock A := mk_lock false a.
Definition lock_ok {A} (l : Lock A) : option A :=
  if lk_poisoned l then None else Some (lk_value l).
Definition lock_set {A} (l : Lock A) (a : A) : Lock A := mk_lock (lk_poisoned l) a.

Lemma lock_ok_set {A} (l : Lock A) a :
  lock_ok (lock_set l a) = if lk_poisoned l then None else Some a.
Proof. done. Qed.

(* ------------------------------------------------------------------ *)
(** ** Time

    An [Instant] is a number of nanoseconds on the monotonic clock, a
    [Duration] a non-negative number of nanoseconds. *)

Definition Instant : Type := Z.
Definition Duration : Type := Z.
Definition from_secs (s : Z) : Duration := s * 1000000000.
Definition from_millis (ms : Z) : Duration := ms * 1000000.
Definition as_secs (d : Duration) : Z := d / 1000000000.
Definition as_millis (d : Duration) : Z := d / 1000000.
(** [Instant::duration_since] saturates at zero. *)
Definition duration_since (now earlier : Instant) : Duration := saturating_sub now earlier.

(* ------------------------------------------------------------------ *)
(** ** Automation *)

Create HintDb nw.
Create Rewrite HintDb str.
#[export] Hint Resolve wrap_in_width : nw.
#[export] Hint Extern 1 (_ <= _ <= _) => lia : nw.

(** Turn the boolean tests of the code into propositions. *)
Ltac bools :=
  repeat match goal with
  | H : _ && _ = true |- _ => apply andb_true_iff in H; destruct H
  | H : _ || _ = false |- _ => apply orb_false_iff in H; destruct H
  | H : negb _ = true |- _ => apply negb_true_iff in H
  | H : negb _ = false |- _ => apply negb_false_iff in H
  | H : (_ <=? _)%Z = true |- _ => apply Z.leb_le in H
  | H : (_ <=? _)%Z = false |- _ => apply Z.leb_gt in H
  | H : (_ <? _)%Z = true |- _ => apply Z.ltb_lt in H
  | H : (_ <? _)%Z = false |- _ => apply Z.ltb_ge in H
  | H : (_ =? _)%Z = true |- _ => apply Z.eqb_eq in H
  | H : (_ =? _)%Z = false |- _ => apply Z.eqb_neq in H
  | H : bool_decide _ = true |- _ => apply bool_decide_eq_true in H
  | H : bool_decide _ = false |- _ => apply bool_decide_eq_false in H
  end.

(** Case analysis on every [match] and [if] of the goal. *)
Ltac cases := repeat (case_match; simplify_eq/=; try done).

(** A bit of arithmetic on closed powers of two. *)
Ltac pow_lia := unfold in_width, u8_max, u16_max, u32_max, u64_max in *;
  change (2 ^ 8) with 256 in *; change (2 ^ 16) with 65536 in *;
  change (2 ^ 32) with 4294967296 in *; change (2 ^ 64) with 18446744073709551616 in *; lia.

#[global] Arguments String.append !_ _ / : simpl nomatch.

(* ------------------------------------------------------------------ *)
(** ** Lists *)

Lemma existsb_is_true {A} (p : A -> bool) l :
  existsb p l = true <-> exists x, x ∈ l /\ p x = true.
Proof. rewrite existsb_exists. by setoid_rewrite <-list_elem_of_In. Qed.

Lemma forallb_is_true {A} (p : A -> bool) l :
  forallb p l = true <-> (forall x, x ∈ l -> p x = true).
Proof. rewrite forallb_forall. by setoid_rewrite <-list_elem_of_In. Qed.

Lemma fold_left_inv {A B} (P : A -> Prop) (f : A -> B -> A) l a :
  P a -> (forall a b, P a -> P (f a b)) -> P (fold_left f l a).
Proof. intros Ha Hf. revert a Ha. induction l; simpl; auto. Qed.

Lemma sum_list_with_snoc {A} (f : A -> nat) l x :
  sum_list_with f (l ++ [x]) = (sum_list_with f l + f x)%nat.
Proof. rewrite sum_list_with_app. simpl. lia. Qed.

(* ------------------------------------------------------------------ *)
(** ** Stable sorting

    [slice::sort_by_key] and SQL's ORDER BY: a stable sort for a boolean
    preorder. *)

Section Sorting.
Context {A : Type} (le : A -> A -> bool).
Fixpoint insert_by (x : A) (l : list A) : list A :=
  match l with
  | [] => [x]
  | y :: r => if le x y then x :: l else y :: insert_by x r
  end.
Definition sort_by (l : list A) : list A := foldr insert_by [] l.

Lemma insert_by_perm x l : insert_by x l ≡ₚ x :: l.
Proof.
  induction l as [|y r IH]; simpl; [done|]. destruct (le x y); [done|]. rewrite IH. apply perm_swap.
Qed.
Lemma sort_by_perm l : sort_by l ≡ₚ l.
Proof. induction l as [|x l IH]; simpl; [done|]. by rewrite insert_by_perm, IH. Qed.

Context (le_total : forall x y, le x y = false -> le y x = true).
Context (le_trans : forall x y z, le x y = true -> le y z = true -> le x z = true).
Lemma insert_by_sorted x l :
  StronglySorted (fun a b => le a b = true) l -> StronglySorted (fun a b => le a b = true) (insert_by x l).
Proof using le_total le_trans.
  induction 1 as [|y r Hr IH Hy]; simpl; [by repeat constructor|].
  destruct (le x y) eqn:E.
  - constructor; [by constructor|]. constructor; [done|].
    eapply Forall_impl; [exact Hy|]. intros z Hz. by eapply le_trans.
  - constructor; [done|]. rewrite insert_by_perm. constructor; auto.
Qed.
Lemma sort_by_sorted l : StronglySorted (fun a b => le a b = true) (sort_by l).
Proof using le_total le_trans. induction l; simpl; [constructor|]. by apply insert_by_sorted. Qed.
End Sorting.

Lemma sort_by_map {A B} (le : A -> A -> bool) (le' : B -> B -> bool) (g : A -> B) l :
  (forall a b, le' (g a) (g b) = le a b) -> sort_by le' (map g l) = map g (sort_by le l).
Proof.
  intros Hg. induction l as [|x l IH]; [done|]. simpl. rewrite IH. generalize (sort_by le l) as k.
  induction k as [|y k IHk]; [done|]. simpl. rewrite Hg. destruct (le x y); [done|]. simpl. by rewrite IHk.
Qed.
Lemma sorted_impl {A} (R S : A -> A -> Prop) l :
  (forall x y, R x y -> S x y) -> StronglySorted R l -> StronglySorted S l.
Proof. intros H. induction 1; constructor; eauto using Forall_impl. Qed.

(** Sorted by a number, largest first. *)
Lemma by_key_sorted {A} (key : A -> Z) l : StronglySorted (fun a b => key b <= key a) (sort_by (fun a b => key b <=? key a) l).
Proof.
  eapply sorted_impl; [|apply sort_by_sorted].
  - intros a b. simpl. apply Z.leb_le.
  - intros x y. rewrite Z.leb_gt, Z.leb_le. lia.
  - intros x y z. rewrite !Z.leb_le. lia.
Qed.

(** [List.filter], up to what is in the list. *)
Lemma filter_all {A} (p : A -> bool) l : (forall x, x ∈ l -> p x = true) -> List.filter p l = l.
Proof.
  intros H. induction l as [|a l IH]; [done|]. simpl. rewrite H by left. by rewrite IH by (intros; apply H; by right).
Qed.
Lemma filter_none {A} (p : A -> bool) l : (forall x, x ∈ l -> p x = false) -> List.filter p l = [].
Proof.
  intros H. induction l as [|a l IH]; [done|]. simpl. rewrite H by left. by rewrite IH by (intros; apply H; by right).
Qed.
Lemma filter_perm {A} (p : A -> bool) l k : l ≡ₚ k -> List.filter p l ≡ₚ List.filter p k.
Proof.
  induction 1 as [|x l k _ IH|x y l|l k m _ IH1 _ IH2]; simpl; [done|..|by rewrite IH1].
  - by destruct (p x); [constructor|].
  - destruct (p x), (p y); try done. apply perm_swap.
Qed.
