(* ===== verification/Str.v ===== *)
(** * Rust strings

    A [&str] or [String] is the sequence of its UTF-8 bytes, a Rocq
    [string].  This file gives the methods of [str], [char] and the integer
    parsers that the program uses, on those bytes, with the lemmas about
    them that the components share. *)
From S2P Require Import Prelude.
Open Scope Z_scope.

(* ------------------------------------------------------------------ *)
(** ** Characters *)

Definition code (a : ascii) : Z := Z.of_N (N_of_ascii a).
Definition of_code (z : Z) : ascii := ascii_of_N (Z.to_N z).

Definition is_ascii_digit (a : ascii) : bool := (48 <=? code a) && (code a <=? 57).
Definition is_ascii_upper (a : ascii) : bool := (65 <=? code a) && (code a <=? 90).
Definition is_ascii_lower (a : ascii) : bool := (97 <=? code a) && (code a <=? 122).
Definition is_ascii_alphanumeric (a : ascii) : bool :=
  is_ascii_digit a || is_ascii_upper a || is_ascii_lower a.
Definition is_ascii_hexdigit (a : ascii) : bool :=
  is_ascii_digit a || ((65 <=? code a) && (code a <=? 70)) || ((97 <=? code a) && (code a <=? 102)).
Definition lower_char (a : ascii) : ascii :=
  if is_ascii_upper a then of_code (code a + 32) else a.
Definition upper_char (a : ascii) : ascii :=
  if is_ascii_lower a then of_code (code a - 32) else a.

(** [char::to_digit]. *)
Definition digit_value (a : ascii) : option Z :=
  if is_ascii_digit a then Some (code a - 48)
  else if is_ascii_lower a then Some (code a - 87)
  else if is_ascii_upper a then Some (code a - 55) else None.
Definition to_digit (radix : Z) (a : ascii) : option Z :=
  match digit_value a with Some d => if d <? radix then Some d else None | None => None end.

(** [u8] to its decimal or lower-case hexadecimal digit. *)
Definition digit_char (d : Z) : ascii := of_code (if d <? 10 then 48 + d else 87 + d).

Ltac all_chars a := destruct a as [[] [] [] [] [] [] [] []]; vm_compute.

Lemma code_bound a : 0 <= code a <= 255.
Proof. all_chars a; split; discriminate. Qed.
Lemma lower_char_idemp a : lower_char (lower_char a) = lower_char a.
Proof. all_chars a; done. Qed.
Lemma lower_char_not_upper a : is_ascii_upper (lower_char a) = false.
Proof. all_chars a; done. Qed.
Lemma lower_char_hex a : is_ascii_hexdigit (lower_char a) = is_ascii_hexdigit a.
Proof. all_chars a; done. Qed.
Lemma lower_char_alnum a : is_ascii_alphanumeric (lower_char a) = is_ascii_alphanumeric a.
Proof. all_chars a; done. Qed.
Lemma lower_char_eq_iff a c :
  is_ascii_upper c = false -> is_ascii_lower c = false -> lower_char a = c <-> a = c.
Proof.
  intros Hu Hl. split.
  - intros <-. revert Hl. unfold lower_char.
    destruct (is_ascii_upper a) eqn:E; [|done]. revert E. all_chars a; discriminate.
  - intros ->. unfold lower_char. by rewrite Hu.
Qed.
Lemma to_digit_range radix a d : to_digit radix a = Some d -> 0 <= d < radix.
Proof.
  unfold to_digit, digit_value, is_ascii_digit, is_ascii_lower, is_ascii_upper.
  repeat case_match; intros; simplify_eq; bools; lia.
Qed.
Lemma digit_value_digit_char d : 0 <= d < 16 -> digit_value (digit_char d) = Some d.
Proof.
  intros Hd. destruct d as [|p|p]; [done| |lia].
  repeat (destruct p as [p|p|]; try lia; try done).
Qed.
Lemma to_digit_digit_char radix d :
  0 <= d < radix -> radix <= 16 -> to_digit radix (digit_char d) = Some d.
Proof.
  intros Hd Hr. unfold to_digit. rewrite digit_value_digit_char by lia.
  by rewrite (proj2 (Z.ltb_lt _ _)) by lia.
Qed.

(* ------------------------------------------------------------------ *)
(** ** Searching and slicing *)

Fixpoint str_forallb (p : ascii -> bool) (s : string) : bool :=
  match s with "" => true | String a r => p a && str_forallb p r end.
Fixpoint str_filter (p : ascii -> bool) (s : string) : string :=
  match s with
  | "" => ""
  | String a r => if p a then String a (str_filter p r) else str_filter p r
  end.
Fixpoint str_map (f : ascii -> ascii) (s : string) : string :=
  match s with "" => "" | String a r => String (f a) (str_map f r) end.

Definition is_empty (s : string) : bool := match s with "" => true | _ => false end.
(** [str::len], in bytes. *)
Definition str_len (s : string) : Z := Z.of_nat (String.length s).
Definition contains_char (c : ascii) (s : string) : bool :=
  negb (str_forallb (fun a => negb (Ascii.eqb a c)) s).
Definition to_ascii_lowercase (s : string) : string := str_map lower_char s.
Definition eq_ignore_ascii_case (a b : string) : bool :=
  String.eqb (to_ascii_lowercase a) (to_ascii_lowercase b).

(** The part after the first [c]: [s.find(c)] followed by [&s[i + 1..]]. *)
Fixpoint after_char (c : ascii) (s : string) : option string :=
  match s with
  | "" => None
  | String a r => if Ascii.eqb a c then Some r else after_char c r
  end.

(** [str::split_once] on a character. *)
Fixpoint split_once (c : ascii) (s : string) : option (string * string) :=
  match s with
  | "" => None
  | String a r =>
      if Ascii.eqb a c then Some ("", r)
      else match split_once c r with Some (x, y) => Some (String a x, y) | None => None end
  end.

(** [s.find(p)] with the two slices at the index found, or [(s, "")]. *)
Fixpoint break_at (p : ascii -> bool) (s : string) : string * string :=
  match s with
  | "" => ("", "")
  | String a r => if p a then ("", s) else let '(x, y) := break_at p r in (String a x, y)
  end.

(** [str::split] on the characters satisfying [p]. *)
Fixpoint split_on (p : ascii -> bool) (s : string) : list string :=
  match s with
  | "" => [""]
  | String a r =>
      if p a then "" :: split_on p r
      else match split_on p r with
           | w :: ws => String a w :: ws
           | [] => [String a ""]
           end
  end.
Definition split_char (c : ascii) : string -> list string := split_on (fun a => Ascii.eqb a c).

(** [str::splitn]. *)
Fixpoint splitn (n : nat) (c : ascii) (s : string) : list string :=
  match n with
  | O => []
  | S O => [s]
  | S m => match split_once c s with Some (x, y) => x :: splitn m c y | None => [s] end
  end.

(** [str::strip_prefix], [starts_with], [strip_suffix]. *)
Fixpoint strip_prefix (p s : string) : option string :=
  match p, s with
  | "", _ => Some s
  | String a p', String b s' => if Ascii.eqb a b then strip_prefix p' s' else None
  | _, _ => None
  end.
Definition starts_with (p s : string) : bool := is_some (strip_prefix p s).
Fixpoint strip_suffix (p s : string) : option string :=
  if String.eqb s p then Some ""
  else match s with
       | "" => None
       | String a r => match strip_suffix p r with Some x => Some (String a x) | None => None end
       end.

(** [trim_end_matches] on a character, [trim_start_matches] on a character
    and on a string. *)
Fixpoint trim_end_matches (c : ascii) (s : string) : string :=
  match s with
  | "" => ""
  | String a r =>
      let t := trim_end_matches c r in
      if is_empty t && Ascii.eqb a c then "" else String a t
  end.
Fixpoint trim_start_char (c : ascii) (s : string) : string :=
  match s with
  | "" => ""
  | String a r => if Ascii.eqb a c then trim_start_char c r else s
  end.
Definition trim_matches (c : ascii) (s : string) : string :=
  trim_end_matches c (trim_start_char c s).
Fixpoint trim_start_matches (fuel : nat) (p s : string) : string :=
  match fuel with
  | O => s
  | S n => match strip_prefix p s with Some r => trim_start_matches n p r | None => s end
  end.

(** [[T]::join]. *)
Definition str_join (sep : string) (l : list string) : string := String.concat sep l.

(* ------------------------------------------------------------------ *)
(** ** White space

    [char::is_whitespace] is the Unicode White_Space property; these are the
    UTF-8 encodings of its members, by length. *)

Definition ws1 (a : ascii) : bool := ((9 <=? code a) && (code a <=? 13)) || (code a =? 32).
Definition ws2 (a b : ascii) : bool :=
  (code a =? 194) && ((code b =? 133) || (code b =? 160)).
Definition ws3 (a b c : ascii) : bool :=
  ((code a =? 225) && (code b =? 154) && (code c =? 128))
  || ((code a =? 226) && (code b =? 128)
      && (((128 <=? code c) && (code c <=? 138)) || (code c =? 168) || (code c =? 169) || (code c =? 175)))
  || ((code a =? 226) && (code b =? 129) && (code c =? 159))
  || ((code a =? 227) && (code b =? 128) && (code c =? 128)).

(** How many bytes the white-space character at the head takes, 0 if none. *)
Definition ws_len (s : string) : nat :=
  match s with
  | "" => 0
  | String a r =>
      if ws1 a then 1
      else match r with
           | "" => 0
           | String b r' =>
               if ws2 a b then 2
               else match r' with String c _ => if ws3 a b c then 3 else 0 | "" => 0 end
           end
  end%nat.

(** Drop white space from the front; [skip] bytes are the rest of a
    character already recognised. *)
Fixpoint trim_start_go (skip : nat) (s : string) : string :=
  match s with
  | "" => ""
  | String a r =>
      match skip with
      | S k => trim_start_go k r
      | O => match ws_len s with O => s | S k => trim_start_go k r end
      end
  end.
Definition trim_start (s : string) : string := trim_start_go 0 s.
(** Drop white space from the back: a suffix that is all white space. *)
Fixpoint trim_end (s : string) : string :=
  match s with
  | "" => ""
  | String a r => if is_empty (trim_start s) then "" else String a (trim_end r)
  end.
Definition trim (s : string) : string := trim_end (trim_start s).

(** [str::split_whitespace]: the first (possibly unfinished) word and the
    words after it. *)
Fixpoint words_go (skip : nat) (s : string) : string * list string :=
  match s with
  | "" => ("", [])
  | String a r =>
      match skip with
      | S k => words_go k r
      | O =>
          match ws_len s with
          | O => let '(w, ws) := words_go 0 r in (String a w, ws)
          | S k => let '(w, ws) := words_go k r in ("", if is_empty w then ws else w :: ws)
          end
      end
  end.
Definition split_whitespace (s : string) : list string :=
  let '(w, ws) := words_go 0 s in if is_empty w then ws else w :: ws.

(** [str::lines]: split after each line feed, drop it and one carriage
    return before it; a final empty piece is not a line. *)
Definition newline : ascii := of_code 10.
Definition carriage : ascii := of_code 13.
Definition strip_cr (l : string) : string :=
  match strip_suffix (String carriage "") l with Some x => x | None => l end.
Fixpoint lines_of (pieces : list string) : list string :=
  match pieces with
  | [] => []
  | [last] => if is_empty last then [] else [last]
  | l :: rest => strip_cr l :: lines_of rest
  end.
Definition lines (s : string) : list string := lines_of (split_char newline s).

(* ------------------------------------------------------------------ *)
(** ** Integers in strings *)

(** [uN::from_str_radix]: an optional plus sign, then at least one digit;
    overflow is an error. *)
Fixpoint parse_digits (radix max acc : Z) (s : string) : option Z :=
  match s with
  | "" => Some acc
  | String a r =>
      match to_digit radix a with
      | Some d => let acc' := acc * radix + d in
                  if max <? acc' then None else parse_digits radix max acc' r
      | None => None
      end
  end.
Definition from_str_radix (radix max : Z) (s : string) : option Z :=
  match s with
  | "" => None
  | String a "" => parse_digits radix max 0 s
  | String a r => if Ascii.eqb a "+" then parse_digits radix max 0 r
                  else parse_digits radix max 0 s
  end.
(** [str::parse::<uN>]. *)
Definition parse_uint (max : Z) (s : string) : option Z := from_str_radix 10 max s.

(** [Display] of an unsigned integer and the [{:x}] formats.  A [u128] has
    at most 39 decimal digits; [show_radix] is called with at least that
    fuel for decimal output. *)
Fixpoint show_radix (fuel : nat) (radix z : Z) : string :=
  match fuel with
  | O => ""
  | S n => if z <? radix then String (digit_char z) ""
           else show_radix n radix (z / radix) +:+ String (digit_char (z mod radix)) ""
  end.
Definition show_uint (z : Z) : string := show_radix 40 10 z.
Definition show_int (z : Z) : string := if z <? 0 then "-" +:+ show_uint (- z) else show_uint z.
(** [{:0nx}]: left-padded with zeros to [n] digits. *)
Fixpoint pad_zeros (n : nat) : string := match n with O => "" | S m => String "0" (pad_zeros m) end.
Definition show_hex_padded (n : nat) (z : Z) : string :=
  let d := show_radix 40 16 z in pad_zeros (n - String.length d) +:+ d.

(* ------------------------------------------------------------------ *)
(** ** UTF-8 *)

Definition cont (z : Z) : bool := (128 <=? z) && (z <=? 191).
(** [std::str::from_utf8] succeeds on these bytes: [need] continuation
    bytes are expected, the next one within [[lo, hi]]. *)
Fixpoint utf8_go (need : nat) (lo hi : Z) (l : list Z) : bool :=
  match l with
  | [] => bool_decide (need = 0%nat)
  | b :: r =>
      match need with
      | S k => (lo <=? b) && (b <=? hi) && utf8_go k 128 191 r
      | O =>
          if b <=? 127 then utf8_go 0 128 191 r
          else if (194 <=? b) && (b <=? 223) then utf8_go 1 128 191 r
          else if b =? 224 then utf8_go 2 160 191 r
          else if (b =? 237) then utf8_go 2 128 159 r
          else if (225 <=? b) && (b <=? 239) then utf8_go 2 128 191 r
          else if b =? 240 then utf8_go 3 144 191 r
          else if (241 <=? b) && (b <=? 243) then utf8_go 3 128 191 r
          else if b =? 244 then utf8_go 3 128 143 r
          else false
      end
  end.
Definition from_utf8_ok (l : list Z) : bool := utf8_go 0 128 191 l.
Fixpoint string_of_bytes (l : list Z) : string :=
  match l with [] => "" | b :: r => String (of_code b) (string_of_bytes r) end.
Definition from_utf8 (l : list Z) : option string :=
  if from_utf8_ok l then Some (string_of_bytes l) else None.
Fixpoint as_bytes (s : string) : list Z :=
  match s with "" => [] | String a r => code a :: as_bytes r end.

(* ------------------------------------------------------------------ *)
(** ** Lemmas *)

Lemma str_app_nil_r (s : string) : s +:+ "" = s.
Proof. induction s; simpl; congruence. Qed.
Lemma str_app_assoc (a b c : string) : (a +:+ b) +:+ c = a +:+ (b +:+ c).
Proof. induction a; simpl; congruence. Qed.
Lemma str_length_app (a b : string) :
  String.length (a +:+ b) = (String.length a + String.length b)%nat.
Proof. induction a; simpl; lia. Qed.
Lemma str_len_app a b : str_len (a +:+ b) = str_len a + str_len b.
Proof. unfold str_len. rewrite str_length_app. lia. Qed.
Lemma str_len_nonneg s : 0 <= str_len s.
Proof. unfold str_len. lia. Qed.
Lemma str_app_inj_l (a b c : string) : a +:+ b = a +:+ c -> b = c.
Proof. induction a; simpl; [done|]. intros [=]; auto. Qed.
#[export] Hint Rewrite str_app_nil_r str_app_assoc str_length_app : str.

Lemma is_empty_true s : is_empty s = true <-> s = "".
Proof. destruct s; simpl; split; done. Qed.

Lemma str_forallb_app p a b : str_forallb p (a +:+ b) = str_forallb p a && str_forallb p b.
Proof. induction a; simpl; [done|]. rewrite IHa. by rewrite andb_assoc. Qed.
Lemma str_forallb_impl p q s :
  (forall a, p a = true -> q a = true) -> str_forallb p s = true -> str_forallb q s = true.
Proof. intros H. induction s; simpl; [done|]. intros ?; bools. rewrite H, IHs; done. Qed.
Lemma str_forallb_filter p s : str_forallb p (str_filter p s) = true.
Proof. induction s; simpl; [done|]. case_match; simpl; [|done]. by rewrite H, IHs. Qed.
Lemma str_filter_id p s : str_forallb p s = true -> str_filter p s = s.
Proof. induction s; simpl; [done|]. intros ?; bools. by rewrite H, IHs. Qed.
Lemma str_filter_app p a b : str_filter p (a +:+ b) = str_filter p a +:+ str_filter p b.
Proof. induction a; simpl; [done|]. case_match; simpl; congruence. Qed.

Lemma str_map_length f s : String.length (str_map f s) = String.length s.
Proof. induction s; simpl; lia. Qed.
Lemma str_map_app f a b : str_map f (a +:+ b) = str_map f a +:+ str_map f b.
Proof. induction a; simpl; congruence. Qed.
Lemma to_ascii_lowercase_idemp s : to_ascii_lowercase (to_ascii_lowercase s) = to_ascii_lowercase s.
Proof.
  unfold to_ascii_lowercase. induction s; simpl; [done|]. by rewrite lower_char_idemp, IHs.
Qed.
Lemma to_ascii_lowercase_app a b :
  to_ascii_lowercase (a +:+ b) = to_ascii_lowercase a +:+ to_ascii_lowercase b.
Proof. apply str_map_app. Qed.
Lemma to_ascii_lowercase_id s :
  str_forallb (fun a => negb (is_ascii_upper a)) s = true -> to_ascii_lowercase s = s.
Proof.
  induction s as [|a s IH]; simpl; [done|]. intros ?; bools.
  unfold to_ascii_lowercase in *. simpl. rewrite IH by done. unfold lower_char. by rewrite H.
Qed.
Lemma lowercase_not_upper s :
  str_forallb (fun a => negb (is_ascii_upper a)) (to_ascii_lowercase s) = true.
Proof.
  unfold to_ascii_lowercase. induction s; simpl; [done|].
  by rewrite lower_char_not_upper, IHs.
Qed.

(** [eq_ignore_ascii_case] is an equivalence on strings. *)
Lemma eq_ignore_ascii_case_iff a b :
  eq_ignore_ascii_case a b = true <-> to_ascii_lowercase a = to_ascii_lowercase b.
Proof. unfold eq_ignore_ascii_case. apply String.eqb_eq. Qed.

(** *** Decimal and hexadecimal output reads back *)

Lemma parse_digits_app radix max acc s t :
  parse_digits radix max acc (s +:+ t) =
  match parse_digits radix max acc s with
  | Some acc' => parse_digits radix max acc' t | None => None end.
Proof.
  revert acc. induction s as [|a s IH]; intros acc; simpl; [done|].
  destruct (to_digit radix a); [|done]. destruct (_ <? _); auto.
Qed.

Lemma parse_show_radix radix max fuel z :
  2 <= radix <= 16 -> 0 <= z < radix ^ Z.of_nat fuel -> z <= max ->
  parse_digits radix max 0 (show_radix fuel radix z) = Some z.
Proof.
  intros Hr. revert z. induction fuel as [|n IH]; intros z Hz Hm.
  { simpl in *. f_equal. lia. }
  simpl. destruct (Z.ltb_spec z radix).
  - simpl. rewrite to_digit_digit_char by lia.
    by rewrite (proj2 (Z.ltb_ge _ _)) by lia.
  - rewrite Nat2Z.inj_succ, Z.pow_succ_r in Hz by lia.
    assert (0 <= z / radix < radix ^ Z.of_nat n).
    { split; [apply Z.div_pos; lia|]. apply Z.div_lt_upper_bound; lia. }
    assert (z / radix <= z) by (apply Z.div_le_upper_bound; nia).
    pose proof (Z.mod_pos_bound z radix ltac:(lia)).
    rewrite parse_digits_app, IH by lia. simpl.
    rewrite to_digit_digit_char by lia.
    replace (z / radix * radix + z mod radix) with z by (pose proof (Z_div_mod_eq_full z radix); lia).
    by rewrite (proj2 (Z.ltb_ge _ _)) by lia.
Qed.

Definition all_digits (radix : Z) : string -> bool := str_forallb (fun a => is_some (to_digit radix a)).

Lemma show_radix_digits radix fuel z :
  2 <= radix <= 16 -> 0 <= z -> all_digits radix (show_radix fuel radix z) = true.
Proof.
  intros Hr. revert z. induction fuel as [|n IH]; intros z Hz; simpl; [done|].
  pose proof (Z.mod_pos_bound z radix ltac:(lia)).
  destruct (Z.ltb_spec z radix); unfold all_digits in *.
  - simpl. by rewrite to_digit_digit_char by lia.
  - rewrite str_forallb_app, IH by (apply Z.div_pos; lia). simpl.
    by rewrite to_digit_digit_char by lia.
Qed.

Lemma from_str_radix_digits radix max s :
  radix <= 16 -> s <> "" -> all_digits radix s = true ->
  from_str_radix radix max s = parse_digits radix max 0 s.
Proof.
  intros Hr Hs Hd. destruct s as [|a [|b r]]; [done|done|]. simpl.
  destruct (Ascii.eqb_spec a "+"); [subst; done|done].
Qed.

Lemma show_radix_nonempty radix fuel z : (0 < fuel)%nat -> show_radix fuel radix z <> "".
Proof.
  destruct fuel; [lia|]. intros _. simpl. case_match; [done|].
  destruct (show_radix fuel radix (z / radix)); done.
Qed.

Lemma from_str_radix_show radix max z :
  2 <= radix <= 16 -> 0 <= z < radix ^ 40 -> z <= max ->
  from_str_radix radix max (show_radix 40 radix z) = Some z.
Proof.
  intros Hr Hz Hm. rewrite from_str_radix_digits.
  - by apply parse_show_radix.
  - lia.
  - apply show_radix_nonempty. lia.
  - apply show_radix_digits; lia.
Qed.

Lemma parse_uint_show max z :
  0 <= z <= max -> max < 10 ^ 40 -> parse_uint max (show_uint z) = Some z.
Proof. intros. apply from_str_radix_show; lia. Qed.

Lemma parse_digits_range radix max acc s z :
  0 <= radix -> 0 <= acc <= max -> parse_digits radix max acc s = Some z -> 0 <= z <= max.
Proof.
  intros Hr. revert acc. induction s as [|a s IH]; simpl; intros acc Ha; [by intros [= <-]|].
  destruct (to_digit radix a) eqn:E; [|done]. apply to_digit_range in E.
  case_match; [done|]. bools. apply IH. nia.
Qed.
(** A parsed integer fits its type. *)
Lemma from_str_radix_range radix max s z :
  0 <= radix -> 0 <= max -> from_str_radix radix max s = Some z -> 0 <= z <= max.
Proof.
  intros Hr Hm. destruct s as [|a [|b r]]; [done| |]; unfold from_str_radix; intros H;
    try case_match; eapply parse_digits_range in H; lia.
Qed.
Lemma parse_uint_range max s z : 0 <= max -> parse_uint max s = Some z -> 0 <= z <= max.
Proof. intros. eapply from_str_radix_range; [|done..]; lia. Qed.

(** *** Splitting *)

Lemma split_once_spec c s x y :
  split_once c s = Some (x, y) ->
  s = x +:+ String c y /\ contains_char c x = false.
Proof.
  revert x y. induction s as [|a s IH]; simpl; intros x y; [done|].
  destruct (Ascii.eqb_spec a c) as [->|Hne].
  - intros [= <- <-]. done.
  - destruct (split_once c s) as [[x' y']|]; [|done]. intros [= <- <-].
    destruct (IH x' y' eq_refl) as [-> Hc]. split; [done|].
    unfold contains_char in *. simpl.
    destruct (Ascii.eqb_spec a c); [done|]. done.
Qed.

Lemma split_once_app c x y :
  contains_char c x = false -> split_once c (x +:+ String c y) = Some (x, y).
Proof.
  unfold contains_char. intros H. apply negb_false_iff in H.
  induction x as [|a x IH]; simpl in *; [by rewrite Ascii.eqb_refl|].
  bools. rewrite H, IH by done. done.
Qed.

Lemma after_char_split_once c s :
  after_char c s = match split_once c s with Some (_, y) => Some y | None => None end.
Proof. induction s as [|a s IHs]; simpl; [done|]. destruct (Ascii.eqb a c); [done|]. rewrite IHs. by destruct (split_once c s) as [[]|]. Qed.

Lemma after_char_shorter c s r :
  after_char c s = Some r -> (String.length r < String.length s)%nat.
Proof.
  induction s as [|a s IH]; simpl; [done|]. case_match; [intros [= ->]; lia|].
  intros ?%IH. lia.
Qed.

Lemma split_on_nonempty p s : split_on p s <> [].
Proof. destruct s as [|a r]; simpl; [done|]. destruct (p a); [done|]. by destruct (split_on p r). Qed.

(** No piece contains a separator. *)
Lemma split_on_pieces p s w :
  w ∈ split_on p s -> str_forallb (fun a => negb (p a)) w = true.
Proof.
  revert w. induction s as [|a s IH]; simpl; intros w.
  { intros ->%list_elem_of_singleton. done. }
  destruct (p a) eqn:Hp.
  - intros [->|Hw]%elem_of_cons; [done|auto].
  - destruct (split_on p s) as [|x xs] eqn:E.
    + by apply split_on_nonempty in E.
    + intros [->|Hw]%elem_of_cons; [|apply IH; set_solver].
      simpl. rewrite Hp. apply IH. set_solver.
Qed.

(** *** Trimming *)

Lemma trim_end_matches_suffix c s :
  exists n, s = trim_end_matches c s +:+ Nat.iter n (String c) "".
Proof.
  induction s as [|a s [n IH]]; simpl; [by exists 0%nat|].
  destruct (is_empty (trim_end_matches c s)) eqn:He; simpl.
  - apply is_empty_true in He. rewrite He in *. simpl in *.
    destruct (Ascii.eqb_spec a c) as [->|]; simpl.
    + exists (S n). simpl. congruence.
    + exists n. congruence.
  - exists n. simpl. congruence.
Qed.

Definition ends_with_char (c : ascii) (s : string) : Prop := exists x, s = x +:+ String c "".

Lemma trim_end_matches_no_trail c s : ~ ends_with_char c (trim_end_matches c s).
Proof.
  intros [x Hx]. revert x Hx. induction s as [|a s IH]; simpl; intros x Hx.
  { destruct x; discriminate. }
  destruct (is_empty (trim_end_matches c s)) eqn:He; simpl in Hx.
  - apply is_empty_true in He.
    destruct (Ascii.eqb_spec a c) as [|Hne]; [destruct x; discriminate|].
    rewrite He in Hx. destruct x as [|b [|? ?]]; simpl in Hx; congruence.
  - destruct x as [|b x]; simpl in Hx; injection Hx as Ha Ht.
    + by rewrite Ht in He.
    + by eapply IH.
Qed.

Lemma trim_end_matches_id c s : ~ ends_with_char c s -> trim_end_matches c s = s.
Proof.
  intros Hn. destruct (trim_end_matches_suffix c s) as [[|n] Hs].
  - by rewrite Hs at 2; rewrite str_app_nil_r.
  - exfalso. apply Hn. exists (trim_end_matches c s +:+ Nat.iter n (String c) "").
    rewrite Hs at 1. rewrite str_app_assoc. f_equal. clear.
    induction n; simpl; [done|]. simpl in IHn. by rewrite <-IHn.
Qed.

(** *** Printable ASCII text without white space *)

Definition plain (a : ascii) : bool := (33 <=? code a) && (code a <=? 126).

Lemma ws_len_plain a r : plain a = true -> ws_len (String a r) = 0%nat.
Proof.
  unfold plain. intros H. bools. simpl. unfold ws1, ws2, ws3.
  repeat match goal with |- context [?x =? ?y] => rewrite (proj2 (Z.eqb_neq x y)) by lia end.
  rewrite (proj2 (Z.leb_gt (code a) 13)) by lia. rewrite andb_false_r. simpl.
  by destruct r as [|b [|c r]].
Qed.

Lemma trim_start_plain a r : plain a = true -> trim_start (String a r) = String a r.
Proof. intros H. unfold trim_start. cbn [trim_start_go]. by rewrite ws_len_plain. Qed.

Lemma trim_end_plain_cons a r : plain a = true -> trim_end (String a r) = String a (trim_end r).
Proof. intros H. cbn [trim_end]. by rewrite trim_start_plain. Qed.

Lemma trim_end_plain s : str_forallb plain s = true -> trim_end s = s.
Proof.
  induction s as [|a s IH]; [done|]. cbn [str_forallb]. intros ?; bools.
  rewrite trim_end_plain_cons, IH; done.
Qed.

Lemma trim_plain s : str_forallb plain s = true -> trim s = s.
Proof.
  intros H. unfold trim. destruct s as [|a s]; [done|].
  rewrite trim_start_plain by (simpl in H; by bools). by apply trim_end_plain.
Qed.

Lemma words_go_plain s t :
  str_forallb plain s = true ->
  words_go 0 (s +:+ t) = (s +:+ fst (words_go 0 t), snd (words_go 0 t)).
Proof.
  induction s as [|a s IH]; [intros _; simpl; by destruct (words_go 0 t)|].
  cbn [str_forallb String.append words_go]. intros ?; bools.
  rewrite ws_len_plain by done. by rewrite IH.
Qed.

Lemma split_whitespace_plain s :
  s <> "" -> str_forallb plain s = true -> split_whitespace s = [s].
Proof.
  intros Hne Hs. unfold split_whitespace.
  rewrite <-(str_app_nil_r s) at 1. rewrite words_go_plain by done. simpl.
  rewrite str_app_nil_r. by destruct s.
Qed.

Lemma split_on_none p s : str_forallb (fun a => negb (p a)) s = true -> split_on p s = [s].
Proof.
  induction s as [|a s IH]; simpl; [done|]. intros ?; bools. rewrite H, IH; done.
Qed.

Lemma split_on_app p x c y : p c = true -> split_on p (x +:+ String c y) = split_on p x ++ split_on p y.
Proof.
  intros Hc. induction x as [|a x IH]; simpl.
  - by rewrite Hc.
  - rewrite IH. destruct (p a); [done|].
    destruct (split_on p x) eqn:E; [by apply split_on_nonempty in E|done].
Qed.

Lemma split_on_forallb p q s :
  (forall w, w ∈ split_on p s -> str_forallb q w = true) ->
  str_forallb (fun a => p a || q a) s = true.
Proof.
  induction s as [|a s IH]; simpl; [done|]. intros H.
  destruct (p a) eqn:Hp; simpl.
  - apply IH. intros w Hw. apply H. by right.
  - destruct (split_on p s) as [|w ws] eqn:E; [by apply split_on_nonempty in E|].
    pose proof (H (String a w) ltac:(left)) as Hw. simpl in Hw. bools.
    apply andb_true_iff. split; [done|]. apply IH.
    intros w' [->|Hin]%elem_of_cons; [done|]. apply H. by right.
Qed.

Lemma break_at_app p x c y :
  str_forallb (fun a => negb (p a)) x = true -> p c = true ->
  break_at p (x +:+ String c y) = (x, String c y).
Proof.
  intros Hx Hc. induction x as [|a x IH]; simpl in *; [by rewrite Hc|].
  bools. rewrite H, IH; done.
Qed.

Lemma strip_prefix_spec p s r : strip_prefix p s = Some r <-> s = p +:+ r.
Proof.
  revert s. induction p as [|a p IH]; simpl; intros s; [naive_solver|].
  destruct s as [|b s]; [done|]. destruct (Ascii.eqb_spec a b) as [->|Hne].
  - rewrite IH. split; [by intros ->|by intros [= ->]].
  - split; [done|]. intros [=]. done.
Qed.

Lemma strip_suffix_spec p s r : strip_suffix p s = Some r <-> s = r +:+ p.
Proof.
  assert (forall s, strip_suffix p s = if String.eqb s p then Some ""
    else match s with "" => None
         | String a r => match strip_suffix p r with Some x => Some (String a x) | None => None end
         end) as Hunf by (intros []; done).
  revert r. induction s as [|a s IH]; intros r; rewrite Hunf.
  - destruct (String.eqb_spec "" p) as [<-|Hne].
    + split; [by intros [= <-]|]. destruct r; [done|]. intros [=].
    + split; [done|]. destruct r; [simpl; congruence|intros [=]].
  - destruct (String.eqb_spec (String a s) p) as [<-|Hne].
    + split; [by intros [= <-]|]. intros H. apply (f_equal String.length) in H.
      rewrite str_length_app in H. simpl in H. destruct r; [done|simpl in H; lia].
    + destruct (strip_suffix p s) as [x|] eqn:E.
      * pose proof (proj1 (IH x) eq_refl) as ->. split; [by intros [= <-]|].
        destruct r as [|b r]; [simpl; congruence|]. simpl. intros [= -> Hr].
        specialize (proj2 (IH r) Hr). congruence.
      * split; [done|]. destruct r as [|b r]; [simpl; congruence|]. simpl. intros [= -> Hr].
        by apply IH in Hr.
Qed.

Lemma contains_char_forallb c s :
  contains_char c s = false <-> str_forallb (fun a => negb (Ascii.eqb a c)) s = true.
Proof. unfold contains_char. by rewrite negb_false_iff. Qed.

Lemma contains_char_app c s t : contains_char c (s +:+ t) = contains_char c s || contains_char c t.
Proof. unfold contains_char. by rewrite str_forallb_app, negb_andb. Qed.

(* ------------------------------------------------------------------ *)
(** ** Trimming, lines and paths *)

Section TrimForall.
Context (q : ascii -> bool).
Context (Hws : forall a, ws1 a = true \/ 128 <= code a -> q a = true).

Lemma ws_len_forallb s : str_forallb q (String.substring 0 (ws_len s) s) = true.
Proof using Hws.
  destruct s as [|a r]; [done|]. simpl.
  destruct (ws1 a) eqn:H1; [simpl; rewrite Hws by auto; by destruct r|].
  destruct r as [|b r]; [done|].
  destruct (ws2 a b) eqn:H2.
  { unfold ws2 in H2. bools. apply orb_true_iff in H0. simpl.
    rewrite !Hws; [by destruct r|right; destruct H0; bools; lia|right; lia]. }
  destruct r as [|c r]; [done|]. destruct (ws3 a b c) eqn:H3; [|done].
  unfold ws3 in H3. simpl.
  rewrite !Hws; [by destruct r|right..];
    repeat match goal with H : _ || _ = true |- _ => apply orb_true_iff in H as [H|H] end; bools; try lia;
    repeat match goal with H : _ || _ = true |- _ => apply orb_true_iff in H as [H|H] end; bools; lia.
Qed.

Lemma trim_start_go_forallb k s :
  str_forallb q (String.substring 0 k s) = true ->
  str_forallb q (trim_start_go k s) = true -> str_forallb q s = true.
Proof using Hws.
  revert k. induction s as [|a s IH]; [done|]. intros [|k] Hk Hs.
  - cbn [trim_start_go] in Hs. pose proof (ws_len_forallb (String a s)) as Hw.
    destruct (ws_len (String a s)) as [|n]; [done|]. simpl in Hw |- *.
    bools. rewrite H. simpl. by apply (IH n).
  - simpl in *. bools. rewrite H. simpl. by apply (IH k).
Qed.

Lemma trim_start_forallb s : str_forallb q (trim_start s) = true -> str_forallb q s = true.
Proof using Hws. apply trim_start_go_forallb. by destruct s. Qed.

Lemma trim_end_forallb s : str_forallb q (trim_end s) = true -> str_forallb q s = true.
Proof using Hws.
  induction s as [|a s IH]; [done|]. cbn [trim_end].
  destruct (is_empty (trim_start (String a s))) eqn:He.
  - intros _. apply trim_start_forallb. apply is_empty_true in He. by rewrite He.
  - simpl. intros ?; bools. rewrite H. auto.
Qed.

(** Trimming removes only white space: a property of all other bytes that
    holds after it held before it. *)
Lemma trim_forallb s : str_forallb q (trim s) = true -> str_forallb q s = true.
Proof using Hws. intros H. by apply trim_start_forallb, trim_end_forallb. Qed.
End TrimForall.

Lemma lines_of_terminated P : lines_of (P ++ [""]) = map strip_cr P.
Proof.
  induction P as [|x P IH]; [done|]. cbn [app map]. rewrite <-IH.
  by destruct P.
Qed.

(** Text that ends with a line feed is the sequence of its pieces. *)
Lemma lines_terminated x : lines (x +:+ String newline "") = map strip_cr (split_char newline x).
Proof.
  unfold lines, split_char. rewrite split_on_app by apply Ascii.eqb_refl. apply lines_of_terminated.
Qed.

Lemma strip_cr_id d : contains_char carriage d = false -> strip_cr d = d.
Proof.
  intros H. unfold strip_cr. destruct (strip_suffix _ d) as [r|] eqn:E; [|done].
  apply strip_suffix_spec in E as ->. rewrite contains_char_app in H. by bools.
Qed.

Lemma split_char_none c s : contains_char c s = false -> split_char c s = [s].
Proof. intros H. apply split_on_none. by apply contains_char_forallb. Qed.

(** Appending a line to terminated text. *)
Lemma lines_snoc x d :
  contains_char newline d = false -> contains_char carriage d = false ->
  lines ((x +:+ String newline "") +:+ d +:+ String newline "") = lines (x +:+ String newline "") ++ [d].
Proof.
  intros Hn Hc. rewrite <-str_app_assoc, !lines_terminated.
  rewrite str_app_assoc. cbn [String.append]. unfold split_char at 1.
  rewrite split_on_app by apply Ascii.eqb_refl. fold (split_char newline).
  change (split_on _ d) with (split_char newline d).
  rewrite (split_char_none _ d), map_app by done. simpl. by rewrite strip_cr_id.
Qed.

Lemma lines_single d :
  contains_char newline d = false -> contains_char carriage d = false ->
  lines (d +:+ String newline "") = [d].
Proof.
  intros Hn Hc. rewrite lines_terminated, split_char_none by done. simpl. by rewrite strip_cr_id.
Qed.

(** Lines contain no line feed, and joining them is undone by splitting. *)
Lemma split_char_join c l :
  l <> [] -> (forall w, w ∈ l -> contains_char c w = false) ->
  split_char c (str_join (String c "") l) = l.
Proof.
  unfold str_join. intros Hne Hl. induction l as [|w l IH]; [done|].
  destruct l as [|w' l].
  - simpl. apply split_char_none, Hl. set_solver.
  - change (String.concat (String c "") (w :: w' :: l)) with
      (w +:+ String c "" +:+ String.concat (String c "") (w' :: l)).
    cbn [String.append]. unfold split_char. rewrite split_on_app by apply Ascii.eqb_refl.
    change (split_on (fun a => Ascii.eqb a c)) with (split_char c) in *.
    rewrite split_char_none by (apply Hl; set_solver).
    rewrite IH; [done|done|]. intros; apply Hl. set_solver.
Qed.

Lemma lines_no_newline s l : l ∈ lines s -> contains_char newline l = false.
Proof.
  unfold lines. assert (forall P, (forall w, w ∈ P -> contains_char newline w = false) ->
    l ∈ lines_of P -> contains_char newline l = false) as H.
  { induction P as [|w P IH]; intros HP; simpl; [by intros ?%elem_of_nil|].
    assert (contains_char newline (strip_cr w) = false) as Hw.
    { unfold strip_cr. destruct (strip_suffix _ w) as [r|] eqn:E; [|apply HP; set_solver].
      specialize (HP w ltac:(set_solver)). apply strip_suffix_spec in E as ->.
      rewrite contains_char_app in HP. by bools. }
    destruct P as [|w' P].
    - destruct (is_empty w); [by intros ?%elem_of_nil|].
      intros ->%list_elem_of_singleton. apply HP. set_solver.
    - intros [->|Hl]%elem_of_cons; [done|]. apply IH; [|done]. intros; apply HP. set_solver. }
  apply H. intros w Hw. apply contains_char_forallb, (split_on_pieces _ _ _ Hw).
Qed.

(** [str::rsplit_once]. *)
Fixpoint rsplit_once (c : ascii) (s : string) : option (string * string) :=
  match s with
  | "" => None
  | String a r =>
      match rsplit_once c r with
      | Some (x, y) => Some (String a x, y)
      | None => if Ascii.eqb a c then Some ("", r) else None
      end
  end.

(** [Path::file_name]: the last component, unless it is a parent step. *)
Definition file_name (p : string) : option string :=
  match last (List.filter (fun c => negb (is_empty c || (c =? ".")%string)) (split_char "/" p)) with
  | Some c => if (c =? "..")%string then None else Some c
  | None => None
  end.

(** [Path::with_extension] for a path that ends in a normal component and a
    non-empty extension. *)
Definition with_extension (p ext : string) : string :=
  let '(dir, name) :=
    match rsplit_once "/" p with Some (d, n) => (d +:+ "/", n) | None => ("", p) end in
  let stem :=
    match rsplit_once "." name with
    | Some (s, _) => if is_empty s then name else s
    | None => name
    end in
  dir +:+ stem +:+ "." +:+ ext.
