(* ===== verification/Float.v ===== *)
(** * Binary64 floating point: Rust's [f64], as far as the program uses it

    The Standard Library's [SpecFloat] is the arithmetic: every operation
    rounds to the nearest even value with 53 bits of precision, computes on
    closed terms and rests on no axiom.  Here are the conversions of Rust's
    [as] (which saturate), [Duration::as_secs_f64] and [str::parse::<f64>],
    and the facts the clients need: which results are never negative, which
    are never NaN, and that an integer below 2^53 is represented exactly. *)
From Stdlib Require Import Floats.SpecFloat.
From S2P Require Import Prelude Str.
Open Scope Z_scope.

Definition F64 : Type := spec_float.
Definition prec : Z := 53.
Definition emax : Z := 1024.

#[export] Instance f64_eq_dec : EqDecision F64.
Proof. unfold F64. solve_decision. Defined.

(* ------------------------------------------------------------------ *)
(** ** Operations *)

Definition f_zero : F64 := S754_zero false.
Definition f_infinity : F64 := S754_infinity false.
Definition f_add : F64 -> F64 -> F64 := SFadd prec emax.
Definition f_mul : F64 -> F64 -> F64 := SFmul prec emax.
Definition f_div : F64 -> F64 -> F64 := SFdiv prec emax.
(** [a <= b]: false when either is NaN. *)
Definition f_leb (a b : F64) : bool := SFleb a b.

(** [z as f64] for an integer type. *)
Definition of_int (z : Z) : F64 := binary_normalize prec emax z 0 false.

(** The integer part, towards zero. *)
Definition truncate (m : positive) (e : Z) : Z := Z.shiftl (Zpos m) e.

(** [f as iN] / [f as uN]: NaN is 0, anything else is cut to the range. *)
Definition to_int (lo hi : Z) (f : F64) : Z :=
  match f with
  | S754_zero _ | S754_nan => 0
  | S754_infinity s => if s then lo else hi
  | S754_finite s m e => let z := truncate m e in clamp lo hi (if s then - z else z)
  end.
Definition i64_max : Z := 9223372036854775807.
Definition i64_min : Z := -9223372036854775808.
Definition as_i64 : F64 -> Z := to_int i64_min i64_max.
Definition as_u64 : F64 -> Z := to_int 0 u64_max.

(** An integer reinterpreted: [u64 as i64]. *)
Definition u64_as_i64 (z : Z) : Z := if z <=? i64_max then z else z - 2 ^ 64.

(** [Duration::as_secs_f64]. *)
Definition NANOS : Z := 1000000000.
Definition as_secs_f64 (d : Duration) : F64 :=
  f_add (of_int (d / NANOS)) (f_div (of_int (d mod NANOS)) (of_int NANOS)).

(* ------------------------------------------------------------------ *)
(** ** Parsing: [str::parse::<f64>] *)

Definition negate_if (neg : bool) (f : F64) : F64 := if neg then SFopp f else f.

(** The value [m * 10^e], correctly rounded: exact above, one division below.
    The two cut-offs are far outside the range of binary64. *)
Definition decimal (m : Z) (digits : Z) (e : Z) : F64 :=
  if m =? 0 then f_zero
  else if 310 <? e then f_infinity
  else if digits + e <? -330 then f_zero
  else if 0 <=? e then of_int (m * 10 ^ e)
  else f_div (S754_finite false (Z.to_pos m) 0) (S754_finite false (Z.to_pos (10 ^ (- e))) 0).

(** Digits: their value, how many there were, and the rest. *)
Fixpoint scan_digits (acc n : Z) (s : string) : Z * Z * string :=
  match s with
  | String a r =>
      if is_ascii_digit a then scan_digits (10 * acc + (code a - 48)) (n + 1) r else (acc, n, s)
  | "" => (acc, n, "")
  end.

(** The exponent stops growing once it is past any use. *)
Fixpoint scan_exponent (acc n : Z) (s : string) : Z * Z * string :=
  match s with
  | String a r =>
      if is_ascii_digit a
      then scan_exponent (if acc <? 65536 then 10 * acc + (code a - 48) else acc) (n + 1) r
      else (acc, n, s)
  | "" => (acc, n, "")
  end.

Definition scan_sign (s : string) : bool * string :=
  match s with
  | String "-" r => (true, r)
  | String "+" r => (false, r)
  | _ => (false, s)
  end.

Definition scan_scientific (s : string) : option Z :=
  match s with
  | "" => Some 0
  | String a r =>
      if Ascii.eqb (lower_char a) "e" then
        let '(neg, r) := scan_sign r in
        let '(e, n, rest) := scan_exponent 0 0 r in
        if (n =? 0) || negb (is_empty rest) then None else Some (if neg then - e else e)
      else None
  end.

Definition parse_number (s : string) : option F64 :=
  let '(m1, n1, r) := scan_digits 0 0 s in
  let '(m, n2, r) := match r with
                     | String "." r => scan_digits m1 0 r
                     | _ => (m1, 0, r)
                     end in
  if n1 + n2 =? 0 then None
  else let! e := scan_scientific r in Some (decimal m (n1 + n2) (e - n2)).

Definition parse_special (s : string) : option F64 :=
  let l := to_ascii_lowercase s in
  if (l =? "inf")%string || (l =? "infinity")%string then Some f_infinity
  else if (l =? "nan")%string then Some S754_nan
  else None.

Definition parse_f64 (s : string) : option F64 :=
  let '(neg, r) := scan_sign s in
  let! f := match parse_number r with Some f => Some f | None => parse_special r end in
  Some (negate_if neg f).

Example parse_f64_examples :
  map (fun s => match parse_f64 s with Some f => Some (as_u64 f) | None => None end)
    ["12345.67"; "1e3"; ".5"; "5."; "."; "1e"; "-3"; "+7"; "inf"; "NaN"; "1e400"; "1e-400"; "0e99999999"; "18446744073709551616"]
  = [Some 12345; Some 1000; Some 0; Some 5; None; None; Some 0; Some 7; Some u64_max; Some 0;
     Some u64_max; Some 0; Some 0; Some u64_max].
Proof. vm_compute. reflexivity. Qed.

(** 0.1 and 48.312, as every correct reader of decimals gives them. *)
Example decimal_examples :
  parse_f64 "0.1" = Some (S754_finite false 7205759403792794 (-56)) /\
  parse_f64 "48.312" = Some (S754_finite false 6799309537422606 (-47)).
Proof. vm_compute. done. Qed.

(* ------------------------------------------------------------------ *)
(** ** Signs and NaN *)

(** The sign bit; NaN counts as unsigned. *)
Definition f_sign (f : F64) : bool :=
  match f with
  | S754_zero s | S754_infinity s | S754_finite s _ _ => s
  | S754_nan => false
  end.
Definition is_nan (f : F64) : bool := match f with S754_nan => true | _ => false end.
(** A number strictly above zero, perhaps infinite. *)
Definition f_pos (f : F64) : Prop :=
  match f with S754_infinity false | S754_finite false _ _ => True | _ => False end.
(** A number, not below zero. *)
Definition f_nonneg (f : F64) : Prop := f_sign f = false /\ is_nan f = false.

Lemma f_pos_nonneg f : f_pos f -> f_nonneg f.
Proof. destruct f as [[]|[]| |[] m e]; done. Qed.

Lemma f_pos_not_le_zero f : f_pos f -> f_leb f f_zero = false.
Proof. destruct f as [[]|[]| |[] m e]; done. Qed.

Lemma round_sign s m e l : f_sign (binary_round_aux prec emax s m e l) = false \/
  f_sign (binary_round_aux prec emax s m e l) = s.
Proof.
  unfold binary_round_aux. destruct (shr_fexp _ _ m e l) as [r1 e1]. destruct (shr_fexp _ _ _ e1 _) as [r2 e2].
  destruct (shr_m r2) as [|p|p]; [by right| |by left]. destruct (e2 <=? emax - prec); by right.
Qed.

Lemma round_unsigned m e l : f_sign (binary_round_aux prec emax false m e l) = false.
Proof. destruct (round_sign false m e l) as [Hs|Hs]; exact Hs. Qed.

Lemma of_int_sign z : 0 <= z -> f_sign (of_int z) = false.
Proof.
  intros Hz. unfold of_int, binary_normalize, binary_round. destruct z as [|p|p]; [done| |lia].
  destruct (shl_align _ _ _). apply round_unsigned.
Qed.

Lemma f_mul_sign a b : f_sign a = false -> f_sign b = false -> f_sign (f_mul a b) = false.
Proof.
  destruct a as [s|s| |s m e], b as [s'|s'| |s' m' e']; simpl; intros H1 H2; subst; try reflexivity.
  apply round_unsigned.
Qed.

Lemma f_div_sign a b : f_sign a = false -> f_sign b = false -> f_sign (f_div a b) = false.
Proof.
  destruct a as [s|s| |s m e], b as [s'|s'| |s' m' e']; simpl; intros H1 H2; subst; try reflexivity.
  unfold f_div, SFdiv. destruct (SFdiv_core_binary _ _ _ _ _ _) as [[??]?]. apply round_unsigned.
Qed.

Lemma normalize_sign m e : 0 <= m -> f_sign (binary_normalize prec emax m e false) = false.
Proof.
  unfold binary_normalize, binary_round. destruct m; [done| |lia]. intros _.
  destruct (shl_align _ _ _). apply round_unsigned.
Qed.

Lemma f_add_sign a b : f_sign a = false -> f_sign b = false -> f_sign (f_add a b) = false.
Proof.
  destruct a as [s|s| |s m e], b as [s'|s'| |s' m' e']; simpl; intros H1 H2; subst; try reflexivity.
  apply (normalize_sign (_ + _)). simpl. lia.
Qed.

Lemma clamp_nonneg hi z : 0 <= z -> 0 <= hi -> 0 <= clamp i64_min hi z.
Proof. unfold clamp, i64_min. intros. destruct (Z.ltb_spec z (-9223372036854775808)); [lia|]. case_match; lia. Qed.

(** What [as i64] gives on an unsigned value. *)
Lemma as_i64_range f : f_sign f = false -> 0 <= as_i64 f <= i64_max.
Proof.
  assert (i64_min <= i64_max) by done. assert (0 <= i64_max) by done.
  destruct f as [s|s| |s m e]; simpl; intros Hs; subst; try done.
  assert (0 <= truncate m e) by (unfold truncate; by apply Z.shiftl_nonneg).
  split; [by apply clamp_nonneg|]. by apply clamp_bounds.
Qed.

(* ------------------------------------------------------------------ *)
(** ** Rounding does not lose a number *)

Lemma digits_log2 p : Zpos (digits2_pos p) = Z.log2 (Zpos p) + 1.
Proof.
  induction p as [p IH|p IH|]; simpl digits2_pos; [| |done]; rewrite Pos2Z.inj_succ, IH.
  - rewrite (Pos2Z.inj_xI p), Z.log2_succ_double by lia. lia.
  - rewrite (Pos2Z.inj_xO p), Z.log2_double by lia. lia.
Qed.

Lemma shr_1_floor r : 0 <= shr_m r -> shr_m (shr_1 r) = shr_m r / 2.
Proof.
  destruct r as [m a b]. destruct m as [|p|p]; simpl; [done| |lia].
  rewrite <- Z.div2_div. by destruct p.
Qed.

Lemma iter_shr_floor p r : 0 <= shr_m r -> shr_m (SpecFloat.iter_pos shr_1 p r) = shr_m r / 2 ^ Zpos p.
Proof.
  revert r. induction p as [p IH|p IH|]; intros r Hr; simpl.
  - assert (0 <= shr_m (shr_1 r)) by (rewrite shr_1_floor by done; apply Z.div_pos; lia).
    rewrite IH by (rewrite IH by done; apply Z.div_pos; lia).
    rewrite IH, shr_1_floor by done. rewrite !Z.div_div by lia. f_equal.
    rewrite (Pos2Z.inj_xI p), Z.pow_add_r, Z.mul_comm by lia. change (2 ^ 1) with 2.
    rewrite <- Z.pow_twice_r. lia.
  - rewrite IH by (rewrite IH by done; apply Z.div_pos; lia).
    rewrite IH by done. rewrite Z.div_div by lia. f_equal.
    rewrite (Pos2Z.inj_xO p), <- Z.pow_twice_r. done.
  - apply shr_1_floor, Hr.
Qed.

Lemma shr_record_m m l : shr_m (shr_record_of_loc m l) = m.
Proof. by destruct l as [|[]]. Qed.

Lemma shr_fexp_floor m e l : 0 <= m ->
  shr_m (fst (shr_fexp prec emax m e l)) = m / 2 ^ Z.max 0 (fexp prec emax (Zdigits2 m + e) - e).
Proof.
  intros Hm. unfold shr_fexp, shr. destruct (fexp _ _ _ - e) as [|p|p] eqn:E.
  - simpl. by rewrite shr_record_m, Z.div_1_r.
  - simpl fst. rewrite iter_shr_floor, shr_record_m by (by rewrite shr_record_m). do 2 f_equal; lia.
  - simpl. by rewrite shr_record_m, Z.div_1_r.
Qed.

Lemma round_up_le m l : m <= round_nearest_even m l.
Proof. destruct l as [|[]]; simpl; repeat case_match; lia. Qed.

Lemma shift_pos m e : 0 < m -> emin prec emax < Zdigits2 m + e ->
  0 < m / 2 ^ Z.max 0 (fexp prec emax (Zdigits2 m + e) - e).
Proof.
  intros Hm He. destruct m as [|p|p]; try lia. unfold Zdigits2, fexp in *.
  rewrite digits_log2 in *. assert (prec = 53) as Hp by done.
  apply Z.div_str_pos. split; [apply Z.pow_pos_nonneg; lia|].
  etransitivity; [|apply (Z.log2_spec (Zpos p)); lia].
  apply Z.pow_le_mono_r; [lia|]. pose proof (Z.log2_nonneg (Zpos p)). lia.
Qed.

Lemma fexp_ge x : x - prec <= fexp prec emax x /\ emin prec emax <= fexp prec emax x.
Proof. unfold fexp. lia. Qed.

Lemma digits_mono a b : 0 < a <= b -> Zdigits2 a <= Zdigits2 b.
Proof.
  intros. destruct a as [|a|a], b as [|b|b]; try lia. unfold Zdigits2. rewrite !digits_log2.
  pose proof (Z.log2_le_mono (Zpos a) (Zpos b)). lia.
Qed.

Lemma shr_fexp_exp m e l :
  snd (shr_fexp prec emax m e l) = Z.max e (fexp prec emax (Zdigits2 m + e)).
Proof. unfold shr_fexp, shr. destruct (fexp _ _ _ - e) eqn:E; simpl; lia. Qed.

Lemma digits_pos m : 0 < m -> 1 <= Zdigits2 m.
Proof. destruct m; simpl; lia. Qed.

(** A positive value above the smallest subnormal stays positive. *)
Lemma round_pos m e l : 0 < m -> emin prec emax < Zdigits2 m + e ->
  f_pos (binary_round_aux prec emax false m e l).
Proof.
  intros Hm He. unfold binary_round_aux.
  pose proof (shr_fexp_floor m e l ltac:(lia)) as Hf. pose proof (shr_fexp_exp m e l) as Hx.
  pose proof (shift_pos m e Hm He) as Hp.
  destruct (shr_fexp prec emax m e l) as [r e1]. simpl in Hf, Hx.
  set (k := round_nearest_even (shr_m r) (loc_of_shr_record r)).
  assert (0 < k) as Hk by (pose proof (round_up_le (shr_m r) (loc_of_shr_record r)); unfold k; lia).
  assert (emin prec emax < Zdigits2 k + e1) as Hk'.
  { pose proof (digits_pos k Hk). pose proof (fexp_ge (Zdigits2 m + e)). lia. }
  pose proof (shr_fexp_floor k e1 loc_Exact ltac:(lia)) as Hf2. pose proof (shift_pos k e1 Hk Hk') as Hp2.
  destruct (shr_fexp prec emax k e1 loc_Exact) as [r2 e2]. simpl in Hf2. rewrite <- Hf2 in Hp2.
  destruct (shr_m r2); try lia. by case_match.
Qed.

(* ------------------------------------------------------------------ *)
(** ** Integers below 2^53 *)

Lemma iter_xO p n : Zpos (Pos.iter xO p n) = Zpos p * 2 ^ Zpos n.
Proof.
  induction n as [|n IH] using Pos.peano_ind; [simpl; lia|].
  rewrite Pos.iter_succ, Pos2Z.inj_succ, Z.pow_succ_r by lia.
  rewrite (Pos2Z.inj_xO (Pos.iter xO p n)), IH. ring.
Qed.

Lemma shr_exact m e : fexp prec emax (Zdigits2 m + e) <= e -> shr_fexp prec emax m e loc_Exact
  = (Build_shr_record m false false, e).
Proof. intros He. unfold shr_fexp, shr. destruct (fexp _ _ _ - e) eqn:E; [done|lia|done]. Qed.

Lemma digits_shift p q k : 0 <= k -> Zpos q = Zpos p * 2 ^ k ->
  Zpos (digits2_pos q) = Zpos (digits2_pos p) + k.
Proof. intros Hk E. rewrite !digits_log2, E, <- Z.shiftl_mul_pow2, Z.log2_shiftl by lia. lia. Qed.

(** A mantissa that fits is not rounded. *)
Lemma round_exact s p e : fexp prec emax (Zpos (digits2_pos p) + e) <= e -> e <= emax - prec ->
  binary_round_aux prec emax s (Zpos p) e loc_Exact = S754_finite s p e.
Proof.
  intros He Hmax. unfold binary_round_aux. rewrite shr_exact by done.
  cbn [shr_m loc_of_shr_record round_nearest_even]. rewrite shr_exact by done. cbn [shr_m].
  by apply Z.leb_le in Hmax as ->.
Qed.

Lemma shl_align_down p k : 0 <= k ->
  exists q, shl_align p 0 (- k) = (q, - k) /\ Zpos q = Zpos p * 2 ^ k.
Proof.
  intros Hk. unfold shl_align. destruct (- k - 0) as [|d|d] eqn:E; [|lia|].
  - exists p. split; [f_equal; lia|]. replace k with 0 by lia. lia.
  - exists (Pos.iter xO p d). split; [done|]. rewrite iter_xO. do 2 f_equal. lia.
Qed.

Lemma of_int_exact z : 0 < z < 2 ^ 53 ->
  exists p e, of_int z = S754_finite false p (- e) /\ 0 <= e <= 52 /\ Zpos p = z * 2 ^ e /\
    Zpos (digits2_pos p) = 53.
Proof.
  intros [H1 H2]. destruct z as [|z|z]; try lia.
  set (d := Zpos (digits2_pos z)). assert (d = Z.log2 (Zpos z) + 1) as Hd by apply digits_log2.
  pose proof (Z.log2_nonneg (Zpos z)). assert (Z.log2 (Zpos z) < 53) by (apply Z.log2_lt_pow2; lia).
  assert (fexp prec emax (d + 0) = - (53 - d)) as Hf
    by (unfold fexp, SpecFloat.emin, prec, emax; lia).
  destruct (shl_align_down z (53 - d) ltac:(lia)) as (q & Hq & Hv).
  assert (Zpos (digits2_pos q) = 53) as Hdq by (rewrite (digits_shift z q (53 - d)) by (done || lia); lia).
  exists q, (53 - d). split; [|repeat split; lia || done].
  unfold of_int, binary_normalize, binary_round. fold d. rewrite Hf, Hq.
  apply round_exact; unfold fexp, SpecFloat.emin, prec, emax; lia.
Qed.

Lemma of_int_roundtrip lo hi z : lo <= z <= hi -> 0 <= z < 2 ^ 53 -> to_int lo hi (of_int z) = z.
Proof.
  intros Hr [H0 H1]. destruct (decide (z = 0)) as [->|Hz]; [done|].
  destruct (of_int_exact z) as (p & e & -> & He & Hp & _); [lia|]. simpl.
  unfold truncate. rewrite Z.shiftl_opp_r, Z.shiftr_div_pow2, Hp, Z.div_mul by lia. by apply clamp_id.
Qed.

Lemma of_int_pos z : 0 < z < 2 ^ 53 -> f_pos (of_int z).
Proof. intros Hz. by destruct (of_int_exact z Hz) as (p & e & -> & _). Qed.

Lemma div_pos_exact p e q k :
  Zpos (digits2_pos p) = 53 -> Zpos (digits2_pos q) = 53 -> 0 <= e <= 52 -> 0 <= k <= 52 ->
  f_pos (f_div (S754_finite false p (- e)) (S754_finite false q (- k))).
Proof.
  intros Hp Hq He Hk. unfold f_div, SFdiv, SFdiv_core_binary, Zdigits2. rewrite Hp, Hq.
  assert (fexp prec emax (53 + - e - (53 + - k)) = k - e - 53) as ->
    by (unfold fexp, SpecFloat.emin, prec, emax; lia).
  replace (Z.min (k - e - 53) (- e - - k)) with (k - e - 53) by lia.
  replace (- e - - k - (k - e - 53)) with 53 by lia.
  pose proof (Z_div_mod_eq_full (Z.shiftl (Zpos p) 53) (Zpos q)) as Hdm.
  rewrite digits_log2 in Hp, Hq.
  assert (2 ^ 52 <= Zpos p) by (pose proof (Z.log2_spec (Zpos p)); replace (Z.log2 (Zpos p)) with 52 in *; lia).
  assert (Zpos q < 2 ^ 53) by (apply Z.log2_lt_pow2; lia).
  unfold Z.div, Z.modulo in Hdm. destruct (Z.div_eucl (Z.shiftl (Zpos p) 53) (Zpos q)) as [a r] eqn:E.
  assert (0 <= r < Zpos q) as Hr.
  { pose proof (Z.mod_pos_bound (Z.shiftl (Zpos p) 53) (Zpos q)) as Hb. unfold Z.modulo in Hb. rewrite E in Hb. lia. }
  rewrite Z.shiftl_mul_pow2 in Hdm by lia. assert (0 < a) by nia.
  apply round_pos; [done|]. pose proof (digits_pos a). unfold SpecFloat.emin, prec, emax. lia.
Qed.

Lemma normalize_pos m e : 0 < m -> emin prec emax < Zdigits2 m + e -> f_pos (binary_normalize prec emax m e false).
Proof.
  intros Hm He. destruct m as [|p|p]; try lia. unfold binary_normalize, binary_round, shl_align.
  set (f := fexp _ _ _). destruct (f - e) as [|k|k] eqn:E; try (by apply round_pos).
  apply round_pos; [done|]. unfold Zdigits2 in *.
  rewrite (digits_shift p (Pos.iter xO p k) (Zpos k)) by (apply iter_xO || lia). lia.
Qed.

Lemma shl_align_up p e ez : ez <= e -> Zpos (fst (shl_align p e ez)) = Zpos p * 2 ^ (e - ez).
Proof.
  intros He. unfold shl_align. destruct (ez - e) as [|k|k] eqn:E; simpl fst; [|lia|].
  - replace (e - ez) with 0 by lia. lia.
  - rewrite iter_xO. do 2 f_equal. lia.
Qed.

Lemma f_add_pos_l p e b : emin prec emax < Zpos (digits2_pos p) + e -> f_nonneg b ->
  f_pos (f_add (S754_finite false p e) b).
Proof.
  intros He [Hs Hn]. destruct b as [s|s| |s q k]; simpl in Hs, Hn; subst; try done.
  unfold f_add, SFadd, cond_Zopp. set (ez := Z.min e k).
  apply normalize_pos; [lia|].
  assert (Zdigits2 (Zpos p * 2 ^ (e - ez)) = Zpos (digits2_pos p) + (e - ez)) as Hd.
  { assert (0 < Zpos p * 2 ^ (e - ez)) by (pose proof (Z.pow_pos_nonneg 2 (e - ez)); lia).
    destruct (Zpos p * 2 ^ (e - ez)) as [|r|r] eqn:E; try lia. apply digits_shift; [lia|done]. }
  pose proof (digits_mono (Zpos p * 2 ^ (e - ez))
    (Zpos (fst (shl_align p e ez)) + Zpos (fst (shl_align q k ez)))) as Hm.
  rewrite (shl_align_up p) in * by lia. lia.
Qed.

Lemma f_add_zero_l b : f_pos b -> f_add f_zero b = b.
Proof. by destruct b as [[]|[]| |[] m e]. Qed.

(* ------------------------------------------------------------------ *)
(** ** Durations *)

Definition seconds_small (d : Duration) : Prop := d < 2 ^ 53 * NANOS.

Lemma nanos_pos n : 0 < n < NANOS -> f_pos (f_div (of_int n) (of_int NANOS)).
Proof.
  intros Hn. destruct (of_int_exact n) as (p & e & -> & He & _ & Hp); [unfold NANOS in *; lia|].
  destruct (of_int_exact NANOS) as (q & k & -> & Hk & _ & Hq); [done|]. by apply div_pos_exact.
Qed.

Lemma nanos_nonneg n : 0 <= n < NANOS -> f_nonneg (f_div (of_int n) (of_int NANOS)).
Proof.
  intros Hn. destruct (decide (n = 0)) as [->|]; [done|]. apply f_pos_nonneg, nanos_pos. lia.
Qed.

(** A positive time is a positive number of seconds. *)
Lemma as_secs_pos d : 0 < d -> seconds_small d -> f_pos (as_secs_f64 d).
Proof.
  intros H0 H1. unfold as_secs_f64. assert (0 < NANOS) as HN by done.
  pose proof (Z_div_mod_eq_full d NANOS) as E. pose proof (Z.mod_pos_bound d NANOS HN) as B.
  destruct (decide (d / NANOS = 0)) as [Hq|Hq].
  - rewrite Hq in E |- *. rewrite f_add_zero_l; apply nanos_pos; lia.
  - assert (0 < d / NANOS < 2 ^ 53) as Hs.
    { split; [pose proof (Z.div_pos d NANOS ltac:(lia) HN); lia|]. apply Z.div_lt_upper_bound; [done|].
      unfold seconds_small in H1. lia. }
    destruct (of_int_exact _ Hs) as (p & e & -> & He & _ & Hp).
    apply f_add_pos_l; [rewrite Hp; unfold SpecFloat.emin, prec, emax; lia|]. by apply nanos_nonneg.
Qed.

Lemma as_secs_nonneg d : 0 <= d -> seconds_small d -> f_nonneg (as_secs_f64 d).
Proof.
  intros. destruct (decide (d = 0)) as [->|]; [done|]. apply f_pos_nonneg, as_secs_pos; [lia|done].
Qed.

(** A non-negative number times a positive one is not NaN; nor is a quotient
    by a positive number, as long as the two are not both infinite. *)
Lemma f_mul_nonneg a s p e : f_nonneg a -> s = false -> f_nonneg (f_mul a (S754_finite s p e)).
Proof.
  intros [Ha Hn] ->. destruct a as [s|s| |s m k]; simpl in Ha, Hn; subst; try done.
  split; [apply round_unsigned|]. unfold f_mul, SFmul, binary_round_aux.
  assert (forall r e l, 0 <= r -> 0 <= shr_m (fst (shr_fexp prec emax r e l))) as Hnn.
  { intros r x l Hr. rewrite shr_fexp_floor by done. apply Z.div_pos; [done|]. apply Z.pow_pos_nonneg; lia. }
  pose proof (Hnn (Zpos (m * p)) (k + e) loc_Exact ltac:(lia)) as H1.
  destruct (shr_fexp _ _ (Zpos (m * p)) (k + e) _) as [r1 e1]. simpl in H1.
  pose proof (round_up_le (shr_m r1) (loc_of_shr_record r1)) as Hle.
  pose proof (Hnn (round_nearest_even (shr_m r1) (loc_of_shr_record r1)) e1 loc_Exact ltac:(lia)) as H2.
  destruct (shr_fexp _ _ _ e1 _) as [r2 e2]. simpl in H2. destruct (shr_m r2); [done| |lia]. by case_match.
Qed.
