(* ===== verification/Addr.v ===== *)
(** * IP addresses

    [std::net]: IPv4 addresses as their 32-bit value, IPv6 addresses as
    their 128-bit value, their classification predicates, and the parsers
    and printers of their text form. *)
From S2P Require Import Prelude Str.
Open Scope Z_scope.

Inductive IpAddr : Type :=
  | V4 (a : Z)
  | V6 (a : Z).

#[export] Instance ip_addr_eq_dec : EqDecision IpAddr.
Proof. solve_decision. Defined.

(** Well-formed addresses are in range. *)
Definition ip_wf (ip : IpAddr) : Prop :=
  match ip with V4 a => in_width 32 a | V6 a => in_width 128 a end.

Record SocketAddr : Type := mk_socket { sa_ip : IpAddr; sa_port : Z }.
#[export] Instance socket_eq_dec : EqDecision SocketAddr.
Proof. solve_decision. Defined.

(* ------------------------------------------------------------------ *)
(** ** IPv4 *)

(** [Ipv4Addr::octets]. *)
Definition octet (i a : Z) : Z := (a / 2 ^ (8 * (3 - i))) mod 256.
Definition octets (a : Z) : list Z := [octet 0 a; octet 1 a; octet 2 a; octet 3 a].
(** [Ipv4Addr::new] and [Ipv4Addr::from([u8; 4])]. *)
Definition ipv4 (a b c d : Z) : Z := ((a * 256 + b) * 256 + c) * 256 + d.
Definition ipv4_of_octets (l : list Z) : Z := fold_left (fun acc o => acc * 256 + o) l 0.

Definition v4_is_loopback (a : Z) : bool := octet 0 a =? 127.
Definition v4_is_private (a : Z) : bool :=
  (octet 0 a =? 10)
  || ((octet 0 a =? 172) && ((16 <=? octet 1 a) && (octet 1 a <=? 31)))
  || ((octet 0 a =? 192) && (octet 1 a =? 168)).
Definition v4_is_link_local (a : Z) : bool := (octet 0 a =? 169) && (octet 1 a =? 254).
Definition v4_is_multicast (a : Z) : bool := (224 <=? octet 0 a) && (octet 0 a <=? 239).
Definition v4_is_unspecified (a : Z) : bool := a =? 0.
(** [u32::swap_bytes]. *)
Definition swap_bytes (a : Z) : Z := ipv4 (octet 3 a) (octet 2 a) (octet 1 a) (octet 0 a).

(** [Display for Ipv4Addr]. *)
Definition show_ipv4 (a : Z) : string :=
  show_uint (octet 0 a) +:+ "." +:+ show_uint (octet 1 a) +:+ "." +:+
  show_uint (octet 2 a) +:+ "." +:+ show_uint (octet 3 a).

(* ------------------------------------------------------------------ *)
(** ** IPv6 *)

Definition segment (i a : Z) : Z := (a / 2 ^ (16 * (7 - i))) mod 65536.
Definition segments (a : Z) : list Z :=
  map (fun i => segment i a) [0; 1; 2; 3; 4; 5; 6; 7].
Definition ipv6_of_segments (l : list Z) : Z := fold_left (fun acc o => acc * 65536 + o) l 0.
Definition v6_is_loopback (a : Z) : bool := a =? 1.
(** [Ipv6Addr::to_ipv4_mapped]: [::ffff:a.b.c.d]. *)
Definition to_ipv4_mapped (a : Z) : option Z :=
  if a / 2 ^ 32 =? 65535 then Some (a mod 2 ^ 32) else None.

Definition is_loopback (ip : IpAddr) : bool :=
  match ip with V4 a => v4_is_loopback a | V6 a => v6_is_loopback a end.
Definition is_ipv4 (ip : IpAddr) : bool := match ip with V4 _ => true | V6 _ => false end.
Definition is_ipv6 (ip : IpAddr) : bool := negb (is_ipv4 ip).

(** [Display for Ipv6Addr]: the first longest run of at least two zero
    segments is compressed; mapped addresses show their IPv4 part. *)
Fixpoint zero_runs (i : nat) (l : list Z) : list (nat * nat) :=
  match l with
  | [] => [(i, 0%nat)]
  | s :: r => match zero_runs (S i) r with
              | (j, n) :: t => if s =? 0 then (i, S n) :: (j, n) :: t else (i, 0%nat) :: (j, n) :: t
              | [] => []
              end
  end.
Definition longest_run (l : list (nat * nat)) : nat * nat :=
  fold_left (fun best r => if (snd best <? snd r)%nat then r else best) l (0%nat, 0%nat).
Definition show_segments (l : list Z) : string := str_join ":" (map (show_radix 40 16) l).
Definition show_ipv6 (a : Z) : string :=
  match to_ipv4_mapped a with
  | Some v4 => "::ffff:" +:+ show_ipv4 v4
  | None =>
      let '(start, len) := longest_run (zero_runs 0 (segments a)) in
      if (1 <? len)%nat
      then show_segments (take start (segments a)) +:+ "::"
           +:+ show_segments (drop (start + len) (segments a))
      else show_segments (segments a)
  end.
Definition show_ip (ip : IpAddr) : string :=
  match ip with V4 a => show_ipv4 a | V6 a => show_ipv6 a end.

(* ------------------------------------------------------------------ *)
(** ** The address parser of [core::net]

    Each reader takes the unread input and returns a value with what is
    left, or fails without consuming anything. *)

Fixpoint span_digits (radix : Z) (s : string) : list Z * string :=
  match s with
  | "" => ([], "")
  | String a r =>
      match to_digit radix a with
      | Some d => let '(ds, rest) := span_digits radix r in (d :: ds, rest)
      | None => ([], s)
      end
  end.

(** [Parser::read_number] with a maximal digit count. *)
Definition read_number (radix : Z) (max_digits : nat) (allow_zero_prefix : bool) (max : Z)
    (s : string) : option (Z * string) :=
  let '(ds, rest) := span_digits radix s in
  let n := length ds in
  if (max_digits <? n)%nat then None
  else if (n =? 0)%nat then None
  else if negb allow_zero_prefix && starts_with "0" s && (1 <? n)%nat then None
  else let v := fold_left (fun acc d => acc * radix + d) ds 0 in
       if max <? v then None else Some (v, rest).

Definition read_given_char (c : ascii) (s : string) : option string :=
  match s with String a r => if Ascii.eqb a c then Some r else None | "" => None end.

Definition read_separator {A} (sep : ascii) (i : nat) (inner : string -> option (A * string))
    (s : string) : option (A * string) :=
  match i with
  | O => inner s
  | S _ => let! r := read_given_char sep s in inner r
  end.

Definition read_octet (i : nat) : string -> option (Z * string) :=
  read_separator "." i (read_number 10 3 false u8_max).

Definition read_ipv4_addr (s : string) : option (Z * string) :=
  let! (a, s) := read_octet 0 s in
  let! (b, s) := read_octet 1 s in
  let! (c, s) := read_octet 2 s in
  let! (d, s) := read_octet 3 s in
  Some (ipv4 a b c d, s).

(** [read_groups]: at most [limit - i] more groups; an embedded IPv4 address
    needs two of them.  Returns the groups, whether the last two came from
    an IPv4 address, and the rest of the input. *)
Fixpoint read_groups (i : nat) (room : nat) (s : string) : list Z * bool * string :=
  match room with
  | O => ([], false, s)
  | S room' =>
      let group _ :=
        match read_separator ":" i (read_number 16 4 true u16_max) s with
        | Some (g, r) => let '(gs, b, r') := read_groups (S i) room' r in (g :: gs, b, r')
        | None => ([], false, s)
        end in
      match room' with
      | S _ =>
          match read_separator ":" i read_ipv4_addr s with
          | Some (v4, r) => ([v4 / 65536; v4 mod 65536], true, r)
          | None => group tt
          end
      | O => group tt
      end
  end.

Definition read_ipv6_addr (s : string) : option (Z * string) :=
  let '(head, head_ipv4, s1) := read_groups 0 8 s in
  if (length head =? 8)%nat then Some (ipv6_of_segments head, s1)
  else if head_ipv4 then None
  else let! s2 := read_given_char ":" s1 in
       let! s3 := read_given_char ":" s2 in
       let '(tail, _, s4) := read_groups 0 (8 - (length head + 1)) s3 in
       Some (ipv6_of_segments (head ++ replicate (8 - length head - length tail) 0 ++ tail), s4).

(** [FromStr] of [Ipv4Addr] and [IpAddr]: all the input must be read. *)
Definition parse_ipv4 (s : string) : option Z :=
  if 15 <? str_len s then None
  else match read_ipv4_addr s with Some (a, "") => Some a | _ => None end.
Definition parse_ip (s : string) : option IpAddr :=
  match read_ipv4_addr s with
  | Some (a, rest) => if is_empty rest then Some (V4 a) else None
  | None => match read_ipv6_addr s with Some (a, "") => Some (V6 a) | _ => None end
  end.

Example parse_ip_v4 : parse_ip "192.168.1.42" = Some (V4 3232235818).
Proof. reflexivity. Qed.
Example parse_ip_v6 : parse_ip "fe80::1:0" = Some (V6 (65152 * 2 ^ 112 + 65536)).
Proof. reflexivity. Qed.
Example parse_ip_mapped : parse_ip "::ffff:10.0.0.1" = Some (V6 (65535 * 2 ^ 32 + 167772161)).
Proof. reflexivity. Qed.
Example parse_ip_bad : map parse_ip ["01.2.3.4"; "1.2.3"; "1.2.3.256"; ":::"; "1:2:3:4:5:6:7:8:9"; ""] =
  [None; None; None; None; None; None].
Proof. reflexivity. Qed.
Example show_ipv6_examples :
  map show_ipv6 [1; 0; 65152 * 2 ^ 112 + 1; 65535 * 2 ^ 32 + 167772161; (2 ^ 48 + 2 ^ 16) * 2 ^ 64 + 5] =
  ["::1"; "::"; "fe80::1"; "::ffff:10.0.0.1"; "1:0:1::5"].
Proof. reflexivity. Qed.

(* ------------------------------------------------------------------ *)
(** ** Octets and the text form of IPv4 addresses *)

Lemma octet_range i a : 0 <= octet i a < 256.
Proof. apply Z.mod_pos_bound. lia. Qed.

Lemma ipv4_octets a : in_width 32 a -> ipv4 (octet 0 a) (octet 1 a) (octet 2 a) (octet 3 a) = a.
Proof.
  unfold octet, ipv4, in_width. intros Ha.
  change (2 ^ (8 * (3 - 0))) with (256 * (256 * 256)). change (2 ^ (8 * (3 - 1))) with (256 * 256).
  change (2 ^ (8 * (3 - 2))) with 256. change (2 ^ (8 * (3 - 3))) with 1.
  rewrite <-!Z.div_div, Z.div_1_r by lia.
  rewrite (Z.mod_small (a / 256 / 256 / 256)).
  - pose proof (Z_div_mod_eq_full a 256). pose proof (Z_div_mod_eq_full (a / 256) 256).
    pose proof (Z_div_mod_eq_full (a / 256 / 256) 256). clear Ha.
    generalize dependent (a / 256 / 256 / 256). generalize dependent ((a / 256 / 256) mod 256).
    generalize dependent (a / 256 / 256). generalize dependent ((a / 256) mod 256).
    generalize dependent (a / 256). generalize (a mod 256). intros. lia.
  - split; [repeat apply Z.div_pos; lia|].
    repeat (apply Z.div_lt_upper_bound; [lia|]). change (2 ^ 32) with 4294967296 in Ha. lia.
Qed.

Lemma ipv4_width a b c d :
  0 <= a < 256 -> 0 <= b < 256 -> 0 <= c < 256 -> 0 <= d < 256 -> in_width 32 (ipv4 a b c d).
Proof. unfold ipv4. pow_lia. Qed.

Lemma octets_ipv4 a b c d :
  0 <= a < 256 -> 0 <= b < 256 -> 0 <= c < 256 -> 0 <= d < 256 ->
  octets (ipv4 a b c d) = [a; b; c; d].
Proof.
  intros Ha Hb Hc Hd. unfold octets, octet, ipv4.
  change (2 ^ (8 * (3 - 0))) with (256 * (256 * 256)). change (2 ^ (8 * (3 - 1))) with (256 * 256).
  change (2 ^ (8 * (3 - 2))) with 256. change (2 ^ (8 * (3 - 3))) with 1.
  rewrite <-!Z.div_div, Z.div_1_r by lia.
  rewrite (Z.div_add_l _ 256 d), (Z.div_small d), Z.add_0_r by lia.
  rewrite (Z.div_add_l _ 256 c), (Z.div_small c), Z.add_0_r by lia.
  rewrite (Z.div_add_l _ 256 b), (Z.div_small b), Z.add_0_r by lia.
  rewrite (Z.add_comm _ b), (Z.add_comm _ c), (Z.add_comm _ d), !Z.mod_add by lia.
  by rewrite !Z.mod_small by lia.
Qed.

Lemma swap_bytes_involutive a : in_width 32 a -> swap_bytes (swap_bytes a) = a.
Proof.
  intros Ha. unfold swap_bytes at 1.
  pose proof (octets_ipv4 (octet 3 a) (octet 2 a) (octet 1 a) (octet 0 a)) as H.
  unfold octets in H. specialize (H (octet_range _ _) (octet_range _ _) (octet_range _ _) (octet_range _ _)).
  injection H as H0 H1 H2 H3. fold (swap_bytes a) in *. rewrite H0, H1, H2, H3.
  by apply ipv4_octets.
Qed.

Definition nondigit_head (radix : Z) (s : string) : Prop :=
  match s with "" => True | String a _ => to_digit radix a = None end.

Lemma span_digits_app radix s rest :
  all_digits radix s = true -> nondigit_head radix rest ->
  span_digits radix (s +:+ rest) = (fst (span_digits radix s), rest).
Proof.
  unfold all_digits. intros Hs Hr. induction s as [|a s IH]; simpl in *.
  - destruct rest as [|b r]; simpl in *; [done|]. by rewrite Hr.
  - bools. destruct (to_digit radix a); [|done].
    rewrite IH by done. by destruct (span_digits radix s).
Qed.

(** Every octet, printed, is one to three digits without a leading zero. *)
Lemma octet_text n :
  0 <= n < 256 ->
  let s := show_uint n in let ds := fst (span_digits 10 s) in
  (3 <? length ds)%nat = false /\ (length ds =? 0)%nat = false /\
  starts_with "0" s && (1 <? length ds)%nat = false /\
  fold_left (fun acc d => acc * 10 + d) ds 0 = n /\ s <> "" /\ (String.length s <= 3)%nat.
Proof.
  intros Hn s ds.
  assert (forallb (fun n => let s := show_uint n in let ds := fst (span_digits 10 s) in
    negb (3 <? length ds)%nat && negb (length ds =? 0)%nat &&
    negb (starts_with "0" s && (1 <? length ds)%nat) &&
    (fold_left (fun acc d => acc * 10 + d) ds 0 =? n) && negb (is_empty s) &&
    (String.length s <=? 3)%nat) (seqZ 0 256) = true) as H by (vm_compute; reflexivity).
  rewrite forallb_is_true in H. specialize (H n). rewrite elem_of_seqZ in H.
  specialize (H ltac:(lia)). cbv zeta in H. fold s ds in H. bools.
  repeat split; try done.
  - by destruct s.
  - by apply Nat.leb_le.
Qed.

Lemma starts_with_0_app s t : s <> "" -> starts_with "0" (s +:+ t) = starts_with "0" s.
Proof.
  destruct s as [|a s]; [done|]. intros _. unfold starts_with. cbn [strip_prefix String.append].
  by destruct (Ascii.eqb "0" a).
Qed.

Lemma read_number_octet n rest :
  0 <= n < 256 -> nondigit_head 10 rest ->
  read_number 10 3 false u8_max (show_uint n +:+ rest) = Some (n, rest).
Proof.
  intros Hn Hr. destruct (octet_text n Hn) as (H1 & H2 & H3 & H4 & H5 & _).
  unfold read_number. rewrite span_digits_app by (done || (apply show_radix_digits; lia)).
  rewrite H1, H2, starts_with_0_app by done.
  simpl andb. rewrite H3, H4. unfold u8_max. by rewrite (proj2 (Z.ltb_ge _ _)) by lia.
Qed.

Lemma read_show_ipv4 a rest :
  in_width 32 a -> nondigit_head 10 rest ->
  read_ipv4_addr (show_ipv4 a +:+ rest) = Some (a, rest).
Proof.
  intros Ha Hr. unfold show_ipv4. rewrite !str_app_assoc. simpl.
  unfold read_ipv4_addr, read_octet. simpl read_separator at 1.
  rewrite read_number_octet by (done || apply octet_range). simpl.
  rewrite read_number_octet by (done || apply octet_range). simpl.
  rewrite read_number_octet by (done || apply octet_range). simpl.
  rewrite read_number_octet by (done || apply octet_range).
  by rewrite ipv4_octets.
Qed.

Lemma show_ipv4_length a : (String.length (show_ipv4 a) <= 15)%nat.
Proof.
  unfold show_ipv4. rewrite !str_length_app. simpl.
  pose proof (fun i => octet_text (octet i a) (octet_range i a)) as H.
  destruct (H 0) as (?&?&?&?&?&?), (H 1) as (?&?&?&?&?&?),
    (H 2) as (?&?&?&?&?&?), (H 3) as (?&?&?&?&?&?). lia.
Qed.

Lemma parse_show_ipv4 a : in_width 32 a -> parse_ipv4 (show_ipv4 a) = Some a.
Proof.
  intros Ha. unfold parse_ipv4, str_len. pose proof (show_ipv4_length a).
  rewrite (proj2 (Z.ltb_ge _ _)) by lia.
  rewrite <-(str_app_nil_r (show_ipv4 a)), read_show_ipv4 by done. done.
Qed.

Lemma parse_ip_show_ipv4 a : in_width 32 a -> parse_ip (show_ipv4 a) = Some (V4 a).
Proof.
  intros Ha. unfold parse_ip.
  by rewrite <-(str_app_nil_r (show_ipv4 a)), read_show_ipv4 by done.
Qed.

Lemma show_ipv4_inj a b : in_width 32 a -> in_width 32 b -> show_ipv4 a = show_ipv4 b -> a = b.
Proof.
  intros Ha Hb H. apply (f_equal parse_ipv4) in H.
  rewrite !parse_show_ipv4 in H by done. congruence.
Qed.

(** A parsed IPv4 address is in range. *)
Lemma read_number_range r n z m s v rest :
  0 <= r -> read_number r n z m s = Some (v, rest) -> 0 <= v <= m.
Proof.
  unfold read_number. intros Hr. destruct (span_digits r s) as [ds rest'] eqn:E.
  assert (forall ds acc, 0 <= acc -> Forall (fun d => 0 <= d) ds ->
    0 <= fold_left (fun acc d => acc * r + d) ds acc) as Hpos.
  { clear -Hr. induction ds; simpl; intros; [done|]. inv H0. apply IHds; [nia|done]. }
  assert (Forall (fun d => 0 <= d) ds).
  { clear Hpos. revert ds rest' E. induction s as [|a s IH]; simpl; intros ds rest' E; [by simplify_eq|].
    destruct (to_digit r a) as [d|] eqn:Ed; [|by simplify_eq].
    destruct (span_digits r s) as [ds' r'']. simplify_eq. apply to_digit_range in Ed.
    constructor; [lia|by eapply IH]. }
  repeat case_match; intros; simplify_eq. bools. split; [|lia]. by apply Hpos.
Qed.

Lemma read_ipv4_addr_width s a rest : read_ipv4_addr s = Some (a, rest) -> in_width 32 a.
Proof.
  unfold read_ipv4_addr, read_octet, read_separator. intros H.
  repeat case_match; simplify_eq;
  repeat match goal with H : read_number _ _ _ _ _ = Some _ |- _ =>
    apply read_number_range in H; [|lia] end;
  apply ipv4_width; unfold u8_max in *; lia.
Qed.

Lemma parse_ipv4_width s a : parse_ipv4 s = Some a -> in_width 32 a.
Proof.
  unfold parse_ipv4. case_match; [done|].
  destruct (read_ipv4_addr s) as [[x [|? ?]]|] eqn:E; [|done..].
  intros [= <-]. by eapply read_ipv4_addr_width.
Qed.

Definition group_wf (g : Z) : Prop := 0 <= g < 65536.

Lemma read_groups_wf room : forall i s gs b rest,
  read_groups i room s = (gs, b, rest) -> Forall group_wf gs /\ (length gs <= room)%nat.
Proof.
  induction room as [|room IH]; simpl; intros i s gs b rest H.
  { simplify_eq. split; [constructor|simpl; lia]. }
  assert (forall gs b rest,
    match read_separator ":" i (read_number 16 4 true u16_max) s with
    | Some (g, r) => let '(gs, b, r') := read_groups (S i) room r in (g :: gs, b, r')
    | None => ([], false, s)
    end = (gs, b, rest) -> Forall group_wf gs /\ (length gs <= S room)%nat) as Hgroup.
  { clear H gs b rest. intros gs b rest H.
    destruct (read_separator ":" i _ s) as [[g r]|] eqn:E; [|simplify_eq; split; [constructor|simpl; lia]].
    destruct (read_groups (S i) room r) as [[gs' b'] r'] eqn:E'. simplify_eq.
    apply IH in E' as [? ?]. split; [|simpl; lia]. constructor; [|done].
    unfold read_separator in E.
    assert (exists s', read_number 16 4 true u16_max s' = Some (g, r)) as [s' Hs']
      by (repeat case_match; eauto; done).
    apply read_number_range in Hs'; [|lia]. unfold group_wf, u16_max in *. lia. }
  destruct room as [|room']; [by eapply Hgroup|].
  destruct (read_separator ":" i read_ipv4_addr s) as [[v4 r]|] eqn:E; [|by eapply Hgroup].
  simplify_eq.
  assert (exists s', read_ipv4_addr s' = Some (v4, rest)) as [s' Hs'%read_ipv4_addr_width].
  { unfold read_separator in E. repeat case_match; eauto; done. }
  split; [|simpl; lia]. unfold in_width in Hs'. change (2 ^ 32) with (65536 * 65536) in Hs'.
  repeat constructor; try (apply Z.mod_pos_bound; lia).
  - apply Z.div_pos; lia.
  - apply Z.div_lt_upper_bound; lia.
Qed.

Lemma ipv6_of_segments_bound l :
  Forall group_wf l -> 0 <= ipv6_of_segments l < 65536 ^ Z.of_nat (length l).
Proof.
  unfold ipv6_of_segments. induction l as [|x l IH] using rev_ind; intros Hl; [simpl; lia|].
  apply Forall_app in Hl as [Hl Hx]. inv Hx. specialize (IH Hl).
  rewrite fold_left_app, length_app, Nat2Z.inj_add, Z.pow_add_r by lia. simpl.
  unfold group_wf in *. change (65536 ^ 1) with 65536. lia.
Qed.

Lemma read_ipv6_addr_width s a rest : read_ipv6_addr s = Some (a, rest) -> in_width 128 a.
Proof.
  unfold read_ipv6_addr. destruct (read_groups 0 8 s) as [[head b] s1] eqn:E.
  apply read_groups_wf in E as [Hh Hl]. unfold in_width. change (2 ^ 128) with (65536 ^ 8).
  destruct (length head =? 8)%nat eqn:E8.
  { intros [= <- <-]. apply Nat.eqb_eq in E8.
    pose proof (ipv6_of_segments_bound head Hh) as Hb. by rewrite E8 in Hb. }
  apply Nat.eqb_neq in E8. destruct b; [done|].
  destruct (read_given_char ":" s1) as [s2|]; [|done].
  destruct (read_given_char ":" s2) as [s3|]; [|done].
  destruct (read_groups 0 (8 - (length head + 1)) s3) as [[tail b'] s4] eqn:E'.
  apply read_groups_wf in E' as [Ht Htl]. intros [= <- <-].
  pose proof (ipv6_of_segments_bound
    (head ++ replicate (8 - length head - length tail) 0 ++ tail)) as Hb.
  rewrite !length_app, length_replicate in Hb.
  replace (length head + (8 - length head - length tail + length tail))%nat with 8%nat in Hb by lia.
  apply Hb. apply Forall_app; split; [done|]. apply Forall_app; split; [|done].
  apply Forall_replicate. unfold group_wf. lia.
Qed.

(** Parsed addresses are in range. *)
Lemma parse_ip_wf s ip : parse_ip s = Some ip -> ip_wf ip.
Proof.
  unfold parse_ip. destruct (read_ipv4_addr s) as [[a rest]|] eqn:E.
  - destruct (is_empty rest); [|done]. intros [= <-]. by eapply read_ipv4_addr_width.
  - destruct (read_ipv6_addr s) as [[a [|? ?]]|] eqn:E'; [|done..].
    intros [= <-]. by eapply read_ipv6_addr_width.
Qed.
