(* ===== verification/Socket.v ===== *)
(** * Setting sockets up (src/dns/mod.rs: [new_socket]; src/devices.rs: the listeners)

    The calls a listener makes on its socket, in order.  What the kernel
    answers to each is an argument. *)
From S2P Require Import Prelude Addr.
Open Scope Z_scope.

Inductive SockType : Type := DGRAM | STREAM.
#[export] Instance sock_type_eq_dec : EqDecision SockType.
Proof. solve_decision. Defined.
Inductive SockOp : Type :=
  | Create (ipv6 : bool) (ty : SockType)
  | OnlyV6 | ReuseAddress | ReusePort | Broadcast | Nonblocking
  | Bind (a : SocketAddr) | JoinMulticast (group : Z) | Listen (backlog : Z) | FromStd.
#[export] Instance sock_op_eq_dec : EqDecision SockOp.
Proof. solve_decision. Defined.

(** Steps in order; the first that fails ends the set-up with its error. *)
Fixpoint run_setup {E} (fails : SockOp -> option E) (ops : list SockOp) : result E unit :=
  match ops with
  | [] => Ok tt
  | op :: r => match fails op with Some e => Err e | None => run_setup fails r end
  end.

Definition is_ipv6 (a : SocketAddr) : bool := match sa_ip a with V4 _ => false | V6 _ => true end.

(** [new_socket], [bind_udp] and [bind_tcp]. *)
Definition new_socket (addr : SocketAddr) (ty : SockType) : list SockOp :=
  [Create (is_ipv6 addr) ty] ++ (if is_ipv6 addr then [OnlyV6] else []) ++ [ReuseAddress; Nonblocking; Bind addr].
Definition udp_setup (addr : SocketAddr) : list SockOp := new_socket addr DGRAM ++ [FromStd].
Definition tcp_setup (addr : SocketAddr) : list SockOp := new_socket addr STREAM ++ [Listen 128; FromStd].
Definition bind_udp {E} (fails : SockOp -> option E) (addr : SocketAddr) : result E unit := run_setup fails (udp_setup addr).
Definition bind_tcp {E} (fails : SockOp -> option E) (addr : SocketAddr) : result E unit := run_setup fails (tcp_setup addr).

(* ------------------------------------------------------------------ *)
(** ** Lemmas *)

Lemma run_setup_ok {E} (fails : SockOp -> option E) ops :
  run_setup fails ops = Ok tt <-> forall op, op ∈ ops -> fails op = None.
Proof.
  induction ops as [|op r IH]; simpl; [by split; [intros _ op ?%elem_of_nil|]|].
  destruct (fails op) as [e|] eqn:E1.
  - split; [done|]. intros H. rewrite H in E1; [done|by left].
  - rewrite IH. split; intros H op'; [|intros; apply H; by right].
    intros [->|]%elem_of_cons; [done|by apply H].
Qed.

(** The error is that of the first step that fails; later steps are not taken. *)
Lemma run_setup_err {E} (fails : SockOp -> option E) ops e :
  run_setup fails ops = Err e <->
  exists pre op post, ops = pre ++ op :: post /\ fails op = Some e /\ forall o, o ∈ pre -> fails o = None.
Proof.
  induction ops as [|op r IH]; simpl.
  { split; [done|]. by intros ([] & ? & ? & ? & _). }
  destruct (fails op) as [e'|] eqn:E1; split.
  - intros [= ->]. exists [], op, r. split_and!; [done|done|]. by intros ? ?%elem_of_nil.
  - intros ([|o pre] & op' & post & [= <- Hr] & Hf & Hp); [congruence|]. rewrite Hp in E1; [done|by left].
  - intros (pre & op' & post & -> & Hf & Hp)%IH. exists (op :: pre), op', post. split_and!; [done|done|].
    intros o [->|]%elem_of_cons; [done|by apply Hp].
  - intros ([|o pre] & op' & post & [= <- Hr] & Hf & Hp); [congruence|]. apply IH. exists pre, op', post.
    split_and!; [done|done|]. intros. apply Hp. by right.
Qed.

(** A listener is bound last, IPv6-only if its address is IPv6, so that it
    leaves the IPv4 port to the other listener, and after it was told to
    reuse an address still in TIME_WAIT. *)
Theorem bound_last addr ty :
  exists opts, new_socket addr ty = opts ++ [Bind addr] /\ ~ (Bind addr ∈ opts) /\
    ReuseAddress ∈ opts /\ (OnlyV6 ∈ opts <-> is_ipv6 addr = true).
Proof.
  exists ([Create (is_ipv6 addr) ty] ++ (if is_ipv6 addr then [OnlyV6] else []) ++ [ReuseAddress; Nonblocking]).
  unfold new_socket. destruct (is_ipv6 addr); cbn [app]; (split; [done|]); split_and!.
  all: rewrite !elem_of_cons, elem_of_nil; naive_solver.
Qed.
