(* ===== verification/Acl.v ===== *)
(** * The DNS access-control list (src/dns/acl.rs)

    [Acl] is the rule list parsed from [dns.allow_from]; [allows] decides
    whether a source address may query, [trust_subnet] widens the list by
    the LAN found in the routing table. *)
From S2P Require Import Prelude Str Addr.
Open Scope Z_scope.

Inductive Rule : Type :=
  | Loopback
  | Private
  | Any
  | RuleV4 (network prefix : Z)
  | RuleV6 (network prefix : Z).

#[export] Instance rule_eq_dec : EqDecision Rule.
Proof. solve_decision. Defined.

Record Acl : Type := mk_acl { rules : list Rule }.

(** Why a CIDR was refused, in the order the code finds out. *)
Inductive CidrError : Type :=
  | NoPrefixLength | BadPrefixLength | BadAddress | V4PrefixRange | V6PrefixRange.
Record AclError : Type := mk_acl_error { ae_entry : string; ae_cause : CidrError }.
#[export] Instance cidr_error_eq_dec : EqDecision CidrError.
Proof. solve_decision. Defined.
#[export] Instance acl_error_eq_dec : EqDecision AclError.
Proof. solve_decision. Defined.

Definition v4_in (addr network prefix : Z) : bool :=
  if prefix =? 0 then true
  else let mask := prefix_mask 32 prefix in Z.land addr mask =? Z.land network mask.

Definition v6_in (addr network prefix : Z) : bool :=
  if prefix =? 0 then true
  else let mask := prefix_mask 128 prefix in Z.land addr mask =? Z.land network mask.

Definition v4_private (a : Z) : bool :=
  v4_is_private a || v4_is_link_local a
  || ((octet 0 a =? 100) && ((64 <=? octet 1 a) && (octet 1 a <? 128))).

Definition is_private (ip : IpAddr) : bool :=
  match ip with
  | V4 a => v4_private a
  | V6 a =>
      (Z.land (segment 0 a) 65024 =? 64512)
      || (Z.land (segment 0 a) 65472 =? 65152)
      || is_some_and v4_private (to_ipv4_mapped a)
  end.

Definition rule_matches (addr : IpAddr) (r : Rule) : bool :=
  match r with
  | Any => true
  | Loopback => is_loopback addr
  | Private => is_private addr || is_loopback addr
  | RuleV4 network prefix => match addr with V4 v4 => v4_in v4 network prefix | V6 _ => false end
  | RuleV6 network prefix => match addr with V6 v6 => v6_in v6 network prefix | V4 _ => false end
  end.

Definition allows (acl : Acl) (addr : IpAddr) : bool :=
  if bool_decide (rules acl = []) then is_private addr || is_loopback addr
  else existsb (rule_matches addr) (rules acl).

Definition trust_subnet (acl : Acl) (network prefix : Z) : Acl * bool :=
  let private_stance := bool_decide (rules acl = []) || bool_decide (Private ∈ rules acl) in
  if negb private_stance then (acl, false)
  else if allows acl (V4 network) then (acl, false)
  else (mk_acl (rules acl ++ [RuleV4 network prefix]), true).

Definition is_open_to_world (acl : Acl) : bool := bool_decide (Any ∈ rules acl).

Definition parse_cidr (s : string) : result CidrError Rule :=
  let? (addr, len) := ok_or NoPrefixLength (split_once "/" s) in
  let? prefix := ok_or BadPrefixLength (parse_uint u8_max (trim len)) in
  let? ip := ok_or BadAddress (parse_ip (trim addr)) in
  match ip with
  | V4 network =>
      let? _ := ensure (prefix <=? 32) V4PrefixRange in Ok (RuleV4 network prefix)
  | V6 network =>
      let? _ := ensure (prefix <=? 128) V6PrefixRange in Ok (RuleV6 network prefix)
  end.

Definition parse_entry (raw : string) : result AclError Rule :=
  let e := to_ascii_lowercase (trim raw) in
  if (e =? "loopback")%string || (e =? "localhost")%string then Ok Loopback
  else if (e =? "private")%string || (e =? "lan")%string then Ok Private
  else if (e =? "any")%string || (e =? "all")%string || (e =? "0.0.0.0/0")%string then Ok Any
  else map_err (mk_acl_error raw) (parse_cidr e).

Fixpoint parse_entries (entries : list string) : result AclError (list Rule) :=
  match entries with
  | [] => Ok []
  | raw :: rest =>
      let? r := parse_entry raw in
      let? rs := parse_entries rest in Ok (r :: rs)
  end.

Definition parse (entries : list string) : result AclError Acl :=
  let? rs := parse_entries entries in Ok (mk_acl rs).

(** The rules of the shipped default, [["loopback", "private"]]. *)
Definition default_acl : Acl := mk_acl [Loopback; Private].

(* ------------------------------------------------------------------ *)
(** ** What the predicates mean *)

Definition v4_wf_rule (r : Rule) : Prop :=
  match r with
  | RuleV4 n p => in_width 32 n /\ 0 <= p <= 32
  | RuleV6 n p => in_width 128 n /\ 0 <= p <= 128
  | _ => True
  end.

(** The CIDR block of an address: same quotient by the block size. *)
Definition same_block (w p a b : Z) : Prop := a / 2 ^ (w - p) = b / 2 ^ (w - p).

(** Local IPv4 addresses, as ranges of the 32-bit value. *)
Definition local_v4 (a : Z) : Prop :=
  ipv4 10 0 0 0 <= a <= ipv4 10 255 255 255 \/
  ipv4 172 16 0 0 <= a <= ipv4 172 31 255 255 \/
  ipv4 192 168 0 0 <= a <= ipv4 192 168 255 255 \/
  ipv4 169 254 0 0 <= a <= ipv4 169 254 255 255 \/
  ipv4 100 64 0 0 <= a <= ipv4 100 127 255 255.
Definition loopback_v4 (a : Z) : Prop := ipv4 127 0 0 0 <= a <= ipv4 127 255 255 255.

(** Local IPv6 addresses: fc00::/7, fe80::/10 and mapped local IPv4. *)
Definition local_v6 (a : Z) : Prop :=
  64512 * 2 ^ 112 <= a < 65024 * 2 ^ 112 \/
  65152 * 2 ^ 112 <= a < 65216 * 2 ^ 112 \/
  exists v4, local_v4 v4 /\ in_width 32 v4 /\ a = 65535 * 2 ^ 32 + v4.

Definition local_or_self (ip : IpAddr) : Prop :=
  match ip with
  | V4 a => local_v4 a \/ loopback_v4 a
  | V6 a => local_v6 a \/ a = 1
  end.

Lemma v4_in_spec a n p :
  in_width 32 a -> in_width 32 n -> 0 <= p <= 32 -> v4_in a n p = true <-> same_block 32 p a n.
Proof.
  intros Ha Hn Hp. unfold v4_in, same_block. destruct (Z.eqb_spec p 0) as [->|].
  - split; [|done]. intros _. unfold in_width in *. by rewrite !Z.div_small.
  - by rewrite Z.eqb_eq, mask_eq_iff.
Qed.

Lemma v6_in_spec a n p :
  in_width 128 a -> in_width 128 n -> 0 <= p <= 128 -> v6_in a n p = true <-> same_block 128 p a n.
Proof.
  intros Ha Hn Hp. unfold v6_in, same_block. destruct (Z.eqb_spec p 0) as [->|].
  - split; [|done]. intros _. unfold in_width in *. by rewrite !Z.div_small.
  - by rewrite Z.eqb_eq, mask_eq_iff.
Qed.

(** The first two octets as quotients. *)
Lemma octet0_div a : in_width 32 a -> octet 0 a = a / 16777216.
Proof.
  intros [H0 H]. unfold octet. change (2 ^ (8 * (3 - 0))) with 16777216.
  apply Z.mod_small. split; [apply Z.div_pos; lia|apply Z.div_lt_upper_bound; pow_lia].
Qed.
Lemma octet1_div a : octet 1 a = (a / 65536) mod 256.
Proof. done. Qed.

Lemma octets01 a : in_width 32 a -> a / 65536 = octet 0 a * 256 + octet 1 a.
Proof.
  intros Ha. rewrite octet0_div, octet1_div by done.
  replace (a / 16777216) with (a / 65536 / 256) by (rewrite Z.div_div by lia; done).
  pose proof (Z_div_mod_eq_full (a / 65536) 256). lia.
Qed.

Lemma v4_private_spec a : in_width 32 a -> v4_private a = true <-> local_v4 a.
Proof.
  intros Ha. pose proof (octets01 a Ha) as H. pose proof (octet_range 0 a). pose proof (octet_range 1 a).
  unfold v4_private, v4_is_private, v4_is_link_local, local_v4, ipv4.
  rewrite !orb_true_iff, !andb_true_iff, !Z.eqb_eq, !Z.leb_le, !Z.ltb_lt.
  generalize dependent (octet 0 a). generalize dependent (octet 1 a). intros o1 ? o0 ? ?.
  assert (65536 * (a / 65536) <= a < 65536 * (a / 65536) + 65536).
  { pose proof (Z_div_mod_eq_full a 65536). pose proof (Z.mod_pos_bound a 65536). lia. }
  generalize dependent (a / 65536). intros q -> ?. lia.
Qed.

Lemma v4_loopback_spec a : in_width 32 a -> v4_is_loopback a = true <-> loopback_v4 a.
Proof.
  intros Ha. unfold v4_is_loopback, loopback_v4, ipv4. rewrite octet0_div, Z.eqb_eq by done.
  pose proof (Z_div_mod_eq_full a 16777216). pose proof (Z.mod_pos_bound a 16777216). lia.
Qed.

(** Masking a 16-bit segment by its top bits is a range test. *)
Lemma segment_mask_range s m v n :
  0 <= n <= 16 -> m = prefix_mask 16 (16 - n) -> v = Z.shiftl (Z.shiftr v n) n ->
  in_width 16 s -> in_width 16 v ->
  Z.land s m = v <-> v <= s < v + 2 ^ n.
Proof.
  intros Hn -> Hv Hs Hw. rewrite land_prefix_mask by (done || lia).
  replace (16 - (16 - n)) with n by lia.
  rewrite Z.shiftl_mul_pow2, Z.shiftr_div_pow2 in * by lia.
  pose proof (Z.pow_pos_nonneg 2 n ltac:(lia) ltac:(lia)) as Hpos.
  pose proof (Z_div_mod_eq_full s (2 ^ n)). pose proof (Z.mod_pos_bound s (2 ^ n) Hpos).
  split; [lia|]. intros Hr. rewrite Hv. f_equal. symmetry.
  apply Z.div_unique with (s - v / 2 ^ n * 2 ^ n); lia.
Qed.

Lemma segment0_div a : in_width 128 a -> segment 0 a = a / 2 ^ 112.
Proof.
  intros [H0 H]. unfold segment. change (16 * (7 - 0)) with 112.
  apply Z.mod_small. split; [apply Z.div_pos; lia|apply Z.div_lt_upper_bound; lia].
Qed.

Lemma to_ipv4_mapped_spec a v4 :
  in_width 128 a -> to_ipv4_mapped a = Some v4 <-> in_width 32 v4 /\ a = 65535 * 2 ^ 32 + v4.
Proof.
  intros Ha. unfold to_ipv4_mapped, in_width.
  pose proof (Z_div_mod_eq_full a (2 ^ 32)). pose proof (Z.mod_pos_bound a (2 ^ 32) ltac:(lia)).
  destruct (Z.eqb_spec (a / 2 ^ 32) 65535) as [E|E].
  - rewrite E in *. split; [intros [= <-]; lia|]. intros [? ->]. f_equal. lia.
  - split; [done|]. intros [? ->]. exfalso. apply E.
    rewrite Z.div_add_l by lia. rewrite Z.div_small by lia. lia.
Qed.

Lemma is_private_v6_spec a : in_width 128 a -> is_private (V6 a) = true <-> local_v6 a.
Proof.
  intros Ha. unfold is_private, local_v6.
  assert (in_width 16 (segment 0 a)) by (apply Z.mod_pos_bound; lia).
  rewrite !orb_true_iff, !Z.eqb_eq.
  rewrite (segment_mask_range _ 65024 64512 9) by (done || lia).
  rewrite (segment_mask_range _ 65472 65152 6) by (done || lia).
  rewrite segment0_div by done.
  pose proof (Z_div_mod_eq_full a (2 ^ 112)). pose proof (Z.mod_pos_bound a (2 ^ 112) ltac:(lia)).
  enough (is_some_and v4_private (to_ipv4_mapped a) = true <->
    exists v4, local_v4 v4 /\ in_width 32 v4 /\ a = 65535 * 2 ^ 32 + v4) as ->.
  { split.
    - intros [[Hr|Hr]|Hr]; [left; lia|right; left; lia|by right; right].
    - intros [Hr|[Hr|Hr]]; [left; left; lia|left; right; lia|by right]. }
  split.
  - destruct (to_ipv4_mapped a) as [v4|] eqn:E; [|done]. simpl. intros Hp.
    apply to_ipv4_mapped_spec in E as [Hw ->]; [|done].
    exists v4. by rewrite <-v4_private_spec.
  - intros (v4 & Hl & Hw & E). rewrite (proj2 (to_ipv4_mapped_spec a v4 Ha)) by done.
    simpl. by apply v4_private_spec.
Qed.

Lemma private_or_self_spec ip :
  ip_wf ip -> is_private ip || is_loopback ip = true <-> local_or_self ip.
Proof.
  intros Hw. rewrite orb_true_iff. destruct ip as [a|a]; simpl in Hw.
  - simpl. by rewrite v4_private_spec, v4_loopback_spec.
  - rewrite is_private_v6_spec by done. simpl. unfold v6_is_loopback. by rewrite Z.eqb_eq.
Qed.

(** What one rule admits. *)
Definition rule_admits (ip : IpAddr) (r : Rule) : Prop :=
  match r, ip with
  | Any, _ => True
  | Loopback, V4 a => loopback_v4 a
  | Loopback, V6 a => a = 1
  | Private, _ => local_or_self ip
  | RuleV4 n p, V4 a => same_block 32 p a n
  | RuleV6 n p, V6 a => same_block 128 p a n
  | _, _ => False
  end.

Lemma rule_matches_spec ip r :
  ip_wf ip -> v4_wf_rule r -> rule_matches ip r = true <-> rule_admits ip r.
Proof.
  intros Hw Hr. destruct r as [| | |n p|n p]; simpl in *.
  - destruct ip as [a|a]; simpl; [by apply v4_loopback_spec|]. unfold v6_is_loopback. lia.
  - destruct ip; by rewrite private_or_self_spec.
  - by destruct ip.
  - destruct ip; [|done]. destruct Hr. by apply v4_in_spec.
  - destruct ip; [done|]. destruct Hr. by apply v6_in_spec.
Qed.

Lemma allows_nonempty acl ip : rules acl <> [] -> allows acl ip = existsb (rule_matches ip) (rules acl).
Proof. intros H. unfold allows. by rewrite bool_decide_eq_false_2. Qed.

Lemma parse_cidr_wf s r : parse_cidr s = Ok r -> v4_wf_rule r.
Proof.
  unfold parse_cidr, ensure, ok_or. intros H.
  destruct (split_once "/" s) as [[addr len]|]; [|done].
  destruct (parse_uint u8_max (trim len)) as [p|] eqn:Hp; [|done].
  apply parse_uint_range in Hp; [|done].
  destruct (parse_ip (trim addr)) as [[n|n]|] eqn:Hip; [| |done]; apply parse_ip_wf in Hip.
  - destruct (p <=? 32) eqn:Hle; simplify_eq. bools. split; [done|lia].
  - destruct (p <=? 128) eqn:Hle; simplify_eq. bools. split; [done|lia].
Qed.

Lemma parse_entry_wf raw r : parse_entry raw = Ok r -> v4_wf_rule r.
Proof.
  unfold parse_entry. repeat (case_match; [by intros [= <-]|]).
  destruct (parse_cidr _) eqn:E; simpl; [|done]. intros [= <-]. by eapply parse_cidr_wf.
Qed.

Lemma parse_entries_ok es rs :
  parse_entries es = Ok rs <-> Forall2 (fun e r => parse_entry e = Ok r) es rs.
Proof.
  revert rs. induction es as [|e es IH]; simpl; intros rs.
  - split; [intros [= <-]; constructor|by inversion 1].
  - split.
    + destruct (parse_entry e) eqn:E; [|done]. destruct (parse_entries es) eqn:E'; [|done].
      intros [= <-]. constructor; [done|]. by apply IH.
    + inversion 1 as [|? r ? rs' He Hes]; subst. apply IH in Hes. by rewrite He, Hes.
Qed.

Lemma parse_entries_err es err :
  parse_entries es = Err err ->
  exists pre raw post, es = pre ++ raw :: post /\ parse_entry raw = Err err /\
    Forall (fun e => is_ok (parse_entry e) = true) pre.
Proof.
  induction es as [|e es IH]; simpl; [done|].
  destruct (parse_entry e) eqn:E.
  - destruct (parse_entries es) eqn:E'; [done|]. intros [= ->].
    destruct (IH eq_refl) as (pre & raw & post & -> & Hr & Hp).
    exists (e :: pre), raw, post. repeat split; [done|]. constructor; [by rewrite E|done].
  - intros [= ->]. exists [], e, es. repeat split; [done|constructor].
Qed.

Lemma parse_entry_err raw err : parse_entry raw = Err err -> ae_entry err = raw.
Proof.
  unfold parse_entry. repeat (case_match; [done|]).
  destruct (parse_cidr _); simpl; [done|]. by intros [= <-].
Qed.

Lemma existsb_rules_spec ip rs :
  ip_wf ip -> Forall v4_wf_rule rs ->
  existsb (rule_matches ip) rs = true <-> exists r, r ∈ rs /\ rule_admits ip r.
Proof.
  intros Hip Hrs. rewrite existsb_is_true. rewrite Forall_forall in Hrs.
  split; intros (r & Hin & Hr); exists r; (split; [done|]); by apply rule_matches_spec; auto.
Qed.

(* ------------------------------------------------------------------ *)
(** ** Properties *)

(** C27. The decision of the access list is exactly the meaning of its rules:
    an empty list admits the local ranges and this host, any other list
    admits an address iff one of its rules does, where a CIDR rule admits
    the addresses of its own family in the same block. *)
Theorem allows_spec acl ip :
  ip_wf ip -> Forall v4_wf_rule (rules acl) ->
  allows acl ip = true <->
  (rules acl = [] /\ local_or_self ip) \/ (exists r, r ∈ rules acl /\ rule_admits ip r).
Proof.
  intros Hip Hrs. unfold allows. destruct acl as [rs]; simpl in *. case_bool_decide as Hnil.
  - rewrite private_or_self_spec by done. subst. set_solver.
  - rewrite existsb_rules_spec by done. naive_solver.
Qed.

Lemma allows_spec_witness :
  allows (mk_acl [RuleV4 3232235776 24]) (V4 3232236031) = true <->
  (rules (mk_acl [RuleV4 3232235776 24]) = [] /\ local_or_self (V4 3232236031)) \/
  (exists r, r ∈ rules (mk_acl [RuleV4 3232235776 24]) /\ rule_admits (V4 3232236031) r).
Proof. apply allows_spec; [vm_compute; split; congruence|repeat constructor; vm_compute; congruence]. Defined.

(** The shipped stance [["loopback"; "private"]] parses, and the list it
    gives answers an address iff it is loopback or in the private, link-local
    or carrier-grade-NAT ranges (or their IPv6 equivalents): no public
    address is ever served by default. *)
Theorem default_stance_spec :
  parse ["loopback"; "private"] = Ok default_acl /\
  forall ip, ip_wf ip -> allows default_acl ip = true <-> local_or_self ip.
Proof.
  split; [reflexivity|]. intros ip Hip.
  rewrite allows_nonempty by done. rewrite existsb_rules_spec by (done || (repeat constructor)).
  simpl. split.
  - intros (r & [->|[->|Hr%elem_of_nil]%elem_of_cons]%elem_of_cons & Hr'); [|done|done].
    destruct ip; simpl in *; auto.
  - intros H. exists Private. split; [set_solver|]. by destruct ip.
Qed.

(** Parsing either gives a list whose every rule came from its entry and
    carries an in-range network and prefix (so the mask shifts cannot
    overflow), or names the first entry that is not a keyword or a CIDR. *)
Theorem parse_total es :
  match parse es with
  | Ok acl => Forall2 (fun e r => parse_entry e = Ok r) es (rules acl)
              /\ Forall v4_wf_rule (rules acl)
  | Err err => exists pre post, es = pre ++ ae_entry err :: post
                /\ parse_entry (ae_entry err) = Err err
                /\ Forall (fun e => is_ok (parse_entry e) = true) pre
  end.
Proof.
  unfold parse. destruct (parse_entries es) as [rs|err] eqn:E.
  - apply parse_entries_ok in E. split; [done|]. simpl.
    induction E; constructor; eauto using parse_entry_wf.
  - destruct (parse_entries_err _ _ E) as (pre & raw & post & -> & Hr & Hp).
    pose proof (parse_entry_err _ _ Hr) as <-. eauto.
Qed.

(** Trusting the LAN's subnet: when the list changes, a list that had
    rules serves exactly what it served before plus that subnet; when it does
    not change the list is returned as it was, and a list the operator wrote
    without [private] is never widened. *)
Theorem trust_subnet_exact acl network prefix acl' widened :
  Forall v4_wf_rule (rules acl) -> in_width 32 network -> 0 <= prefix <= 32 ->
  rules acl <> [] -> trust_subnet acl network prefix = (acl', widened) ->
  if widened
  then Private ∈ rules acl /\
       forall ip, ip_wf ip ->
         allows acl' ip = true <->
         allows acl ip = true \/ exists a, ip = V4 a /\ same_block 32 prefix a network
  else acl' = acl.
Proof.
  intros Hwf Hn Hp Hne. unfold trust_subnet.
  destruct (negb _) eqn:Hst; [by intros [= <- <-]|].
  destruct (allows acl (V4 network)) eqn:Ha; [by intros [= <- <-]|].
  intros [= <- <-]. split.
  { bools. apply orb_true_iff in Hst as [Hst|Hst]; bools; done. }
  intros ip Hip. rewrite !allows_nonempty; [|done|simpl; by destruct (rules acl)].
  cbn [rules]. rewrite existsb_app, orb_true_iff. cbn [existsb]. rewrite orb_false_r.
  rewrite (rule_matches_spec ip) by done. destruct ip as [a|a]; simpl; naive_solver.
Qed.

Lemma trust_subnet_exact_witness :
  Private ∈ rules default_acl /\
  forall ip, ip_wf ip ->
    allows (mk_acl [Loopback; Private; RuleV4 3405803776 24]) ip = true <->
    allows default_acl ip = true \/ exists a, ip = V4 a /\ same_block 32 24 a 3405803776.
Proof.
  apply (trust_subnet_exact default_acl 3405803776 24
           (mk_acl [Loopback; Private; RuleV4 3405803776 24]) true).
  - repeat constructor.
  - vm_compute. split; congruence.
  - lia.
  - done.
  - reflexivity.
Defined.

(** An empty list opts into LAN trust as the private stance does, but the
    pushed rule then replaces the empty list's implicit private default:
    whenever it is widened, this host and every local address outside the
    subnet lose service. *)
Theorem trust_subnet_empty_drops_private network prefix acl' :
  in_width 32 network -> 0 <= prefix <= 32 ->
  trust_subnet (mk_acl []) network prefix = (acl', true) ->
  forall ip, ip_wf ip ->
    allows acl' ip = true <-> exists a, ip = V4 a /\ same_block 32 prefix a network.
Proof.
  intros Hn Hp. unfold trust_subnet. cbn [rules].
  rewrite bool_decide_eq_true_2 by done. simpl negb. cbn iota.
  destruct (allows _ _) eqn:Ha; [done|]. intros [= <-] ip Hip.
  rewrite allows_nonempty by done. cbn [rules app existsb]. rewrite orb_false_r.
  rewrite rule_matches_spec by done. destruct ip as [a|a]; simpl; naive_solver.
Qed.

Lemma trust_subnet_empty_drops_private_witness :
  allows (mk_acl [RuleV4 3405803776 24]) (V4 2130706433) = true <->
  exists a, V4 2130706433 = V4 a /\ same_block 32 24 a 3405803776.
Proof.
  apply (trust_subnet_empty_drops_private 3405803776 24 (mk_acl [RuleV4 3405803776 24])).
  - vm_compute. split; congruence.
  - lia.
  - reflexivity.
  - vm_compute. split; congruence.
Defined.

(** The consequence for the resolver's own host: 127.0.0.1 is refused. *)
Example empty_list_after_trust_refuses_loopback :
  allows (mk_acl []) (V4 2130706433) = true /\
  allows (fst (trust_subnet (mk_acl []) 3405803776 24)) (V4 2130706433) = false.
Proof. split; reflexivity. Qed.

(** A mapped loopback address is not loopback, although mapped private
    addresses are private. *)
Example mapped_loopback_refused :
  allows default_acl (V6 (65535 * 2 ^ 32 + 2130706433)) = false /\
  allows default_acl (V4 2130706433) = true.
Proof. split; reflexivity. Qed.

(** A zero-prefix CIDR admits its whole family without counting as open to
    the world. *)
Example zero_prefix_not_reported :
  parse ["::/0"] = Ok (mk_acl [RuleV6 0 0]) /\
  is_open_to_world (mk_acl [RuleV6 0 0]) = false /\
  (forall a, rule_matches (V6 a) (RuleV6 0 0) = true).
Proof. repeat split. Qed.
