(* ===== verification/Blocklist.v ===== *)
(** * Blocklist parsing and matching (src/blocklist.rs, the matcher)

    [Blocklist] holds the exact and wildcard rules with the list each came
    from, the allow rules, and the interning table of list names.  [ingest]
    parses one list file into it, [lookup] decides a domain. *)
From S2P Require Import Prelude Str Addr.
Open Scope Z_scope.

(** [SourceId] is a [u16] index into [sources]. *)
Record SourceStat : Type := mk_source { ss_name : string; ss_entries : nat }.

Record Blocklist : Type := mk_blocklist {
  exact : gmap string Z;
  wildcards : gmap string Z;
  allow : gset string;
  allow_wildcards : gset string;
  sources : list SourceStat }.

#[export] Instance source_eq_dec : EqDecision SourceStat.
Proof. solve_decision. Defined.

(** [Blocklist::default()]. *)
Definition empty_blocklist : Blocklist := mk_blocklist ∅ ∅ ∅ ∅ [].

Definition set_exact m bl :=
  mk_blocklist m (wildcards bl) (allow bl) (allow_wildcards bl) (sources bl).
Definition set_wildcards m bl :=
  mk_blocklist (exact bl) m (allow bl) (allow_wildcards bl) (sources bl).
Definition set_allow s bl :=
  mk_blocklist (exact bl) (wildcards bl) s (allow_wildcards bl) (sources bl).
Definition set_allow_wildcards s bl :=
  mk_blocklist (exact bl) (wildcards bl) (allow bl) s (sources bl).
Definition set_sources l bl :=
  mk_blocklist (exact bl) (wildcards bl) (allow bl) (allow_wildcards bl) l.

Definition len (bl : Blocklist) : nat := (size (exact bl) + size (wildcards bl))%nat.
Definition allow_len (bl : Blocklist) : nat := (size (allow bl) + size (allow_wildcards bl))%nat.

Definition source_name (bl : Blocklist) (id : Z) : string :=
  match sources bl !! Z.to_nat id with Some s => ss_name s | None => "unknown" end.

(** [iter().position(..)]. *)
Fixpoint position {A} (p : A -> bool) (l : list A) : option nat :=
  match l with
  | [] => None
  | x :: r => if p x then Some 0%nat
              else match position p r with Some i => Some (S i) | None => None end
  end.

Definition intern (bl : Blocklist) (name : string) : Blocklist * Z :=
  match position (fun s => (ss_name s =? name)%string) (sources bl) with
  | Some i => (bl, wrap 16 (Z.of_nat i))
  | None =>
      if u16_max <=? Z.of_nat (length (sources bl)) then (bl, u16_max - 1)
      else let bl' := set_sources (sources bl ++ [mk_source name 0]) bl in
           (bl', wrap 16 (Z.of_nat (length (sources bl') - 1)))
  end.

(* ------------------------------------------------------------------ *)
(** ** Matching *)

(** The loop that walks up the labels: each step cuts after the next dot,
    stops on an empty rest, and probes what is left. *)
Fixpoint walk_labels {A} (probe : string -> option A) (rest : string) : option A :=
  match rest with
  | "" => None
  | String c r =>
      if Ascii.eqb c "." then
        if is_empty r then None
        else match probe r with Some x => Some x | None => walk_labels probe r end
      else walk_labels probe r
  end.

Definition allow_probe (bl : Blocklist) (d : string) : option unit :=
  if bool_decide (d ∈ allow_wildcards bl) then Some tt else None.

Definition is_allowed (bl : Blocklist) (domain : string) : bool :=
  if bool_decide (domain ∈ allow bl) then true
  else if bool_decide (domain ∈ allow_wildcards bl) then true
  else is_some (walk_labels (allow_probe bl) domain).

Definition lookup (bl : Blocklist) (domain : string) : option string :=
  if is_allowed bl domain then None
  else match exact bl !! domain with
  | Some src => Some (source_name bl src)
  | None =>
      match wildcards bl !! domain with
      | Some src => Some (source_name bl src)
      | None =>
          match walk_labels (fun rest => wildcards bl !! rest) domain with
          | Some src => Some (source_name bl src)
          | None => None
          end
      end
  end.

(* ------------------------------------------------------------------ *)
(** ** Parsing list entries *)

Inductive Entry : Type :=
  | Exact (d : string)
  | Wildcard (d : string).
Inductive AdblockRule : Type :=
  | Block (d : string)
  | Exception (d : string).

Definition label_ok (label : string) : bool :=
  negb (is_empty label || (63 <? str_len label))
  && str_forallb (fun b => is_ascii_alphanumeric b || Ascii.eqb b "-" || Ascii.eqb b "_") label.

Definition domain_ok (domain : string) : bool :=
  negb (is_empty domain || (253 <? str_len domain) || negb (contains_char "." domain))
  && negb (is_some (parse_ip domain))
  && forallb label_ok (split_char "." domain).

Definition normalize (entry : string) : option Entry :=
  let e := to_ascii_lowercase (trim_end_matches "." (trim entry)) in
  let '(wildcard, domain) :=
    match strip_prefix "*." e with Some rest => (true, rest) | None => (false, e) end in
  if domain_ok domain then Some (if wildcard then Wildcard domain else Exact domain) else None.

Definition is_valid_domain (domain : string) : bool := is_some (normalize domain).

Definition parse_adblock (line : string) : option AdblockRule :=
  if starts_with "[" line then None
  else
    let '(rest, exception) :=
      match strip_prefix "@@" line with Some r => (r, true) | None => (line, false) end in
    let! rest := strip_prefix "||" rest in
    let '(domain, tail) :=
      break_at (fun c => Ascii.eqb c "^" || Ascii.eqb c "$" || Ascii.eqb c "/") rest in
    let has_modifier := contains_char "$" tail || contains_char "/" tail in
    if has_modifier || is_empty domain || contains_char "*" domain then None
    else Some (if exception then Exception domain else Block domain).

(** [entry(d).or_insert(source)]. *)
Definition or_insert (d : string) (source : Z) (m : gmap string Z) : gmap string Z :=
  match m !! d with Some _ => m | None => <[d := source]> m end.

Definition add_block (bl : Blocklist) (entry : string) (source : Z) : Blocklist :=
  match normalize entry with
  | Some (Exact d) => set_exact (or_insert d source (exact bl)) bl
  | Some (Wildcard d) => set_wildcards (or_insert d source (wildcards bl)) bl
  | None => bl
  end.

Definition add_allow (bl : Blocklist) (entry : string) : Blocklist :=
  match normalize entry with
  | Some (Exact d) => set_allow ({[d]} ∪ allow bl) bl
  | Some (Wildcard d) => set_allow_wildcards ({[d]} ∪ allow_wildcards bl) bl
  | None => bl
  end.

(** A list entry goes to the allow or the block rules. *)
Definition add_entry (is_allow : bool) (source : Z) (bl : Blocklist) (entry : string) : Blocklist :=
  if is_allow then add_allow bl entry else add_block bl entry source.

Definition is_hosts_address (first : string) : bool :=
  existsb (String.eqb first) ["0.0.0.0"; "127.0.0.1"; "::"; "::1"; "0.0.0.0.0"].
Definition is_local_name (domain : string) : bool :=
  existsb (eq_ignore_ascii_case domain) ["localhost"; "localhost.localdomain"; "broadcasthost"].

Definition ingest_line (is_allow : bool) (source_id : Z) (bl : Blocklist) (raw : string) : Blocklist :=
  let line := trim (hd "" (split_on (fun c => Ascii.eqb c "#" || Ascii.eqb c "!") raw)) in
  if is_empty line then bl
  else match parse_adblock line with
  | Some (Block d) => add_entry is_allow source_id bl ("*." +:+ d)
  | Some (Exception d) => add_allow bl ("*." +:+ d)
  | None =>
      let fields := split_whitespace line in
      let first := hd "" fields in
      let rest := tl fields in
      if is_hosts_address first then
        fold_left (fun bl domain =>
          if is_local_name domain then bl else add_entry is_allow source_id bl domain) rest bl
      else match rest with
           | [] => add_entry is_allow source_id bl first
           | _ :: _ => bl
           end
  end.

(** [sources.get_mut(i)] and add to its count. *)
Definition add_entries (i : nat) (n : nat) (l : list SourceStat) : list SourceStat :=
  alter (fun s => mk_source (ss_name s) (ss_entries s + n)) i l.

Definition ingest (bl : Blocklist) (contents source : string) (is_allow : bool) : Blocklist * nat :=
  let before := if is_allow then allow_len bl else len bl in
  let '(bl1, source_id) := if is_allow then (bl, 0) else intern bl source in
  let bl2 := fold_left (ingest_line is_allow source_id) (lines contents) bl1 in
  let after := if is_allow then allow_len bl2 else len bl2 in
  let added := (after - before)%nat in
  (if is_allow then bl2
   else set_sources (add_entries (Z.to_nat source_id) added (sources bl2)) bl2, added).

(* ------------------------------------------------------------------ *)
(** ** The tests of the source, evaluated *)

Definition NL : string := String newline "".

Example hosts_and_bare_formats :
  let bl := fst (ingest empty_blocklist ("# comment" +:+ NL +:+ "0.0.0.0 ads.example.com" +:+ NL
    +:+ "127.0.0.1 tracker.net" +:+ NL +:+ "bare.org" +:+ NL +:+ "0.0.0.0 localhost" +:+ NL) "test" false) in
  map (lookup bl) ["ads.example.com"; "tracker.net"; "bare.org"; "localhost"; "example.com"]
  = [Some "test"; Some "test"; Some "test"; None; None].
Proof. vm_compute. reflexivity. Qed.

Example adblock_exceptions_become_allow_rules :
  let bl := fst (ingest empty_blocklist ("||example.com^" +:+ NL +:+ "@@||safe.example.com^" +:+ NL) "abp" false) in
  map (lookup bl) ["tracker.example.com"; "safe.example.com"] = [Some "abp"; None].
Proof. vm_compute. reflexivity. Qed.

Example adblock_rules_skipped :
  snd (ingest empty_blocklist ("||example.com^$third-party" +:+ NL +:+ "||example.org/ads/banner.png" +:+ NL
    +:+ "||*.example.net^" +:+ NL +:+ "##.advert" +:+ NL) "abp" false) = 0%nat.
Proof. vm_compute. reflexivity. Qed.

Example uppercase_and_trailing_dot :
  lookup (fst (ingest empty_blocklist ("ADS.Example.COM." +:+ NL) "test" false)) "ads.example.com" = Some "test".
Proof. vm_compute. reflexivity. Qed.

(* ------------------------------------------------------------------ *)
(** ** Which rules cover a domain *)

(** [r] is what is left of [d] after one of its dots. *)
Definition parent (d r : string) : Prop := r <> "" /\ exists x, d = x +:+ String "." r.
(** A wildcard rule covers its own name and every name beneath it. *)
Definition covers (rule d : string) : Prop := d = rule \/ parent d rule.

Lemma parent_nil r : ~ parent "" r.
Proof. intros (_ & [|? ?] & ?); discriminate. Qed.

Lemma parent_cons c d r :
  parent (String c d) r <-> (c = "."%char /\ r = d /\ d <> "") \/ parent d r.
Proof.
  split.
  - intros (Hr & [|b x] & Hx); simpl in Hx; simplify_eq; [by left|].
    right. split; [done|]. by exists x.
  - intros [(-> & -> & Hd)|(Hr & x & ->)].
    + split; [done|]. by exists "".
    + split; [done|]. by exists (String c x).
Qed.

Lemma parent_shorter d r : parent d r -> (String.length r < String.length d)%nat.
Proof. intros (_ & x & ->). rewrite str_length_app. simpl. lia. Qed.

Lemma walk_labels_none {A} (probe : string -> option A) d :
  walk_labels probe d = None <-> forall r, parent d r -> probe r = None.
Proof.
  induction d as [|c d IH]; simpl.
  { split; [|done]. intros _ r Hp. by apply parent_nil in Hp. }
  setoid_rewrite parent_cons.
  destruct (Ascii.eqb_spec c ".") as [->|Hne].
  - destruct (is_empty d) eqn:He.
    + apply is_empty_true in He as ->. split; [|done].
      intros _ r [(_ & -> & ?)|Hp]; [done|by apply parent_nil in Hp].
    + destruct (probe d) as [x|] eqn:Hd.
      * split; [done|]. intros H. rewrite H in Hd; [done|]. left. repeat split; [].
        intros ->. done.
      * rewrite IH. naive_solver.
  - rewrite IH. naive_solver.
Qed.

(** The walk answers with the longest (most specific) parent that hits. *)
Lemma walk_labels_some {A} (probe : string -> option A) d x :
  walk_labels probe d = Some x ->
  exists r, parent d r /\ probe r = Some x /\
    forall r', parent d r' -> (String.length r < String.length r')%nat -> probe r' = None.
Proof.
  induction d as [|c d IH]; simpl; [done|]. intros H. setoid_rewrite parent_cons.
  assert (walk_labels probe d = Some x -> (c = "."%char -> probe d = None) ->
    exists r, ((c = "."%char /\ r = d /\ d <> "") \/ parent d r) /\ probe r = Some x /\
    forall r', (c = "."%char /\ r' = d /\ d <> "") \/ parent d r' ->
      (String.length r < String.length r')%nat -> probe r' = None) as Hrec.
  { intros Hw Hd. destruct (IH Hw) as (r & Hp & Hr & Hmax). exists r.
    split; [by right|]. split; [done|]. intros r' [(-> & -> & _)|Hp'] Hl; auto. }
  destruct (Ascii.eqb_spec c ".") as [->|Hne]; [|by apply Hrec].
  destruct (is_empty d) eqn:He; [done|].
  destruct (probe d) as [y|] eqn:Hd; [|by apply Hrec]. simplify_eq.
  exists d. split; [left; repeat split; by intros ->|]. split; [done|].
  intros r' [(_ & -> & _)|Hp] Hl; [lia|]. apply parent_shorter in Hp. lia.
Qed.

Lemma walk_labels_eq {A} (probe : string -> option A) rest :
  walk_labels probe rest =
  match after_char "." rest with
  | None => None
  | Some r => if is_empty r then None
              else match probe r with Some x => Some x | None => walk_labels probe r end
  end.
Proof. induction rest as [|c r IH]; simpl; [done|]. by destruct (Ascii.eqb c "."). Qed.

Lemma is_allowed_spec bl d :
  is_allowed bl d = true <-> d ∈ allow bl \/ exists r, r ∈ allow_wildcards bl /\ covers r d.
Proof.
  unfold is_allowed. case_bool_decide as Ha; [naive_solver|].
  case_bool_decide as Hw; [unfold covers; naive_solver|].
  destruct (walk_labels (allow_probe bl) d) as [[]|] eqn:E; simpl.
  - split; [|done]. intros _. apply walk_labels_some in E as (r & Hp & Hr & _).
    unfold allow_probe in Hr. case_bool_decide; [|done]. right. exists r. split; [done|by right].
  - split; [done|]. intros [?|(r & Hr & [->|Hp])]; [done..|].
    rewrite walk_labels_none in E. specialize (E r Hp). unfold allow_probe in E.
    by case_bool_decide.
Qed.

(* ------------------------------------------------------------------ *)
(** ** Well-formed domains *)

Definition domain_char (a : ascii) : bool :=
  Ascii.eqb a "." || (is_ascii_alphanumeric a || Ascii.eqb a "-" || Ascii.eqb a "_").
Definition no_upper (d : string) : bool := str_forallb (fun a => negb (is_ascii_upper a)) d.
Definition valid_domain (d : string) : Prop := domain_ok d = true /\ no_upper d = true.

Lemma domain_char_plain a : domain_char a = true -> plain a = true.
Proof. all_chars a; done. Qed.
(** None of the syntax of list files is a domain character. *)
Lemma domain_char_not a c :
  domain_char a = true -> domain_char c = false -> Ascii.eqb a c = false.
Proof. intros Ha Hc. destruct (Ascii.eqb_spec a c); congruence. Qed.

Lemma domain_ok_inv d :
  domain_ok d = true ->
  d <> "" /\ str_len d <= 253 /\ contains_char "." d = true /\ parse_ip d = None /\
  Forall (fun l => label_ok l = true) (split_char "." d).
Proof.
  unfold domain_ok. intros H. bools. repeat split; try done.
  - by intros ->.
  - by destruct (parse_ip d).
  - apply Forall_forall. by apply forallb_is_true.
Qed.

Lemma domain_ok_chars d : domain_ok d = true -> str_forallb domain_char d = true.
Proof.
  intros (_ & _ & _ & _ & Hl)%domain_ok_inv. apply split_on_forallb.
  intros w Hw. rewrite Forall_forall in Hl. specialize (Hl w Hw).
  unfold label_ok in Hl. by bools.
Qed.

Lemma domain_ok_no_trailing_dot d : domain_ok d = true -> ~ ends_with_char "." d.
Proof.
  intros (_ & _ & _ & _ & Hl)%domain_ok_inv [x ->]. rewrite Forall_forall in Hl.
  unfold split_char in Hl. rewrite split_on_app in Hl by done.
  specialize (Hl "" ltac:(set_solver)). done.
Qed.

Lemma domain_not_char d c :
  domain_ok d = true -> domain_char c = false -> contains_char c d = false.
Proof.
  intros Hd Hc. apply contains_char_forallb.
  apply str_forallb_impl with domain_char; [|by apply domain_ok_chars].
  intros a Ha. by rewrite domain_char_not.
Qed.

Lemma domain_plain d : domain_ok d = true -> str_forallb plain d = true.
Proof. intros Hd. eapply str_forallb_impl, domain_ok_chars; [apply domain_char_plain|done]. Qed.

Lemma domain_no_prefix d p a :
  domain_ok d = true -> domain_char a = false -> strip_prefix (String a p) d = None.
Proof.
  intros Hd Ha. apply domain_ok_chars in Hd. destruct d as [|b d]; [done|].
  cbn [str_forallb strip_prefix] in *. bools.
  destruct (Ascii.eqb_spec a b); [congruence|done].
Qed.
#[export] Hint Resolve domain_plain domain_ok_no_trailing_dot : nw.

Lemma trim_end_domain x d : domain_ok d = true -> trim_end_matches "." (x +:+ d) = x +:+ d.
Proof.
  intros Hd. apply trim_end_matches_id. intros [y Hy].
  assert (d <> "") as Hne by (intros ->; done).
  assert (forall x d, d <> "" -> ends_with_char "." (x +:+ d) -> ends_with_char "." d) as Hend.
  { clear. intros x. induction x as [|a x IH]; intros d Hd; [done|].
    intros [[|b y] Hy]; simpl in Hy; injection Hy as Ha Hy.
    - exfalso. destruct x, d; done.
    - apply IH; [done|]. by exists y. }
  eapply domain_ok_no_trailing_dot; [done|]. eapply (Hend x); [done|]. by exists y.
Qed.

(** A valid domain normalises to itself, with or without [*.]. *)
Lemma normalize_valid d : valid_domain d -> normalize d = Some (Exact d).
Proof.
  intros [Hok Hlow]. unfold normalize. rewrite trim_plain by auto with nw.
  pose proof (trim_end_domain "" d Hok) as Ht. cbn [String.append] in Ht. rewrite Ht.
  rewrite to_ascii_lowercase_id by done. rewrite domain_no_prefix by done. by rewrite Hok.
Qed.

Lemma normalize_wildcard d : valid_domain d -> normalize ("*." +:+ d) = Some (Wildcard d).
Proof.
  intros [Hok Hlow]. unfold normalize.
  rewrite trim_plain by (rewrite str_forallb_app; simpl; auto with nw).
  rewrite trim_end_domain by done.
  rewrite to_ascii_lowercase_app, (to_ascii_lowercase_id d) by done. simpl. by rewrite Hok.
Qed.

Lemma no_upper_app a b : no_upper (a +:+ b) = no_upper a && no_upper b.
Proof. apply str_forallb_app. Qed.

Lemma normalize_sound e en :
  normalize e = Some en ->
  match en with Exact d | Wildcard d => valid_domain d end.
Proof.
  unfold normalize. set (e' := to_ascii_lowercase _).
  assert (no_upper e' = true) as Hlow by apply lowercase_not_upper.
  destruct (strip_prefix "*." e') as [rest|] eqn:E.
  - destruct (domain_ok rest) eqn:Hok; [|done]. intros [= <-]. split; [done|].
    apply strip_prefix_spec in E. rewrite E in Hlow.
    rewrite no_upper_app in Hlow. by bools.
  - destruct (domain_ok e') eqn:Hok; [|done]. by intros [= <-].
Qed.

(** What normalising an entry to [en] means for a list of rules. *)
Definition entry_text (en : Entry) : string :=
  match en with Exact d => d | Wildcard d => "*." +:+ d end.
Definition entry_domain (en : Entry) : string := match en with Exact d | Wildcard d => d end.

(** Canonicalisation: an accepted entry is a lower-case domain of at most
    253 bytes with at least two labels, each of 1 to 63 letters, digits,
    hyphens or underscores, and no IP address; and writing the rule out and
    reading it again gives the same rule. *)
Theorem normalize_roundtrip e en :
  normalize e = Some en ->
  valid_domain (entry_domain en) /\ normalize (entry_text en) = Some en.
Proof.
  intros H. apply normalize_sound in H. destruct en as [d|d]; simpl in *.
  - split; [done|by apply normalize_valid].
  - split; [done|by apply normalize_wildcard].
Qed.

Lemma normalize_roundtrip_witness :
  valid_domain "ads.example.com" /\ normalize "*.ads.example.com" = Some (Wildcard "ads.example.com").
Proof. apply (normalize_roundtrip " *.ADS.example.com. " (Wildcard "ads.example.com")). reflexivity. Defined.

(* ------------------------------------------------------------------ *)
(** ** Invariants of the matcher *)

Definition names (bl : Blocklist) : list string := map ss_name (sources bl).

Definition rule_table_wf (n : nat) (m : gmap string Z) : Prop :=
  map_Forall (fun d i => valid_domain d /\ 0 <= i < Z.of_nat n) m.

(** Every rule is a valid domain labelled with an existing source, and no
    list has two slots. *)
Record bl_wf (bl : Blocklist) : Prop := mk_bl_wf {
  wf_exact : rule_table_wf (length (sources bl)) (exact bl);
  wf_wildcards : rule_table_wf (length (sources bl)) (wildcards bl);
  wf_allow : forall d, d ∈ allow bl -> valid_domain d;
  wf_allow_wildcards : forall d, d ∈ allow_wildcards bl -> valid_domain d;
  wf_names : NoDup (names bl);
  wf_room : Z.of_nat (length (sources bl)) <= u16_max }.

(** The per-list counts of the dashboard add up to the number of rules. *)
Definition counted (bl : Blocklist) : Prop := sum_list_with ss_entries (sources bl) = len bl.

(** Nothing is lost or relabelled on the way from [bl] to [bl']. *)
Record grows (bl bl' : Blocklist) : Prop := mk_grows {
  gr_exact : exact bl ⊆ exact bl';
  gr_wildcards : wildcards bl ⊆ wildcards bl';
  gr_allow : allow bl ⊆ allow bl';
  gr_allow_wildcards : allow_wildcards bl ⊆ allow_wildcards bl';
  gr_names : names bl `prefix_of` names bl' }.

#[export] Instance grows_preorder : PreOrder grows.
Proof.
  split.
  - intros bl. by split.
  - intros a b c [] []. split; by etrans.
Qed.

Lemma or_insert_subseteq d s (m : gmap string Z) : m ⊆ or_insert d s m.
Proof. unfold or_insert. destruct (m !! d) eqn:E; [done|]. by apply insert_subseteq. Qed.

Lemma or_insert_is_some d s (m : gmap string Z) : is_Some (or_insert d s m !! d).
Proof. unfold or_insert. destruct (m !! d) eqn:E; [by rewrite E|]. by rewrite lookup_insert_eq. Qed.

Lemma or_insert_wf n d s m :
  rule_table_wf n m -> valid_domain d -> 0 <= s < Z.of_nat n -> rule_table_wf n (or_insert d s m).
Proof.
  intros Hm Hd Hs. unfold or_insert. destruct (m !! d); [done|].
  apply map_Forall_insert_2; [done|done].
Qed.

Lemma add_block_grows bl e id : grows bl (add_block bl e id).
Proof.
  unfold add_block. destruct (normalize e) as [[d|d]|]; [..|done];
    split; simpl; try done; apply or_insert_subseteq.
Qed.

Lemma add_allow_grows bl e : grows bl (add_allow bl e).
Proof.
  unfold add_allow. destruct (normalize e) as [[d|d]|]; [..|done]; split; simpl; try done; set_solver.
Qed.

Lemma add_block_sources bl e id : sources (add_block bl e id) = sources bl.
Proof. unfold add_block. by destruct (normalize e) as [[d|d]|]. Qed.
Lemma add_allow_sources bl e : sources (add_allow bl e) = sources bl.
Proof. unfold add_allow. by destruct (normalize e) as [[d|d]|]. Qed.
Lemma add_allow_rules bl e :
  exact (add_allow bl e) = exact bl /\ wildcards (add_allow bl e) = wildcards bl.
Proof. unfold add_allow. by destruct (normalize e) as [[d|d]|]. Qed.

Lemma add_block_wf bl e id :
  bl_wf bl -> 0 <= id < Z.of_nat (length (sources bl)) -> bl_wf (add_block bl e id).
Proof.
  intros [] Hid. unfold add_block.
  destruct (normalize e) as [en|] eqn:E; [|done]. apply normalize_sound in E.
  destruct en; split; simpl; try done; by apply or_insert_wf.
Qed.

Lemma add_allow_wf bl e : bl_wf bl -> bl_wf (add_allow bl e).
Proof.
  intros []. unfold add_allow.
  destruct (normalize e) as [en|] eqn:E; [|done]. apply normalize_sound in E.
  destruct en; split; simpl; try done; intros d' [->%elem_of_singleton|?]%elem_of_union; auto.
Qed.

(** Every line is a sequence of [add_allow] and, on block lists, [add_block]
    steps: what those preserve, [ingest_line] preserves. *)
Lemma ingest_line_inv (P : Blocklist -> Prop) is_allow id bl raw :
  (forall bl e, P bl -> P (add_allow bl e)) ->
  (is_allow = false -> forall bl e, P bl -> P (add_block bl e id)) ->
  P bl -> P (ingest_line is_allow id bl raw).
Proof.
  intros Ha Hb HP.
  assert (forall bl e, P bl -> P (add_entry is_allow id bl e)) as He.
  { intros bl' e H. unfold add_entry. destruct is_allow; auto. }
  unfold ingest_line. destruct (is_empty _); [done|].
  destruct (parse_adblock _) as [[d|d]|]; [by apply He|by apply Ha|].
  destruct (is_hosts_address _).
  - apply fold_left_inv; [done|]. intros bl' x H. destruct (is_local_name x); auto.
  - destruct (tl _); auto.
Qed.

Lemma ingest_lines_inv (P : Blocklist -> Prop) is_allow id ls bl :
  (forall bl e, P bl -> P (add_allow bl e)) ->
  (is_allow = false -> forall bl e, P bl -> P (add_block bl e id)) ->
  P bl -> P (fold_left (ingest_line is_allow id) ls bl).
Proof. intros. apply fold_left_inv; [done|]. intros. by apply ingest_line_inv. Qed.

Lemma ingest_lines_grows is_allow id ls bl : grows bl (fold_left (ingest_line is_allow id) ls bl).
Proof.
  apply (ingest_lines_inv (grows bl)); [| |done]; intros.
  - etrans; [done|]. apply add_allow_grows.
  - etrans; [done|]. apply add_block_grows.
Qed.

Lemma ingest_lines_sources is_allow id ls bl :
  sources (fold_left (ingest_line is_allow id) ls bl) = sources bl.
Proof.
  apply (ingest_lines_inv (fun b => sources b = sources bl)); [| |done]; intros.
  - by rewrite add_allow_sources.
  - by rewrite add_block_sources.
Qed.

Lemma ingest_lines_wf is_allow id ls bl :
  bl_wf bl -> (is_allow = false -> 0 <= id < Z.of_nat (length (sources bl))) ->
  bl_wf (fold_left (ingest_line is_allow id) ls bl).
Proof.
  intros Hwf Hid.
  apply (ingest_lines_inv (fun b => bl_wf b /\ sources b = sources bl)).
  - intros b e [? <-]. split; [by apply add_allow_wf|apply add_allow_sources].
  - intros Ha b e [? Hs]. split; [|by rewrite add_block_sources].
    apply add_block_wf; [done|]. rewrite Hs. auto.
  - done.
Qed.

Lemma ingest_lines_allow_rules id ls bl :
  len (fold_left (ingest_line true id) ls bl) = len bl.
Proof.
  apply (ingest_lines_inv (fun b => len b = len bl)); [|done|done].
  intros b e <-. unfold len. by destruct (add_allow_rules b e) as [-> ->].
Qed.

Lemma grows_len bl bl' : grows bl bl' -> (len bl <= len bl')%nat.
Proof.
  intros []. unfold len. apply map_subseteq_size in gr_exact0, gr_wildcards0. lia.
Qed.

(* ------------------------------------------------------------------ *)
(** ** Interning list names *)

Lemma position_some {A} (p : A -> bool) l i :
  position p l = Some i -> exists x, l !! i = Some x /\ p x = true.
Proof.
  revert i. induction l as [|y l IH]; simpl; intros i; [done|].
  destruct (p y) eqn:Hp; [intros [= <-]; eauto|].
  destruct (position p l) as [j|]; [|done]. intros [= <-]. by apply (IH j).
Qed.
Lemma position_none {A} (p : A -> bool) l : position p l = None -> Forall (fun x => p x = false) l.
Proof.
  induction l as [|y l IH]; simpl; [constructor|]. destruct (p y) eqn:Hp; [done|].
  destruct (position p l); [done|]. constructor; auto.
Qed.

Lemma intern_spec bl name bl' id :
  bl_wf bl -> intern bl name = (bl', id) ->
  bl_wf bl' /\ grows bl bl' /\ 0 <= id < Z.of_nat (length (sources bl')) /\
  exact bl' = exact bl /\ wildcards bl' = wildcards bl /\
  sum_list_with ss_entries (sources bl') = sum_list_with ss_entries (sources bl) /\
  (Z.of_nat (length (sources bl)) < u16_max -> source_name bl' id = name).
Proof.
  intros Hwf. pose proof (wf_room _ Hwf) as Hroom. unfold intern.
  destruct (position _ _) as [i|] eqn:Hpos.
  - intros [= <- <-]. apply position_some in Hpos as (s & Hi & Hs).
    apply String.eqb_eq in Hs. pose proof (lookup_lt_Some _ _ _ Hi) as Hlt.
    assert (wrap 16 (Z.of_nat i) = Z.of_nat i) as -> by (apply wrap_small; unfold u16_max in *; pow_lia).
    split; [done|]. split; [done|]. split; [lia|]. repeat split.
    intros _. unfold source_name. by rewrite Nat2Z.id, Hi.
  - destruct (u16_max <=? _) eqn:Hmax; bools.
    + intros [= <- <-]. unfold u16_max in *. split; [done|]. split; [done|]. split; [lia|].
      repeat split. lia.
    + intros [= <- <-]. simpl. rewrite length_app. simpl.
      apply position_none in Hpos. unfold u16_max in Hmax.
      replace (length (sources bl) + 1 - 1)%nat with (length (sources bl)) by lia.
      rewrite wrap_small by pow_lia.
      assert (forall m, rule_table_wf (length (sources bl)) m ->
        rule_table_wf (length (sources bl) + 1) m) as Hmono.
      { intros m Hm d i Hi. destruct (Hm d i Hi). split; [done|lia]. }
      split; [|split; [|split; [lia|repeat split]]].
      * destruct Hwf. split; simpl; rewrite ?length_app; auto;
          try (unfold u16_max; simpl; lia).
        unfold names. simpl. rewrite map_app. apply NoDup_app. split; [done|]. split; [|simpl; apply NoDup_singleton].
        intros n (s & -> & Hs)%list_elem_of_fmap. simpl. rewrite list_elem_of_singleton.
        rewrite Forall_forall in Hpos. specialize (Hpos s Hs). simpl in Hpos.
        apply String.eqb_neq in Hpos. congruence.
      * split; simpl; try done. unfold names. simpl. rewrite map_app. by apply prefix_app_r.
      * rewrite sum_list_with_snoc. simpl. lia.
      * intros _. unfold source_name. simpl. rewrite Nat2Z.id.
        by rewrite lookup_app_r, Nat.sub_diag by lia.
Qed.

Lemma add_entries_sum i n l :
  (i < length l)%nat ->
  sum_list_with ss_entries (add_entries i n l) = (sum_list_with ss_entries l + n)%nat.
Proof.
  unfold add_entries, alter. revert i. induction l as [|s l IH]; simpl; intros i Hi; [lia|].
  destruct i as [|i]; simpl; [lia|]. rewrite IH by lia. lia.
Qed.

Lemma add_entries_names i n l : map ss_name (add_entries i n l) = map ss_name l.
Proof.
  unfold add_entries, alter. revert i. induction l as [|s l IH]; intros [|i]; simpl; try done.
  by rewrite IH.
Qed.

Lemma set_sources_wf bl l :
  bl_wf bl -> map ss_name l = names bl -> bl_wf (set_sources l bl).
Proof.
  intros [] Hn. assert (length l = length (sources bl)) as Hl.
  { apply (f_equal length) in Hn. unfold names in Hn. by rewrite !length_map in Hn. }
  split; simpl; rewrite ?Hl; try done. unfold names. simpl. by rewrite Hn.
Qed.

Lemma set_sources_grows bl l : map ss_name l = names bl -> grows bl (set_sources l bl).
Proof. intros Hn. split; simpl; try done. unfold names at 2. simpl. by rewrite Hn. Qed.

(** The facts about one [ingest] that the properties below share. *)
Lemma ingest_facts bl contents source is_allow bl' added :
  bl_wf bl -> ingest bl contents source is_allow = (bl', added) ->
  bl_wf bl' /\ grows bl bl' /\
  (if is_allow then len bl' = len bl /\ sources bl' = sources bl
   else len bl' = (len bl + added)%nat /\
        sum_list_with ss_entries (sources bl') = (sum_list_with ss_entries (sources bl) + added)%nat).
Proof.
  intros Hwf. unfold ingest. destruct is_allow.
  - set (b := fold_left _ _ _). intros [= <- <-].
    split; [by apply ingest_lines_wf|]. split; [apply ingest_lines_grows|].
    split; [apply ingest_lines_allow_rules|apply ingest_lines_sources].
  - destruct (intern bl source) as [bl1 id] eqn:E.
    apply intern_spec in E as (Hwf1 & Hg & Hid & He & Hw & Hsum & _); [|done].
    pose proof (ingest_lines_wf false id (lines contents) bl1 Hwf1 (fun _ => Hid)) as Hwf2.
    pose proof (ingest_lines_grows false id (lines contents) bl1) as Hg2.
    pose proof (ingest_lines_sources false id (lines contents) bl1) as Hs2.
    set (bl2 := fold_left _ _ _) in *. intros [= <- <-].
    assert (len bl1 = len bl) as Hl1 by (unfold len; by rewrite He, Hw).
    pose proof (grows_len _ _ Hg2) as Hlen.
    pose proof (add_entries_names (Z.to_nat id) (len bl2 - len bl) (sources bl2)) as Hn.
    split; [by apply set_sources_wf|]. split.
    { etrans; [done|]. etrans; [done|]. by apply set_sources_grows. }
    split; [unfold len in *; simpl; lia|]. simpl.
    rewrite add_entries_sum by (rewrite Hs2; lia). rewrite Hs2. lia.
Qed.

(* ------------------------------------------------------------------ *)
(** ** Lines, format by format *)

Lemma split_comment d :
  domain_ok d = true ->
  forall x y, contains_char "#" (x +:+ y) = false -> contains_char "!" (x +:+ y) = false ->
  split_on (fun c => Ascii.eqb c "#" || Ascii.eqb c "!") (x +:+ d +:+ y) = [x +:+ d +:+ y].
Proof.
  intros Hd x y H1 H2. apply split_on_none.
  rewrite contains_char_app in H1, H2. bools.
  pose proof (domain_not_char d "#" Hd eq_refl) as Hh. pose proof (domain_not_char d "!" Hd eq_refl) as Hb.
  rewrite contains_char_forallb in *.
  assert (forall s, str_forallb (fun a => negb (Ascii.eqb a "#")) s = true ->
    str_forallb (fun a => negb (Ascii.eqb a "!")) s = true ->
    str_forallb (fun a => negb (Ascii.eqb a "#" || Ascii.eqb a "!")) s = true) as Hboth.
  { clear. induction s as [|a s IH]; simpl; [done|]. intros ??; bools. by rewrite H, H0, IH. }
  rewrite !str_forallb_app, !Hboth by done. done.
Qed.

(** A line that is one plain token [x ++ d ++ y] after comment stripping. *)
Lemma ingest_token is_allow id bl x d y :
  domain_ok d = true -> str_forallb plain (x +:+ y) = true ->
  contains_char "#" (x +:+ y) = false -> contains_char "!" (x +:+ y) = false ->
  ingest_line is_allow id bl (x +:+ d +:+ y) =
  match parse_adblock (x +:+ d +:+ y) with
  | Some (Block r) => add_entry is_allow id bl ("*." +:+ r)
  | Some (Exception r) => add_allow bl ("*." +:+ r)
  | None => if is_hosts_address (x +:+ d +:+ y) then bl
            else add_entry is_allow id bl (x +:+ d +:+ y)
  end.
Proof.
  intros Hd Hp H1 H2. unfold ingest_line. rewrite split_comment by done. cbn [hd].
  assert (str_forallb plain (x +:+ d +:+ y) = true) as Hpl.
  { rewrite !str_forallb_app in *. bools. rewrite H, H0. simpl. rewrite andb_true_r. auto with nw. }
  rewrite trim_plain by done.
  assert (x +:+ d +:+ y <> "") as Hne.
  { intros E. apply (f_equal String.length) in E. rewrite !str_length_app in E. simpl in E.
    destruct d; [done|simpl in E; lia]. }
  destruct (is_empty (x +:+ d +:+ y)) eqn:He; [by apply is_empty_true in He|].
  rewrite split_whitespace_plain by done. done.
Qed.

Lemma parse_adblock_domain d : domain_ok d = true -> parse_adblock d = None.
Proof.
  intros Hd. unfold parse_adblock, starts_with.
  by rewrite !domain_no_prefix by done.
Qed.

Lemma parse_adblock_wild d : parse_adblock ("*." +:+ d) = None.
Proof. reflexivity. Qed.

Lemma break_domain d y :
  domain_ok d = true ->
  break_at (fun c => Ascii.eqb c "^" || Ascii.eqb c "$" || Ascii.eqb c "/") (d +:+ String "^" y) =
  (d, String "^" y).
Proof.
  intros Hd. apply break_at_app; [|done].
  apply str_forallb_impl with domain_char; [|by apply domain_ok_chars].
  intros a Ha. by rewrite !domain_char_not.
Qed.

Lemma parse_adblock_block d :
  domain_ok d = true -> parse_adblock ("||" +:+ d +:+ "^") = Some (Block d).
Proof.
  intros Hd. unfold parse_adblock. cbn [String.append starts_with strip_prefix is_some Ascii.eqb].
  simpl. rewrite break_domain by done. simpl. rewrite (domain_not_char d "*") by done.
  destruct (is_empty d) eqn:He; [|done]. apply is_empty_true in He. by subst.
Qed.

Lemma parse_adblock_exception d :
  domain_ok d = true -> parse_adblock ("@@||" +:+ d +:+ "^") = Some (Exception d).
Proof.
  intros Hd. unfold parse_adblock. simpl. rewrite break_domain by done. simpl.
  rewrite (domain_not_char d "*") by done.
  destruct (is_empty d) eqn:He; [|done]. apply is_empty_true in He. by subst.
Qed.

Lemma ingest_hosts_line is_allow id bl d :
  domain_ok d = true -> is_local_name d = false ->
  ingest_line is_allow id bl ("0.0.0.0 " +:+ d) = add_entry is_allow id bl d.
Proof.
  intros Hd Hl. pose proof (domain_plain d Hd) as Hp. unfold ingest_line.
  pose proof (split_comment d Hd "0.0.0.0 " "" eq_refl eq_refl) as Hs.
  rewrite str_app_nil_r in Hs. rewrite Hs. cbn [hd]. destruct d as [|a r]; [done|].
  assert (trim ("0.0.0.0 " +:+ String a r) = "0.0.0.0 " +:+ String a r) as ->.
  { cbn [String.append]. unfold trim. rewrite trim_start_plain by done. simpl in Hp. bools.
    rewrite !trim_end_plain_cons by done.
    change (trim_end (String " " (String a r))) with
      (if is_empty (trim_start (String a r)) then "" else String " " (trim_end (String a r))).
    rewrite trim_start_plain, trim_end_plain by (simpl; by rewrite ?H, ?H0). done. }
  cbn [is_empty String.append].
  assert (parse_adblock (String "0" (String "." (String "0" (String "." (String "0" (String "."
    (String "0" (String " " (String a r))))))))) = None) as -> by done.
  unfold split_whitespace.
  change (String "0" _) with ("0.0.0.0" +:+ String " " (String a r)).
  rewrite words_go_plain by done.
  assert (words_go 0 (String " " (String a r)) = ("", [String a r])) as ->.
  { cbn [words_go]. replace (ws_len (String " " (String a r))) with 1%nat by done.
    pose proof (words_go_plain (String a r) "" Hp) as Hw. rewrite str_app_nil_r in Hw.
    cbn [words_go] in Hw. rewrite Hw. simpl. by rewrite str_app_nil_r. }
  cbn. unfold is_local_name in Hl. cbn in Hl. unfold is_local_name. cbn. by rewrite Hl.
Qed.

(** A line whose trimmed text is a domain is a bare-domain line. *)
Lemma trimmed_line_chars l d c :
  domain_ok d = true -> trim l = d -> domain_char c = false -> ws1 c = false -> code c < 128 ->
  contains_char c l = false.
Proof.
  intros Hd Ht Hc Hw Hc8. apply contains_char_forallb.
  apply trim_forallb.
  - intros a [Ha|Ha]; destruct (Ascii.eqb_spec a c) as [->|]; try done; [congruence|lia].
  - rewrite Ht. by apply contains_char_forallb, domain_not_char.
Qed.

Lemma ingest_bare_line is_allow id bl l d :
  domain_ok d = true -> is_hosts_address d = false -> trim l = d ->
  ingest_line is_allow id bl l = add_entry is_allow id bl d.
Proof.
  intros Hd Hh Ht. unfold ingest_line. rewrite split_on_none.
  2:{ pose proof (trimmed_line_chars l d "#" Hd Ht eq_refl eq_refl eq_refl) as H1.
      pose proof (trimmed_line_chars l d "!" Hd Ht eq_refl eq_refl eq_refl) as H2.
      apply contains_char_forallb in H1, H2. revert H1 H2. clear.
      induction l as [|a l IH]; simpl; [done|].
      intros [H1 H1']%andb_true_iff [H2 H2']%andb_true_iff. rewrite IH by done.
      by destruct (Ascii.eqb a "#"), (Ascii.eqb a "!"). }
  cbn [hd]. rewrite Ht.
  destruct (is_empty d) eqn:He; [apply is_empty_true in He; by rewrite He in Hd|].
  assert (d <> "") as Hne by (by intros Hd0; rewrite Hd0 in Hd).
  rewrite parse_adblock_domain, split_whitespace_plain by auto with nw.
  cbn [hd tl]. by rewrite Hh.
Qed.

(** The rule of a line is in the result, whatever the other lines are. *)
Lemma ingest_lines_allow id ls bl l d :
  l ∈ ls -> trim l = d -> valid_domain d -> is_hosts_address d = false ->
  d ∈ allow (fold_left (ingest_line true id) ls bl).
Proof.
  intros (l1 & l2 & ->)%list_elem_of_split Ht Hv Hh. rewrite fold_left_app. simpl.
  apply (gr_allow _ _ (ingest_lines_grows true id l2 _)).
  rewrite (ingest_bare_line _ _ _ l d) by (done || apply Hv).
  unfold add_entry, add_allow. rewrite normalize_valid by done. simpl. set_solver.
Qed.

Lemma ingest_lines_exact id ls bl l d :
  l ∈ ls -> trim l = d -> valid_domain d -> is_hosts_address d = false ->
  is_Some (exact (fold_left (ingest_line false id) ls bl) !! d).
Proof.
  intros (l1 & l2 & ->)%list_elem_of_split Ht Hv Hh. rewrite fold_left_app. simpl.
  rewrite (ingest_bare_line _ _ _ l d) by (done || apply Hv).
  set (bl1 := fold_left _ l1 bl).
  pose proof (gr_exact _ _ (ingest_lines_grows false id l2 (add_entry false id bl1 d))) as Hg.
  unfold add_entry, add_block in *. rewrite normalize_valid in * by done. simpl in Hg |- *.
  destruct (or_insert_is_some d id (exact bl1)) as [x Hx]. exists x. by eapply lookup_weaken.
Qed.

(** Rust's HashMap entry API, one rule at a time. *)
Definition block_exact (id : Z) (d : string) (bl : Blocklist) : Blocklist :=
  set_exact (or_insert d id (exact bl)) bl.
Definition block_wildcard (id : Z) (d : string) (bl : Blocklist) : Blocklist :=
  set_wildcards (or_insert d id (wildcards bl)) bl.
Definition allow_wildcard (d : string) (bl : Blocklist) : Blocklist :=
  set_allow_wildcards ({[d]} ∪ allow_wildcards bl) bl.

(* ------------------------------------------------------------------ *)
(** ** Properties *)

(** Nothing blocks a domain: an allow rule covers it or no block rule does. *)
Lemma lookup_none bl d :
  lookup bl d = None <->
  is_allowed bl d = true \/
  (exact bl !! d = None /\ forall r, covers r d -> wildcards bl !! r = None).
Proof.
  unfold lookup, covers. destruct (is_allowed bl d); [naive_solver|].
  destruct (exact bl !! d) eqn:He; [naive_solver|].
  destruct (wildcards bl !! d) eqn:Hw; [naive_solver|].
  destruct (walk_labels _ d) eqn:E.
  - apply walk_labels_some in E as (r & Hp & Hr & _). split; [done|].
    intros [?|[_ H]]; [done|]. by rewrite (H r) in Hr by auto.
  - rewrite walk_labels_none in E. split; [|done]. intros _. right.
    split; [done|]. intros r [<-|Hp]; auto.
Qed.

(** C28. Matching: a domain is let through iff an allow rule names it (exactly,
    or by a wildcard covering it) or no block rule does; a blocked domain is
    attributed to the list of its exact rule if there is one, and otherwise
    to the list of the most specific wildcard rule that covers it. *)
Theorem lookup_spec bl d :
  let allowed := d ∈ allow bl \/ exists r, r ∈ allow_wildcards bl /\ covers r d in
  match lookup bl d with
  | None => allowed \/ (exact bl !! d = None /\ forall r, covers r d -> wildcards bl !! r = None)
  | Some name => ~ allowed /\
      ((exists id, exact bl !! d = Some id /\ name = source_name bl id) \/
       (exact bl !! d = None /\ exists r id, covers r d /\ wildcards bl !! r = Some id /\
          name = source_name bl id /\
          forall r', covers r' d -> (String.length r < String.length r')%nat ->
            wildcards bl !! r' = None))
  end.
Proof.
  intros allowed. unfold lookup. destruct (is_allowed bl d) eqn:Ha.
  { left. by apply is_allowed_spec. }
  assert (~ allowed) as Hna by (intros H%is_allowed_spec; congruence).
  destruct (exact bl !! d) as [id|] eqn:He; [split; [done|]; left; eauto|].
  destruct (wildcards bl !! d) as [id|] eqn:Hw.
  { split; [done|]. right. split; [done|]. exists d, id. repeat split; [by left|done..|].
    intros r' [->|Hp%parent_shorter] Hl; lia. }
  destruct (walk_labels _ d) as [id|] eqn:E.
  - apply walk_labels_some in E as (r & Hp & Hr & Hmax). split; [done|]. right. split; [done|].
    exists r, id. repeat split; [by right|done|]. intros r' [<-|Hp'] Hl; auto.
  - right. split; [done|]. rewrite walk_labels_none in E. intros r [<-|Hp]; auto.
Qed.

(** C29. [ingest] keeps the matcher well-formed: every stored rule is a valid
    domain labelled with an existing source, list names stay unique within
    the 16-bit index space, and the per-list counts still add up to the
    number of rules. *)
Theorem ingest_wf bl contents source is_allow :
  bl_wf bl -> counted bl ->
  bl_wf (fst (ingest bl contents source is_allow)) /\
  counted (fst (ingest bl contents source is_allow)).
Proof.
  intros Hwf Hc. destruct (ingest bl contents source is_allow) as [bl' added] eqn:E. simpl.
  apply ingest_facts in E as (Hwf' & _ & Hn); [|done]. split; [done|].
  unfold counted in *. destruct is_allow; destruct Hn as [Hl Hs].
  - by rewrite Hs, Hl.
  - rewrite Hs. lia.
Qed.

Lemma empty_blocklist_wf : bl_wf empty_blocklist /\ counted empty_blocklist.
Proof.
  split; [|done]. split; simpl.
  - apply map_Forall_empty.
  - apply map_Forall_empty.
  - set_solver.
  - set_solver.
  - constructor.
  - by vm_compute.
Qed.

Lemma ingest_bl_wf bl contents source is_allow :
  bl_wf bl -> bl_wf (fst (ingest bl contents source is_allow)).
Proof.
  intros Hwf. destruct (ingest bl contents source is_allow) as [bl' added] eqn:E.
  by apply ingest_facts in E as (? & _ & _).
Qed.

Lemma ingest_wf_witness :
  bl_wf (fst (ingest empty_blocklist "ads.example.com" "list" false)) /\
  counted (fst (ingest empty_blocklist "ads.example.com" "list" false)).
Proof. apply ingest_wf; apply empty_blocklist_wf. Defined.

(** Later lists never undo earlier ones: after [ingest] every rule is
    still there with the list it was first attributed to, under the same
    name, so a blocked domain stays blocked unless it is now allowed; and
    the number returned is the number of rules added. *)
Theorem ingest_monotone bl contents source is_allow bl' added :
  bl_wf bl -> ingest bl contents source is_allow = (bl', added) ->
  grows bl bl' /\
  (forall d i, exact bl !! d = Some i -> exact bl' !! d = Some i /\ source_name bl' i = source_name bl i) /\
  (forall d, lookup bl d <> None -> lookup bl' d <> None \/ is_allowed bl' d = true) /\
  (is_allow = false -> len bl' = (len bl + added)%nat) /\
  (is_allow = true -> len bl' = len bl).
Proof.
  intros Hwf E. apply ingest_facts in E as (Hwf' & Hg & Hn); [|done].
  split; [done|]. repeat apply conj.
  - intros d i Hd. pose proof (gr_exact _ _ Hg) as Hex.
    split; [by eapply lookup_weaken|]. unfold source_name.
    destruct (wf_exact _ Hwf d i Hd) as [_ [Hi0 Hi]].
    destruct (lookup_lt_is_Some_2 (sources bl) (Z.to_nat i)) as [s Hs]; [lia|].
    pose proof (prefix_lookup_Some (names bl) (names bl') (Z.to_nat i) (ss_name s)) as Hp.
    unfold names in Hp. rewrite !list_lookup_fmap, Hs in Hp.
    specialize (Hp eq_refl (gr_names _ _ Hg)). rewrite Hs.
    destruct (sources bl' !! Z.to_nat i); simplify_eq/=; congruence.
  - intros d Hd. destruct (is_allowed bl' d) eqn:Ha; [by right|left].
    rewrite lookup_none in *. intros [?|[He Hw]]; [congruence|]. apply Hd. right. split.
    + apply lookup_weaken_None with (exact bl'); [done|apply Hg].
    + intros r Hr. apply lookup_weaken_None with (wildcards bl'); [auto|apply Hg].
  - intros ->. by destruct Hn.
  - intros ->. by destruct Hn.
Qed.

Lemma ingest_monotone_witness :
  let bl := fst (ingest empty_blocklist "ads.example.com" "one" false) in
  let bl' := fst (ingest bl "ads.example.com" "two" false) in
  grows bl bl' /\
  (forall d i, exact bl !! d = Some i -> exact bl' !! d = Some i /\ source_name bl' i = source_name bl i) /\
  (forall d, lookup bl d <> None -> lookup bl' d <> None \/ is_allowed bl' d = true) /\
  (false = false -> len bl' = (len bl + 0)%nat) /\
  (false = true -> len bl' = len bl).
Proof.
  cbv zeta.
  apply (ingest_monotone _ "ads.example.com" "two" false).
  - apply ingest_bl_wf, empty_blocklist_wf.
  - vm_compute. reflexivity.
Defined.

(** The formats agree: for a valid domain, the bare line and the hosts
    line add the same exact rule, the [*.] line and the Adblock [||d^] line
    add the same wildcard rule, and [@@||d^] adds a wildcard allow rule even
    on a block list. *)
Theorem ingest_line_formats id bl d :
  valid_domain d -> is_hosts_address d = false -> is_local_name d = false ->
  ingest_line false id bl d = block_exact id d bl /\
  ingest_line false id bl ("0.0.0.0 " +:+ d) = block_exact id d bl /\
  ingest_line false id bl ("*." +:+ d) = block_wildcard id d bl /\
  ingest_line false id bl ("||" +:+ d +:+ "^") = block_wildcard id d bl /\
  ingest_line false id bl ("@@||" +:+ d +:+ "^") = allow_wildcard d bl.
Proof.
  intros Hv Hh Hl. pose proof Hv as [Hd _].
  pose proof (normalize_valid d Hv) as Hn. pose proof (normalize_wildcard d Hv) as Hnw.
  repeat apply conj.
  - pose proof (ingest_token false id bl "" d "" Hd eq_refl eq_refl eq_refl) as E.
    rewrite str_app_nil_r in E. cbn [String.append] in E.
    rewrite E, parse_adblock_domain, Hh by done. unfold add_entry, add_block. by rewrite Hn.
  - rewrite ingest_hosts_line by done. unfold add_entry, add_block. by rewrite Hn.
  - pose proof (ingest_token false id bl "*." d "" Hd eq_refl eq_refl eq_refl) as E.
    rewrite str_app_nil_r in E. rewrite E, parse_adblock_wild.
    unfold add_entry, add_block. by rewrite Hnw.
  - rewrite (ingest_token false id bl "||" d "^") by done.
    rewrite parse_adblock_block by done. unfold add_entry, add_block. by rewrite Hnw.
  - rewrite (ingest_token false id bl "@@||" d "^") by done.
    rewrite parse_adblock_exception by done. unfold add_allow. by rewrite Hnw.
Qed.

Lemma ingest_line_formats_witness :
  ingest_line false 0 empty_blocklist "ads.example.com" = block_exact 0 "ads.example.com" empty_blocklist /\
  ingest_line false 0 empty_blocklist ("0.0.0.0 " +:+ "ads.example.com") = block_exact 0 "ads.example.com" empty_blocklist /\
  ingest_line false 0 empty_blocklist ("*." +:+ "ads.example.com") = block_wildcard 0 "ads.example.com" empty_blocklist /\
  ingest_line false 0 empty_blocklist ("||" +:+ "ads.example.com" +:+ "^") = block_wildcard 0 "ads.example.com" empty_blocklist /\
  ingest_line false 0 empty_blocklist ("@@||" +:+ "ads.example.com" +:+ "^") = allow_wildcard "ads.example.com" empty_blocklist.
Proof. apply ingest_line_formats; [split|..]; reflexivity. Defined.

(** An Adblock rule with a path after the separator is honoured for the
    whole domain. *)
Example path_after_separator_honoured :
  parse_adblock "||example.com^banner.js" = Some (Block "example.com").
Proof. reflexivity. Qed.
