(* ===== verification/Config.v ===== *)
(** * Configuration (src/config.rs)

    The configuration records with their defaults, the validation run before
    the service starts, and the paths derived from the configuration.  The
    TOML decoder is outside the repository: [load] takes it as an argument. *)
From S2P Require Import Prelude Str Addr Acl.
Open Scope Z_scope.

Record DnsConfig : Type := mk_dns_config {
  dns_listen : SocketAddr;
  dns_listen_v6 : option SocketAddr;
  enable_tcp : bool;
  allow_from : list string;
  upstreams : list SocketAddr;
  upstream_timeout_ms : Z;
  upstream_udp_payload : Z;
  max_udp_in_flight : Z;
  max_tcp_connections : Z;
  request_timeout_ms : Z;
  cache_enabled : bool;
  cache_max_entries : Z;
  cache_min_ttl : Z;
  cache_max_ttl : Z }.

Record WebConfig : Type := mk_web_config {
  web_listen : SocketAddr;
  admin_token : option string }.

Record StorageConfig : Type := mk_storage_config {
  database : string;
  retention_days : Z;
  flush_interval_ms : Z }.

Record DiscoveryConfig : Type := mk_discovery_config {
  disc_arp : bool;
  arp_interval_secs : Z;
  disc_mdns : bool;
  disc_dhcp : bool;
  disc_sweep : bool;
  sweep_interval_secs : Z;
  reverse_dns : bool;
  disc_subnet : option string;
  oui_file : option string }.

Record BlockingConfig : Type := mk_blocking_config {
  blocking_enabled : bool;
  blocking_mode : string;
  block_sources : list string;
  block_files : list string;
  refresh_hours : Z;
  disable_firefox_doh : bool;
  state_dir : string }.

Record AlertConfig : Type := mk_alert_config {
  alerts_enabled : bool;
  ntfy_url : string;
  cfg_new_device : bool;
  cfg_nxdomain_storm : bool;
  nxdomain_threshold : Z;
  nxdomain_window_mins : Z;
  scan_interval_secs : Z;
  cooldown_mins : Z }.

Record Config : Type := mk_config {
  dns : DnsConfig;
  web : WebConfig;
  storage : StorageConfig;
  discovery : DiscoveryConfig;
  blocking : BlockingConfig;
  alerts : AlertConfig }.

Definition default_dns : DnsConfig := {|
  dns_listen := mk_socket (V4 0) 53;
  dns_listen_v6 := None;
  enable_tcp := true;
  allow_from := ["loopback"; "private"];
  upstreams := [mk_socket (V4 (ipv4 1 1 1 1)) 53; mk_socket (V4 (ipv4 9 9 9 9)) 53];
  upstream_timeout_ms := 2500;
  upstream_udp_payload := 1232;
  max_udp_in_flight := 128;
  max_tcp_connections := 64;
  request_timeout_ms := 10000;
  cache_enabled := true;
  cache_max_entries := 20000;
  cache_min_ttl := 30;
  cache_max_ttl := 86400 |}.

Definition default_web : WebConfig := {|
  web_listen := mk_socket (V4 (ipv4 127 0 0 1)) 8080; admin_token := None |}.

Definition default_storage : StorageConfig := {|
  database := "/var/lib/netwatch/netwatch.db"; retention_days := 14; flush_interval_ms := 750 |}.

Definition default_discovery : DiscoveryConfig := {|
  disc_arp := true; arp_interval_secs := 15; disc_mdns := true; disc_dhcp := false;
  disc_sweep := true; sweep_interval_secs := 120; reverse_dns := true;
  disc_subnet := None; oui_file := None |}.

Definition default_blocking : BlockingConfig := {|
  blocking_enabled := true; blocking_mode := "zero_ip";
  block_sources := ["https://raw.githubusercontent.com/StevenBlack/hosts/master/hosts"];
  block_files := []; refresh_hours := 24; disable_firefox_doh := true;
  state_dir := "/var/lib/netwatch" |}.

Definition default_alerts : AlertConfig := {|
  alerts_enabled := true; ntfy_url := ""; cfg_new_device := true; cfg_nxdomain_storm := true;
  nxdomain_threshold := 50; nxdomain_window_mins := 10; scan_interval_secs := 300;
  cooldown_mins := 60 |}.

Definition default_config : Config := {|
  dns := default_dns; web := default_web; storage := default_storage;
  discovery := default_discovery; blocking := default_blocking; alerts := default_alerts |}.

(** The reasons [validate] refuses a configuration. *)
Inductive InvalidConfig : Type :=
  | NoUpstreams
  | BadAcl (e : AclError)
  | ZeroLimits
  | ListenV6NotIpv6
  | WeakAdminToken
  | BadNtfyUrl
  | ZeroAlertSettings
  | BadBlockingMode.
#[export] Instance invalid_config_eq_dec : EqDecision InvalidConfig.
Proof. solve_decision. Defined.

Definition token_ok (token : option string) : bool :=
  is_some_and (fun t => 16 <=? str_len (trim t)) token.

Definition validate (cfg : Config) : result InvalidConfig unit :=
  let? _ := ensure (negb (bool_decide (upstreams (dns cfg) = []))) NoUpstreams in
  let? _ := map_err BadAcl (parse (allow_from (dns cfg))) in
  let? _ := ensure ((0 <? max_udp_in_flight (dns cfg)) && (0 <? max_tcp_connections (dns cfg))) ZeroLimits in
  let? _ := match dns_listen_v6 (dns cfg) with
            | Some v6 => ensure (is_ipv6 (sa_ip v6)) ListenV6NotIpv6
            | None => Ok tt
            end in
  let? _ := if negb (is_loopback (sa_ip (web_listen (web cfg))))
            then ensure (token_ok (admin_token (web cfg))) WeakAdminToken
            else Ok tt in
  let? _ := if negb (is_empty (trim (ntfy_url (alerts cfg))))
            then let u := trim (ntfy_url (alerts cfg)) in
                 ensure (starts_with "http://" u || starts_with "https://" u) BadNtfyUrl
            else Ok tt in
  let? _ := ensure ((0 <? nxdomain_threshold (alerts cfg)) && (0 <? nxdomain_window_mins (alerts cfg))
                    && (0 <? scan_interval_secs (alerts cfg))) ZeroAlertSettings in
  let? _ := ensure ((blocking_mode (blocking cfg) =? "zero_ip")%string
                    || (blocking_mode (blocking cfg) =? "nxdomain")%string) BadBlockingMode in
  Ok tt.

(** [load]: reading the file and decoding TOML are given. *)
Inductive LoadError : Type :=
  | ReadError | ParseError | Invalid (e : InvalidConfig).

Definition load (from_toml : string -> option Config) (contents : option string) : result LoadError Config :=
  let? text := ok_or ReadError contents in
  let? cfg := ok_or ParseError (from_toml text) in
  let? _ := map_err Invalid (validate cfg) in
  Ok cfg.

(** [load_or_default]: [path] is the file's existence and contents. *)
Definition load_or_default (from_toml : string -> option Config)
    (path : option (bool * option string)) : result LoadError Config :=
  match path with
  | Some (true, contents) => load from_toml contents
  | Some (false, _) => Ok default_config
  | None => Ok default_config
  end.

(* ------------------------------------------------------------------ *)
(** ** Derived paths *)

(** [Path::join] on Unix. *)
Definition ends_with_slash (s : string) : bool := is_some (strip_suffix "/" s).
Definition path_join (base rel : string) : string :=
  if starts_with "/" rel then rel
  else if is_empty base || ends_with_slash base then base +:+ rel
  else base +:+ "/" +:+ rel.

Definition manual_deny_path (cfg : Config) : string := path_join (state_dir (blocking cfg)) "deny.list".
Definition manual_allow_path (cfg : Config) : string := path_join (state_dir (blocking cfg)) "allow.list".

(** 64-bit FNV-1a of the URL. *)
Definition fnv_step (hash b : Z) : Z := wrap 64 (Z.lxor hash b * 1099511628211).
Definition fnv1a (bytes : list Z) : Z := fold_left fnv_step bytes 14695981039346656037.

Definition list_file_name (url : string) : string :=
  "lists/" +:+ show_hex_padded 16 (fnv1a (as_bytes url)) +:+ ".list".
Definition cached_list_path (cfg : Config) (url : string) : string :=
  path_join (state_dir (blocking cfg)) (list_file_name url).

Example default_config_valid : validate default_config = Ok tt.
Proof. vm_compute. reflexivity. Qed.

Example fnv_known : list_file_name "" = "lists/cbf29ce484222325.list".
Proof. vm_compute. reflexivity. Qed.

(* ------------------------------------------------------------------ *)
(** ** Lemmas *)

Lemma let_unit_ok {E B} (r : result E unit) (k : unit -> result E B) b :
  match r with Ok x => k x | Err e => Err e end = Ok b <-> r = Ok tt /\ k tt = Ok b.
Proof. destruct r as [[]|]; naive_solver. Qed.

Lemma let_const_ok {E A B} (r : result E A) (k : result E B) b :
  match r with Ok _ => k | Err e => Err e end = Ok b <-> (exists a, r = Ok a) /\ k = Ok b.
Proof. destruct r; naive_solver. Qed.

Lemma all_digits_no_slash s : all_digits 16 s = true -> contains_char "/" s = false.
Proof.
  intros H. apply contains_char_forallb. unfold all_digits in H.
  induction s as [|a s IH]; [done|]. simpl in *. bools.
  apply andb_true_iff. split; [|auto]. revert H. clear. all_chars a; done.
Qed.

Lemma and_iff_compat (A B C D : Prop) : (A <-> C) -> (B <-> D) -> (A /\ B <-> C /\ D).
Proof. tauto. Qed.

Lemma token_ok_spec t :
  token_ok t = true <-> exists u, t = Some u /\ 16 <= str_len (trim u).
Proof.
  unfold token_ok. destruct t; simpl; [rewrite Z.leb_le|]; naive_solver.
Qed.

Lemma ensure_ok {E} b (e : E) u : ensure b e = Ok u <-> b = true.
Proof. unfold ensure. destruct b, u; naive_solver. Qed.

Lemma show_radix_length fuel z n :
  (n <= fuel)%nat -> 0 <= z < 16 ^ Z.of_nat n -> (1 <= n)%nat ->
  (1 <= String.length (show_radix fuel 16 z) <= n)%nat.
Proof.
  revert z n. induction fuel as [|fuel IH]; intros z n Hf Hz Hn; [lia|]. simpl.
  destruct (Z.ltb_spec z 16); [simpl; lia|].
  rewrite str_length_app. simpl.
  destruct n as [|[|n]]; [lia|simpl in Hz; lia|].
  assert (0 <= z / 16 < 16 ^ Z.of_nat (S n)).
  { rewrite Nat2Z.inj_succ, Z.pow_succ_r in Hz by lia. split; [apply Z.div_pos; lia|].
    apply Z.div_lt_upper_bound; lia. }
  specialize (IH (z / 16) (S n) ltac:(lia) H0 ltac:(lia)). lia.
Qed.

Lemma pad_zeros_length n : String.length (pad_zeros n) = n.
Proof. induction n; simpl; congruence. Qed.
Lemma pad_zeros_hex n : all_digits 16 (pad_zeros n) = true.
Proof. induction n; [done|]. exact IHn. Qed.

Lemma fnv1a_width l : in_width 64 (fnv1a l).
Proof.
  unfold fnv1a. apply fold_left_inv; [by vm_compute|].
  intros. apply wrap_in_width. lia.
Qed.

Lemma show_hex_padded_spec n z :
  (1 <= n <= 40)%nat -> 0 <= z < 16 ^ Z.of_nat n ->
  String.length (show_hex_padded n z) = n /\ all_digits 16 (show_hex_padded n z) = true.
Proof.
  intros Hn Hz. unfold show_hex_padded.
  pose proof (show_radix_length 40 z n ltac:(lia) Hz ltac:(lia)). split.
  - rewrite str_length_app, pad_zeros_length. lia.
  - unfold all_digits in *. rewrite str_forallb_app. apply andb_true_iff. split.
    + apply pad_zeros_hex.
    + apply show_radix_digits; lia.
Qed.

(* ------------------------------------------------------------------ *)
(** ** Properties *)

(** C30. What [validate] checks, exactly: it accepts the configurations with an
    upstream, an access list that parses, limits above zero, an IPv6 address
    as the second listener, an admin token of at least sixteen bytes (not
    counting white space at its ends) where the dashboard is not on loopback,
    an http or https address for notifications if there is one, thresholds
    above zero and a known blocking mode; and no others, and it checks nothing
    else: not [discovery.subnet], not [refresh_hours], no upper bound, and not
    that a request's budget covers its upstreams' time-outs. *)
Theorem validate_spec cfg :
  validate cfg = Ok tt <->
  upstreams (dns cfg) <> [] /\
  (exists acl, parse (allow_from (dns cfg)) = Ok acl) /\
  (0 < max_udp_in_flight (dns cfg) /\ 0 < max_tcp_connections (dns cfg)) /\
  (forall v6, dns_listen_v6 (dns cfg) = Some v6 -> is_ipv6 (sa_ip v6) = true) /\
  (is_loopback (sa_ip (web_listen (web cfg))) = false ->
     exists t, admin_token (web cfg) = Some t /\ 16 <= str_len (trim t)) /\
  (trim (ntfy_url (alerts cfg)) <> "" ->
     starts_with "http://" (trim (ntfy_url (alerts cfg))) = true \/
     starts_with "https://" (trim (ntfy_url (alerts cfg))) = true) /\
  (0 < nxdomain_threshold (alerts cfg) /\ 0 < nxdomain_window_mins (alerts cfg)
     /\ 0 < scan_interval_secs (alerts cfg)) /\
  (blocking_mode (blocking cfg) = "zero_ip" \/ blocking_mode (blocking cfg) = "nxdomain").
Proof.
  unfold validate. rewrite !let_unit_ok, let_const_ok, !let_unit_ok.
  rewrite !ensure_ok, !orb_true_iff, !andb_true_iff, !Z.ltb_lt, !String.eqb_eq.
  rewrite negb_true_iff, bool_decide_eq_false.
  apply and_iff_compat_l, and_iff_compat; [|apply and_iff_compat_l; do 3 try apply and_iff_compat].
  - setoid_rewrite map_err_ok. done.
  - destruct (dns_listen_v6 _); [rewrite ensure_ok|]; naive_solver.
  - destruct (is_loopback _); simpl; [naive_solver|].
    rewrite ensure_ok, token_ok_spec. naive_solver.
  - destruct (trim (ntfy_url (alerts cfg))) eqn:E; cbn [negb is_empty]; [naive_solver|].
    rewrite ensure_ok, orb_true_iff. naive_solver.
  - naive_solver.
Qed.

(** Whatever the source's URL, its cached copy is a file of the [lists]
    directory under the state directory, named by sixteen hexadecimal digits:
    no URL can make the service write outside it. *)
Theorem cached_list_path_safe cfg url :
  exists digits,
    cached_list_path cfg url = path_join (state_dir (blocking cfg)) ("lists/" +:+ digits +:+ ".list")
    /\ String.length digits = 16%nat
    /\ all_digits 16 digits = true
    /\ contains_char "/" digits = false.
Proof.
  exists (show_hex_padded 16 (fnv1a (as_bytes url))).
  destruct (show_hex_padded_spec 16 (fnv1a (as_bytes url))) as [Hl Hd]; [lia| |].
  { exact (fnv1a_width _). }
  split; [done|]. split; [done|]. split; [done|].
  by apply all_digits_no_slash.
Qed.

(** Sixteen bytes need not be sixteen characters; and a budget far below one
    upstream's time-out is accepted. *)
Example eight_characters_pass : token_ok (Some "éééééééé") = true.
Proof. reflexivity. Qed.
Definition hurried : Config :=
  let d := default_dns in
  mk_config (mk_dns_config (dns_listen d) (dns_listen_v6 d) (enable_tcp d) (allow_from d) (upstreams d)
      3000 (upstream_udp_payload d) (max_udp_in_flight d) (max_tcp_connections d)
      1 (cache_enabled d) (cache_max_entries d) (cache_min_ttl d) (cache_max_ttl d))
    default_web default_storage default_discovery default_blocking default_alerts.
Example hurried_passes : validate hurried = Ok tt /\ request_timeout_ms (dns hurried) < upstream_timeout_ms (dns hurried).
Proof. vm_compute. done. Qed.
