(* ===== verification/Startup.v ===== *)
(** * Starting up (src/main.rs)

    The command line's overrides, [--check-config], and the configuration a
    start goes on with.  The rest of [main] is in [Boot.v]. *)
From S2P Require Import Prelude Str Addr Acl Config.
Open Scope Z_scope.

Record Cli : Type := mk_cli {
  cli_dns_listen : option SocketAddr;
  cli_web_listen : option SocketAddr;
  cli_database : option string }.

Definition with_dns_listen (a : SocketAddr) (cfg : Config) : Config :=
  let d := dns cfg in
  mk_config (mk_dns_config a (dns_listen_v6 d) (enable_tcp d) (allow_from d) (upstreams d)
      (upstream_timeout_ms d) (upstream_udp_payload d) (max_udp_in_flight d) (max_tcp_connections d)
      (request_timeout_ms d) (cache_enabled d) (cache_max_entries d) (cache_min_ttl d) (cache_max_ttl d))
    (web cfg) (storage cfg) (discovery cfg) (blocking cfg) (alerts cfg).
Definition with_web_listen (a : SocketAddr) (cfg : Config) : Config :=
  mk_config (dns cfg) (mk_web_config a (admin_token (web cfg))) (storage cfg) (discovery cfg) (blocking cfg) (alerts cfg).
Definition with_database (p : string) (cfg : Config) : Config :=
  mk_config (dns cfg) (web cfg)
    (mk_storage_config p (retention_days (storage cfg)) (flush_interval_ms (storage cfg)))
    (discovery cfg) (blocking cfg) (alerts cfg).

Definition apply_overrides (cli : Cli) (cfg : Config) : Config :=
  let cfg := match cli_dns_listen cli with Some a => with_dns_listen a cfg | None => cfg end in
  let cfg := match cli_web_listen cli with Some a => with_web_listen a cfg | None => cfg end in
  match cli_database cli with Some p => with_database p cfg | None => cfg end.

(** The verdict of [--check-config], which decides the exit code. *)
Inductive CheckVerdict : Type :=
  | ConfigNotFound
  | ConfigOk
  | ConfigInvalid (e : LoadError).
Definition exit_code (v : CheckVerdict) : Z := match v with ConfigInvalid _ => 1 | _ => 0 end.

Definition check_config (cli : Cli) (exists_ : bool) (loaded : result LoadError Config) : CheckVerdict :=
  if negb exists_ then ConfigNotFound
  else
    let result :=
      let? cfg := loaded in
      map_err Invalid (validate (apply_overrides cli cfg)) in
    match result with
    | Ok _ => ConfigOk
    | Err e => ConfigInvalid e
    end.

(** The configuration [main] goes on with; the start itself can still fail,
    at the storage or at the configured subnet (see [Boot.v]). *)
Definition started_config (cli : Cli) (loaded : result LoadError Config) : result LoadError Config :=
  let? cfg := loaded in Ok (apply_overrides cli cfg).

(* ------------------------------------------------------------------ *)
(** ** Lemmas *)

Lemma load_valid from_toml contents cfg : load from_toml contents = Ok cfg -> validate cfg = Ok tt.
Proof.
  unfold load. destruct contents as [text|]; [|done]. simpl. destruct (from_toml text) as [c|]; [|done]. simpl.
  destruct (validate c) as [[]|] eqn:E; [|done]. simpl. by intros [= <-].
Qed.

(** The overrides touch two addresses and a path. *)
Lemma apply_overrides_keeps cli cfg :
  let c := apply_overrides cli cfg in
  upstreams (dns c) = upstreams (dns cfg) /\ allow_from (dns c) = allow_from (dns cfg) /\
  max_udp_in_flight (dns c) = max_udp_in_flight (dns cfg) /\
  max_tcp_connections (dns c) = max_tcp_connections (dns cfg) /\
  dns_listen_v6 (dns c) = dns_listen_v6 (dns cfg) /\ alerts c = alerts cfg /\ blocking c = blocking cfg /\
  admin_token (web c) = admin_token (web cfg) /\ (cli_web_listen cli = None -> web c = web cfg).
Proof. destruct cli as [[d|] [w|] [p|]]; done. Qed.

(** Only the dashboard's address can take the started configuration out of
    what [validate] accepts. *)
Lemma overrides_valid cli cfg :
  validate cfg = Ok tt ->
  is_loopback (sa_ip (web_listen (web (apply_overrides cli cfg)))) = true \/ cli_web_listen cli = None ->
  validate (apply_overrides cli cfg) = Ok tt.
Proof.
  destruct (apply_overrides_keeps cli cfg) as (Hu & Ha & Hn & Ht & H6 & Hal & Hb & Hk & Hw).
  intros Hv Hl. unfold validate in *. rewrite !let_unit_ok, let_const_ok, !let_unit_ok in Hv.
  rewrite !let_unit_ok, let_const_ok, !let_unit_ok, Hu, Ha, Hn, Ht, H6, Hal, Hb.
  destruct Hv as (? & ? & ? & ? & Hweb & ?). split_and!; try tauto.
  destruct Hl as [->|Hnone]; [done|]. by rewrite (Hw Hnone).
Qed.

(** What the check refuses of a file that loads: a dashboard address from the
    command line, beyond loopback, without a token that is strong enough. *)
Lemma overrides_refused cli cfg e :
  validate cfg = Ok tt -> validate (apply_overrides cli cfg) = Err e ->
  e = WeakAdminToken /\ token_ok (admin_token (web cfg)) = false /\
  exists a, cli_web_listen cli = Some a /\ is_loopback (sa_ip a) = false.
Proof.
  intros Hv He. assert (is_loopback (sa_ip (web_listen (web (apply_overrides cli cfg)))) = false) as Hl.
  { destruct (is_loopback _) eqn:E; [|done]. rewrite overrides_valid in He by auto. done. }
  assert (exists a, cli_web_listen cli = Some a /\ is_loopback (sa_ip a) = false) as Hw.
  { destruct (cli_web_listen cli) as [a|] eqn:E; [|by rewrite overrides_valid in He by auto].
    exists a. split; [done|]. rewrite <-Hl. unfold apply_overrides. rewrite E. by destruct (cli_dns_listen cli), (cli_database cli). }
  destruct (apply_overrides_keeps cli cfg) as (Hu & Ha & Hn & Ht & H6 & Hal & Hb & Hk & _).
  unfold validate in *. rewrite !let_unit_ok, let_const_ok, !let_unit_ok in Hv.
  destruct Hv as (V1 & (acl & V2) & V3 & V4 & _ & V5 & V6 & V7 & _).
  rewrite Hu, Ha, Hn, Ht, H6, Hal, Hb, Hk, Hl, V1, V2, V3, V4, V5, V6, V7 in He. cbn [negb] in He.
  destruct (token_ok (admin_token (web cfg))); [done|]. by injection He as <-.
Qed.

(** A missing file is reported, but is a success to a script. *)
Example missing_file_exits_zero cli :
  exit_code (check_config cli false (load_or_default (fun _ => None) (Some (false, None)))) = 0.
Proof. reflexivity. Qed.
