(* ===== verification/Lists.v ===== *)
(** * Block-list files (src/blocklist.rs, the on-disk lists)

    Downloading the remote lists into the cache, the per-source health the
    dashboard shows, building the matcher from the files, and the manual
    allow and deny lists.  A file system is a map from path to contents; the
    HTTP exchange and the outcome of each system call are inputs. *)
From S2P Require Import Prelude Str Addr Acl Blocklist Config.
Open Scope Z_scope.

(** Paths of regular files and their bytes. *)
Abbreviation Files := (gmap string string).

(** [fs::read_to_string]: missing files and text that is not UTF-8 fail. *)
Definition read_to_string (fs : Files) (path : string) : option string :=
  let! c := fs !! path in
  if from_utf8_ok (as_bytes c) then Some c else None.
Definition path_exists (fs : Files) (path : string) : bool := is_some (fs !! path).

(** [fs::write]: a failed write may leave a truncated file. *)
Inductive WriteOutcome : Type :=
  | Written
  | WriteFailed (left : option string).
Definition write_file (fs : Files) (path body : string) (o : WriteOutcome) : Files * bool :=
  match o with
  | Written => (<[path := body]> fs, true)
  | WriteFailed (Some part) => (<[path := part]> fs, false)
  | WriteFailed None => (fs, false)
  end.

(* ------------------------------------------------------------------ *)
(** ** Source health *)

Record SourceHealth : Type := mk_health {
  sh_url : string;
  last_attempt : option Z;
  last_success : option Z;
  sh_bytes : option Z;
  sh_state : string;
  sh_error : option string }.

Definition new_source_health (url : string) : SourceHealth :=
  mk_health url None None None "never_fetched" None.
Definition HealthMap : Type := Lock (list SourceHealth).
Definition new_health (cfg : Config) : HealthMap :=
  new_lock (map new_source_health (block_sources (blocking cfg))).

(** [iter_mut().find(|h| h.url == url)], then apply [f]. *)
Fixpoint update_first (url : string) (f : SourceHealth -> SourceHealth) (l : list SourceHealth) :=
  match l with
  | [] => []
  | h :: r => if (sh_url h =? url)%string then f h :: r else h :: update_first url f r
  end.
Definition set_health (health : HealthMap) (url : string) (f : SourceHealth -> SourceHealth) : HealthMap :=
  match lock_ok health with
  | Some l => lock_set health (update_first url f l)
  | None => health
  end.

Definition on_attempt (now : Z) (h : SourceHealth) : SourceHealth :=
  mk_health (sh_url h) (Some now) (last_success h) (sh_bytes h) (sh_state h) (sh_error h).
Definition on_success (now bytes : Z) (h : SourceHealth) : SourceHealth :=
  mk_health (sh_url h) (last_attempt h) (Some now) (Some bytes) "ok" None.
Definition on_failure (reason : string) (h : SourceHealth) : SourceHealth :=
  mk_health (sh_url h) (last_attempt h) (last_success h) (sh_bytes h)
    (if is_some (last_success h) then "stale" else "error") (Some reason).

(* ------------------------------------------------------------------ *)
(** ** Fetching *)

Definition MAX_LIST_BYTES : Z := 64 * 1024 * 1024.

(** A response as the client delivers it: [Err] among the chunks is a failed
    read of the body. *)
Record Response : Type := mk_response {
  status : Z;
  status_text : string;
  content_length : option Z;
  chunks : list (result string string) }.
Definition is_success (s : Z) : bool := (200 <=? s) && (s <? 300).

Inductive FetchError : Type :=
  | RequestFailed (cause : string)
  | HttpStatus (text : string)
  | DeclaredTooLarge (len : Z)
  | ReadingBody (cause : string)
  | TooLargeMidDownload
  | EmptyBody
  | WritingTemp
  | ReplacingCached.

(** [format!("{e:#}")]; the text of a system error is left out. *)
Definition reason (e : FetchError) : string :=
  match e with
  | RequestFailed c => "request failed: " +:+ c
  | HttpStatus t => "HTTP " +:+ t
  | DeclaredTooLarge n => "list is " +:+ show_uint n +:+ " bytes, over the "
                          +:+ show_uint MAX_LIST_BYTES +:+ " byte limit"
  | ReadingBody c => "reading body: " +:+ c
  | TooLargeMidDownload => "list exceeded the " +:+ show_uint MAX_LIST_BYTES +:+ " byte limit mid-download"
  | EmptyBody => "empty response body"
  | WritingTemp => "writing temporary list"
  | ReplacingCached => "replacing cached list"
  end.

Fixpoint read_body (body : string) (l : list (result string string)) : result FetchError string :=
  match l with
  | [] => Ok body
  | c :: r =>
      let? chunk := map_err ReadingBody c in
      let? _ := ensure (str_len body + str_len chunk <=? MAX_LIST_BYTES) TooLargeMidDownload in
      read_body (body +:+ chunk) r
  end.

(** The outside world during one fetch. *)
Record FetchEnv : Type := mk_fetch {
  fe_now : Z;
  fe_response : result string Response;
  fe_write : WriteOutcome;
  fe_rename : bool;
  fe_remove : bool }.

(** The file system and the process-wide sequence number of temp files. *)
Record World : Type := mk_world { files : Files; seq : Z }.

Definition tmp_path (pid : Z) (dest : string) (n : Z) : string :=
  with_extension dest ("tmp." +:+ show_uint pid +:+ "." +:+ show_uint n).

(** The part of [fetch_one] before anything is written. *)
Definition check_response (r : result string Response) : result FetchError Response :=
  let? resp := map_err RequestFailed r in
  let? _ := ensure (is_success (status resp)) (HttpStatus (status_text resp)) in
  let? _ := match content_length resp with
            | Some len => ensure (len <=? MAX_LIST_BYTES) (DeclaredTooLarge len)
            | None => Ok tt
            end in
  Ok resp.

(** Write the temporary file and move it into place. *)
Definition store_body (env : FetchEnv) (fs : Files) (tmp dest body : string) : Files * result FetchError Z :=
  let '(fs1, ok) := write_file fs tmp body (fe_write env) in
  if ok then
    if fe_rename env then (<[dest := body]> (delete tmp fs1), Ok (str_len body))
    else ((if fe_remove env then delete tmp fs1 else fs1), Err ReplacingCached)
  else (fs1, Err WritingTemp).

Definition fetch_one (pid : Z) (env : FetchEnv) (dest : string) (w : World) : World * result FetchError Z :=
  match check_response (fe_response env) with
  | Err e => (w, Err e)
  | Ok resp =>
      let tmp := tmp_path pid dest (seq w) in
      let w1 := mk_world (files w) (wrap 64 (seq w + 1)) in
      match read_body "" (chunks resp) with
      | Err e => (w1, Err e)
      | Ok body =>
          if is_empty body then (w1, Err EmptyBody)
          else let '(fs, r) := store_body env (files w1) tmp dest body in
               (mk_world fs (seq w1), r)
      end
  end.

(* ------------------------------------------------------------------ *)
(** ** Refreshing every source *)

Record RefreshOutcome : Type := mk_outcome {
  attempted : nat;
  succeeded : nat;
  failures : list (string * string) }.
Definition empty_outcome : RefreshOutcome := mk_outcome 0 0 [].
Definition total_failure (o : RefreshOutcome) : bool :=
  (0 <? attempted o)%nat && (succeeded o =? 0)%nat.

Definition refuse_all (why : string) (urls : list string) : RefreshOutcome :=
  fold_left (fun o url => mk_outcome (S (attempted o)) (succeeded o) (failures o ++ [(url, why)]))
    urls empty_outcome.

Definition RefreshState : Type := World * HealthMap * RefreshOutcome.

Definition refresh_one (cfg : Config) (pid : Z) (env : FetchEnv) (url : string) (s : RefreshState) : RefreshState :=
  let '(w, health, o) := s in
  let o1 := mk_outcome (S (attempted o)) (succeeded o) (failures o) in
  let now := fe_now env in
  let health1 := set_health health url (on_attempt now) in
  let '(w', r) := fetch_one pid env (cached_list_path cfg url) w in
  match r with
  | Ok bytes =>
      (w', set_health health1 url (on_success now bytes),
       mk_outcome (attempted o1) (S (succeeded o1)) (failures o1))
  | Err e =>
      (w', set_health health1 url (on_failure (reason e)),
       mk_outcome (attempted o1) (succeeded o1) (failures o1 ++ [(url, reason e)]))
  end.

(** The loop over the sources, with what the world does at each. *)
Fixpoint refresh_loop (cfg : Config) (pid : Z) (env : nat -> FetchEnv) (i : nat)
    (urls : list string) (s : RefreshState) : RefreshState :=
  match urls with
  | [] => s
  | url :: r => refresh_loop cfg pid env (S i) r (refresh_one cfg pid (env i) url s)
  end.

Definition refresh_sources (cfg : Config) (pid : Z) (dir_ok client_ok : bool) (env : nat -> FetchEnv)
    (w : World) (health : HealthMap) : RefreshState :=
  let urls := block_sources (blocking cfg) in
  if negb dir_ok then (w, health, refuse_all "list directory is not writable" urls)
  else if negb client_ok then (w, health, refuse_all "HTTP client unavailable" urls)
  else refresh_loop cfg pid env 0 urls (w, health, empty_outcome).

(* ------------------------------------------------------------------ *)
(** ** Building the matcher *)

Definition ingest_file (fs : Files) (path : string) (is_allow : bool) (bl : Blocklist)
    : option (Blocklist * nat) :=
  let! contents := read_to_string fs path in
  let name := default path (file_name path) in
  Some (ingest bl contents name is_allow).
(** Errors are logged and the list is skipped. *)
Definition ingest_file_or_log (fs : Files) (is_allow : bool) (bl : Blocklist) (path : string) : Blocklist :=
  match ingest_file fs path is_allow bl with Some (bl', _) => bl' | None => bl end.

Definition ingest_cached (cfg : Config) (fs : Files) (bl : Blocklist) (url : string) : Blocklist :=
  let path := cached_list_path cfg url in
  if negb (path_exists fs path) then bl
  else match read_to_string fs path with
       | Some contents => fst (ingest bl contents url false)
       | None => bl
       end.
Definition ingest_manual (fs : Files) (is_allow : bool) (bl : Blocklist) (path : string) : Blocklist :=
  if path_exists fs path then ingest_file_or_log fs is_allow bl path else bl.

Definition build (cfg : Config) (fs : Files) : Blocklist :=
  if negb (blocking_enabled (blocking cfg)) then empty_blocklist
  else
    let bl := fold_left (ingest_cached cfg fs) (block_sources (blocking cfg)) empty_blocklist in
    let bl := fold_left (ingest_file_or_log fs false) (block_files (blocking cfg)) bl in
    let bl := ingest_manual fs false bl (manual_deny_path cfg) in
    ingest_manual fs true bl (manual_allow_path cfg).

(* ------------------------------------------------------------------ *)
(** ** The manual lists *)

Inductive ManualError : Type :=
  | NotADomain (domain : string)
  | ManualIo.

(** What the system does with an append: create the directory, open the
    file, write the line (a failed write may leave part of it). *)
Inductive AppendOutcome : Type :=
  | Appended
  | MkdirFailed
  | OpenFailed
  | AppendFailed (part : string).

Definition append_manual (fs : Files) (path domain : string) (io : AppendOutcome)
    : Files * result ManualError unit :=
  let domain := to_ascii_lowercase (trim domain) in
  if negb (is_some (normalize domain)) then (fs, Err (NotADomain domain))
  else match io with
  | MkdirFailed => (fs, Err ManualIo)
  | _ =>
      if is_some_and (fun existing => existsb (fun l => (trim l =? domain)%string) (lines existing))
           (read_to_string fs path)
      then (fs, Ok tt)
      else
        let old := default "" (fs !! path) in
        match io with
        | Appended => (<[path := old +:+ domain +:+ String newline ""]> fs, Ok tt)
        | AppendFailed part => (<[path := old +:+ part]> fs, Err ManualIo)
        | _ => (fs, Err ManualIo)
        end
  end.

Definition kept_lines (domain existing : string) : list string :=
  List.filter (fun l => negb (trim l =? domain)%string) (lines existing).

Definition remove_manual (fs : Files) (path domain : string) (io : WriteOutcome)
    : Files * result ManualError unit :=
  let domain := to_ascii_lowercase (trim domain) in
  match read_to_string fs path with
  | None => (fs, Ok tt)
  | Some existing =>
      let text := str_join (String newline "") (kept_lines domain existing) +:+ String newline "" in
      let '(fs', done) := write_file fs path text io in
      (fs', if done then Ok tt else Err ManualIo)
  end.

(* ------------------------------------------------------------------ *)
(** ** Lemmas: fetching *)

Abbreviation joined := (foldr String.append "").

(** The body is read to its end, chunk after chunk, within the limit. *)
Lemma read_body_spec body l b : str_len body <= MAX_LIST_BYTES ->
  read_body body l = Ok b <->
  exists cs, l = map Ok cs /\ b = body +:+ joined cs /\ str_len b <= MAX_LIST_BYTES.
Proof.
  revert body. induction l as [|c l IH]; simpl; intros body Hb.
  { split.
    - intros [= <-]. exists []. simpl. by rewrite str_app_nil_r.
    - intros ([|c cs] & E & -> & _); [|done]. simpl. by rewrite str_app_nil_r. }
  destruct c as [chunk|e]; simpl; [|split; [done|intros ([|c cs] & E & _); done]].
  destruct (Z.leb_spec (str_len body + str_len chunk) MAX_LIST_BYTES) as [Hl|Hl]; simpl.
  - rewrite IH by (rewrite str_len_app; lia). split.
    + intros (cs & -> & -> & Hm). exists (chunk :: cs). simpl. by rewrite str_app_assoc in *.
    + intros ([|c cs] & E & -> & Hm); [done|]. injection E as <- ->. exists cs. simpl in *. by rewrite str_app_assoc.
  - split; [done|]. intros ([|c cs] & E & -> & Hm); [done|]. injection E as <- ->. simpl in Hm.
    rewrite !str_len_app in Hm. pose proof (str_len_nonneg (joined cs)). lia.
Qed.

Lemma is_success_spec n : is_success n = true <-> 200 <= n < 300.
Proof. unfold is_success. rewrite andb_true_iff, Z.leb_le, Z.ltb_lt. done. Qed.
Lemma check_response_spec r resp : check_response r = Ok resp <->
  r = Ok resp /\ 200 <= status resp < 300 /\ forall len, content_length resp = Some len -> len <= MAX_LIST_BYTES.
Proof.
  unfold check_response. destruct r as [x|e]; cbn [map_err]; [|by split; [|intros []]].
  rewrite <-is_success_spec. destruct (is_success (status x)) eqn:Es; cbn [ensure].
  - destruct (content_length x) as [len|] eqn:E; [destruct (Z.leb_spec len MAX_LIST_BYTES) as [Hl|Hl]|]; cbn [ensure].
    + split; [intros [= <-]|by intros [[= ->] _]]. split_and!; [done|done|]. rewrite E. by intros ? [= <-].
    + split; [done|]. intros ([= <-] & _ & Hc). specialize (Hc _ E). lia.
    + split; [intros [= <-]|by intros [[= ->] _]]. split_and!; [done|done|]. by rewrite E.
  - split; [done|]. intros ([= <-] & Hs & _). congruence.
Qed.

(** A download that may be stored: an answer of success, of no declared
    length over the limit, whose body was read to its end, is within the
    limit and not empty. *)
Definition downloaded (env : FetchEnv) (body : string) : Prop :=
  exists resp cs, fe_response env = Ok resp /\ 200 <= status resp < 300 /\
    (forall len, content_length resp = Some len -> len <= MAX_LIST_BYTES) /\
    chunks resp = map Ok cs /\ body = joined cs /\ body <> "" /\ str_len body <= MAX_LIST_BYTES.

Lemma downloaded_spec env body : downloaded env body <->
  exists resp, check_response (fe_response env) = Ok resp /\ read_body "" (chunks resp) = Ok body /\ is_empty body = false.
Proof.
  split.
  - intros (resp & cs & Hr & Hs & Hc & Hch & Hb & Hne & Hl). exists resp. rewrite check_response_spec.
    split; [done|]. split; [|by destruct body]. apply read_body_spec; [by vm_compute|]. by exists cs.
  - intros (resp & (Hr & Hs & Hc)%check_response_spec & (cs & Hch & Hb & Hl)%read_body_spec & Hne); [|by vm_compute].
    exists resp, cs. do 5 (split; [done|]). split; [by intros ->|done].
Qed.

(** The last byte tells a temporary name from a cached list. *)
Fixpoint last_char (s : string) : option ascii :=
  match s with "" => None | String a "" => Some a | String _ r => last_char r end.
Lemma last_char_app s t : t <> "" -> last_char (s +:+ t) = last_char t.
Proof.
  intros Ht. induction s as [|a s IH]; [done|]. simpl.
  destruct (s +:+ t) eqn:E; [|done]. by destruct s, t.
Qed.

Lemma app_nonempty s t : t <> "" -> s +:+ t <> "".
Proof. by destruct s. Qed.

Lemma all_digits_last r s :
  s <> "" -> all_digits r s = true -> exists a, last_char s = Some a /\ is_some (to_digit r a) = true.
Proof.
  unfold all_digits. induction s as [|a s IH]; [done|]. intros _ H. simpl in H. bools.
  destruct s as [|b s]; [by exists a|]. apply IH; [done|]. simpl in H0. by simpl.
Qed.

Lemma tmp_path_last pid dest n :
  0 <= n -> exists a, last_char (tmp_path pid dest n) = Some a /\ is_some (to_digit 10 a) = true.
Proof.
  intros Hn. unfold tmp_path, with_extension.
  destruct (match rsplit_once "/" dest with Some (d, n0) => _ | None => _ end) as [dir name].
  unfold show_uint.
  assert (show_radix 40 10 n <> "") as Hne by (apply show_radix_nonempty; lia).
  rewrite !last_char_app by (repeat apply app_nonempty; done).
  apply all_digits_last; [done|apply show_radix_digits; lia].
Qed.

Definition is_temp (p : string) : Prop := exists pid dest n, 0 <= n /\ p = tmp_path pid dest n.

Lemma cached_last cfg url : last_char (cached_list_path cfg url) = Some "t"%char.
Proof.
  unfold cached_list_path, path_join, list_file_name.
  set (d := show_hex_padded _ _).
  assert (forall x, last_char (x +:+ "lists/" +:+ d +:+ ".list") = Some "t"%char) as H.
  { intros x. by rewrite !last_char_app by (repeat apply app_nonempty; done). }
  repeat case_match; [apply (H "")|apply H|].
  rewrite <-str_app_assoc. apply H.
Qed.

Lemma cached_not_temp cfg url : ~ is_temp (cached_list_path cfg url).
Proof.
  intros (pid & dest & n & Hn & E). pose proof (cached_last cfg url) as H.
  destruct (tmp_path_last pid dest n Hn) as (a & Ha & Hd). rewrite E, Ha in H.
  injection H as ->. done.
Qed.

(** A temporary file comes and goes without touching anything else; the
    destination is replaced as a whole or not at all. *)
Lemma store_body_files env fs tmp dest body fs' r :
  store_body env fs tmp dest body = (fs', r) ->
  (forall p, p <> tmp -> p <> dest -> fs' !! p = fs !! p) /\
  match r with
  | Ok n => n = str_len body /\ fs' !! dest = Some body /\ (tmp <> dest -> fs' !! tmp = None)
  | Err _ => tmp <> dest -> fs' !! dest = fs !! dest
  end.
Proof.
  unfold store_body, write_file.
  destruct (fe_write env) as [|[part|]]; [destruct (fe_rename env), (fe_remove env)|..];
    intros [= <- <-]; (split; [intros p H1 H2|]); repeat split; intros;
    by simplify_map_eq.
Qed.

Lemma wrap_64_nonneg z : 0 <= wrap 64 z.
Proof. apply Z.mod_pos_bound. lia. Qed.

(** The download is there, and the disk takes it. *)
Definition available (env : FetchEnv) : Prop :=
  exists body, downloaded env body /\ fe_write env = Written /\ fe_rename env = true.

Lemma fetch_one_files cfg pid env url w w' r :
  0 <= seq w -> fetch_one pid env (cached_list_path cfg url) w = (w', r) ->
  0 <= seq w' /\
  (forall p, ~ is_temp p -> p <> cached_list_path cfg url -> files w' !! p = files w !! p) /\
  match r with
  | Ok n => exists body, files w' !! cached_list_path cfg url = Some body /\ n = str_len body /\ downloaded env body
  | Err _ => files w' !! cached_list_path cfg url = files w !! cached_list_path cfg url /\ ~ available env
  end.
Proof.
  intros Hs. unfold fetch_one. set (dest := cached_list_path cfg url). set (tmp := tmp_path _ _ _).
  assert (tmp <> dest) as Hne.
  { intros E. apply (cached_not_temp cfg url). fold dest. rewrite <-E. by exists pid, dest, (seq w). }
  assert (is_temp tmp) as Htmp by (by exists pid, dest, (seq w)).
  pose proof (wrap_64_nonneg (seq w + 1)) as Hs'.
  assert ((forall body, ~ downloaded env body) -> ~ available env) as Hnot
    by (intros Hn (body & Hd & _); by apply (Hn body)).
  destruct (check_response _) as [resp|e] eqn:Hc;
    [|intros [= <- <-]; split_and!; try done; apply Hnot;
      intros body (? & ? & _)%downloaded_spec; congruence].
  destruct (read_body "" (chunks resp)) as [body|e] eqn:Hb;
    [|intros [= <- <-]; split_and!; try done; apply Hnot;
      intros body (? & ? & ? & _)%downloaded_spec; congruence].
  destruct (is_empty body) eqn:He;
    [intros [= <- <-]; split_and!; try done; apply Hnot;
      intros body' (? & ? & ? & ?)%downloaded_spec; congruence|].
  destruct (store_body env _ tmp dest body) as [fs' r'] eqn:E. intros [= <- <-]. simpl.
  pose proof E as (Hother & Hr)%store_body_files. split; [done|]. split.
  - intros p Hp Hd. apply Hother; [|done]. by intros ->.
  - destruct r' as [n|e]; [|split; [by apply Hr|]].
    + destruct Hr as (-> & Hd & _). exists body. split_and!; try done. apply downloaded_spec. by exists resp.
    + intros (b & _ & Hw & Hn). unfold store_body, write_file in E. rewrite Hw, Hn in E. discriminate.
Qed.

(* ------------------------------------------------------------------ *)
(** ** Lemmas: health *)

(** What the dashboard is told about a source is consistent. *)
Definition health_ok (h : SourceHealth) : Prop :=
  match last_attempt h, last_success h with
  | None, None => sh_state h = "never_fetched" /\ sh_error h = None
  | Some _, None => sh_state h = "error" /\ is_Some (sh_error h)
  | Some t, Some s =>
      (sh_state h = "ok" /\ sh_error h = None /\ s = t) \/ (sh_state h = "stale" /\ is_Some (sh_error h))
  | None, Some _ => False
  end.

Lemma update_first_urls url f l :
  (forall h, sh_url (f h) = sh_url h) -> map sh_url (update_first url f l) = map sh_url l.
Proof.
  intros Hf. induction l as [|h l IH]; simpl; [done|].
  case_match; simpl; [by rewrite Hf|]. by rewrite IH.
Qed.

Lemma update_first_compose url f g l :
  (forall h, sh_url (f h) = sh_url h) ->
  update_first url g (update_first url f l) = update_first url (fun h => g (f h)) l.
Proof.
  intros Hf. induction l as [|h l IH]; simpl; [done|].
  destruct (sh_url h =? url)%string eqn:E; simpl; rewrite ?Hf, ?E; [done|]. by rewrite IH.
Qed.

(** The entry of [url] is changed by [f], the others are kept. *)
Lemma update_first_elem url f l h :
  NoDup (map sh_url l) -> h ∈ update_first url f l ->
  (h ∈ l /\ sh_url h <> url) \/ exists h0, h0 ∈ l /\ sh_url h0 = url /\ h = f h0.
Proof.
  induction l as [|x l IH]; simpl; [by intros ? ?%elem_of_nil|].
  intros [Hx Hnd]%NoDup_cons. destruct (String.eqb_spec (sh_url x) url) as [<-|Hne].
  - intros [->|Hh]%elem_of_cons; [right; exists x; set_solver|].
    left. split; [set_solver|]. intros E. apply Hx. rewrite <-E. by apply list_elem_of_fmap_2.
  - intros [->|Hh]%elem_of_cons; [left; set_solver|].
    destruct (IH Hnd Hh) as [[??]|(h0 & ? & ? & ?)]; [left; set_solver|right; exists h0; set_solver].
Qed.

Lemma success_health_ok now bytes h : health_ok (on_success now bytes (on_attempt now h)).
Proof. simpl. by left. Qed.
Lemma failure_health_ok now why h : health_ok h -> health_ok (on_failure why (on_attempt now h)).
Proof. unfold health_ok. simpl. destruct (last_success h); simpl; [right|]; by eauto. Qed.

(** A cached list that is the download of one of the sources, the [k]-th of
    which is fetched as [env (i + k)] says. *)
Definition fresh_list (cfg : Config) (env : nat -> FetchEnv) (i : nat) (urls : list string) (fs : Files) (p : string) : Prop :=
  exists k url body, urls !! k = Some url /\ p = cached_list_path cfg url /\
    fs !! p = Some body /\ downloaded (env (i + k)%nat) body.

Lemma fresh_list_same cfg env i urls fs fs' p : fs' !! p = fs !! p -> fresh_list cfg env i urls fs p -> fresh_list cfg env i urls fs' p.
Proof. intros E (k & url & body & ? & ? & ? & ?). exists k, url, body. by rewrite E. Qed.
Lemma fresh_list_left cfg env i us vs fs p : fresh_list cfg env i us fs p -> fresh_list cfg env i (us ++ vs) fs p.
Proof. intros (k & url & body & Hu & ?). exists k, url, body. split; [by apply lookup_app_l_Some|done]. Qed.
Lemma fresh_list_right cfg env i us vs fs p :
  fresh_list cfg env (i + length us) vs fs p -> fresh_list cfg env i (us ++ vs) fs p.
Proof.
  intros (k & url & body & Hu & Hp & Hf & Hd). exists (length us + k)%nat, url, body.
  split_and!; [|done|done|by rewrite Nat.add_assoc]. rewrite lookup_app_r by lia. by rewrite Nat.add_sub'.
Qed.

(** What one pass over [urls] from [s] to [s'] may do, and does. *)
Record refreshed (cfg : Config) (env : nat -> FetchEnv) (i : nat) (urls : list string) (s s' : RefreshState) : Prop := mk_refreshed {
  rf_seq : 0 <= seq (fst (fst s'));
  rf_attempted : attempted (snd s') = (attempted (snd s) + length urls)%nat;
  rf_counts : (succeeded (snd s') + length (failures (snd s'))
               = succeeded (snd s) + length (failures (snd s)) + length urls)%nat;
  rf_files : forall p, ~ is_temp p ->
    files (fst (fst s')) !! p = files (fst (fst s)) !! p \/ fresh_list cfg env i urls (files (fst (fst s'))) p;
  rf_stored : forall k url, urls !! k = Some url -> available (env (i + k)%nat) ->
    fresh_list cfg env i urls (files (fst (fst s'))) (cached_list_path cfg url);
  rf_more : (succeeded (snd s) <= succeeded (snd s'))%nat;
  rf_none : succeeded (snd s') = succeeded (snd s) ->
    forall p, ~ is_temp p -> files (fst (fst s')) !! p = files (fst (fst s)) !! p }.

Lemma refresh_one_refreshed cfg pid env i url s :
  0 <= seq (fst (fst s)) -> refreshed cfg env i [url] s (refresh_one cfg pid (env i) url s).
Proof.
  destruct s as [[w health] o]. simpl. intros Hs.
  destruct (fetch_one pid (env i) (cached_list_path cfg url) w) as [w' r] eqn:E.
  apply fetch_one_files in E as (Hs' & Hother & Hr); [|done].
  destruct r as [n|e]; split; simpl; try done; try (rewrite ?length_app; simpl; lia).
  - intros p Hp. destruct (decide (p = cached_list_path cfg url)) as [->|Hne]; [right|left; auto].
    destruct Hr as (body & Hb & -> & Hn). exists 0%nat, url, body. by rewrite Nat.add_0_r.
  - intros [|k] u [= <-] _. destruct Hr as (body & Hb & -> & Hn). exists 0%nat, url, body. by rewrite Nat.add_0_r.
  - intros p Hp. left. destruct (decide (p = cached_list_path cfg url)) as [->|Hne]; [apply Hr|auto].
  - intros [|k] u [= <-] Ha. rewrite Nat.add_0_r in Ha. by destruct Hr.
  - intros _ p Hp. destruct (decide (p = cached_list_path cfg url)) as [->|Hne]; [apply Hr|auto].
Qed.

Lemma refreshed_trans cfg env i us vs s1 s2 s3 :
  refreshed cfg env i us s1 s2 -> refreshed cfg env (i + length us) vs s2 s3 -> refreshed cfg env i (us ++ vs) s1 s3.
Proof.
  intros [] []. split; rewrite ?length_app; try lia.
  - intros p Hp. destruct (rf_files1 p Hp) as [E|Hf]; [|right; by apply fresh_list_right].
    destruct (rf_files0 p Hp) as [<-|Hf]; [by left|]. right. by eapply fresh_list_left, fresh_list_same.
  - intros k url Hk Ha. apply lookup_app_Some in Hk as [Hk|[Hl Hk]].
    + destruct (rf_files1 (cached_list_path cfg url) (cached_not_temp cfg url)) as [E|Hf]; [|by apply fresh_list_right].
      eapply fresh_list_left, fresh_list_same; [exact E|]. by eapply rf_stored0.
    + apply fresh_list_right. eapply rf_stored1; [exact Hk|]. by replace (i + length us + (k - length us))%nat with (i + k)%nat by lia.
  - intros Heq p Hp. rewrite rf_none1, rf_none0 by (done || lia). done.
Qed.

Lemma refresh_loop_refreshed cfg pid env i urls s :
  0 <= seq (fst (fst s)) -> refreshed cfg env i urls s (refresh_loop cfg pid env i urls s).
Proof.
  revert i s. induction urls as [|url urls IH]; intros i s Hs; simpl.
  { split; simpl; try lia; auto. done. }
  pose proof (refresh_one_refreshed cfg pid env i url s Hs) as H1.
  apply (refreshed_trans cfg env i [url] urls _ _ _ H1). rewrite Nat.add_1_r. apply IH, H1.
Qed.

Lemma refuse_all_outcome why urls :
  refuse_all why urls = mk_outcome (length urls) 0 (map (fun u => (u, why)) urls).
Proof.
  unfold refuse_all, empty_outcome.
  assert (forall o, fold_left (fun o url => mk_outcome (S (attempted o)) (succeeded o) (failures o ++ [(url, why)])) urls o
    = mk_outcome (attempted o + length urls) (succeeded o) (failures o ++ map (fun u => (u, why)) urls)) as ->; [|done].
  induction urls as [|u urls IH]; intros o; simpl.
  - rewrite app_nil_r, Nat.add_0_r. by destruct o.
  - rewrite IH. simpl. f_equal; [lia|]. by rewrite <-app_assoc.
Qed.

(** [l'] is [l] with the entry of [url] refreshed, with or without success. *)
Lemma refresh_one_health cfg pid env url w l o w' h' o' :
  NoDup (map sh_url l) -> Forall health_ok l ->
  refresh_one cfg pid env url (w, new_lock l, o) = (w', h', o') ->
  exists l', h' = new_lock l' /\ map sh_url l' = map sh_url l /\ Forall health_ok l' /\
    (forall h, h ∈ l' -> sh_url h <> url -> h ∈ l) /\
    ((failures o' = failures o /\ forall h, h ∈ l' -> sh_url h = url -> sh_state h = "ok") \/
     ((exists why, failures o' = failures o ++ [(url, why)]) /\
      forall h, h ∈ l' -> sh_url h = url -> sh_state h <> "ok")).
Proof.
  intros Hnd Hok. simpl.
  destruct (fetch_one _ _ _ _) as [w1 r] eqn:E.
  assert (forall f, (forall h, sh_url (f h) = sh_url h) ->
    set_health (set_health (new_lock l) url (on_attempt (fe_now env))) url f
    = new_lock (update_first url (fun h => f (on_attempt (fe_now env) h)) l)) as Hset.
  { intros f Hf. unfold set_health. simpl. by rewrite update_first_compose. }
  rewrite Forall_forall in Hok. setoid_rewrite Forall_forall.
  destruct r as [n|e]; intros [= <- <- <-]; rewrite Hset by done; eexists; (split; [done|]);
    (split; [by apply update_first_urls|]); (split; [|split]).
  - intros h [[??]|(h0 & ? & ? & ->)]%update_first_elem; [auto|apply success_health_ok|done].
  - intros h [[??]|(h0 & ? & ? & ->)]%update_first_elem ?; simpl in *; done || congruence.
  - left. split; [done|]. intros h [[??]|(h0 & ? & ? & ->)]%update_first_elem ?; done.
  - intros h [[??]|(h0 & ? & ? & ->)]%update_first_elem; [auto|apply failure_health_ok; auto|done].
  - intros h [[??]|(h0 & ? & ? & ->)]%update_first_elem ?; simpl in *; done || congruence.
  - right. split; [by eexists|]. intros h [[??]|(h0 & ? & ? & ->)]%update_first_elem ?; [done| |done].
    simpl. by destruct (last_success h0).
Qed.

(** The loop: every source tried is ok on the dashboard iff it is not among
    the failures, the others keep their entry. *)
Lemma refresh_loop_health cfg pid env i urls w l o w' h' o' :
  NoDup urls -> NoDup (map sh_url l) -> Forall health_ok l ->
  refresh_loop cfg pid env i urls (w, new_lock l, o) = (w', h', o') ->
  exists l' fs, h' = new_lock l' /\ map sh_url l' = map sh_url l /\ Forall health_ok l' /\
    failures o' = failures o ++ fs /\ (forall u, u ∈ map fst fs -> u ∈ urls) /\
    (forall h, h ∈ l' -> sh_url h ∉ urls -> h ∈ l) /\
    (forall h, h ∈ l' -> sh_url h ∈ urls -> (sh_state h = "ok" <-> sh_url h ∉ map fst fs)).
Proof.
  revert i w l o. induction urls as [|url urls IH]; intros i w l o Hnd Hl Hok E; simpl in E.
  { simplify_eq. exists l, []. rewrite app_nil_r. set_solver. }
  apply NoDup_cons in Hnd as [Hu Hnd].
  change (refresh_loop cfg pid env (S i) urls (refresh_one cfg pid (env i) url (w, new_lock l, o))
          = (w', h', o')) in E.
  destruct (refresh_one cfg pid (env i) url (w, new_lock l, o)) as [[w1 h1] o1] eqn:E1.
  apply refresh_one_health in E1 as (l1 & -> & Hm1 & Hok1 & Hkeep1 & Hr1); [|done..].
  apply IH in E as (l' & fs & -> & Hm & Hok' & Hf & Hfs & Hkeep & Hr); [|by rewrite ?Hm1..].
  assert (url ∉ map fst fs) as Hufs by (intros ?%Hfs; done).
  destruct Hr1 as [[Hf1 Hs1]|[[why Hf1] Hs1]].
  - exists l', fs. split; [done|]. split; [congruence|]. split; [done|].
    split; [congruence|]. split; [set_solver|]. split.
    + intros h Hh Hn. apply not_elem_of_cons in Hn as [??]. auto.
    + intros h Hh [Heq|Hin]%elem_of_cons; [|by apply Hr].
      split; [by rewrite Heq|]. intros _. apply Hs1; [|done]. apply Hkeep; [done|]. by rewrite Heq.
  - exists l', ((url, why) :: fs). split; [done|]. split; [congruence|]. split; [done|].
    split; [by rewrite Hf, Hf1, <-app_assoc|]. split; [set_solver|]. split.
    + intros h Hh Hn. apply not_elem_of_cons in Hn as [??]. auto.
    + intros h Hh Hin. cbn [map fst]. rewrite not_elem_of_cons.
      destruct (decide (sh_url h = url)) as [Heq|Hne].
      * split; [|by intros []]. intros Hst. exfalso. apply (Hs1 h); [|done|done].
        apply Hkeep; [done|]. by rewrite Heq.
      * rewrite (Hr h) by set_solver. naive_solver.
Qed.

(* ------------------------------------------------------------------ *)
(** ** Lemmas: building from the files *)

Lemma grows_refl bl : grows bl bl.
Proof. by split. Qed.

Lemma ingest_grows bl contents source is_allow :
  bl_wf bl -> bl_wf (fst (ingest bl contents source is_allow))
              /\ grows bl (fst (ingest bl contents source is_allow)).
Proof.
  intros Hwf. destruct (ingest bl contents source is_allow) as [bl' n] eqn:E.
  by apply ingest_facts in E as (? & ? & _).
Qed.

Lemma ingest_file_or_log_grows fs is_allow bl path :
  bl_wf bl -> bl_wf (ingest_file_or_log fs is_allow bl path)
              /\ grows bl (ingest_file_or_log fs is_allow bl path).
Proof.
  intros Hwf. unfold ingest_file_or_log, ingest_file.
  destruct (read_to_string fs path) as [c|]; [|by auto using grows_refl].
  pose proof (ingest_grows bl c (default path (file_name path)) is_allow Hwf) as H.
  by destruct (ingest bl c _ is_allow).
Qed.

Lemma ingest_manual_grows fs is_allow bl path :
  bl_wf bl -> bl_wf (ingest_manual fs is_allow bl path)
              /\ grows bl (ingest_manual fs is_allow bl path).
Proof.
  intros Hwf. unfold ingest_manual. case_match; [by apply ingest_file_or_log_grows|by auto using grows_refl].
Qed.

(** The matcher before the manual lists. *)
Definition build_sources (cfg : Config) (fs : Files) : Blocklist :=
  fold_left (ingest_file_or_log fs false) (block_files (blocking cfg))
    (fold_left (ingest_cached cfg fs) (block_sources (blocking cfg)) empty_blocklist).

Lemma build_sources_wf cfg fs : bl_wf (build_sources cfg fs).
Proof.
  unfold build_sources. apply fold_left_inv; [|intros; by apply ingest_file_or_log_grows].
  apply fold_left_inv; [apply empty_blocklist_wf|]. intros bl url Hwf. unfold ingest_cached.
  repeat case_match; try done. by apply ingest_bl_wf.
Qed.

Lemma build_eq cfg fs :
  build cfg fs =
  if blocking_enabled (blocking cfg) then
    ingest_manual fs true (ingest_manual fs false (build_sources cfg fs) (manual_deny_path cfg))
      (manual_allow_path cfg)
  else empty_blocklist.
Proof. unfold build, build_sources. by destruct (blocking_enabled _). Qed.

(** A line of a readable manual file is in force after it is ingested. *)
Lemma ingest_manual_line fs (is_allow : bool) bl path c l d :
  bl_wf bl -> read_to_string fs path = Some c -> l ∈ lines c -> trim l = d ->
  valid_domain d -> is_hosts_address d = false ->
  if is_allow then d ∈ allow (ingest_manual fs is_allow bl path)
  else is_Some (exact (ingest_manual fs is_allow bl path) !! d).
Proof.
  intros Hwf Hr Hl Ht Hv Hh. unfold ingest_manual, path_exists.
  destruct (fs !! path) eqn:Hp; [|by unfold read_to_string in Hr; rewrite Hp in Hr]. cbn [is_some].
  unfold ingest_file_or_log, ingest_file. rewrite Hr. unfold ingest.
  destruct is_allow; [by eapply ingest_lines_allow|].
  destruct (intern bl _) as [bl1 id]. cbn [fst]. simpl. by eapply ingest_lines_exact.
Qed.

Lemma manual_line_allowed cfg fs c l d :
  blocking_enabled (blocking cfg) = true ->
  read_to_string fs (manual_allow_path cfg) = Some c -> l ∈ lines c -> trim l = d ->
  valid_domain d -> is_hosts_address d = false ->
  lookup (build cfg fs) d = None.
Proof.
  intros He Hr Hl Ht Hv Hh. apply lookup_none. left. apply is_allowed_spec. left.
  rewrite build_eq, He. refine (ingest_manual_line fs true _ _ c l d _ Hr Hl Ht Hv Hh).
  apply ingest_manual_grows, build_sources_wf.
Qed.

Lemma manual_line_denied cfg fs c l d :
  blocking_enabled (blocking cfg) = true ->
  read_to_string fs (manual_deny_path cfg) = Some c -> l ∈ lines c -> trim l = d ->
  valid_domain d -> is_hosts_address d = false ->
  lookup (build cfg fs) d <> None \/ is_allowed (build cfg fs) d = true.
Proof.
  intros He Hr Hl Ht Hv Hh.
  destruct (is_allowed (build cfg fs) d) eqn:Ha; [by right|left].
  rewrite lookup_none. intros [?|[Hx _]]; [congruence|].
  rewrite build_eq, He in Hx.
  destruct (ingest_manual_line fs false (build_sources cfg fs) (manual_deny_path cfg) c l d
              (build_sources_wf _ _) Hr Hl Ht Hv Hh) as [i Hi].
  destruct (ingest_manual_grows fs false (build_sources cfg fs) (manual_deny_path cfg)
              (build_sources_wf cfg fs)) as [Hwf _].
  destruct (ingest_manual_grows fs true _ (manual_allow_path cfg) Hwf) as [_ Hg].
  pose proof (lookup_weaken _ _ _ _ Hi (gr_exact _ _ Hg)). congruence.
Qed.

(* ------------------------------------------------------------------ *)
(** ** Lemmas: the manual lists *)

(** A manual list that the service wrote: every line is terminated. *)
Definition terminated (s : string) : Prop := s = "" \/ exists x, s = x +:+ String newline "".

Lemma domain_no_line_end d :
  domain_ok d = true -> contains_char newline d = false /\ contains_char carriage d = false.
Proof. intros Hd. split; by apply domain_not_char. Qed.

Lemma utf8_app l m : utf8_go 0 128 191 l = true ->
  utf8_go 0 128 191 (l ++ m) = utf8_go 0 128 191 m.
Proof.
  assert (forall l n lo hi, utf8_go n lo hi l = true ->
    utf8_go n lo hi (l ++ m) = utf8_go 0 128 191 m) as H; [|by apply H].
  clear l. induction l as [|b l IH]; intros n lo hi; simpl.
  - destruct n; [by destruct m|done].
  - destruct n as [|n]; [|intros [[-> ->]%andb_true_iff ?]%andb_true_iff; simpl; by apply IH].
    repeat case_match; try done; apply IH.
Qed.

Lemma as_bytes_app a b : as_bytes (a +:+ b) = as_bytes a ++ as_bytes b.
Proof. induction a; simpl; congruence. Qed.

Lemma ascii_utf8 s : str_forallb (fun a => code a <=? 127) s = true -> from_utf8_ok (as_bytes s) = true.
Proof.
  unfold from_utf8_ok. induction s as [|a s IH]; [done|]. simpl. intros [-> Hs]%andb_true_iff. auto.
Qed.

Lemma domain_line_utf8 d :
  domain_ok d = true -> from_utf8_ok (as_bytes (d +:+ String newline "")) = true.
Proof.
  intros Hd. apply ascii_utf8. rewrite str_forallb_app. apply andb_true_iff. split; [|done].
  apply str_forallb_impl with domain_char; [|by apply domain_ok_chars]. intros a. all_chars a; first [reflexivity|discriminate|intros; reflexivity].
Qed.

(** The manual list is missing, or readable with every line terminated. *)
Definition list_ready (fs : Files) (path : string) : Prop :=
  fs !! path = None \/ exists c, read_to_string fs path = Some c /\ terminated c.

Lemma read_to_string_some fs p c :
  read_to_string fs p = Some c <-> fs !! p = Some c /\ from_utf8_ok (as_bytes c) = true.
Proof.
  unfold read_to_string. destruct (fs !! p) as [c'|]; [|naive_solver].
  destruct (from_utf8_ok (as_bytes c')) eqn:E; (split; [|]); try discriminate;
    [intros [= ->]; by split|intros [[= ->] _]; done|intros [[= ->] ?]; congruence].
Qed.

Lemma is_domain_normal d : valid_domain d -> is_some (normalize d) = true.
Proof. intros Hv. by rewrite normalize_valid. Qed.

Lemma append_manual_line fs path raw d :
  to_ascii_lowercase (trim raw) = d -> valid_domain d -> list_ready fs path ->
  let '(fs', r) := append_manual fs path raw Appended in
  r = Ok tt /\ (forall p, p <> path -> fs' !! p = fs !! p) /\
  exists c l, read_to_string fs' path = Some c /\ l ∈ lines c /\ trim l = d.
Proof.
  intros Hraw Hv Hready. pose proof Hv as [Hd _]. destruct (domain_no_line_end d Hd) as [Hn Hc].
  pose proof (domain_line_utf8 d Hd) as Hu. pose proof (trim_plain d (domain_plain d Hd)) as Htd.
  unfold append_manual. rewrite Hraw, is_domain_normal by done. cbn [negb].
  destruct Hready as [Hnone|(c & Hr & Ht)].
  - unfold read_to_string at 1. rewrite Hnone. cbn [is_some_and default].
    split; [done|]. split; [intros; by simplify_map_eq|].
    exists (d +:+ String newline ""), d. rewrite read_to_string_some, lines_single by done.
    split; [|set_solver]. split; [by simplify_map_eq|done].
  - rewrite Hr. cbn [is_some_and]. destruct (existsb _ (lines c)) eqn:E.
    + split; [done|]. split; [done|]. apply existsb_is_true in E as (l & Hl & Hld%String.eqb_eq).
      by exists c, l.
    + apply read_to_string_some in Hr as [Hp Hcu]. rewrite Hp. cbn [default].
      split; [done|]. split; [intros; by simplify_map_eq|].
      exists (c +:+ d +:+ String newline ""), d.
      rewrite read_to_string_some. split; [split; [by simplify_map_eq|]|split; [|done]].
      * unfold from_utf8_ok in *. by rewrite as_bytes_app, utf8_app.
      * destruct Ht as [->|[x ->]].
        { change (d ∈ lines (d +:+ String newline "")). rewrite lines_single by done. set_solver. }
        rewrite lines_snoc by done. set_solver.
Qed.

Lemma str_join_split c s : str_join (String c "") (split_char c s) = s.
Proof.
  unfold str_join, split_char. induction s as [|a s IH]; [done|]. simpl.
  destruct (Ascii.eqb_spec a c) as [->|Hne].
  - pose proof (split_on_nonempty (fun a => Ascii.eqb a c) s) as Hnn.
    destruct (split_on _ s) as [|w l]; [done|]. by simpl in *; rewrite IH.
  - destruct (split_on _ s) as [|w [|w' l]]; simpl in *; by rewrite <-IH.
Qed.

Lemma map_strip_cr_id P x :
  contains_char carriage x = false -> (forall w, w ∈ P -> w ∈ split_char newline x) -> map strip_cr P = P.
Proof.
  intros Hx HP. rewrite <-(map_id P) at 2. apply map_ext_in. intros w Hw%list_elem_of_In.
  apply strip_cr_id. apply HP in Hw. apply contains_char_forallb in Hx. apply contains_char_forallb.
  assert (forall s, str_forallb (fun a => negb (Ascii.eqb a carriage)) s = true ->
    w ∈ split_on (fun a => Ascii.eqb a newline) s -> str_forallb (fun a => negb (Ascii.eqb a carriage)) w = true) as H.
  { clear. intros s. revert w. induction s as [|a s IH]; simpl; intros w.
    - by intros _ ->%list_elem_of_singleton.
    - intros [Ha Hs]%andb_true_iff. destruct (Ascii.eqb a newline).
      + intros [->|?]%elem_of_cons; auto.
      + destruct (split_on _ s) as [|w' l] eqn:E; [by apply split_on_nonempty in E|].
        intros [->|?]%elem_of_cons; [|apply IH; [done|set_solver]].
        simpl. rewrite Ha. simpl. apply IH; [done|set_solver]. }
  by apply (H x).
Qed.

(* ------------------------------------------------------------------ *)
(** ** Properties *)

(** C31. A refresh keeps usable lists and takes new ones: every cached file is
    either left exactly as it was or is the download of one of the configured
    sources, whole: the body of an answer of success, read to its end,
    non-empty and within the size limit; and by nothing at all when every
    source failed.  Where the directory and the client are there, each source
    whose download and disk work is taken.  The outcome accounts for every
    configured source. *)
Theorem refresh_keeps_lists cfg pid dir_ok client_ok env w health w' health' o :
  0 <= seq w ->
  refresh_sources cfg pid dir_ok client_ok env w health = (w', health', o) ->
  let urls := block_sources (blocking cfg) in
  attempted o = length urls /\
  (succeeded o + length (failures o) = attempted o)%nat /\
  (forall p, ~ is_temp p -> files w' !! p = files w !! p \/ fresh_list cfg env 0 urls (files w') p) /\
  (total_failure o = true -> forall p, ~ is_temp p -> files w' !! p = files w !! p) /\
  (dir_ok && client_ok = true -> forall k url, urls !! k = Some url -> available (env k) ->
     fresh_list cfg env 0 urls (files w') (cached_list_path cfg url)).
Proof.
  intros Hs. unfold refresh_sources.
  destruct dir_ok, client_ok; simpl; rewrite ?refuse_all_outcome;
    try (intros [= <- <- <-]; simpl; rewrite length_map; split_and!; [done|lia|by left|done|done]).
  intros E. pose proof (refresh_loop_refreshed cfg pid env 0 (block_sources (blocking cfg))
    (w, health, empty_outcome) Hs) as [_ Ha Hc Hf Hst _ Hn].
  rewrite E in *. simpl in *. split; [lia|]. split; [lia|]. split; [done|]. split; [|auto].
  unfold total_failure. intros [_ H0%Nat.eqb_eq]%andb_true_iff. auto.
Qed.

Definition witness_cfg : Config := default_config.
Definition http_ok (body : string) : FetchEnv :=
  mk_fetch 100 (Ok (mk_response 200 "200 OK" None [Ok body])) Written true true.

Lemma refresh_keeps_lists_witness :
  let w := mk_world ∅ 0 in let urls := block_sources (blocking witness_cfg) in
  let env := fun _ : nat => http_ok "ads.example.com" in
  let '(w', h', o) := refresh_sources witness_cfg 7 true true env w (new_health witness_cfg) in
  attempted o = 1%nat /\ succeeded o = 1%nat /\
  (forall p, ~ is_temp p -> files w' !! p = files w !! p \/ fresh_list witness_cfg env 0 urls (files w') p) /\
  fresh_list witness_cfg env 0 urls (files w')
    (cached_list_path witness_cfg "https://raw.githubusercontent.com/StevenBlack/hosts/master/hosts").
Proof.
  cbv zeta. destruct (refresh_sources _ _ _ _ _ _ _) as [[w' h'] o] eqn:E.
  destruct (refresh_keeps_lists witness_cfg 7 true true (fun _ => http_ok "ads.example.com")
    (mk_world ∅ 0) (new_health witness_cfg) w' h' o ltac:(done) E) as (H1 & _ & H3 & _ & H5).
  split; [exact H1|]. split; [vm_compute in E; by injection E as _ _ <-|]. split; [exact H3|].
  apply (H5 eq_refl 0%nat); [reflexivity|]. exists "ads.example.com". split; [|by split].
  exists (mk_response 200 "200 OK" None [Ok "ads.example.com"]), ["ads.example.com"]. split_and!; done.
Defined.

(** The dashboard agrees with the refresh: starting from the health map
    of the configuration, after the loop each source reads "ok" exactly when
    it is not among the failures of the outcome, and every entry stays
    consistent ("stale" only after an earlier success, with the reason). *)
Theorem refresh_health cfg pid env w l w' health' o :
  NoDup (block_sources (blocking cfg)) ->
  map sh_url l = block_sources (blocking cfg) -> Forall health_ok l ->
  refresh_sources cfg pid true true env w (new_lock l) = (w', health', o) ->
  exists l', health' = new_lock l' /\ map sh_url l' = block_sources (blocking cfg) /\
    Forall health_ok l' /\
    forall h, h ∈ l' -> (sh_state h = "ok" <-> sh_url h ∉ map fst (failures o)).
Proof.
  intros Hnd Hm Hok E. unfold refresh_sources in E. cbn [negb] in E.
  apply refresh_loop_health in E as (l' & fs & -> & Hm' & Hok' & Hf & _ & _ & Hr); [|by rewrite ?Hm..].
  exists l'. split; [done|]. split; [congruence|]. split; [done|].
  intros h Hh. rewrite Hf. simpl. apply Hr; [done|]. rewrite <-Hm, <-Hm'. by apply list_elem_of_fmap_2.
Qed.

Lemma refresh_health_witness :
  let '(w', h', o) := refresh_sources witness_cfg 7 true true (fun _ => http_ok "")
                        (mk_world ∅ 0) (new_lock [new_source_health "https://raw.githubusercontent.com/StevenBlack/hosts/master/hosts"]) in
  exists l', h' = new_lock l' /\ map sh_url l' = block_sources (blocking witness_cfg) /\
    Forall health_ok l' /\ forall h, h ∈ l' -> (sh_state h = "ok" <-> sh_url h ∉ map fst (failures o)).
Proof.
  destruct (refresh_sources _ _ _ _ _ _ _) as [[w' h'] o] eqn:E.
  apply (refresh_health witness_cfg 7 (fun _ => http_ok "") (mk_world ∅ 0)
    [new_source_health "https://raw.githubusercontent.com/StevenBlack/hosts/master/hosts"] w' h' o).
  - apply NoDup_singleton.
  - reflexivity.
  - by repeat constructor.
  - exact E.
Defined.

(** The dashboard's allow and block buttons work: after a domain is
    appended to the allow list and the matcher rebuilt it is never blocked,
    and after it is appended to the deny list it is blocked unless an allow
    rule covers it. *)
Theorem append_manual_effective cfg fs raw d :
  blocking_enabled (blocking cfg) = true ->
  to_ascii_lowercase (trim raw) = d -> valid_domain d -> is_hosts_address d = false ->
  list_ready fs (manual_allow_path cfg) -> list_ready fs (manual_deny_path cfg) ->
  lookup (build cfg (fst (append_manual fs (manual_allow_path cfg) raw Appended))) d = None /\
  let denied := build cfg (fst (append_manual fs (manual_deny_path cfg) raw Appended)) in
  lookup denied d <> None \/ is_allowed denied d = true.
Proof.
  intros He Hraw Hv Hh Ha Hd.
  pose proof (append_manual_line fs _ raw d Hraw Hv Ha) as Hal.
  pose proof (append_manual_line fs _ raw d Hraw Hv Hd) as Hde.
  destruct (append_manual fs (manual_allow_path cfg) raw Appended) as [fa ra].
  destruct (append_manual fs (manual_deny_path cfg) raw Appended) as [fd rd].
  destruct Hal as (_ & _ & c & l & ? & ? & ?), Hde as (_ & _ & c' & l' & ? & ? & ?).
  split; [by eapply manual_line_allowed|by eapply manual_line_denied].
Qed.

Lemma append_manual_effective_witness :
  lookup (build witness_cfg (fst (append_manual ∅ "/var/lib/netwatch/allow.list" " Ads.Example.com " Appended))) "ads.example.com" = None /\
  let denied := build witness_cfg (fst (append_manual ∅ "/var/lib/netwatch/deny.list" " Ads.Example.com " Appended)) in
  lookup denied "ads.example.com" <> None \/ is_allowed denied "ads.example.com" = true.
Proof.
  apply (append_manual_effective witness_cfg ∅ " Ads.Example.com " "ads.example.com");
    [reflexivity|reflexivity|split; reflexivity|reflexivity|by left|by left].
Defined.

(** Removing a domain undoes adding it: the manual list is restored byte
    for byte, and no other file is touched. *)
Theorem append_remove_roundtrip fs path x raw d :
  to_ascii_lowercase (trim raw) = d -> valid_domain d ->
  fs !! path = Some (x +:+ String newline "") ->
  from_utf8_ok (as_bytes (x +:+ String newline "")) = true ->
  contains_char carriage x = false ->
  (forall l, l ∈ split_char newline x -> trim l <> d) ->
  remove_manual (fst (append_manual fs path raw Appended)) path raw Written = (fs, Ok tt).
Proof.
  intros Hraw Hv Hp Hu Hcr Hno. pose proof Hv as [Hd _].
  destruct (domain_no_line_end d Hd) as [Hn Hc].
  pose proof (trim_plain d (domain_plain d Hd)) as Htd.
  assert (read_to_string fs path = Some (x +:+ String newline "")) as Hr by by apply read_to_string_some.
  unfold append_manual, remove_manual. rewrite Hraw, is_domain_normal, Hr by done.
  cbn [negb is_some_and]. rewrite lines_terminated, (map_strip_cr_id _ x) by done.
  destruct (existsb _ _) eqn:E.
  { apply existsb_is_true in E as (l & Hl & Ht%String.eqb_eq). by apply Hno in Hl. }
  rewrite Hp. cbn [default fst id].
  assert (read_to_string (<[path:=(x +:+ String newline "") +:+ d +:+ String newline ""]> fs) path
          = Some ((x +:+ String newline "") +:+ d +:+ String newline "")) as ->.
  { apply read_to_string_some. split; [by simplify_map_eq|].
    unfold from_utf8_ok in *. rewrite as_bytes_app, utf8_app by done. by apply domain_line_utf8. }
  unfold kept_lines. rewrite lines_snoc, lines_terminated, (map_strip_cr_id _ x) by done.
  rewrite List.filter_app, filter_all.
  - simpl. rewrite Htd, String.eqb_refl. simpl. rewrite app_nil_r, str_join_split.
    unfold write_file. by rewrite insert_insert_eq, insert_id.
  - intros l Hl. apply negb_true_iff, String.eqb_neq. by apply Hno.
Qed.

Lemma append_remove_roundtrip_witness :
  remove_manual (fst (append_manual {["deny.list" := "one.example" +:+ String newline ""]} "deny.list" "Two.example" Appended))
    "deny.list" "Two.example" Written
  = ({["deny.list" := "one.example" +:+ String newline ""]}, Ok tt).
Proof.
  apply (append_remove_roundtrip _ _ "one.example" _ "two.example"); try reflexivity.
  - split; reflexivity.
  - intros l ->%list_elem_of_singleton. by vm_compute.
Defined.
