(* ===== verification/Oui.v ===== *)
(** * MAC addresses and vendors (src/oui.rs)

    The built-in vendor table, the IEEE registry that fills its gaps, vendor
    lookup, the randomised-MAC test, and the canonical form of a MAC. *)
From S2P Require Import Prelude Str.
Open Scope Z_scope.

Definition BUILTIN : list (string * string) := [
  ("B827EB", "Raspberry Pi Foundation");
  ("DCA632", "Raspberry Pi Trading");
  ("E45F01", "Raspberry Pi Trading");
  ("D83ADD", "Raspberry Pi Trading");
  ("2CCF67", "Raspberry Pi Trading");
  ("88A29E", "Raspberry Pi Ltd");
  ("F0D1A9", "Apple");
  ("A85C2C", "Apple");
  ("3C0754", "Apple");
  ("D02598", "Apple");
  ("AC87A3", "Apple");
  ("8C8590", "Apple");
  ("F80377", "Apple");
  ("6C4008", "Apple");
  ("A4B197", "Apple");
  ("DC2B2A", "Apple");
  ("E0B9BA", "Apple");
  ("F0DBF8", "Apple");
  ("04D3CF", "Apple");
  ("BC926B", "Apple");
  ("C82A14", "Apple");
  ("E8508B", "Samsung Electronics");
  ("F409D8", "Samsung Electronics");
  ("5CF6DC", "Samsung Electronics");
  ("8C7712", "Samsung Electronics");
  ("34BE00", "Samsung Electronics");
  ("D0176A", "Samsung Electronics");
  ("2C598A", "Samsung Electronics");
  ("C0BDD1", "Samsung Electronics");
  ("F4F5D8", "Google");
  ("F4F5E8", "Google");
  ("3C5AB4", "Google");
  ("DA A1 19", "Google");
  ("1CF29A", "Google");
  ("54600D", "Google Nest");
  ("18B430", "Google Nest");
  ("F0272D", "Amazon Technologies");
  ("44650D", "Amazon Technologies");
  ("68375A", "Amazon Technologies");
  ("A002DC", "Amazon Technologies");
  ("FCA183", "Amazon Technologies");
  ("74C246", "Amazon Technologies");
  ("50DCE7", "Amazon Technologies");
  ("001B21", "Intel");
  ("3C9709", "Intel");
  ("94659C", "Intel");
  ("A0A8CD", "Intel");
  ("8CC681", "Intel");
  ("E4A471", "Intel");
  ("7C7A91", "Intel");
  ("240AC4", "Espressif (ESP32)");
  ("2462AB", "Espressif (ESP32)");
  ("30AEA4", "Espressif (ESP32)");
  ("3C71BF", "Espressif (ESP32)");
  ("807D3A", "Espressif (ESP32)");
  ("A4CF12", "Espressif (ESP32)");
  ("B4E62D", "Espressif (ESP32)");
  ("CC50E3", "Espressif (ESP32)");
  ("D8A01D", "Espressif (ESP32)");
  ("EC FA BC", "Espressif (ESP32)");
  ("5CCF7F", "Espressif (ESP8266)");
  ("18FE34", "Espressif (ESP8266)");
  ("50C7BF", "TP-Link");
  ("A42BB0", "TP-Link");
  ("C46E1F", "TP-Link");
  ("14CC20", "TP-Link");
  ("6466B3", "TP-Link");
  ("9C5322", "TP-Link");
  ("003192", "TP-Link");
  ("A040A0", "Netgear");
  ("204E7F", "Netgear");
  ("9CD36D", "Netgear");
  ("C40415", "Netgear");
  ("1CBDB9", "D-Link");
  ("14D64D", "D-Link");
  ("2C4D54", "ASUSTek");
  ("1C872C", "ASUSTek");
  ("AC220B", "ASUSTek");
  ("48F8B3", "Linksys");
  ("C0561D", "Linksys");
  ("64B473", "Xiaomi");
  ("F8A45F", "Xiaomi");
  ("286C07", "Xiaomi");
  ("78110F", "Xiaomi");
  ("50EC50", "Xiaomi");
  ("00E0FC", "Huawei");
  ("240995", "Huawei");
  ("48D539", "Huawei");
  ("781DBA", "Huawei");
  ("64A2F9", "OnePlus");
  ("C0EEFB", "OnePlus");
  ("94652D", "OnePlus");
  ("D0C5D3", "Oppo");
  ("2CF0A2", "Vivo");
  ("5CAAFD", "Sonos");
  ("949F3E", "Sonos");
  ("B8E937", "Sonos");
  ("B0A737", "Roku");
  ("CC6DA0", "Roku");
  ("D83134", "Roku");
  ("C8D083", "Vizio");
  ("74E1B6", "LG Electronics");
  ("A816B2", "LG Electronics");
  ("2013E0", "Sony");
  ("FCF152", "Sony");
  ("001788", "Philips Hue");
  ("ECB5FA", "Philips Hue");
  ("245A4C", "Ubiquiti");
  ("788A20", "Ubiquiti");
  ("FC ECDA", "Ubiquiti");
  ("74ACB9", "Ubiquiti");
  ("4C5E0C", "Routerboard (MikroTik)");
  ("E48D8C", "Routerboard (MikroTik)");
  ("6C3B6B", "Routerboard (MikroTik)");
  ("001A2B", "Cisco");
  ("F4CFE2", "Cisco");
  ("3CD92B", "HP");
  ("9CB6D0", "HP");
  ("002673", "Brother");
  ("008077", "Brother");
  ("00000E", "Canon");
  ("2477 03", "Epson");
  ("000C29", "VMware");
  ("005056", "VMware");
  ("080027", "VirtualBox");
  ("525400", "QEMU/KVM");
  ("02420A", "Docker");
  ("B0BE76", "Belkin");
  ("EC1A59", "Belkin/Wemo");
  ("6038E0", "Belkin");
  ("001E8F", "Canon");
  ("00248C", "ASUSTek");
  ("485D36", "Amazon eero");
  ("F8BBBF", "Nintendo");
  ("98B6E9", "Nintendo");
  ("0017AB", "Nintendo");
  ("7CBB8A", "Nintendo");
  ("BC60A7", "Sony PlayStation");
  ("F8461C", "Sony PlayStation");
  ("000D3A", "Microsoft");
  ("7C1E52", "Microsoft");
  ("60455E", "Microsoft Xbox")].

(** [OuiDb] is its map from six upper-case digits to a vendor. *)
Abbreviation OuiDb := (gmap string string).

(** The double-quote character. *)
Definition dquote : ascii := of_code 34.

Definition hex_digits (s : string) : string := str_filter is_ascii_hexdigit s.
Definition upper_hex (s : string) : string := str_map upper_char (hex_digits s).

Definition add_builtin (map : OuiDb) (row : string * string) : OuiDb :=
  let key := upper_hex (fst row) in
  if str_len key =? 6 then <[key := snd row]> map else map.
Definition new : OuiDb := fold_left add_builtin BUILTIN ∅.

(** One line of [oui.csv]; the count is of the usable lines. *)
Definition add_csv_line (st : OuiDb * Z) (line : string) : OuiDb * Z :=
  let '(map, added) := st in
  match splitn 4 "," line with
  | _ :: assignment :: org :: _ =>
      let key := upper_hex assignment in
      if negb (str_len key =? 6) then st
      else
        let org := trim (trim_matches dquote (trim org)) in
        if is_empty org then st
        else (match map !! key with Some _ => map | None => <[key := org]> map end, added + 1)
  | _ => st
  end.
(** [load_ieee_csv] on the text of the file ([None]: it cannot be read). *)
Definition load_ieee_csv (map : OuiDb) (text : option string) : OuiDb * option Z :=
  match text with
  | None => (map, None)
  | Some t => let '(m, added) := fold_left add_csv_line (tl (lines t)) (map, 0) in (m, Some added)
  end.

Definition lookup (map : OuiDb) (mac : string) : option string :=
  let hex := upper_hex mac in
  if str_len hex <? 6 then None else map !! String.substring 0 6 hex.

Definition is_randomized (mac : string) : bool :=
  let hex := hex_digits mac in
  if str_len hex <? 2 then false
  else match from_str_radix 16 u8_max (String.substring 0 2 hex) with
       | Some first => negb (Z.land first 2 =? 0)
       | None => false
       end.

Definition normalize (mac : string) : option string :=
  let hex := hex_digits mac in
  if negb (str_len hex =? 12) then None
  else if str_forallb (fun c => Ascii.eqb c "0") hex then None
  else
    let lower := to_ascii_lowercase hex in
    Some (str_join ":" (map (fun i => String.substring (i * 2) 2 lower) (seq 0 6))).

(* ------------------------------------------------------------------ *)
(** ** The tests of the source, evaluated *)

Example builtin_lookup :
  map (lookup new) ["b8:27:eb:11:22:33"; "DC-A6-32-00-00-01"; "fc:ec:da:00:00:00"; "zz"]
  = [Some "Raspberry Pi Foundation"; Some "Raspberry Pi Trading"; Some "Ubiquiti"; None].
Proof. vm_compute. reflexivity. Qed.

Example randomized_bit :
  map is_randomized ["02:00:00:00:00:01"; "b8:27:eb:11:22:33"; "da:a1:19:00:00:01"] = [true; false; true].
Proof. vm_compute. reflexivity. Qed.

Example normalize_examples :
  map normalize ["B8-27-EB-11-22-33"; "00:00:00:00:00:00"; "nonsense"]
  = [Some "b8:27:eb:11:22:33"; None; None].
Proof. vm_compute. reflexivity. Qed.

(* ------------------------------------------------------------------ *)
(** ** Lemmas *)

(** A MAC in canonical form: six pairs of lower-case digits. *)
Definition canonical_mac (m : string) : Prop :=
  exists h, String.length h = 12%nat /\ str_forallb (fun a => is_ascii_hexdigit a && negb (is_ascii_upper a)) h = true
    /\ m = str_join ":" (map (fun i => String.substring (i * 2) 2 h) (seq 0 6)).

Lemma length_12 h : String.length h = 12%nat ->
  exists a b c d e f g i j k l m,
    h = String a (String b (String c (String d (String e (String f
        (String g (String i (String j (String k (String l (String m "")))))))))))
    .
Proof.
  do 12 (destruct h as [|? h]; [discriminate|]). destruct h; [|discriminate].
  intros _. repeat eexists.
Qed.

Lemma hex_digits_idemp s : hex_digits (hex_digits s) = hex_digits s.
Proof. apply str_filter_id, str_forallb_filter. Qed.

Lemma lower_hex_ok s :
  str_forallb is_ascii_hexdigit s = true ->
  str_forallb (fun a => is_ascii_hexdigit a && negb (is_ascii_upper a)) (to_ascii_lowercase s) = true.
Proof.
  unfold to_ascii_lowercase. induction s as [|a s IH]; [done|]. simpl. intros [Ha Hs]%andb_true_iff.
  by rewrite lower_char_hex, lower_char_not_upper, Ha, IH.
Qed.

Lemma lower_zero s :
  str_forallb (fun c => Ascii.eqb c "0") (to_ascii_lowercase s) = str_forallb (fun c => Ascii.eqb c "0") s.
Proof.
  unfold to_ascii_lowercase. induction s as [|a s IH]; [done|]. simpl. rewrite IH. f_equal. all_chars a; done.
Qed.

(** The digits of the pairs are the digits that were paired. *)
Lemma hex_digits_cons a s : is_ascii_hexdigit a = true -> hex_digits (String a s) = String a (hex_digits s).
Proof. intros H. unfold hex_digits. cbn [str_filter]. by rewrite H. Qed.

Lemma hex_digits_pairs h :
  String.length h = 12%nat -> str_forallb (fun a => is_ascii_hexdigit a && negb (is_ascii_upper a)) h = true ->
  hex_digits (str_join ":" (map (fun i => String.substring (i * 2) 2 h) (seq 0 6))) = h.
Proof.
  intros (a & b & c & d & e & f & g & i & j & k & l & m & ->)%length_12 H.
  cbn [str_forallb] in H. bools.
  cbn [map seq Nat.mul Nat.add String.substring str_join String.concat String.append].
  assert (forall s, hex_digits (String ":" s) = hex_digits s) as Hc by done.
  do 6 (do 2 (rewrite hex_digits_cons by done); rewrite ?Hc). done.
Qed.

Lemma mac_normalize_sound mac m :
  normalize mac = Some m ->
  canonical_mac m /\ hex_digits m = to_ascii_lowercase (hex_digits mac) /\
  str_len (hex_digits mac) = 12 /\ str_forallb (fun c => Ascii.eqb c "0") (hex_digits mac) = false.
Proof.
  unfold normalize. destruct (Z.eqb_spec (str_len (hex_digits mac)) 12) as [Hl|]; [|done]. cbn [negb].
  destruct (str_forallb _ (hex_digits mac)) eqn:H0; [done|]. intros [= <-].
  pose proof (lower_hex_ok (hex_digits mac) (str_forallb_filter _ _)) as Hh.
  assert (String.length (to_ascii_lowercase (hex_digits mac)) = 12%nat) as Hl'.
  { unfold to_ascii_lowercase. rewrite str_map_length. unfold str_len in Hl. lia. }
  split; [by exists (to_ascii_lowercase (hex_digits mac))|]. split; [by apply hex_digits_pairs|done].
Qed.

Lemma upper_lower s : str_map upper_char (to_ascii_lowercase s) = str_map upper_char s.
Proof.
  unfold to_ascii_lowercase. induction s as [|a s IH]; [done|]. simpl. rewrite IH. f_equal.
  all_chars a; done.
Qed.

Lemma to_digit_lower r a : r <= 16 -> to_digit r (lower_char a) = to_digit r a.
Proof.
  intros _. unfold to_digit. assert (digit_value (lower_char a) = digit_value a) as ->; [|done].
  all_chars a; done.
Qed.

Lemma parse_digits_lower radix max acc s :
  radix <= 16 -> parse_digits radix max acc (to_ascii_lowercase s) = parse_digits radix max acc s.
Proof.
  intros Hr. revert acc. induction s as [|a s IH]; intros acc; [done|].
  change (to_ascii_lowercase (String a s)) with (String (lower_char a) (to_ascii_lowercase s)).
  cbn [parse_digits]. rewrite to_digit_lower by done. destruct (to_digit radix a); [|done].
  cbv zeta. case_match; [done|apply IH].
Qed.

Lemma substring_map f n m s : String.substring n m (str_map f s) = str_map f (String.substring n m s).
Proof.
  revert n m. induction s as [|a s IH]; intros [|n] [|m]; simpl; try done; by rewrite IH.
Qed.

Lemma is_randomized_lower_hex mac m :
  hex_digits m = to_ascii_lowercase (hex_digits mac) -> is_randomized m = is_randomized mac.
Proof.
  intros E. unfold is_randomized. rewrite E.
  assert (str_len (to_ascii_lowercase (hex_digits mac)) = str_len (hex_digits mac)) as ->.
  { unfold str_len, to_ascii_lowercase. by rewrite str_map_length. }
  destruct (Z.ltb_spec (str_len (hex_digits mac)) 2) as [|Hl]; [done|].
  pose proof (str_forallb_filter is_ascii_hexdigit mac) as Hh. fold (hex_digits mac) in Hh.
  destruct (hex_digits mac) as [|a [|b r]]; [done|done|]. clear E Hl.
  replace (from_str_radix 16 u8_max (String.substring 0 2 (to_ascii_lowercase (String a (String b r)))))
    with (parse_digits 16 u8_max 0 (to_ascii_lowercase (String a (String b "")))).
  - rewrite parse_digits_lower by done. cbn [str_forallb] in Hh.
    apply andb_true_iff in Hh as [Ha _]. unfold from_str_radix. cbn [String.substring].
    replace (String.substring 0 0 r) with "" by (by destruct r).
    destruct (Ascii.eqb_spec a "+") as [->|]; [done|]. done.
  - unfold to_ascii_lowercase. rewrite substring_map. cbn [String.substring].
    replace (String.substring 0 0 r) with "" by (by destruct r).
    cbn [str_forallb] in Hh. apply andb_true_iff in Hh as [Ha _].
    unfold from_str_radix. cbn [str_map].
    destruct (Ascii.eqb_spec (lower_char a) "+") as [E|]; [|done].
    exfalso. revert Ha E. clear. all_chars a; discriminate.
Qed.

Lemma lookup_lower_hex db mac m :
  hex_digits m = to_ascii_lowercase (hex_digits mac) -> lookup db m = lookup db mac.
Proof. intros E. unfold lookup, upper_hex. by rewrite E, upper_lower. Qed.

(* ------------------------------------------------------------------ *)
(** ** Properties *)

(** A MAC has one canonical form: what [normalize] returns is six
    lower-case pairs, is its own canonical form, and any other spelling of
    the same digits maps to it; vendor lookup and the randomised-MAC test
    give the same answer for every spelling. *)
Theorem normalize_canonical db mac m :
  normalize mac = Some m ->
  canonical_mac m /\ normalize m = Some m /\
  lookup db m = lookup db mac /\ is_randomized m = is_randomized mac /\
  (forall mac', to_ascii_lowercase (hex_digits mac') = to_ascii_lowercase (hex_digits mac) ->
     normalize mac' = Some m).
Proof.
  intros H. pose proof H as (Hc & Hd & Hl & H0)%mac_normalize_sound.
  assert (forall mac', to_ascii_lowercase (hex_digits mac') = to_ascii_lowercase (hex_digits mac) ->
     normalize mac' = Some m) as Hall.
  { intros mac' E. unfold normalize in *. rewrite <-lower_zero, E, lower_zero.
    assert (str_len (hex_digits mac') = str_len (hex_digits mac)) as ->; [|done].
    unfold str_len. rewrite <-(str_map_length lower_char (hex_digits mac')).
    fold (to_ascii_lowercase (hex_digits mac')). rewrite E. unfold to_ascii_lowercase. by rewrite str_map_length. }
  split; [done|]. split; [|split; [by apply lookup_lower_hex|split; [by apply is_randomized_lower_hex|done]]].
  apply Hall. by rewrite Hd, to_ascii_lowercase_idemp.
Qed.

Lemma normalize_canonical_witness :
  canonical_mac "b8:27:eb:11:22:33" /\ normalize "b8:27:eb:11:22:33" = Some "b8:27:eb:11:22:33" /\
  lookup new "b8:27:eb:11:22:33" = lookup new "B8-27-EB-11-22-33" /\
  is_randomized "b8:27:eb:11:22:33" = is_randomized "B8-27-EB-11-22-33" /\
  (forall mac', to_ascii_lowercase (hex_digits mac') = to_ascii_lowercase (hex_digits "B8-27-EB-11-22-33") ->
     normalize mac' = Some "b8:27:eb:11:22:33").
Proof. apply (normalize_canonical new "B8-27-EB-11-22-33"). vm_compute. reflexivity. Defined.

(** Every key is six upper-case digits and every vendor has a name. *)
Definition oui_wf (map : OuiDb) : Prop :=
  map_Forall (fun k v => String.length k = 6%nat /\
    str_forallb (fun a => is_ascii_hexdigit a && negb (is_ascii_lower a)) k = true /\ v <> "") map.

Lemma upper_hex_chars s :
  str_forallb (fun a => is_ascii_hexdigit a && negb (is_ascii_lower a)) (upper_hex s) = true.
Proof.
  unfold upper_hex. pose proof (str_forallb_filter is_ascii_hexdigit s) as H. fold (hex_digits s) in H.
  induction (hex_digits s) as [|a r IH]; [done|]. simpl in *. apply andb_true_iff in H as [Ha Hr].
  apply andb_true_iff. split; [|by apply IH]. revert Ha. clear. all_chars a; done.
Qed.

Lemma str_len_6 s : str_len s = 6 -> String.length s = 6%nat.
Proof. unfold str_len. lia. Qed.

Lemma add_csv_line_facts st line :
  oui_wf (fst st) ->
  oui_wf (fst (add_csv_line st line)) /\ fst st ⊆ fst (add_csv_line st line) /\
  (Z.of_nat (size (fst (add_csv_line st line))) - Z.of_nat (size (fst st))
   <= snd (add_csv_line st line) - snd st).
Proof.
  destruct st as [map added]. intros Hwf. unfold add_csv_line.
  destruct (splitn 4 "," line) as [|x [|assignment [|org rest]]]; simpl; try (split_and!; [done|done|lia]).
  destruct (Z.eqb_spec (str_len (upper_hex assignment)) 6) as [Hl|]; simpl; [|split_and!; [done|done|lia]].
  destruct (is_empty _) eqn:He; simpl; [split_and!; [done|done|lia]|].
  destruct (map !! upper_hex assignment) eqn:Hm; simpl; [split_and!; [done|done|lia]|].
  split; [|split; [by apply insert_subseteq|]].
  - apply map_Forall_insert_2; [|done]. split; [by apply str_len_6|]. split; [apply upper_hex_chars|].
    intros E. by rewrite E in He.
  - rewrite map_size_insert_None by done. lia.
Qed.

Lemma new_wf : oui_wf new.
Proof.
  unfold new. assert (Forall (fun row => snd row <> "") BUILTIN) as HB by (repeat constructor; done).
  assert (oui_wf ∅) as H0 by apply map_Forall_empty.
  revert HB H0. generalize (∅ : OuiDb). induction BUILTIN as [|[p v] l IH]; intros m HB Hm; [done|].
  apply Forall_cons in HB as [Hv HB]. simpl. apply IH; [done|]. unfold add_builtin. simpl.
  destruct (Z.eqb_spec (str_len (upper_hex p)) 6) as [Hl|]; [|done].
  apply map_Forall_insert_2; [|done]. split; [by apply str_len_6|]. by split; [apply upper_hex_chars|].
Qed.

(** Loading the IEEE registry only fills gaps: every vendor known before
    is still reported under the same name for every MAC, the table stays well
    formed, and it grows by at most the number reported. *)
Theorem load_ieee_csv_fills_gaps db text db' n :
  oui_wf db -> load_ieee_csv db text = (db', n) ->
  oui_wf db' /\ (forall mac v, lookup db mac = Some v -> lookup db' mac = Some v) /\
  Z.of_nat (size db') <= Z.of_nat (size db) + default 0 n.
Proof.
  intros Hwf E.
  assert (oui_wf db' /\ db ⊆ db' /\ Z.of_nat (size db') <= Z.of_nat (size db) + default 0 n) as (Hw & Hs & Hn).
  { unfold load_ieee_csv in E. destruct text as [t|]; [|by simplify_eq; split_and!; [done|done|simpl; lia]].
    assert (forall ls st, oui_wf (fst st) ->
      oui_wf (fst (fold_left add_csv_line ls st)) /\ fst st ⊆ fst (fold_left add_csv_line ls st) /\
      Z.of_nat (size (fst (fold_left add_csv_line ls st))) - Z.of_nat (size (fst st))
        <= snd (fold_left add_csv_line ls st) - snd st) as H.
    { induction ls as [|l ls IH]; intros st Hst; [split_and!; [done|done|simpl; lia]|]. simpl.
      destruct (add_csv_line_facts st l Hst) as (H1 & H2 & H3).
      destruct (IH _ H1) as (H4 & H5 & H6). split_and!; [done|by etrans|lia]. }
    specialize (H (tl (lines t)) (db, 0) Hwf). destruct (fold_left _ _ _) as [m a]. simplify_eq/=.
    destruct H as (? & ? & ?). split_and!; [done|done|lia]. }
  split; [done|]. split; [|done]. intros mac v. unfold lookup. case_match; [done|].
  intros Hl. by eapply lookup_weaken.
Qed.

Lemma load_ieee_csv_fills_gaps_witness :
  let db : OuiDb := {["B827EB" := "Raspberry Pi Foundation"]} in
  let text := Some ("Registry,Assignment,Organization Name" +:+ String newline "" +:+ "MA-L,B827EB,Other" +:+ String newline "") in
  let db' := fst (load_ieee_csv db text) in
  oui_wf db' /\ (forall mac v, lookup db mac = Some v -> lookup db' mac = Some v) /\
  Z.of_nat (size db') <= Z.of_nat (size db) + default 0 (Some 1).
Proof.
  cbv zeta. apply (load_ieee_csv_fills_gaps _
    (Some ("Registry,Assignment,Organization Name" +:+ String newline "" +:+ "MA-L,B827EB,Other" +:+ String newline ""))).
  - apply map_Forall_singleton. by vm_compute.
  - reflexivity.
Defined.
