(* ===== verification/Netinfo.v ===== *)
(** * Network state from /proc (src/netinfo.rs)

    Subnets and their hosts, and the parsers of the kernel's route, neighbour
    and interface tables and of the firmware's throttling word.  The text of
    each file is an argument ([None] when it cannot be read). *)
From S2P Require Import Prelude Str Float Addr Oui.
Open Scope Z_scope.

Record DefaultRoute : Type := mk_route { rt_iface : string; gateway : Z }.
Record Subnet : Type := mk_subnet { network : Z; prefix_len : Z }.
#[export] Instance subnet_eq_dec : EqDecision Subnet.
Proof. solve_decision. Defined.

Definition netmask (s : Subnet) : Z :=
  if prefix_len s =? 0 then 0 else wrap 32 (Z.shiftl u32_max (32 - prefix_len s)).

Definition contains (s : Subnet) (addr : Z) : bool :=
  Z.land addr (netmask s) =? Z.land (network s) (netmask s).

Definition hosts (s : Subnet) : list Z :=
  if (prefix_len s <? 16) || (30 <? prefix_len s) then []
  else
    let base := Z.land (network s) (netmask s) in
    let count := Z.shiftl 1 (32 - prefix_len s) in
    map (fun i => base + Z.of_nat i) (seq 1 (Z.to_nat (saturating_sub count 1 - 1))).

Inductive CidrError : Type := NotCidr | BadAddress | BadPrefix | PrefixRange.
Definition parse_cidr (s : string) : result CidrError Subnet :=
  let? (addr, len) := ok_or NotCidr (split_once "/" s) in
  let? network := ok_or BadAddress (parse_ipv4 (trim addr)) in
  let? prefix := ok_or BadPrefix (parse_uint u8_max (trim len)) in
  let? _ := ensure (prefix <=? 32) PrefixRange in
  Ok (mk_subnet network prefix).

Definition show_subnet (s : Subnet) : string :=
  show_ipv4 (network s) +:+ "/" +:+ show_uint (prefix_len s).

(* ------------------------------------------------------------------ *)
(** ** Routes *)

Definition hex_le_to_ipv4 (s : string) : option Z :=
  let! raw := from_str_radix 16 u32_max s in Some (swap_bytes raw).

(** [f[i]] after the length test. *)
Definition field (f : list string) (i : nat) : string := nth i f "".
(** [text.lines().skip(n)]. *)
Definition body_lines (n : nat) (text : string) : list string := drop n (lines text).

Definition default_route_line (line : string) : option DefaultRoute :=
  let f := split_whitespace line in
  if (length f <? 8)%nat then None
  else if negb (field f 1 =? "00000000")%string then None
  else
    let! gw := hex_le_to_ipv4 (field f 2) in
    if negb (v4_is_unspecified gw) then Some (mk_route (field f 0) gw) else None.

(** The first line that yields something. *)
Fixpoint first_some {A B} (f : A -> option B) (l : list A) : option B :=
  match l with
  | [] => None
  | x :: r => match f x with Some y => Some y | None => first_some f r end
  end.
Definition parse_default_route (text : string) : option DefaultRoute :=
  first_some default_route_line (body_lines 1 text).
Definition default_route (text : option string) : option DefaultRoute :=
  let! t := text in parse_default_route t.

(** [u32::count_ones]. *)
Definition count_ones (a : Z) : Z :=
  Z.of_nat (length (List.filter (fun i => Z.testbit a (Z.of_nat i)) (seq 0 32))).

(** The subnet of an on-link route line of [iface]. *)
Definition lan_candidate (iface line : string) : option Subnet :=
  let f := split_whitespace line in
  if (length f <? 8)%nat || negb (field f 0 =? iface)%string then None
  else if negb (field f 2 =? "00000000")%string || (field f 1 =? "00000000")%string then None
  else
    let! network := hex_le_to_ipv4 (field f 1) in
    let! mask := hex_le_to_ipv4 (field f 7) in
    let prefix_len := count_ones mask in
    if v4_is_link_local network || v4_is_multicast network then None
    else Some (mk_subnet network prefix_len).

Definition better (best : option Subnet) (c : Subnet) : option Subnet :=
  if is_none_or (fun b => prefix_len b <? prefix_len c) best then Some c else best.
Definition lan_step (iface : string) (best : option Subnet) (line : string) : option Subnet :=
  match lan_candidate iface line with Some c => better best c | None => best end.
Definition parse_lan_subnet (text iface : string) : option Subnet :=
  fold_left (lan_step iface) (body_lines 1 text) None.
Definition lan_subnet (text : option string) (iface : string) : option Subnet :=
  let! t := text in parse_lan_subnet t iface.

(* ------------------------------------------------------------------ *)
(** ** Neighbours and counters *)

Record ArpEntry : Type := mk_arp { arp_ip : Z; arp_mac : string; arp_iface : string }.

Definition arp_line (line : string) : option ArpEntry :=
  let f := split_whitespace line in
  if (length f <? 6)%nat then None
  else
    let! ip := parse_ipv4 (field f 0) in
    if (field f 2 =? "0x0")%string then None
    else
      let! mac := Oui.normalize (field f 3) in
      Some (mk_arp ip mac (field f 5)).
Definition parse_arp_table (text : string) : list ArpEntry := omap arp_line (body_lines 1 text).
Definition arp_table (text : option string) : option (list ArpEntry) :=
  let! t := text in Some (parse_arp_table t).

Record IfaceCounters : Type := mk_counters {
  ic_iface : string;
  rx_bytes : Z; tx_bytes : Z; rx_packets : Z; tx_packets : Z;
  rx_errors : Z; tx_errors : Z; rx_dropped : Z; tx_dropped : Z }.

Definition counters_line (line : string) : option IfaceCounters :=
  let! (name, rest) := split_once ":" line in
  let iface := trim name in
  if (iface =? "lo")%string then None
  else
    let v := map (fun s => default 0 (parse_uint u64_max s)) (split_whitespace rest) in
    let n i := nth i v 0 in
    if (length v <? 16)%nat then None
    else Some (mk_counters iface (n 0%nat) (n 8%nat) (n 1%nat) (n 9%nat)
                 (n 2%nat) (n 10%nat) (n 3%nat) (n 11%nat)).
Definition parse_iface_counters (text : string) : list IfaceCounters := omap counters_line (body_lines 2 text).
Definition iface_counters (text : option string) : option (list IfaceCounters) :=
  let! t := text in Some (parse_iface_counters t).

(* ------------------------------------------------------------------ *)
(** ** System health *)

(** The memory fields of [SystemInfo]: (total, available) in kB. *)
Definition meminfo_line (m : Z * Z) (line : string) : Z * Z :=
  match split_once ":" line with
  | None => m
  | Some (k, v) =>
      let kb := default 0 (match split_whitespace v with n :: _ => parse_uint u64_max n | [] => None end) in
      if (k =? "MemTotal")%string then (kb, snd m)
      else if (k =? "MemAvailable")%string then (fst m, kb)
      else m
  end.
Definition parse_meminfo (text : option string) : Z * Z :=
  match text with Some t => fold_left meminfo_line (lines t) (0, 0) | None => (0, 0) end.

Definition parse_throttled_bits (raw : string) : option Z :=
  let t := trim raw in
  from_str_radix 16 u32_max (trim_start_matches (String.length t) "0x" t).

Definition throttle_labels : list (Z * string) :=
  [(0, "undervoltage"); (1, "ARM frequency capped"); (2, "throttled"); (3, "soft temperature limit")].
Definition labels_at (bits off : Z) : list string :=
  map snd (List.filter (fun p => negb (Z.land bits (Z.shiftl 1 (fst p + off)) =? 0)) throttle_labels).

Definition describe_throttled (bits : Z) : string :=
  let now := labels_at bits 0 in
  let past := labels_at bits 16 in
  let out := match now with [] => "" | _ => "now: " +:+ str_join ", " now end in
  match past with
  | [] => out
  | _ => (if is_empty out then out else out +:+ "; ") +:+ "since boot: " +:+ str_join ", " past
  end.

Definition read_throttled (soc hwmon : option string) : option string :=
  let! raw := match soc with Some s => Some s | None => hwmon end in
  let! bits := parse_throttled_bits (trim raw) in
  let s := describe_throttled bits in
  if is_empty s then None else Some s.

Record SystemInfo : Type := mk_system {
  uptime_secs : Z; load1 : F64; load5 : F64; load15 : F64;
  mem_total_kb : Z; mem_available_kb : Z; cpu_temp_c : option F64; throttled : option string }.

Definition parse_or_zero (s : string) : F64 := default f_zero (parse_f64 s).

Definition parse_uptime (text : option string) : Z :=
  match text with
  | Some t => match split_whitespace t with first :: _ => as_u64 (parse_or_zero first) | [] => 0 end
  | None => 0
  end.

Definition parse_loadavg (text : option string) : F64 * F64 * F64 :=
  match text with
  | Some t => match split_whitespace t with
              | a :: b :: c :: _ => (parse_or_zero a, parse_or_zero b, parse_or_zero c)
              | _ => (f_zero, f_zero, f_zero)
              end
  | None => (f_zero, f_zero, f_zero)
  end.

Definition parse_cpu_temp (text : option string) : option F64 :=
  let! t := text in
  let! milli := parse_f64 (trim t) in Some (f_div milli (of_int 1000)).

(** [system_info]: each argument is a file, [None] when it cannot be read. *)
Definition system_info (uptime loadavg meminfo soc hwmon temp : option string) : SystemInfo :=
  let '(l1, l5, l15) := parse_loadavg loadavg in
  let '(total, available) := parse_meminfo meminfo in
  mk_system (parse_uptime uptime) l1 l5 l15 total available (parse_cpu_temp temp) (read_throttled soc hwmon).

(* ------------------------------------------------------------------ *)
(** ** The tests of the source, evaluated *)

Example hex_le_examples : hex_le_to_ipv4 "0101A8C0" = Some (ipv4 192 168 1 1).
Proof. vm_compute. reflexivity. Qed.

(** 48312 thousandths of a degree read as the double nearest to 48.312. *)
Example system_info_example :
  let i := system_info (Some "93214.71 350812.13") (Some "0.00 0.50 1.25 1/180 2231") None None None (Some "48312") in
  uptime_secs i = 93214 /\ load1 i = f_zero /\ Some (load5 i) = parse_f64 "0.5" /\
  cpu_temp_c i = parse_f64 "48.312" /\ throttled i = None.
Proof. vm_compute. done. Qed.

Example throttled_examples :
  map describe_throttled [0; 1; 327680]
  = [""; "now: undervoltage"; "since boot: undervoltage, throttled"].
Proof. vm_compute. reflexivity. Qed.

Example throttled_bits : map parse_throttled_bits ["0x0"; "50005"; "zz"] = [Some 0; Some 327685; None].
Proof. vm_compute. reflexivity. Qed.

Definition TAB : string := String (of_code 9) "".
Definition route_row (l : list string) : string := str_join TAB l.
Definition route_table : string := str_join (String newline "") [
  route_row ["Iface"; "Destination"; "Gateway"; "Flags"; "RefCnt"; "Use"; "Metric"; "Mask"];
  route_row ["eth0"; "00000000"; "0101A8C0"; "0003"; "0"; "0"; "100"; "00000000"];
  route_row ["eth0"; "0001A8C0"; "00000000"; "0001"; "0"; "0"; "100"; "00FFFFFF"]].

Example routes_parsed :
  parse_default_route route_table = Some (mk_route "eth0" (ipv4 192 168 1 1)) /\
  parse_lan_subnet route_table "eth0" = Some (mk_subnet (ipv4 192 168 1 0) 24).
Proof. split; vm_compute; reflexivity. Qed.

Example arp_parsed :
  parse_arp_table ("IP HW Flags MAC Mask Dev" +:+ String newline "192.168.1.5 0x1 0x2 AA:BB:CC:DD:EE:01 * eth0"
    +:+ String newline "192.168.1.6 0x1 0x0 00:00:00:00:00:00 * eth0")
  = [mk_arp (ipv4 192 168 1 5) "aa:bb:cc:dd:ee:01" "eth0"].
Proof. vm_compute. reflexivity. Qed.

(* ------------------------------------------------------------------ *)
(** ** Lemmas *)

Definition subnet_wf (s : Subnet) : Prop := in_width 32 (network s) /\ 0 <= prefix_len s <= 32.

Lemma netmask_prefix s : subnet_wf s -> netmask s = prefix_mask 32 (prefix_len s).
Proof.
  intros [_ Hp]. unfold netmask, prefix_mask. destruct (Z.eqb_spec (prefix_len s) 0) as [->|]; [|done].
  by vm_compute.
Qed.

(** Membership is agreement on the network part. *)
Lemma contains_iff s a :
  subnet_wf s -> in_width 32 a ->
  contains s a = true <-> a / 2 ^ (32 - prefix_len s) = network s / 2 ^ (32 - prefix_len s).
Proof.
  intros Hs Ha. unfold contains. rewrite netmask_prefix, Z.eqb_eq by done.
  apply mask_eq_iff; [apply Hs|done|apply Hs].
Qed.

Lemma network_base s :
  subnet_wf s ->
  Z.land (network s) (netmask s) = network s / 2 ^ (32 - prefix_len s) * 2 ^ (32 - prefix_len s).
Proof.
  intros [Hn Hp]. rewrite netmask_prefix, land_prefix_mask by done.
  rewrite Z.shiftl_mul_pow2, Z.shiftr_div_pow2; lia.
Qed.

Lemma subnet_parse_cidr_wf t s : parse_cidr t = Ok s -> subnet_wf s.
Proof.
  unfold parse_cidr. destruct (split_once "/" t) as [[addr len]|]; [|done]. cbn [ok_or].
  destruct (parse_ipv4 (trim addr)) as [n|] eqn:Hn; [|done]. cbn [ok_or].
  destruct (parse_uint u8_max (trim len)) as [p|] eqn:Hp; [|done]. cbn [ok_or].
  unfold ensure. destruct (Z.leb_spec p 32); [|done]. intros [= <-].
  apply parse_ipv4_width in Hn. apply parse_uint_range in Hp; [|done]. by split; simpl; [|lia].
Qed.

(** [Display] and [parse_cidr] agree. *)
Lemma digits_no_slash n : 0 <= n -> contains_char "/" (show_uint n) = false.
Proof.
  intros Hn. apply contains_char_forallb. apply str_forallb_impl with (fun a => is_some (to_digit 10 a)).
  - intros a. all_chars a; first [reflexivity|discriminate|intros; reflexivity].
  - apply show_radix_digits; lia.
Qed.

Lemma digits_plain n : 0 <= n -> str_forallb plain (show_uint n) = true.
Proof.
  intros Hn. apply str_forallb_impl with (fun a => is_some (to_digit 10 a)).
  - intros a. all_chars a; first [reflexivity|discriminate|intros; reflexivity].
  - apply show_radix_digits; lia.
Qed.

Lemma show_ipv4_chars a : in_width 32 a ->
  str_forallb plain (show_ipv4 a) = true /\ contains_char "/" (show_ipv4 a) = false.
Proof.
  intros _. assert (forall i, 0 <= octet i a) as Ho by (intros; apply octet_range).
  unfold show_ipv4, octets. cbn [map str_join String.concat].
  rewrite !str_forallb_app, !contains_char_app, !digits_plain, !digits_no_slash by auto. done.
Qed.

(** [to_string] and [parse_cidr] are inverse. *)
Lemma parse_cidr_show s : subnet_wf s -> parse_cidr (show_subnet s) = Ok s.
Proof.
  intros [Hn Hp]. destruct (show_ipv4_chars (network s) Hn) as [Hc Hs].
  unfold parse_cidr, show_subnet. cbn [String.append]. rewrite split_once_app by done. cbn [ok_or].
  rewrite trim_plain, parse_show_ipv4 by done. cbn [ok_or].
  rewrite trim_plain by (apply digits_plain; lia).
  rewrite parse_uint_show by (unfold u8_max; lia). cbn [ok_or].
  unfold ensure. rewrite (proj2 (Z.leb_le _ _)) by lia. by destruct s.
Qed.

Lemma count_ones_range a : 0 <= count_ones a <= 32.
Proof.
  unfold count_ones. pose proof (filter_length_le (fun i => Z.testbit a (Z.of_nat i)) (seq 0 32)) as H.
  rewrite length_seq in H. lia.
Qed.

Lemma swap_bytes_width a : in_width 32 (swap_bytes a).
Proof. apply ipv4_width; apply octet_range. Qed.

Lemma hex_le_width s a : hex_le_to_ipv4 s = Some a -> in_width 32 a.
Proof. unfold hex_le_to_ipv4. destruct (from_str_radix _ _ _); [|done]. intros [= <-]. apply swap_bytes_width. Qed.

(** The kernel prints an address as its bytes in memory order. *)
Lemma hex_le_roundtrip a : in_width 32 a ->
  hex_le_to_ipv4 (show_radix 40 16 (swap_bytes a)) = Some a.
Proof.
  intros Ha. unfold hex_le_to_ipv4. pose proof (swap_bytes_width a) as Hs.
  rewrite from_str_radix_show; [by rewrite swap_bytes_involutive|..]; pow_lia.
Qed.

Lemma lan_candidate_wf iface line c :
  lan_candidate iface line = Some c ->
  subnet_wf c /\ v4_is_link_local (network c) = false /\ v4_is_multicast (network c) = false.
Proof.
  unfold lan_candidate. repeat case_match; intros; simplify_eq. bools. split; [|done].
  split; simpl; [by eapply hex_le_width|apply count_ones_range].
Qed.

Lemma elem_of_hosts s a :
  16 <= prefix_len s <= 30 ->
  a ∈ hosts s <-> Z.land (network s) (netmask s) < a < Z.land (network s) (netmask s) + 2 ^ (32 - prefix_len s) - 1.
Proof.
  intros Hp. unfold hosts. rewrite (proj2 (Z.ltb_ge _ _)), (proj2 (Z.ltb_ge _ _)) by lia. cbn [orb].
  rewrite Z.shiftl_mul_pow2, Z.mul_1_l by lia. unfold saturating_sub.
  set (c := 2 ^ (32 - prefix_len s)). assert (4 <= c).
  { change 4 with (2 ^ 2). apply Z.pow_le_mono_r; lia. }
  rewrite list_elem_of_In, in_map_iff. setoid_rewrite in_seq. split.
  - intros (i & <- & Hi). lia.
  - intros Ha. exists (Z.to_nat (a - Z.land (network s) (netmask s))). lia.
Qed.

(** The addresses of a network are one aligned block. *)
Lemma block_iff a n k : 0 < k -> a / k = n / k <-> n / k * k <= a < n / k * k + k.
Proof.
  intros Hk. pose proof (Z.div_mod a k ltac:(lia)). pose proof (Z.mod_pos_bound a k Hk).
  generalize dependent (n / k). intros q. split; [intros <-; lia|].
  intros Hq. symmetry. apply (Z.div_unique a k q (a - q * k)); lia.
Qed.

Lemma in_network_width a n w p :
  0 <= p <= w -> in_width w n -> 0 <= a -> a / 2 ^ (w - p) = n / 2 ^ (w - p) -> in_width w a.
Proof.
  intros Hp [Hn0 Hn] Ha E. split; [done|].
  assert (2 ^ w = 2 ^ p * 2 ^ (w - p)) as Hw by (rewrite <-Z.pow_add_r by lia; f_equal; lia).
  pose proof (Z.pow_pos_nonneg 2 (w - p) ltac:(lia) ltac:(lia)) as Hk.
  assert (n / 2 ^ (w - p) < 2 ^ p) as Hq by (apply Z.div_lt_upper_bound; lia).
  rewrite <-E in Hq. apply Z.nle_gt. intros Hle.
  assert (2 ^ p <= a / 2 ^ (w - p)) by (apply Z.div_le_lower_bound; lia). lia.
Qed.

(* ------------------------------------------------------------------ *)
(** ** Properties *)

(** The addresses to sweep are exactly the usable hosts of the subnet: for a
    /16 to /30 network, every address it contains except the network and the
    broadcast address, each once; for any other prefix, none. *)
Lemma hosts_usable s :
  subnet_wf s ->
  NoDup (hosts s) /\
  (prefix_len s < 16 \/ 30 < prefix_len s -> hosts s = []) /\
  (16 <= prefix_len s <= 30 ->
     let first := Z.land (network s) (netmask s) in
     let last := first + 2 ^ (32 - prefix_len s) - 1 in
     Z.of_nat (length (hosts s)) = 2 ^ (32 - prefix_len s) - 2 /\
     forall a, a ∈ hosts s <-> in_width 32 a /\ contains s a = true /\ a <> first /\ a <> last).
Proof.
  intros Hs. pose proof Hs as [Hn Hp]. split; [|split].
  - unfold hosts. case_match; [constructor|]. apply NoDup_fmap_2_strong; [|apply NoDup_seq]. lia.
  - intros [H|H]; unfold hosts.
    + by rewrite (proj2 (Z.ltb_lt _ _) H).
    + by rewrite (proj2 (Z.ltb_lt _ _) H), orb_true_r.
  - intros Hr first last. split.
    + unfold hosts. rewrite (proj2 (Z.ltb_ge _ _)), (proj2 (Z.ltb_ge _ _)) by lia. cbn [orb].
      rewrite length_map, length_seq, Z.shiftl_mul_pow2, Z.mul_1_l by lia. unfold saturating_sub.
      assert (2 ^ 2 <= 2 ^ (32 - prefix_len s)) by (apply Z.pow_le_mono_r; lia). lia.
    + intros a. rewrite elem_of_hosts by done. fold first. change (first + 2 ^ (32 - prefix_len s) - 1) with last.
      pose proof (network_base s Hs) as Hb. fold first in Hb.
      assert (0 < 2 ^ (32 - prefix_len s)) as Hk by (apply Z.pow_pos_nonneg; lia).
      assert (0 <= first) as H0.
      { rewrite Hb. apply Z.mul_nonneg_nonneg; [apply Z.div_pos; [apply Hn|done]|lia]. }
      pose proof (block_iff a (network s) _ Hk) as Hblk. rewrite <-Hb in Hblk.
      split.
      * intros Ha. assert (a / 2 ^ (32 - prefix_len s) = network s / 2 ^ (32 - prefix_len s)) as E
          by (apply Hblk; subst last; lia).
        assert (in_width 32 a) as Hw by (apply (in_network_width a (network s) 32 (prefix_len s)); [lia|done|lia|done]).
        rewrite contains_iff by done. split; [done|]. split; [done|]. lia.
      * intros (Hw & Hc & Hf & Hl). rewrite contains_iff, Hblk in Hc by done. subst last. lia.
Qed.

(** The LAN is the most specific on-link route: the result comes from a
    route line of the interface, no other usable line has a longer prefix,
    it is a well-formed subnet that is neither link-local nor multicast, and
    nothing is returned only when no line is usable. *)
Theorem parse_lan_subnet_best text iface :
  match parse_lan_subnet text iface with
  | None => forall line, line ∈ body_lines 1 text -> lan_candidate iface line = None
  | Some best =>
      (exists line, line ∈ body_lines 1 text /\ lan_candidate iface line = Some best) /\
      (forall line c, line ∈ body_lines 1 text -> lan_candidate iface line = Some c ->
         prefix_len c <= prefix_len best) /\
      subnet_wf best /\ v4_is_link_local (network best) = false /\ v4_is_multicast (network best) = false
  end.
Proof.
  unfold parse_lan_subnet. generalize (body_lines 1 text) as ls. intros ls.
  assert (match fold_left (lan_step iface) ls None with
          | None => forall line, line ∈ ls -> lan_candidate iface line = None
          | Some best => (exists line, line ∈ ls /\ lan_candidate iface line = Some best) /\
              forall line c, line ∈ ls -> lan_candidate iface line = Some c -> prefix_len c <= prefix_len best
          end) as H.
  { induction ls as [|l ls IH] using rev_ind; [by intros ? ?%elem_of_nil|].
    rewrite fold_left_app. simpl. set (b := fold_left _ ls None) in *. clearbody b. unfold lan_step.
    destruct (lan_candidate iface l) as [c|] eqn:Hc.
    - unfold better. destruct b as [b|]; simpl.
      + destruct IH as [(x & Hx & Hb) Hmax]. destruct (Z.ltb_spec (prefix_len b) (prefix_len c)).
        * split; [exists l; set_solver|]. intros line c' [Hl| ->%list_elem_of_singleton]%elem_of_app Hc'.
          -- specialize (Hmax _ _ Hl Hc'). lia.
          -- rewrite Hc in Hc'. simplify_eq. lia.
        * split; [exists x; set_solver|]. intros line c' [Hl| ->%list_elem_of_singleton]%elem_of_app Hc'; [eauto|].
          rewrite Hc in Hc'. simplify_eq. lia.
      + split; [exists l; set_solver|]. intros line c' [Hl| ->%list_elem_of_singleton]%elem_of_app Hc'.
        * apply IH in Hl. congruence.
        * rewrite Hc in Hc'. simplify_eq. lia.
    - destruct b as [b|].
      + destruct IH as [(x & Hx & Hb) Hmax]. split; [exists x; set_solver|].
        intros line c' [Hl| ->%list_elem_of_singleton]%elem_of_app Hc'; [eauto|congruence].
      + intros line [Hl| ->%list_elem_of_singleton]%elem_of_app; auto. }
  destruct (fold_left _ ls None) as [best|]; [|done]. destruct H as [(x & Hx & Hb) Hmax].
  pose proof (lan_candidate_wf _ _ _ Hb). split; [by exists x|]. by split.
Qed.
