(* ===== verification/DnsMsg.v ===== *)
(** * DNS messages as the program sees them

    The message library (hickory-proto) is outside the repository.  [Hickory]
    and [Codec] are the interface the program relies on: names, EDNS options
    and the wire codec are abstract, and the laws are the documented effect of
    the setters and constructors the program calls.  The records below are
    the public fields the program reads and writes.  Record types, classes,
    response codes and op-codes are their IANA numbers. *)
From S2P Require Import Prelude Str Addr.
Open Scope Z_scope.

Definition TYPE_A : Z := 1.
Definition TYPE_CNAME : Z := 5.
Definition TYPE_PTR : Z := 12.
Definition TYPE_MX : Z := 15.
Definition TYPE_TXT : Z := 16.
Definition TYPE_AAAA : Z := 28.
Definition TYPE_SRV : Z := 33.
Definition TYPE_OPT : Z := 41.

Definition NoError : Z := 0.
Definition FormErr : Z := 1.
Definition ServFail : Z := 2.
Definition NXDomain : Z := 3.
Definition Refused : Z := 5.

Definition OP_QUERY : Z := 0.
Inductive MessageType : Type := Query | Response.
#[export] Instance message_type_eq_dec : EqDecision MessageType.
Proof. solve_decision. Defined.

Class Hickory : Type := {
  Name : Type;
  to_ascii : Name -> string;
  (** [Display] of a record type. *)
  show_rtype : Z -> string;
  Edns : Type;
  edns_new : Edns;
  e_max_payload : Edns -> Z;
  e_dnssec_ok : Edns -> bool;
  set_max_payload : Edns -> Z -> Edns;
  set_version : Edns -> Z -> Edns;
  set_dnssec_ok : Edns -> bool -> Edns;
  (** Values below 512 are raised to 512 (RFC 6891). *)
  e_max_payload_set e p : 512 <= p -> e_max_payload (set_max_payload e p) = p;
  e_max_payload_small e p : p < 512 -> e_max_payload (set_max_payload e p) = 512;
  e_max_payload_version e v : e_max_payload (set_version e v) = e_max_payload e;
  e_max_payload_do e b : e_max_payload (set_dnssec_ok e b) = e_max_payload e;
  e_dnssec_ok_set e b : e_dnssec_ok (set_dnssec_ok e b) = b }.

Section Types.
Context `{Hickory}.

Inductive RData : Type :=
  | A (addr : Z)
  | AAAA (addr : Z)
  | CNAME (target : Name)
  | PTR (target : Name)
  | MX (exchange : Name) (preference : Z)
  | TXT (data : list string)
  | SRV (target : Name) (rest : string)
  | OtherData (rtype : Z) (data : string).

Record Record_ : Type := mk_record { r_name : Name; r_ttl : Z; r_data : RData }.

Definition record_type (r : Record_) : Z :=
  match r_data r with
  | A _ => TYPE_A
  | AAAA _ => TYPE_AAAA
  | CNAME _ => TYPE_CNAME
  | PTR _ => TYPE_PTR
  | MX _ _ => TYPE_MX
  | TXT _ => TYPE_TXT
  | SRV _ _ => TYPE_SRV
  | OtherData t _ => t
  end.

Record Question : Type := mk_question { q_name : Name; query_type : Z; query_class : Z }.

Record Metadata : Type := mk_metadata {
  id : Z;
  message_type : MessageType;
  op_code : Z;
  response_code : Z;
  authoritative : bool;
  truncation : bool;
  recursion_desired : bool;
  recursion_available : bool;
  checking_disabled : bool }.

Record Message : Type := mk_message {
  metadata : Metadata;
  queries : list Question;
  answers : list Record_;
  authorities : list Record_;
  additionals : list Record_;
  edns : option Edns }.

Definition with_metadata (f : Metadata -> Metadata) (m : Message) : Message :=
  mk_message (f (metadata m)) (queries m) (answers m) (authorities m) (additionals m) (edns m).
Definition set_response_code (c : Z) (m : Message) : Message :=
  with_metadata (fun d => mk_metadata (id d) (message_type d) (op_code d) c (authoritative d)
    (truncation d) (recursion_desired d) (recursion_available d) (checking_disabled d)) m.
Definition set_authoritative (b : bool) (m : Message) : Message :=
  with_metadata (fun d => mk_metadata (id d) (message_type d) (op_code d) (response_code d) b
    (truncation d) (recursion_desired d) (recursion_available d) (checking_disabled d)) m.
Definition set_flags (rd ra cd : bool) (m : Message) : Message :=
  with_metadata (fun d => mk_metadata (id d) (message_type d) (op_code d) (response_code d)
    (authoritative d) (truncation d) rd ra cd) m.
Definition set_queries (l : list Question) (m : Message) : Message :=
  mk_message (metadata m) l (answers m) (authorities m) (additionals m) (edns m).
Definition set_sections (ans auth add : list Record_) (m : Message) : Message :=
  mk_message (metadata m) (queries m) ans auth add (edns m).
Definition set_edns_field (e : option Edns) (m : Message) : Message :=
  mk_message (metadata m) (queries m) (answers m) (authorities m) (additionals m) e.
End Types.

(** The codec and the constructors of messages. *)
Class Codec `{Hickory} : Type := {
  from_vec : string -> option Message;
  to_vec : Message -> option string;
  (** [Message::response(id, OpCode::Query)]: an empty answer. *)
  response : Z -> Message;
  response_empty i :
    response i = mk_message (mk_metadata i Response OP_QUERY NoError false false false false false)
                   [] [] [] [] None;
  (** [Message::set_edns]. *)
  set_edns : Edns -> Message -> Message;
  set_edns_field_eq e m : set_edns e m = set_edns_field (Some e) m;
  (** [Message::truncate]: the stub that asks the client to use TCP. *)
  truncate : Message -> Message;
  truncate_flag m : truncation (metadata (truncate m)) = true;
  truncate_id m : id (metadata (truncate m)) = id (metadata m);
  truncate_queries m : queries (truncate m) = queries m;
  (** [Message::max_payload]: the EDNS size, at least 512, or 512. *)
  max_payload : Message -> Z;
  max_payload_eq m :
    max_payload m = match edns m with Some e => Z.max 512 (e_max_payload e) | None => 512 end;
  (** A message has at least its twelve-byte header. *)
  from_vec_length s m : from_vec s = Some m -> 12 <= str_len s;
  (** A TTL on the wire is 32 bits. *)
  from_vec_ttls s m : from_vec s = Some m ->
    Forall (fun r => in_width 32 (r_ttl r)) (answers m ++ authorities m ++ additionals m) }.

(* ------------------------------------------------------------------ *)
(** ** A small codec

    A concrete instance, used only to show that the hypotheses above can
    hold: a message is twelve header bytes, of which the first two are the
    identifier, the third says whether it is truncated and the fourth
    whether it has an answer, and one question of type A. *)

Lemma simple_max_r (e : Z * bool) p : 512 <= p -> Z.max 512 p = p.
Proof. lia. Qed.
Lemma simple_max_l (e : Z * bool) p : p < 512 -> Z.max 512 p = 512.
Proof. lia. Qed.

Definition simple_hickory : Hickory := {|
  Name := string;
  to_ascii s := s;
  show_rtype t := if t =? 1 then "A" else "TYPE";
  Edns := Z * bool;
  edns_new := (1232, false);
  e_max_payload e := fst e;
  e_dnssec_ok e := snd e;
  set_max_payload e p := (Z.max 512 p, snd e);
  set_version e _ := e;
  set_dnssec_ok e b := (fst e, b);
  e_max_payload_set := simple_max_r;
  e_max_payload_small := simple_max_l;
  e_max_payload_version e v := eq_refl;
  e_max_payload_do e b := eq_refl;
  e_dnssec_ok_set e b := eq_refl |}.

Definition simple_from_vec (s : string) : option (@Message simple_hickory) :=
  match s with
  | String a (String b (String c (String d r))) =>
      if str_len s <? 12 then None
      else
        let name := String.substring 8 (String.length r) r in
        Some (mk_message
          (mk_metadata (256 * code a + code b) Query OP_QUERY NoError false (code c =? 1) true false false)
          [mk_question (name : @Name simple_hickory) TYPE_A 1]
          (if code d =? 1 then [mk_record (name : @Name simple_hickory) 300 (A 16909060)] else []) [] [] None)
  | _ => None
  end.

Lemma simple_from_vec_length s m : simple_from_vec s = Some m -> 12 <= str_len s.
Proof.
  unfold simple_from_vec. destruct s as [|a [|b [|c [|d r]]]]; try done.
  destruct (Z.ltb_spec (str_len (String a (String b (String c (String d r))))) 12); [done|lia].
Qed.

Lemma simple_from_vec_ttls s m : simple_from_vec s = Some m ->
  Forall (fun r => in_width 32 (r_ttl r)) (answers m ++ authorities m ++ additionals m).
Proof.
  unfold simple_from_vec. destruct s as [|a [|b [|c [|d r]]]]; try done. destruct (_ <? _); [done|].
  intros [= <-]. simpl. destruct (_ =? _); repeat constructor; by vm_compute.
Qed.

(** Bytes of a header with this identifier. *)
Definition simple_header (i : Z) (tc : bool) : string :=
  String (of_code (i / 256)) (String (of_code (i mod 256)) (String (of_code (if tc then 1 else 0))
    (string_of_bytes (repeat 0 9)))).
Definition simple_answer (i : Z) : string :=
  String (of_code (i / 256)) (String (of_code (i mod 256)) (String (of_code 0)
    (string_of_bytes (1 :: repeat 0 8)))).

#[refine] Definition simple_codec : @Codec simple_hickory := {|
  from_vec := simple_from_vec;
  to_vec m := Some (simple_header (id (metadata m)) (truncation (metadata m))
                    +:+ match queries m with q :: _ => q_name q | [] => "" end);
  response i := mk_message (mk_metadata i Response OP_QUERY NoError false false false false false)
                   [] [] [] [] None;
  set_edns e m := set_edns_field (Some e) m;
  truncate m := mk_message (mk_metadata (id (metadata m)) Response OP_QUERY NoError false true false false false)
                  (queries m) [] [] [] None;
  max_payload m := match edns m with Some e => Z.max 512 (e_max_payload e) | None => 512 end |}.
Proof. all: try reflexivity. - apply simple_from_vec_length. - apply simple_from_vec_ttls. Defined.
