(* ===== verification/WireCodec.v ===== *)
(** * A message codec in the wire format

    The second instance of the interface of [DnsMsg.v], used to evaluate the
    program's tests: messages as RFC 1035 lays them out, with the OPT record
    of RFC 6891, names uncompressed.  It stands where the message library
    stands; nothing is proved of the program with it that is not proved with
    the interface alone. *)
From S2P Require Import Prelude Str Addr DnsMsg.
Open Scope Z_scope.

(* ------------------------------------------------------------------ *)
(** ** Names and options *)

Record WireEdns : Type := mk_wire_edns { we_payload : Z; we_version : Z; we_do : bool }.
#[export] Instance wire_edns_eq_dec : EqDecision WireEdns.
Proof. solve_decision. Defined.

Definition show_wire_rtype (t : Z) : string :=
  if t =? TYPE_A then "A" else if t =? TYPE_AAAA then "AAAA" else if t =? TYPE_CNAME then "CNAME"
  else if t =? TYPE_PTR then "PTR" else if t =? TYPE_MX then "MX" else if t =? TYPE_TXT then "TXT"
  else if t =? TYPE_SRV then "SRV" else if t =? TYPE_OPT then "OPT" else "TYPE" +:+ show_uint t.

#[refine] Definition wire_hickory : Hickory := {|
  Name := string;
  to_ascii n := n;
  show_rtype := show_wire_rtype;
  Edns := WireEdns;
  edns_new := mk_wire_edns 512 0 false;
  e_max_payload := we_payload;
  e_dnssec_ok := we_do;
  set_max_payload e p := mk_wire_edns (Z.max 512 p) (we_version e) (we_do e);
  set_version e v := mk_wire_edns (we_payload e) v (we_do e);
  set_dnssec_ok e b := mk_wire_edns (we_payload e) (we_version e) b |}.
Proof. all: intros; simpl; try done; lia. Defined.
#[local] Existing Instance wire_hickory.
Definition wire_name (s : string) : Name := s.

(* ------------------------------------------------------------------ *)
(** ** Writing *)

Definition put_u16 (z : Z) : list Z := [z / 256 mod 256; z mod 256].
Definition put_u32 (z : Z) : list Z := put_u16 (z / 65536) ++ put_u16 z.
Definition put_text (s : string) : list Z := str_len s :: as_bytes s.
Definition put_name (n : string) : list Z :=
  flat_map put_text (List.filter (fun l => negb (is_empty l)) (split_char "." n)) ++ [0].

Definition put_rdata (d : RData) : list Z :=
  match d with
  | A a => put_u32 a
  | AAAA a => flat_map (fun i => put_u32 (a / 2 ^ (32 * i))) [3; 2; 1; 0]
  | CNAME n | PTR n => put_name n
  | MX n p => put_u16 p ++ put_name n
  | TXT l => flat_map put_text l
  | SRV n rest => as_bytes rest ++ put_name n
  | OtherData _ s => as_bytes s
  end.
Definition put_raw (n : string) (t c ttl : Z) (data : list Z) : list Z :=
  put_name n ++ put_u16 t ++ put_u16 c ++ put_u32 ttl ++ put_u16 (Z.of_nat (length data)) ++ data.
Definition put_record (r : Record_) : list Z :=
  put_raw (r_name r) (record_type r) 1 (r_ttl r) (put_rdata (r_data r)).
Definition put_edns (e : WireEdns) : list Z :=
  put_raw "" TYPE_OPT (we_payload e) (we_version e * 65536 + if we_do e then 32768 else 0) [].
Definition put_question (q : Question) : list Z :=
  put_name (q_name q) ++ put_u16 (query_type q) ++ put_u16 (query_class q).

Definition bit (b : bool) (i : Z) : Z := if b then 2 ^ i else 0.
Definition put_flags (d : Metadata) : Z :=
  bit (bool_decide (message_type d = Response)) 15 + op_code d * 2 ^ 11 + bit (authoritative d) 10
  + bit (truncation d) 9 + bit (recursion_desired d) 8 + bit (recursion_available d) 7
  + bit (checking_disabled d) 4 + response_code d mod 16.
Definition count {X} (l : list X) : Z := Z.of_nat (length l).
Definition put_message (m : Message) : list Z :=
  put_u16 (id (metadata m)) ++ put_u16 (put_flags (metadata m))
  ++ put_u16 (count (queries m)) ++ put_u16 (count (answers m)) ++ put_u16 (count (authorities m))
  ++ put_u16 (count (additionals m) + match edns m with Some _ => 1 | None => 0 end)
  ++ flat_map put_question (queries m) ++ flat_map put_record (answers m) ++ flat_map put_record (authorities m)
  ++ flat_map put_record (additionals m) ++ match edns m with Some e => put_edns e | None => [] end.

(* ------------------------------------------------------------------ *)
(** ** Reading: a parser takes the bytes and leaves the rest *)

Definition Parser (A : Type) : Type := list Z -> option (A * list Z).
Definition pbind {A B} (p : Parser A) (k : A -> Parser B) : Parser B :=
  fun l => match p l with Some (a, r) => k a r | None => None end.
Definition pret {A} (a : A) : Parser A := fun l => Some (a, l).
Notation "x <~ p ;; k" := (pbind p (fun x => k)) (at level 100, p at next level, right associativity) : nw_scope.

Definition get_u8 : Parser Z := fun l => match l with b :: r => Some (b, r) | [] => None end.
Definition get_u16 : Parser Z := a <~ get_u8;; b <~ get_u8;; pret (256 * a + b).
Definition get_u32 : Parser Z := a <~ get_u16;; b <~ get_u16;; pret (65536 * a + b).
Definition get_bytes (n : Z) : Parser (list Z) := fun l =>
  if n <=? count l then Some (take (Z.to_nat n) l, drop (Z.to_nat n) l) else None.
Fixpoint get_times {A} (n : nat) (p : Parser A) : Parser (list A) :=
  match n with
  | O => pret []
  | S n => a <~ p;; l <~ get_times n p;; pret (a :: l)
  end.
(** A name has at most 255 bytes, so at most 127 labels. *)
Fixpoint get_labels (fuel : nat) : Parser string :=
  match fuel with
  | O => fun _ => None
  | S fuel =>
      n <~ get_u8;;
      if n =? 0 then pret ""
      else if 63 <? n then fun _ => None
      else l <~ get_bytes n;; r <~ get_labels fuel;; pret (string_of_bytes l +:+ "." +:+ r)
  end.
Definition get_name : Parser string := n <~ get_labels 128;; pret (if is_empty n then "." else n).

Record Raw : Type := mk_raw { rw_name : string; rw_type : Z; rw_class : Z; rw_ttl : Z; rw_data : list Z }.
Definition get_raw : Parser Raw :=
  n <~ get_name;; t <~ get_u16;; c <~ get_u16;; ttl <~ get_u32;; len <~ get_u16;; d <~ get_bytes len;;
  pret (mk_raw n t c ttl d).
Definition get_question : Parser Question :=
  n <~ get_name;; t <~ get_u16;; c <~ get_u16;; pret (mk_question (wire_name n) t c).

Definition from_be (l : list Z) : Z := fold_left (fun acc b => acc * 256 + b) l 0.
Fixpoint texts (fuel : nat) (l : list Z) : list string :=
  match fuel, l with
  | S fuel, n :: r => string_of_bytes (take (Z.to_nat n) r) :: texts fuel (drop (Z.to_nat n) r)
  | _, _ => []
  end.
Definition rdata_of (t : Z) (l : list Z) : RData :=
  let named (k : string -> RData) (l : list Z) :=
    match get_name l with Some (n, _) => k n | None => OtherData t (string_of_bytes l) end in
  if (t =? TYPE_A) && (count l =? 4) then A (from_be l)
  else if (t =? TYPE_AAAA) && (count l =? 16) then AAAA (from_be l)
  else if t =? TYPE_CNAME then named (fun n => CNAME (wire_name n)) l
  else if t =? TYPE_PTR then named (fun n => PTR (wire_name n)) l
  else if t =? TYPE_MX then named (fun n => MX (wire_name n) (from_be (take 2 l))) (drop 2 l)
  else if t =? TYPE_TXT then TXT (texts (length l) l)
  else if t =? TYPE_SRV then named (fun n => SRV (wire_name n) (string_of_bytes (take 6 l))) (drop 6 l)
  else OtherData t (string_of_bytes l).
Definition record_of (r : Raw) : Record_ :=
  mk_record (wire_name (rw_name r)) (wrap 32 (rw_ttl r)) (rdata_of (rw_type r) (rw_data r)).
Definition edns_of (r : Raw) : WireEdns :=
  mk_wire_edns (Z.max 512 (rw_class r)) (rw_ttl r / 65536 mod 256) (Z.testbit (rw_ttl r) 15).
Definition is_opt (r : Raw) : bool := rw_type r =? TYPE_OPT.

Definition metadata_of (i flags : Z) : Metadata :=
  mk_metadata i (if Z.testbit flags 15 then Response else Query) (flags / 2 ^ 11 mod 16) (flags mod 16)
    (Z.testbit flags 10) (Z.testbit flags 9) (Z.testbit flags 8) (Z.testbit flags 7) (Z.testbit flags 4).
Definition get_message : Parser Message :=
  i <~ get_u16;; flags <~ get_u16;;
  qd <~ get_u16;; an <~ get_u16;; ns <~ get_u16;; ar <~ get_u16;;
  qs <~ get_times (Z.to_nat qd) get_question;;
  ans <~ get_times (Z.to_nat an) get_raw;; auth <~ get_times (Z.to_nat ns) get_raw;;
  add <~ get_times (Z.to_nat ar) get_raw;;
  pret (mk_message (metadata_of i flags) qs (map record_of ans) (map record_of auth)
          (map record_of (List.filter (fun r => negb (is_opt r)) add))
          (option_map edns_of (find is_opt add))).

Definition wire_from_vec (s : string) : option Message :=
  if str_len s <? 12 then None else option_map fst (get_message (as_bytes s)).

(* ------------------------------------------------------------------ *)
(** ** The instance *)

Lemma pbind_some {A B} (p : Parser A) (k : A -> Parser B) l b r :
  pbind p k l = Some (b, r) -> exists a r', p l = Some (a, r') /\ k a r' = Some (b, r).
Proof. unfold pbind. destruct (p l) as [[a r']|]; [eauto|done]. Qed.

Lemma record_of_ttl l : Forall (fun r => in_width 32 (r_ttl r)) (map record_of l).
Proof. apply List.Forall_map, List.Forall_forall. intros r _. by apply wrap_in_width. Qed.

Lemma wire_from_vec_length s m : wire_from_vec s = Some m -> 12 <= str_len s.
Proof. unfold wire_from_vec. destruct (Z.ltb_spec (str_len s) 12); [done|lia]. Qed.

Lemma wire_from_vec_ttls s m : wire_from_vec s = Some m ->
  Forall (fun r => in_width 32 (r_ttl r)) (answers m ++ authorities m ++ additionals m).
Proof.
  unfold wire_from_vec. destruct (_ <? _); [done|]. destruct (get_message _) as [[x r]|] eqn:E; [|done].
  intros [= <-]. unfold get_message in E.
  do 10 (apply pbind_some in E as (? & ? & _ & E)). injection E as <- _. cbn [answers authorities additionals].
  rewrite !Forall_app. split_and!; apply record_of_ttl.
Qed.

#[refine] Definition wire_codec : Codec := {|
  from_vec := wire_from_vec;
  to_vec m := Some (string_of_bytes (put_message m));
  response i := mk_message (mk_metadata i Response OP_QUERY NoError false false false false false) [] [] [] [] None;
  set_edns e m := set_edns_field (Some e) m;
  truncate m := mk_message (mk_metadata (id (metadata m)) (message_type (metadata m)) (op_code (metadata m))
                  (response_code (metadata m)) (authoritative (metadata m)) true (recursion_desired (metadata m))
                  (recursion_available (metadata m)) (checking_disabled (metadata m))) (queries m) [] [] [] None;
  max_payload m := match edns m with Some e => Z.max 512 (e_max_payload e) | None => 512 end |}.
Proof. all: try done. - apply wire_from_vec_length. - apply wire_from_vec_ttls. Defined.

(** What is written is read back. *)
Definition wire_sample : Message :=
  mk_message (mk_metadata 4660 Response OP_QUERY NXDomain true false true true true)
    [mk_question (wire_name "a.example.com.") TYPE_AAAA 1]
    [mk_record (wire_name "a.example.com.") 300 (A (ipv4 10 0 0 1)); mk_record (wire_name "b.") 4294967295 (AAAA (2 ^ 127 + 5));
     mk_record (wire_name ".") 1 (CNAME (wire_name "c.d.")); mk_record (wire_name "x.") 1 (MX (wire_name "m.") 10);
     mk_record (wire_name "x.") 2 (TXT ["one"; ""; "two"])]
    [mk_record (wire_name "example.com.") 60 (OtherData 6 "soa")] [mk_record (wire_name "p.") 0 (PTR (wire_name "q."))]
    (Some (mk_wire_edns 1232 0 true)).
Example wire_roundtrip_sample : wire_from_vec (string_of_bytes (put_message wire_sample)) = Some wire_sample.
Proof. reflexivity. Qed.
