(* ===== verification/Cache.v ===== *)
(** * The DNS answer cache (src/dns/cache.rs)

    Answers are stored without their envelope, keyed by everything in the
    request that can change them, counted down while they are kept, and
    dropped when their shortest-lived record would expire. *)
From S2P Require Import Prelude Str Addr DnsMsg.
Open Scope Z_scope.

Record Key : Type := mk_key {
  k_name : string;
  k_qtype : Z;
  k_qclass : Z;
  k_dnssec_ok : bool;
  k_checking_disabled : bool }.
#[export] Instance key_eq_dec : EqDecision Key.
Proof. solve_decision. Defined.
#[export] Instance key_countable : Countable Key.
Proof.
  apply (inj_countable'
    (fun k => (k_name k, k_qtype k, k_qclass k, k_dnssec_ok k, k_checking_disabled k))
    (fun '(n, t, c, d, x) => mk_key n t c d x)). by intros [].
Defined.

Section Cache.
Context `{Hickory}.

Definition from_request (msg : Message) (name : string) : option Key :=
  let! query := head (queries msg) in
  Some (mk_key name (query_type query) (query_class query)
          (is_some_and e_dnssec_ok (edns msg)) (checking_disabled (metadata msg))).

Record Entry : Type := mk_entry {
  c_answers : list Record_;
  c_authorities : list Record_;
  c_additionals : list Record_;
  c_response_code : Z;
  c_authoritative : bool;
  inserted : Instant;
  expires : Instant }.

Record CachedAnswer : Type := mk_cached {
  ca_answers : list Record_;
  ca_authorities : list Record_;
  ca_additionals : list Record_;
  ca_response_code : Z;
  ca_authoritative : bool }.

Record Cache : Type := mk_cache {
  map_ : gmap Key Entry;
  max_entries : Z;
  min_ttl : Z;
  max_ttl : Z;
  hits : Z;
  misses : Z }.

Definition new_cache (max_entries min_ttl max_ttl : Z) : Cache :=
  mk_cache ∅ (Z.max max_entries 1) min_ttl max_ttl 0 0.
Definition set_map (m : gmap Key Entry) (c : Cache) : Cache :=
  mk_cache m (max_entries c) (min_ttl c) (max_ttl c) (hits c) (misses c).
Definition cache_len (c : Cache) : Z := Z.of_nat (size (map_ c)).

(** [r.ttl.saturating_sub(elapsed).max(1)]. *)
Definition age_record (elapsed : Z) (r : Record_) : Record_ :=
  mk_record (r_name r) (Z.max (saturating_sub (r_ttl r) elapsed) 1) (r_data r).
Definition age (elapsed : Z) (records : list Record_) : list Record_ := map (age_record elapsed) records.

Definition get (now : Instant) (key : Key) (c : Cache) : Cache * option CachedAnswer :=
  match map_ c !! key with
  | None => (c, None)
  | Some entry =>
      if expires entry <=? now then
        (mk_cache (delete key (map_ c)) (max_entries c) (min_ttl c) (max_ttl c) (hits c)
           (wrap 64 (misses c + 1)), None)
      else
        let elapsed := wrap 32 (as_secs (duration_since now (inserted entry))) in
        let answer := mk_cached (age elapsed (c_answers entry)) (age elapsed (c_authorities entry))
                        (age elapsed (c_additionals entry)) (c_response_code entry) (c_authoritative entry) in
        (mk_cache (map_ c) (max_entries c) (min_ttl c) (max_ttl c) (wrap 64 (hits c + 1)) (misses c),
         Some answer)
  end.

(** [HashMap::iter] yields the entries in some order; it is an argument. *)
Definition retain_live (now : Instant) (m : gmap Key Entry) : gmap Key Entry :=
  filter (fun p => now < expires (snd p)) m.

Definition soonest (order : gmap Key Entry -> list (Key * Entry)) (m : gmap Key Entry) : list Key :=
  map fst (sort_by (fun a b => snd a <=? snd b) (map (fun p => (fst p, expires (snd p))) (order m))).

Definition evict (order : gmap Key Entry -> list (Key * Entry)) (now : Instant) (c : Cache) : Cache :=
  let before := size (map_ c) in
  let m := retain_live now (map_ c) in
  if (size m <? before)%nat then set_map m c
  else
    let target := (size m / 10 + 1)%nat in
    set_map (fold_left (fun m k => delete k m) (take target (soonest order m)) m) c.

(** The smallest TTL of the answer and authority sections. *)
Definition shortest_ttl (message : Message) : option Z :=
  match map r_ttl (answers message ++ authorities message) with
  | [] => None
  | t :: r => Some (fold_left Z.min r t)
  end.

Definition cacheable_code (code : Z) : bool := (code =? NoError) || (code =? NXDomain).

(** [now_evict] and [now] are the two readings of the clock. *)
Definition insert (order : gmap Key Entry -> list (Key * Entry)) (now_evict now : Instant)
    (key : Key) (message : Message) (c : Cache) : Cache * bool :=
  if negb (cacheable_code (response_code (metadata message))) then (c, false)
  else match shortest_ttl message with
  | None => (c, false)
  | Some shortest =>
      if (shortest =? 0) || (shortest <? min_ttl c) then (c, false)
      else
        let lifetime := Z.min shortest (max_ttl c) in
        let c1 := if max_entries c <=? cache_len c then evict order now_evict c else c in
        let entry := mk_entry (answers message) (authorities message)
          (List.filter (fun r => negb (record_type r =? TYPE_OPT)) (additionals message))
          (response_code (metadata message)) (authoritative (metadata message))
          now (now + from_secs lifetime) in
        (set_map (<[key := entry]> (map_ c1)) c1, true)
  end.

Definition sweep (now : Instant) (c : Cache) : Cache := set_map (retain_live now (map_ c)) c.
Definition clear (c : Cache) : Cache := set_map ∅ c.

Definition response_edns (request : Message) (our_max_payload : Z) : option Edns :=
  let! req_edns := edns request in
  let e := edns_new in
  let e := set_max_payload e (Z.min (e_max_payload req_edns) our_max_payload) in
  let e := set_version e 0 in
  let e := set_dnssec_ok e (e_dnssec_ok req_edns) in
  Some e.

(* ------------------------------------------------------------------ *)
(** ** Invariants *)

(** Rust iterates a map in some order, each entry once. *)
Definition iterates (order : gmap Key Entry -> list (Key * Entry)) : Prop :=
  forall m, order m ≡ₚ map_to_list m.

Definition ttl_ok (r : Record_) : Prop := in_width 32 (r_ttl r).
Definition sections_ok (l : list Record_) : Prop := Forall ttl_ok l.

(** An entry lives no longer than any of its answer or authority records. *)
Record entry_ok (e : Entry) : Prop := mk_entry_ok {
  eo_ttl : sections_ok (c_answers e ++ c_authorities e ++ c_additionals e);
  eo_life : Forall (fun r => expires e <= inserted e + from_secs (r_ttl r)) (c_answers e ++ c_authorities e);
  eo_opt : Forall (fun r => record_type r <> TYPE_OPT) (c_additionals e) }.

Record cache_ok (c : Cache) : Prop := mk_cache_ok {
  co_size : cache_len c <= max_entries c;
  co_room : 1 <= max_entries c;
  co_entries : map_Forall (fun _ e => entry_ok e) (map_ c) }.

Definition message_ttls_ok (m : Message) : Prop :=
  sections_ok (answers m ++ authorities m ++ additionals m).

Lemma fold_min_le l t : fold_left Z.min l t <= t /\ Forall (fun x => fold_left Z.min l t <= x) l.
Proof.
  revert t. induction l as [|x l IH]; intros t; simpl; [split; [lia|constructor]|].
  destruct (IH (Z.min t x)) as [H1 H2]. split; [lia|]. constructor; [lia|done].
Qed.

Lemma shortest_ttl_le m t :
  shortest_ttl m = Some t -> Forall (fun r => t <= r_ttl r) (answers m ++ authorities m).
Proof.
  unfold shortest_ttl. intros E. apply (proj1 (List.Forall_map r_ttl (fun x => t <= x) _)).
  destruct (map r_ttl _) as [|x l]; [constructor|]. injection E as <-.
  destruct (fold_min_le l x). by constructor.
Qed.

Lemma retain_live_subseteq now m : retain_live now m ⊆ m.
Proof. apply map_filter_subseteq. Qed.

Lemma delete_all_subseteq ks (m : gmap Key Entry) : fold_left (fun m k => delete k m) ks m ⊆ m.
Proof.
  apply (fold_left_inv (fun m' => m' ⊆ m)); [done|]. intros m' k Hm. etrans; [apply delete_subseteq|done].
Qed.

Lemma soonest_elem order m k : iterates order -> k ∈ soonest order m -> is_Some (m !! k).
Proof.
  intros Ho. unfold soonest. rewrite sort_by_perm, (Ho m). rewrite map_map. simpl.
  intros ([k' e] & -> & Hk)%list_elem_of_fmap. apply elem_of_map_to_list in Hk. by eexists.
Qed.

Lemma soonest_length order m : iterates order -> length (soonest order m) = size m.
Proof.
  intros Ho. unfold soonest. rewrite length_map, sort_by_perm, length_map, (Ho m).
  apply length_map_to_list.
Qed.

Lemma evict_facts order now c :
  evict order now c = set_map (map_ (evict order now c)) c /\ map_ (evict order now c) ⊆ map_ c.
Proof.
  unfold evict. case_match; (split; [done|]); simpl; [apply retain_live_subseteq|].
  etrans; [apply delete_all_subseteq|apply retain_live_subseteq].
Qed.

(** Eviction makes room for one entry. *)
Lemma evict_room order now c :
  iterates order -> 1 <= cache_len c -> cache_len (evict order now c) < cache_len c.
Proof.
  intros Ho Hlen. unfold evict, cache_len in *.
  destruct (Nat.ltb_spec (size (retain_live now (map_ c))) (size (map_ c))) as [Hlt|Hge]; cbn [map_ set_map]; [lia|].
  set (m := retain_live now (map_ c)) in *.
  assert (size m = size (map_ c)) as Hm.
  { apply Nat.le_antisymm; [|done]. apply map_subseteq_size, retain_live_subseteq. }
  pose proof (soonest_length order m Ho) as Hl.
  assert (forall k, k ∈ soonest order m -> is_Some (m !! k)) as Hin by (intros; by apply (soonest_elem order)).
  rewrite Nat.add_1_r. destruct (soonest order m) as [|k ks]; [simpl in Hl; lia|]. cbn [take fold_left].
  pose proof (map_subseteq_size _ _ (delete_all_subseteq (take (size m / 10) ks) (delete k m))) as Hs.
  destruct (Hin k) as [e He]; [set_solver|].
  assert (size (delete k m) = pred (size m)) by (rewrite map_size_delete_Some; eauto). cbn [map_ set_map]. lia.
Qed.

(** What a record should be after [el] seconds. *)
Definition aged (el : Z) (r r' : Record_) : Prop :=
  r_name r' = r_name r /\ r_data r' = r_data r /\ r_ttl r' = r_ttl r - el /\ 1 <= r_ttl r' <= r_ttl r.

Lemma age_exact e now l :
  entry_ok e -> inserted e <= now < expires e -> l ⊆ c_answers e ++ c_authorities e ->
  Forall2 (aged (as_secs (now - inserted e))) l
    (age (wrap 32 (as_secs (duration_since now (inserted e)))) l).
Proof.
  intros [Hw Hl _] Ht Hsub. unfold age, sections_ok in *. rewrite app_assoc, Forall_app in Hw.
  destruct Hw as [Hw _]. rewrite Forall_forall in Hw, Hl.
  induction l as [|r l IH]; [constructor|]. constructor; [|apply IH; set_solver].
  specialize (Hw r ltac:(set_solver)). specialize (Hl r ltac:(set_solver)).
  unfold ttl_ok, in_width in Hw. simpl in Hl. unfold from_secs in Hl.
  unfold duration_since, saturating_sub. rewrite Z.max_r by lia.
  assert (0 <= as_secs (now - inserted e) < r_ttl r) as Hel.
  { unfold as_secs. split; [apply Z.div_pos; lia|apply Z.div_lt_upper_bound; lia]. }
  rewrite wrap_small by (unfold in_width; lia).
  unfold aged, age_record, saturating_sub. simpl. split_and!; [done|done|lia|lia|lia].
Qed.

(** The operations, with any clock and any iteration order. *)
Inductive cache_step : Cache -> Cache -> Prop :=
  | step_get now key c : cache_step c (fst (get now key c))
  | step_insert order t1 t2 key m c :
      iterates order -> message_ttls_ok m -> cache_step c (fst (insert order t1 t2 key m c))
  | step_sweep now c : cache_step c (sweep now c)
  | step_clear c : cache_step c (clear c).

Lemma cache_ok_shrink c m :
  cache_ok c -> m ⊆ map_ c -> cache_ok (set_map m c).
Proof.
  intros [Hs Hr He] Hm. split; [|done|].
  - unfold cache_len in *. simpl. apply map_subseteq_size in Hm. lia.
  - intros k e Hk. apply (He k). by eapply lookup_weaken.
Qed.

Lemma get_keeps now key c :
  map_ (fst (get now key c)) ⊆ map_ c /\ max_entries (fst (get now key c)) = max_entries c.
Proof. unfold get. repeat case_match; simpl; split; done || apply delete_subseteq. Qed.

Lemma new_entry_ok m shortest now cap :
  message_ttls_ok m -> shortest_ttl m = Some shortest ->
  entry_ok (mk_entry (answers m) (authorities m)
    (List.filter (fun r => negb (record_type r =? TYPE_OPT)) (additionals m))
    (response_code (metadata m)) (authoritative (metadata m)) now (now + from_secs (Z.min shortest cap))).
Proof.
  intros Hm Hs%shortest_ttl_le. unfold message_ttls_ok, sections_ok in Hm. split; simpl.
  - unfold sections_ok. rewrite !Forall_app in *. destruct Hm as (? & ? & Ha). split_and!; [done..|].
    rewrite List.Forall_forall in *. intros r [Hr _]%filter_In. auto.
  - eapply Forall_impl; [exact Hs|]. intros r Hr. simpl in *. unfold from_secs. nia.
  - apply List.Forall_forall. intros r [_ Hr]%filter_In. by apply negb_true_iff, Z.eqb_neq in Hr.
Qed.

(** [insert] in terms of its outcome. *)
Lemma insert_cases order t1 t2 key m c :
  insert order t1 t2 key m c = (c, false) /\
    (cacheable_code (response_code (metadata m)) = false \/ shortest_ttl m = None \/
     exists t, shortest_ttl m = Some t /\ (t = 0 \/ t < min_ttl c))
  \/ exists t c1, shortest_ttl m = Some t /\ cacheable_code (response_code (metadata m)) = true /\
    t <> 0 /\ min_ttl c <= t /\
    (c1 = c /\ cache_len c < max_entries c \/ c1 = evict order t1 c /\ max_entries c <= cache_len c) /\
    insert order t1 t2 key m c =
      (set_map (<[key := mk_entry (answers m) (authorities m)
          (List.filter (fun r => negb (record_type r =? TYPE_OPT)) (additionals m))
          (response_code (metadata m)) (authoritative (metadata m)) t2
          (t2 + from_secs (Z.min t (max_ttl c)))]> (map_ c1)) c1, true).
Proof.
  unfold insert. destruct (cacheable_code _) eqn:Hc; simpl; [|by left; auto].
  destruct (shortest_ttl m) as [t|] eqn:Ht; [|by left; auto].
  destruct (Z.eqb_spec t 0) as [->|Hne]; simpl; [left; eauto 8|].
  destruct (Z.ltb_spec t (min_ttl c)); [left; eauto 8|]. right.
  exists t, (if max_entries c <=? cache_len c then evict order t1 c else c).
  split_and!; try done. destruct (Z.leb_spec (max_entries c) (cache_len c)); auto.
Qed.

Lemma cache_len_insert k e m : Z.of_nat (size (<[k := e]> m : gmap Key Entry)) <= Z.of_nat (size m) + 1.
Proof.
  destruct (m !! k) eqn:E.
  - rewrite map_size_insert_Some by (eexists; done). lia.
  - rewrite map_size_insert_None by done. lia.
Qed.

Lemma insert_preserves_ok order t1 t2 key m c :
  iterates order -> message_ttls_ok m -> cache_ok c ->
  cache_ok (fst (insert order t1 t2 key m c)) /\
  max_entries (fst (insert order t1 t2 key m c)) = max_entries c.
Proof.
  intros Ho Hm Hc. pose proof Hc as [Hs Hr He].
  destruct (insert_cases order t1 t2 key m c) as [[-> _]|(t & c1 & Ht & _ & _ & _ & Hc1 & ->)]; [done|].
  cbn [fst]. pose proof (evict_facts order t1 c) as [Heq Hsub].
  assert (max_entries c1 = max_entries c /\ map_ c1 ⊆ map_ c /\ cache_len c1 < max_entries c1) as (Hmax & Hsub1 & Hlt).
  { destruct Hc1 as [[-> ?]|[-> ?]]; [done|]. rewrite Heq at 1 4. simpl. split_and!; [done|done|].
    pose proof (evict_room order t1 c Ho). lia. }
  split; [|done]. split; cbn [map_ set_map max_entries]; [|lia|].
  - unfold cache_len in *. cbn [map_ set_map]. pose proof (cache_len_insert key
      (mk_entry (answers m) (authorities m) (List.filter (fun r => negb (record_type r =? TYPE_OPT)) (additionals m))
          (response_code (metadata m)) (authoritative (metadata m)) t2
          (t2 + from_secs (Z.min t (max_ttl c)))) (map_ c1)). cbn [max_entries]. lia.
  - apply map_Forall_insert_2; [by apply new_entry_ok|].
    intros k e Hk. apply (He k). by eapply lookup_weaken.
Qed.

Lemma cache_step_ok c c' : cache_step c c' -> cache_ok c -> cache_ok c' /\ max_entries c' = max_entries c.
Proof.
  intros [now key c0|order t1 t2 key m c0 Ho Hm|now c0|c0] Hc.
  - destruct (get_keeps now key c0) as [Hm He]. split; [|done].
    destruct (cache_ok_shrink c0 _ Hc Hm) as [H1 H2 H3]. unfold cache_len in *. simpl in *.
    split; unfold cache_len; rewrite ?He; done.
  - by apply insert_preserves_ok.
  - split; [|done]. by apply cache_ok_shrink, retain_live_subseteq.
  - split; [|done]. apply cache_ok_shrink; [done|]. apply map_empty_subseteq.
Qed.

(* ------------------------------------------------------------------ *)
(** ** Properties *)

(** However it is used, the cache holds at most the configured number
    of entries, and every entry expires no later than each of its answer
    and authority records and carries no OPT record. *)
Theorem reachable_ok n lo hi c :
  rtc cache_step (new_cache n lo hi) c ->
  cache_len c <= Z.max n 1 /\
  map_Forall (fun _ e => entry_ok e) (map_ c).
Proof.
  assert (forall c0, rtc cache_step c0 c -> cache_ok c0 -> cache_ok c /\ max_entries c = max_entries c0) as H0.
  { induction 1 as [|c1 c2 c3 Hs _ IH]; [done|]. intros Hc.
    apply cache_step_ok in Hs as [Hc2 Hm2]; [|done]. destruct (IH Hc2). split; [done|congruence]. }
  intros Hr. destruct (H0 _ Hr) as [[Hs _ He] Hm].
  - split; simpl; [unfold cache_len; simpl; rewrite map_size_empty; lia|lia|apply map_Forall_empty].
  - rewrite Hm in Hs. by split.
Qed.

(** A hit never extends a TTL: it is only given before the entry
    expires, and every answer and authority record carries its own TTL less
    the whole seconds it has been kept, at least one. *)
Theorem get_counts_down now key c e c' a :
  map_Forall (fun _ e => entry_ok e) (map_ c) ->
  map_ c !! key = Some e -> inserted e <= now ->
  get now key c = (c', Some a) ->
  now < expires e /\
  Forall2 (aged (as_secs (now - inserted e))) (c_answers e) (ca_answers a) /\
  Forall2 (aged (as_secs (now - inserted e))) (c_authorities e) (ca_authorities a) /\
  Forall (fun r => record_type r <> TYPE_OPT) (ca_additionals a) /\
  map_ c' = map_ c.
Proof.
  intros Hc He Hn. unfold get. rewrite He.
  destruct (Z.leb_spec (expires e) now) as [|Hlt]; [done|]. intros [= <- <-]. simpl.
  pose proof (Hc key e He) as Hok. split; [done|].
  split; [apply age_exact; [done|lia|set_solver]|]. split; [apply age_exact; [done|lia|set_solver]|].
  split; [|done]. apply List.Forall_map. eapply Forall_impl; [apply Hok|]. by intros [].
Qed.

(** What is stored is what was answered, and only under its own key:
    an accepted answer is found again until its shortest TTL (or the
    configured maximum) runs out, with its status and without OPT; an answer
    is refused exactly when it is not a success or NXDOMAIN, has no TTL, or
    one too short; any other key is left as it was or evicted. *)
Theorem insert_spec order t1 t2 key m c c' stored :
  insert order t1 t2 key m c = (c', stored) ->
  (stored = false <->
     cacheable_code (response_code (metadata m)) = false \/ shortest_ttl m = None \/
     exists t, shortest_ttl m = Some t /\ (t = 0 \/ t < min_ttl c)) /\
  (stored = false -> c' = c) /\
  (stored = true -> exists t, shortest_ttl m = Some t /\
     forall now, t2 <= now < t2 + from_secs (Z.min t (max_ttl c)) ->
     exists a, snd (get now key c') = Some a /\ let el := wrap 32 (as_secs (duration_since now t2)) in
       ca_answers a = age el (answers m) /\ ca_authorities a = age el (authorities m) /\
       ca_additionals a = age el (List.filter (fun r => negb (record_type r =? TYPE_OPT)) (additionals m)) /\
       ca_response_code a = response_code (metadata m) /\
       ca_authoritative a = authoritative (metadata m)) /\
  (forall key', key' <> key -> map_ c' !! key' = map_ c !! key' \/ map_ c' !! key' = None).
Proof.
  intros E. destruct (insert_cases order t1 t2 key m c)
    as [[E' Hno]|(t & c1 & Ht & Hcc & Hne & Hle & Hc1 & E')]; rewrite E in E'; simplify_eq.
  { split; [done|]. split; [done|]. split; [done|]. by left. }
  split; [|split; [done|split]].
  - split; [done|]. intros [Hx|[Hx|(t' & Hx & Hy)]]; [congruence|congruence|].
    rewrite Ht in Hx. injection Hx as <-. lia.
  - intros _. exists t. split; [done|]. intros now Hnow. unfold get. simpl.
    rewrite lookup_insert_eq. simpl. rewrite (proj2 (Z.leb_gt _ _)) by lia. simpl.
    eexists. split; [done|]. done.
  - intros key' Hk. simpl. rewrite lookup_insert_ne by done.
    destruct Hc1 as [[-> _]|[-> _]]; [by left|].
    destruct (evict_facts order t1 c) as [_ Hsub].
    destruct (map_ (evict order t1 c) !! key') as [e|] eqn:Ek; [|by right].
    left. symmetry. by eapply lookup_weaken.
Qed.
End Cache.

(* ------------------------------------------------------------------ *)
(** ** Witnesses *)

Section Witness.
#[local] Existing Instance simple_hickory.

Definition w_record (ttl : Z) : Record_ := mk_record "ads.example.com" ttl (A (ipv4 93 184 216 34)).
Definition w_key : Key := mk_key "ads.example.com" TYPE_A 1 false false.
Definition w_message (ttl extra : Z) : Message :=
  mk_message (mk_metadata 7 Response OP_QUERY NoError false false true true false)
    [] [w_record ttl] [] [w_record extra] None.
Definition w_order (m : gmap Key Entry) : list (Key * Entry) := map_to_list m.
Definition w_cache : Cache := fst (insert w_order 0 0 w_key (w_message 300 300) (new_cache 10 30 86400)).

Lemma w_iterates : iterates w_order.
Proof. by intros m. Qed.
Lemma w_message_ok : message_ttls_ok (w_message 300 300).
Proof. repeat constructor; by vm_compute. Qed.
Lemma w_cache_entries : map_Forall (fun _ e => entry_ok e) (map_ w_cache).
Proof.
  apply insert_preserves_ok; [apply w_iterates|apply w_message_ok|].
  split; [done|done|apply map_Forall_empty].
Qed.

Lemma reachable_ok_witness :
  cache_len w_cache <= Z.max 10 1 /\ map_Forall (fun _ e => entry_ok e) (map_ w_cache).
Proof.
  apply (reachable_ok 10 30 86400). apply rtc_once. apply step_insert; [apply w_iterates|apply w_message_ok].
Defined.

Definition w_entry : Entry :=
  mk_entry [w_record 300] [] [w_record 300] NoError false 0 (from_secs 300).

Lemma w_inserted : insert w_order 0 0 w_key (w_message 300 300) (new_cache 10 30 86400) = (w_cache, true).
Proof. reflexivity. Qed.
Lemma w_stored : map_ w_cache !! w_key = Some w_entry.
Proof. apply lookup_insert_eq. Qed.
Lemma w_got :
  get (from_secs 100) w_key w_cache =
  (fst (get (from_secs 100) w_key w_cache), Some (mk_cached [w_record 200] [] [w_record 200] NoError false)).
Proof. unfold get. rewrite w_stored. reflexivity. Qed.

Lemma get_counts_down_witness :
  let a := mk_cached [w_record 200] [] [w_record 200] NoError false in
  from_secs 100 < expires w_entry /\
  Forall2 (aged (as_secs (from_secs 100 - inserted w_entry))) (c_answers w_entry) (ca_answers a) /\
  Forall2 (aged (as_secs (from_secs 100 - inserted w_entry))) (c_authorities w_entry) (ca_authorities a) /\
  Forall (fun r => record_type r <> TYPE_OPT) (ca_additionals a) /\
  map_ (fst (get (from_secs 100) w_key w_cache)) = map_ w_cache.
Proof.
  cbv zeta. apply (get_counts_down (from_secs 100) w_key w_cache w_entry).
  - apply w_cache_entries.
  - apply w_stored.
  - by vm_compute.
  - apply w_got.
Defined.

Lemma insert_spec_witness :
  let c := new_cache 10 30 86400 in let m := w_message 300 300 in
  (true = false <->
     cacheable_code (response_code (metadata m)) = false \/ shortest_ttl m = None \/
     exists t, shortest_ttl m = Some t /\ (t = 0 \/ t < min_ttl c)) /\
  (true = false -> w_cache = c) /\
  (true = true -> exists t, shortest_ttl m = Some t /\
     forall now, 0 <= now < 0 + from_secs (Z.min t (max_ttl c)) ->
     exists a, snd (get now w_key w_cache) = Some a /\ let el := wrap 32 (as_secs (duration_since now 0)) in
       ca_answers a = age el (answers m) /\ ca_authorities a = age el (authorities m) /\
       ca_additionals a = age el (List.filter (fun r => negb (record_type r =? TYPE_OPT)) (additionals m)) /\
       ca_response_code a = response_code (metadata m) /\
       ca_authoritative a = authoritative (metadata m)) /\
  (forall key', key' <> w_key -> map_ w_cache !! key' = map_ c !! key' \/ map_ w_cache !! key' = None).
Proof. apply (insert_spec w_order 0 0 w_key). apply w_inserted. Defined.

(** An additional record is not part of the lifetime of its entry: one whose
    TTL was zero is served with a TTL of one second, and still is after
    299 seconds. *)
Example additional_ttl_extended :
  option_map ca_additionals
    (snd (get (from_secs 299) w_key (fst (insert w_order 0 0 w_key (w_message 300 0) (new_cache 10 30 86400)))))
  = Some [w_record 1].
Proof. vm_compute. reflexivity. Qed.
End Witness.
