(* ===== verification/CacheHistory.v ===== *)
(** * The answer cache against the history of its use (src/dns/cache.rs)

    What [Cache.v] proves of single operations, here of whole histories: the
    reference of a cache is a function of the operations alone (the last
    accepted answer for the key since the last clearing, aged), and the cache
    agrees with it.  It may forget, when it is full; it never makes up,
    mixes or prolongs an answer. *)
From S2P Require Import Prelude Str Addr DnsMsg Cache.
Open Scope Z_scope.

Section History.
Context `{Hickory}.

(** One use of the cache, with the clock readings it makes. *)
Inductive CacheOp : Type :=
  | OpGet (now : Instant) (key : Key)
  | OpInsert (order : gmap Key Entry -> list (Key * Entry)) (t1 t2 : Instant) (key : Key) (m : Message)
  | OpSweep (now : Instant)
  | OpClear.

Definition run_op (c : Cache) (op : CacheOp) : Cache :=
  match op with
  | OpGet now key => fst (get now key c)
  | OpInsert order t1 t2 key m => fst (insert order t1 t2 key m c)
  | OpSweep now => sweep now c
  | OpClear => clear c
  end.
Definition run (ops : list CacheOp) (c : Cache) : Cache := fold_left run_op ops c.

(** ** The reference *)

(** Whether an answer is accepted does not depend on what is stored. *)
Definition accepted (lo : Z) (m : Message) : bool :=
  cacheable_code (response_code (metadata m)) &&
  is_some_and (fun t => negb ((t =? 0) || (t <? lo))) (shortest_ttl m).

(** The last accepted answer for [key] since the last clearing, and when it
    came: computed from the history, newest first. *)
Fixpoint remembered (lo : Z) (key : Key) (newest_first : list CacheOp) : option (Instant * Message) :=
  match newest_first with
  | [] => None
  | OpClear :: _ => None
  | OpInsert _ _ t k m :: ops =>
      if bool_decide (k = key) && accepted lo m then Some (t, m) else remembered lo key ops
  | _ :: ops => remembered lo key ops
  end.

Definition lifetime (hi : Z) (m : Message) : Duration :=
  from_secs (Z.min (default 0 (shortest_ttl m)) hi).

Definition without_opt (l : list Record_) : list Record_ :=
  List.filter (fun r => negb (record_type r =? TYPE_OPT)) l.

(** What is to be served at [now] from the answer [m] received at [t]. *)
Definition served (now t : Instant) (m : Message) : CachedAnswer :=
  let el := wrap 32 (as_secs (duration_since now t)) in
  mk_cached (age el (answers m)) (age el (authorities m)) (age el (without_opt (additionals m)))
    (response_code (metadata m)) (authoritative (metadata m)).

Definition reference (lo hi : Z) (now : Instant) (key : Key) (ops : list CacheOp) : option CachedAnswer :=
  let! p := remembered lo key (rev ops) in
  if fst p + lifetime hi (snd p) <=? now then None else Some (served now (fst p) (snd p)).

(** ** Clocks and keys of a history *)

Definition op_times (op : CacheOp) : list Instant :=
  match op with
  | OpGet now _ => [now]
  | OpInsert _ t1 t2 _ _ => [t1; t2]
  | OpSweep now => [now]
  | OpClear => []
  end.
Definition op_keys (op : CacheOp) : gset Key :=
  match op with OpInsert _ _ _ k _ => {[k]} | _ => ∅ end.
Definition keys_of (ops : list CacheOp) : gset Key := ⋃ (map op_keys ops).

(** ** The simulation *)

(** The entry that stores [m], received at [t]. *)
Definition entry_of (hi : Z) (t : Instant) (m : Message) : Entry :=
  mk_entry (answers m) (authorities m) (without_opt (additionals m))
    (response_code (metadata m)) (authoritative (metadata m)) t (t + lifetime hi m).

(** Every entry stores what the history remembers for its key. *)
Definition from_history (lo hi : Z) (ops : list CacheOp) (c : Cache) : Prop :=
  min_ttl c = lo /\ max_ttl c = hi /\
  map_Forall (fun k e => exists t m, remembered lo k (rev ops) = Some (t, m) /\ e = entry_of hi t m) (map_ c).

(** Nothing that may still be served is missing. *)
Definition complete (lo hi : Z) (now : Instant) (ops : list CacheOp) (c : Cache) : Prop :=
  forall k t m, remembered lo k (rev ops) = Some (t, m) -> now < t + lifetime hi m ->
  map_ c !! k = Some (entry_of hi t m).

Lemma get_entry_of hi now key c t m :
  map_ c !! key = Some (entry_of hi t m) ->
  snd (get now key c) = if t + lifetime hi m <=? now then None else Some (served now t m).
Proof. intros E. unfold get. rewrite E. simpl. by destruct (_ <=? now). Qed.

Lemma insert_outcome order t1 t2 key m c :
  (accepted (min_ttl c) m = false /\ insert order t1 t2 key m c = (c, false)) \/
  (accepted (min_ttl c) m = true /\
   exists c1, c1 = (if max_entries c <=? cache_len c then evict order t1 c else c) /\
   insert order t1 t2 key m c = (set_map (<[key := entry_of (max_ttl c) t2 m]> (map_ c1)) c1, true)).
Proof.
  unfold insert, accepted, entry_of, lifetime. destruct (cacheable_code _); simpl; [|by left].
  destruct (shortest_ttl m) as [t|]; simpl; [|by left]. destruct (_ || _); simpl; [by left|].
  right. split; [done|]. by eexists.
Qed.

Lemma evict_config order t c :
  min_ttl (evict order t c) = min_ttl c /\ max_ttl (evict order t c) = max_ttl c /\
  max_entries (evict order t c) = max_entries c /\ map_ (evict order t c) ⊆ map_ c.
Proof. destruct (evict_facts order t c) as [-> Hs]. done. Qed.

Lemma get_config now key c :
  min_ttl (fst (get now key c)) = min_ttl c /\ max_ttl (fst (get now key c)) = max_ttl c /\
  max_entries (fst (get now key c)) = max_entries c /\ map_ (fst (get now key c)) ⊆ map_ c.
Proof. unfold get. repeat case_match; split_and!; try done. simpl. apply delete_subseteq. Qed.

Lemma from_history_shrink lo hi ops c c' op :
  (forall k, remembered lo k (rev (ops ++ [op])) = remembered lo k (rev ops)) ->
  min_ttl c' = min_ttl c /\ max_ttl c' = max_ttl c /\ max_entries c' = max_entries c /\ map_ c' ⊆ map_ c ->
  from_history lo hi ops c -> from_history lo hi (ops ++ [op]) c'.
Proof.
  intros Hr (E1 & E2 & _ & Hs) (F1 & F2 & F3). split_and!; [congruence|congruence|].
  intros k e Hk. rewrite Hr. apply F3. by eapply lookup_weaken.
Qed.

Lemma remembered_unit lo k ops op :
  remembered lo k (rev (ops ++ [op])) =
  match op with
  | OpClear => None
  | OpInsert _ _ t k' m =>
      if bool_decide (k' = k) && accepted lo m then Some (t, m) else remembered lo k (rev ops)
  | _ => remembered lo k (rev ops)
  end.
Proof. rewrite rev_unit. by destruct op. Qed.

Lemma from_history_step lo hi ops c op :
  from_history lo hi ops c -> from_history lo hi (ops ++ [op]) (run_op c op).
Proof.
  intros Hc. destruct op as [now key|order t1 t2 key m|now|].
  - eapply from_history_shrink; [intros k; by rewrite remembered_unit|apply get_config|done].
  - simpl. pose proof Hc as (Hlo & Hhi & Hall).
    destruct (insert_outcome order t1 t2 key m c) as [[Ha ->]|(Ha & c1 & -> & ->)]; rewrite Hlo in Ha.
    { eapply from_history_shrink; [|done|exact Hc]. intros k. by rewrite remembered_unit, Ha, andb_false_r. }
    destruct (evict_config order t1 c) as (E1 & E2 & _ & Es).
    split_and!; [by case_match; simpl; congruence|by case_match; simpl; congruence|].
    simpl. intros k e [[<- <-]|[Hne Hk]]%lookup_insert_Some; rewrite remembered_unit.
    + exists t2, m. by rewrite bool_decide_true, Ha, Hhi by done.
    + rewrite bool_decide_false by done. apply Hall.
      case_match; [by eapply lookup_weaken|done].
  - eapply from_history_shrink; [intros k; by rewrite remembered_unit| |done].
    split_and!; try done. apply retain_live_subseteq.
  - destruct Hc as (? & ? & _). split_and!; [done|done|]. apply map_Forall_empty.
Qed.

Lemma run_unit ops op c : run (ops ++ [op]) c = run_op (run ops c) op.
Proof. unfold run. by rewrite fold_left_app. Qed.

Lemma from_history_run n lo hi ops : from_history lo hi ops (run ops (new_cache n lo hi)).
Proof.
  induction ops as [|op ops IH] using rev_ind.
  - split_and!; [done|done|apply map_Forall_empty].
  - rewrite run_unit. by apply from_history_step.
Qed.

(** The keys stored are keys of the history, and the bound stays. *)
Lemma run_keys n lo hi ops :
  dom (map_ (run ops (new_cache n lo hi))) ⊆ keys_of ops /\
  max_entries (run ops (new_cache n lo hi)) = Z.max n 1.
Proof.
  induction ops as [|op ops [IH1 IH2]] using rev_ind; [done|]. rewrite run_unit.
  set (c := run ops _) in *. unfold keys_of in *. rewrite map_app, union_list_app_L. cbn [map union_list].
  assert (forall c', max_entries c' = max_entries c -> map_ c' ⊆ map_ c ->
    dom (map_ c') ⊆ ⋃ (map op_keys ops) ∪ (op_keys op ∪ ∅) /\ max_entries c' = Z.max n 1) as Hshrink.
  { intros c' E Hs%subseteq_dom. split; [set_solver|congruence]. }
  destruct op as [now key|order t1 t2 key m|now|]; simpl.
  - by apply Hshrink; apply get_config.
  - destruct (insert_outcome order t1 t2 key m c) as [[_ ->]|(_ & c1 & -> & ->)]; [by apply Hshrink|].
    destruct (evict_config order t1 c) as (_ & _ & E & Es%subseteq_dom).
    simpl. rewrite dom_insert_L. case_match; (split; [set_solver|congruence]).
  - apply (Hshrink (sweep now c)); [done|]. apply retain_live_subseteq.
  - apply (Hshrink (clear c)); [done|]. apply map_empty_subseteq.
Qed.

Lemma complete_step lo hi now ops c op :
  from_history lo hi ops c ->
  (max_entries c <=? cache_len c) = false ->
  Forall (fun t => t <= now) (op_times op) ->
  complete lo hi now ops c -> complete lo hi now (ops ++ [op]) (run_op c op).
Proof.
  intros (Hlo & Hhi & _) Hroom Ht Hc k t m. rewrite remembered_unit. destruct op as [t0 key|order t1 t2 key m'|t0|].
  - intros Hr Hl. specialize (Hc k t m Hr Hl). apply Forall_inv in Ht.
    simpl. unfold get. destruct (map_ c !! key) as [e|] eqn:E; [|done].
    destruct (Z.leb_spec (expires e) t0); [|done]. simpl. rewrite lookup_delete_ne; [done|].
    intros ->. rewrite E in Hc. injection Hc as ->. simpl in *. lia.
  - simpl. destruct (insert_outcome order t1 t2 key m' c) as [[Ha ->]|(Ha & c1 & -> & ->)]; rewrite Hlo in Ha; rewrite Ha.
    + rewrite andb_false_r. apply Hc.
    + rewrite Hroom, andb_true_r, Hhi. simpl. case_bool_decide as E.
      * subst k. intros [= -> ->] _. by rewrite lookup_insert_eq.
      * intros Hr Hl. rewrite lookup_insert_ne by done. by apply Hc.
  - intros Hr Hl. simpl. apply map_lookup_filter_Some. split; [by apply Hc|].
    apply Forall_inv in Ht. simpl. lia.
  - done.
Qed.

Lemma complete_run n lo hi now ops :
  Forall (fun t => t <= now) (flat_map op_times ops) -> Z.of_nat (size (keys_of ops)) < Z.max n 1 ->
  complete lo hi now ops (run ops (new_cache n lo hi)).
Proof.
  induction ops as [|op ops IH] using rev_ind; [done|].
  rewrite flat_map_app, Forall_app. simpl. rewrite app_nil_r. intros [Ht1 Ht2] Hsize. rewrite run_unit.
  assert (Z.of_nat (size (keys_of ops)) < Z.max n 1) as Hs.
  { eapply Z.le_lt_trans; [|exact Hsize]. apply inj_le, subseteq_size. unfold keys_of.
    rewrite map_app, union_list_app_L. set_solver. }
  apply complete_step; [apply from_history_run| |done|by apply IH].
  destruct (run_keys n lo hi ops) as [Hd ->]. apply Z.leb_gt. eapply Z.le_lt_trans; [|exact Hs].
  unfold cache_len. apply inj_le. rewrite <- size_dom. by apply subseteq_size.
Qed.

(* ------------------------------------------------------------------ *)
(** ** Properties *)

(** C17. The cache is what its history says.  After any use of it, in any
    order and with any readings of the clock, a lookup gives nothing or
    exactly what the reference gives: the last answer accepted for that key
    since the last clearing, aged, and not after its lifetime.  As long as
    fewer keys than the configured number were ever inserted, and the clock
    did not go backwards past the lookup, it gives exactly the reference:
    nothing that may still be served is lost. *)
Theorem cache_agrees_with_history n lo hi ops now key :
  let got := snd (get now key (run ops (new_cache n lo hi))) in
  (got = None \/ got = reference lo hi now key ops) /\
  (Forall (fun t => t <= now) (flat_map op_times ops) ->
   Z.of_nat (size (keys_of ops)) < Z.max n 1 -> got = reference lo hi now key ops).
Proof.
  destruct (from_history_run n lo hi ops) as (_ & _ & Hall). set (c := run ops _) in *. cbv zeta. split.
  - destruct (map_ c !! key) as [e|] eqn:E; [|left; unfold get; by rewrite E].
    destruct (Hall _ _ E) as (t & m & Hr & ->). right. rewrite (get_entry_of hi _ _ _ t m E).
    unfold reference. by rewrite Hr.
  - intros Ht Hs. pose proof (complete_run n lo hi now ops Ht Hs key) as Hc. fold c in Hc. unfold reference.
    destruct (remembered lo key (rev ops)) as [[t m]|] eqn:Hr; simpl.
    + destruct (Z.leb_spec (t + lifetime hi m) now) as [Hl|Hl].
      * unfold get. destruct (map_ c !! key) as [e|] eqn:E; [|done].
        destruct (Hall _ _ E) as (t' & m' & Hr' & ->). rewrite Hr in Hr'. injection Hr' as <- <-.
        simpl. by rewrite (proj2 (Z.leb_le _ _) Hl).
      * rewrite (get_entry_of hi _ _ _ t m) by (by apply Hc).
        by rewrite (proj2 (Z.leb_gt _ _) Hl).
    + unfold get. destruct (map_ c !! key) as [e|] eqn:E; [|done].
      destruct (Hall _ _ E) as (t' & m' & Hr' & _). congruence.
Qed.
End History.

(* ------------------------------------------------------------------ *)
(** ** Witness *)

Section Witness.
#[local] Existing Instance simple_hickory.

Definition w_key2 : Key := mk_key "plain.example.com" TYPE_A 1 true false.
(** Two answers for a key, a refused one, one for another key, a lookup. *)
Definition w_ops : list CacheOp :=
  [OpInsert w_order 0 0 w_key (w_message 300 300);
   OpInsert w_order 1 1 w_key (w_message 400 40);
   OpInsert w_order 2 2 w_key (w_message 10 40);
   OpInsert w_order 3 3 w_key2 (w_message 60 60);
   OpGet (from_secs 5) w_key].

Lemma cache_agrees_with_history_witness :
  let c := run w_ops (new_cache 3 30 86400) in let now := from_secs 101 in
  let got := snd (get now w_key c) in
  (got = None \/ got = reference 30 86400 now w_key w_ops) /\
  (Forall (fun t => t <= now) (flat_map op_times w_ops) ->
   Z.of_nat (size (keys_of w_ops)) < Z.max 3 1 -> got = reference 30 86400 now w_key w_ops).
Proof. apply (cache_agrees_with_history 3 30 86400 w_ops (from_secs 101) w_key). Defined.

(** Both conditions of its second part hold of this history. *)
Example w_ops_in_time : Forall (fun t => t <= from_secs 101) (flat_map op_times w_ops).
Proof. repeat constructor; by vm_compute. Qed.
Example w_ops_fit : Z.of_nat (size (keys_of w_ops)) < Z.max 3 1.
Proof. by vm_compute. Qed.
Example w_ops_answer :
  option_map ca_answers (snd (get (from_secs 101) w_key (run w_ops (new_cache 3 30 86400)))) =
  Some [w_record (400 - 100)].
Proof. vm_compute. reflexivity. Qed.

(** The bound on the number of keys cannot be weakened to the configured
    one: [insert] makes room before it looks whether its key is there, so
    that a full cache loses another answer when one of its own is refreshed. *)
Example full_cache_forgets :
  let ops := [OpInsert w_order 0 0 w_key2 (w_message 60 60);
              OpInsert w_order 1 1 w_key (w_message 300 300);
              OpInsert w_order 2 2 w_key (w_message 300 300)] in
  let now := from_secs 3 in
  size (keys_of ops) = 2%nat /\ is_some (reference 30 86400 now w_key2 ops) = true /\
  snd (get now w_key2 (run ops (new_cache 2 30 86400))) = None.
Proof. by vm_compute. Qed.
End Witness.
