(* ===== verification/Upstream.v ===== *)
(** * Asking an upstream resolver (src/dns/mod.rs: [forward] and below)

    A query is sent over UDP, again over TCP when the answer came back
    truncated, to each upstream in turn until one answers the question that
    was asked.  What the network does is an argument: a [Script] per attempt
    says when each datagram, connection and byte arrives.  A computation
    that waits has an [Outcome]: the time it took, or that it waits for ever,
    and [timeout] is tokio's. *)
From S2P Require Import Prelude Str Addr DnsMsg.
Open Scope Z_scope.

(* ------------------------------------------------------------------ *)
(** ** Time *)

Inductive Outcome (A : Type) : Type :=
  | Ready (t : Duration) (a : A)
  | Pending.
Arguments Ready {A} t a.
Arguments Pending {A}.

(** [tokio::time::timeout]: the inner future is polled before the deadline. *)
Definition timeout {A} (d : Duration) (o : Outcome A) : Duration * option A :=
  match o with
  | Ready t a => if t <=? d then (t, Some a) else (d, None)
  | Pending => (d, None)
  end.

(** [o.await], then [k]. *)
Definition and_then {A B} (o : Outcome A) (k : A -> Outcome B) : Outcome B :=
  match o with
  | Ready t a => match k a with Ready t' b => Ready (t + t') b | Pending => Pending end
  | Pending => Pending
  end.

Lemma timeout_bound {A} d (o : Outcome A) : 0 <= d -> fst (timeout d o) <= d.
Proof. intros. unfold timeout. destruct o as [t a|]; [destruct (Z.leb_spec t d)|]; simpl; lia. Qed.

(* ------------------------------------------------------------------ *)
(** ** The network's part *)

Inductive UpstreamError : Type :=
  | BindFailed | ConnectFailed | SendFailed | RecvFailed
  | TcpConnectFailed | RequestTooLarge | TcpWriteFailed | TcpReadFailed | EmptyTcpResponse
  | DifferentQuestion | Undecodable | TimedOut | NoUpstreams.

(** What [recv] yields next, and how long after the previous event. *)
Inductive UdpEvent : Type :=
  | Datagram (payload : string)
  | RecvError.

Record TcpScript : Type := mk_tcp {
  tcp_connects : bool;
  (** How long the whole exchange takes when it completes. *)
  tcp_takes : Duration;
  tcp_writes : bool;
  (** The bytes the peer sends, and whether it then closes. *)
  tcp_sends : string;
  tcp_closes : bool }.

Record Script : Type := mk_script {
  sc_bind : SocketAddr -> bool;
  sc_connect : bool;
  sc_send : bool;
  sc_udp : list (Duration * UdpEvent);
  sc_tcp : TcpScript }.

Definition take_bytes (n : nat) (s : string) : string := String.substring 0 n s.
Definition drop_bytes (n : nat) (s : string) : string := String.substring n (String.length s - n) s.

(* ------------------------------------------------------------------ *)
(** ** One UDP round trip *)

Definition bind_addr (upstream : SocketAddr) : SocketAddr :=
  if is_ipv4 (sa_ip upstream) then mk_socket (V4 0) 0 else mk_socket (V6 0) 0.

(** [recv] fills at most the buffer; the rest of a datagram is lost. *)
Definition received (buf : Z) (payload : string) : string :=
  if str_len payload <=? buf then payload else take_bytes (Z.to_nat buf) payload.

Definition same_id (wire reply : string) : bool :=
  (2 <=? str_len reply) && (take_bytes 2 reply =? take_bytes 2 wire)%string.

Fixpoint udp_recv (buf : Z) (wire : string) (evs : list (Duration * UdpEvent))
    : Outcome (result UpstreamError string) :=
  match evs with
  | [] => Pending
  | (t, RecvError) :: _ => Ready t (Err RecvFailed)
  | (t, Datagram p) :: rest =>
      let reply := received buf p in
      if same_id wire reply then Ready t (Ok reply)
      else and_then (Ready t tt) (fun _ => udp_recv buf wire rest)
  end.

Definition udp_exchange (sc : Script) (upstream : SocketAddr) (wire : string) (limit : Z)
    : Outcome (result UpstreamError string) :=
  if negb (sc_bind sc (bind_addr upstream)) then Ready 0 (Err BindFailed)
  else if negb (sc_connect sc) then Ready 0 (Err ConnectFailed)
  else if negb (sc_send sc) then Ready 0 (Err SendFailed)
  else udp_recv (Z.max limit 512) wire (sc_udp sc).

(* ------------------------------------------------------------------ *)
(** ** One TCP round trip *)

(** [read_exact]: the bytes and what is left of the stream. *)
Definition read_exact (n : Z) (closes : bool) (stream : string) : Outcome (option (string * string)) :=
  if n <=? str_len stream then Ready 0 (Some (take_bytes (Z.to_nat n) stream, drop_bytes (Z.to_nat n) stream))
  else if closes then Ready 0 None
  else Pending.

(** [u16::from_be_bytes] and [u16::to_be_bytes]. *)
Definition from_be_bytes (s : string) : Z :=
  match s with
  | String a (String b _) => 256 * code a + code b
  | _ => 0
  end.
Definition to_be_bytes (n : Z) : string :=
  String (of_code (n / 256)) (String (of_code (n mod 256)) "").

Definition tcp_exchange (sc : TcpScript) (wire : string) : Outcome (result UpstreamError string) :=
  if negb (tcp_connects sc) then Ready (tcp_takes sc) (Err TcpConnectFailed)
  else if u16_max <? str_len wire then Ready (tcp_takes sc) (Err RequestTooLarge)
  else if negb (tcp_writes sc) then Ready (tcp_takes sc) (Err TcpWriteFailed)
  else and_then (Ready (tcp_takes sc) tt) (fun _ =>
    and_then (read_exact 2 (tcp_closes sc) (tcp_sends sc)) (fun r =>
      match r with
      | None => Ready 0 (Err TcpReadFailed)
      | Some (len_buf, rest) =>
          let expect := from_be_bytes len_buf in
          if expect =? 0 then Ready 0 (Err EmptyTcpResponse)
          else and_then (read_exact expect (tcp_closes sc) rest) (fun r =>
            match r with
            | None => Ready 0 (Err TcpReadFailed)
            | Some (reply, _) => Ready 0 (Ok reply)
            end)
      end)).

(* ------------------------------------------------------------------ *)
(** ** Forwarding *)

Section Forward.
Context `{Codec}.

Definition clamp_upstream_payload (request : string) (parsed : Message) (limit : Z) : string :=
  let needs_clamp := is_some_and (fun e => limit <? e_max_payload e) (edns parsed) in
  if negb needs_clamp then request
  else
    let m := match edns parsed with
             | Some e => set_edns_field (Some (set_max_payload e limit)) parsed
             | None => parsed
             end in
    match to_vec m with
    | Some v => v
    | None => request
    end.

Definition answers_request (req resp : Message) : bool :=
  if negb (id (metadata resp) =? id (metadata req)) then false
  else match head (queries req), head (queries resp) with
  | Some q, Some a =>
      (query_type q =? query_type a) && (query_class q =? query_class a)
      && eq_ignore_ascii_case (to_ascii (q_name q)) (to_ascii (q_name a))
  | _, _ => false
  end.

Definition is_truncated (reply : string) : bool :=
  match from_vec reply with Some m => truncation (metadata m) | None => false end.

(** One pass of the loop over the upstreams, before its time limit. *)
Definition attempt (sc : Script) (upstream : SocketAddr) (wire : string) (limit : Z)
    : Outcome (result UpstreamError string) :=
  and_then (udp_exchange sc upstream wire limit) (fun r =>
    match r with
    | Err e => Ready 0 (Err e)
    | Ok reply => if is_truncated reply then tcp_exchange (sc_tcp sc) wire else Ready 0 (Ok reply)
    end).

(** The verdict on what the attempt left. *)
Definition accept (parsed : Message) (r : option (result UpstreamError string))
    : result UpstreamError string :=
  match r with
  | Some (Ok reply) =>
      match from_vec reply with
      | Some m => if answers_request parsed m then Ok reply else Err DifferentQuestion
      | None => Err Undecodable
      end
  | Some (Err e) => Err e
  | None => Err TimedOut
  end.

Definition try_upstream (limit_time : Duration) (sc : Script) (upstream : SocketAddr) (wire : string) (limit : Z)
    (parsed : Message) : Duration * result UpstreamError string :=
  let p := timeout limit_time (attempt sc upstream wire limit) in
  (fst p, accept parsed (snd p)).

(** [net i] is the network during the [i]th attempt. *)
Fixpoint forward_from (limit_time : Duration) (net : nat -> Script) (i : nat) (ups : list SocketAddr)
    (wire : string) (limit : Z) (parsed : Message) (last_err : option UpstreamError)
    : Duration * result UpstreamError string :=
  match ups with
  | [] => (0, Err (default NoUpstreams last_err))
  | upstream :: rest =>
      match try_upstream limit_time (net i) upstream wire limit parsed with
      | (t, Ok reply) => (t, Ok reply)
      | (t, Err e) =>
          let p := forward_from limit_time net (S i) rest wire limit parsed (Some e) in
          (t + fst p, snd p)
      end
  end.

Definition forward (upstream_timeout_ms limit : Z) (ups : list SocketAddr) (net : nat -> Script)
    (request : string) (parsed : Message) : Duration * result UpstreamError string :=
  let wire := clamp_upstream_payload request parsed limit in
  forward_from (from_millis upstream_timeout_ms) net 0 ups wire limit parsed None.

End Forward.

(* ------------------------------------------------------------------ *)
(** ** Framing *)

Lemma substring_prefix a b : String.substring 0 (String.length a) (a +:+ b) = a.
Proof. induction a as [|c a IH]; simpl; [by destruct b|]. by rewrite IH. Qed.
Lemma substring_all s : String.substring 0 (String.length s) s = s.
Proof. induction s as [|c s IH]; simpl; [done|]. by rewrite IH. Qed.
Lemma substring_suffix a b : String.substring (String.length a) (String.length b) (a +:+ b) = b.
Proof. induction a as [|c a IH]; simpl; [apply substring_all|done]. Qed.

Lemma take_bytes_app a b : take_bytes (Z.to_nat (str_len a)) (a +:+ b) = a.
Proof. unfold str_len, take_bytes. rewrite Nat2Z.id. apply substring_prefix. Qed.
Lemma drop_bytes_app a b : drop_bytes (Z.to_nat (str_len a)) (a +:+ b) = b.
Proof.
  unfold str_len, drop_bytes. rewrite Nat2Z.id, str_length_app.
  replace (String.length a + String.length b - String.length a)%nat with (String.length b) by lia.
  apply substring_suffix.
Qed.

Lemma read_exact_app a b closes : read_exact (str_len a) closes (a +:+ b) = Ready 0 (Some (a, b)).
Proof.
  unfold read_exact. rewrite str_len_app.
  destruct (Z.leb_spec (str_len a) (str_len a + str_len b)); [|pose proof (str_len_nonneg b); lia].
  by rewrite take_bytes_app, drop_bytes_app.
Qed.

Lemma code_of_code z : in_width 8 z -> code (of_code z) = z.
Proof.
  unfold in_width, code, of_code. intros Hz. change (2 ^ 8) with 256 in Hz.
  rewrite N_ascii_embedding by lia. lia.
Qed.

Lemma be_bytes_roundtrip n : in_width 16 n -> from_be_bytes (to_be_bytes n) = n.
Proof.
  intros Hn. unfold in_width in Hn. change (2 ^ 16) with 65536 in Hn.
  pose proof (Z.div_mod n 256 ltac:(lia)). pose proof (Z.mod_pos_bound n 256 ltac:(lia)).
  assert (0 <= n / 256 < 256) by (split; [apply Z.div_pos; lia|apply Z.div_lt_upper_bound; lia]).
  unfold from_be_bytes, to_be_bytes. rewrite !code_of_code by (unfold in_width; change (2 ^ 8) with 256; lia). lia.
Qed.

Lemma str_len_be n : str_len (to_be_bytes n) = 2.
Proof. done. Qed.

(** RFC 1035 framing: a message behind its length. *)
Definition frame (m : string) : string := to_be_bytes (str_len m) +:+ m.

(** What a peer that frames its answer sends is what is read. *)
Lemma read_frame m rest closes :
  in_width 16 (str_len m) ->
  read_exact 2 closes (frame m +:+ rest) = Ready 0 (Some (to_be_bytes (str_len m), m +:+ rest)) /\
  from_be_bytes (to_be_bytes (str_len m)) = str_len m /\
  read_exact (str_len m) closes (m +:+ rest) = Ready 0 (Some (m, rest)).
Proof.
  intros Hm. split_and!; [|by apply be_bytes_roundtrip|apply read_exact_app].
  change (read_exact (str_len (to_be_bytes (str_len m))) closes (to_be_bytes (str_len m) +:+ (m +:+ rest))
    = Ready 0 (Some (to_be_bytes (str_len m), m +:+ rest))). apply read_exact_app.
Qed.

Lemma tcp_exchange_frame takes closes wire m rest :
  str_len wire <= u16_max -> 0 < str_len m <= u16_max ->
  tcp_exchange (mk_tcp true takes true (frame m +:+ rest) closes) wire = Ready takes (Ok m).
Proof.
  intros Hw Hm. unfold tcp_exchange. cbn [tcp_connects tcp_writes tcp_takes tcp_sends tcp_closes negb].
  destruct (Z.ltb_spec u16_max (str_len wire)); [lia|].
  destruct (read_frame m rest closes) as (H2 & Hl & Hr); [unfold in_width; pow_lia|].
  rewrite H2. cbn [and_then]. rewrite Hl.
  destruct (Z.eqb_spec (str_len m) 0); [lia|]. rewrite Hr. cbn [and_then]. f_equal. lia.
Qed.

(** Forged datagrams with another identifier are passed over. *)
Lemma udp_recv_skips buf wire junk t p rest :
  Forall (fun e => exists p, snd e = Datagram p /\ same_id wire (received buf p) = false) junk ->
  same_id wire (received buf p) = true ->
  exists t', udp_recv buf wire (junk ++ (t, Datagram p) :: rest) = Ready t' (Ok (received buf p)).
Proof.
  intros Hj Hp. induction Hj as [|[tj ev] junk (pj & Hev & Hid) _ IH]; simpl in *.
  - rewrite Hp. eauto.
  - subst ev. rewrite Hid. destruct IH as [t' ->]. eauto.
Qed.

(* ------------------------------------------------------------------ *)
(** ** Properties *)

Section Properties.
Context `{Codec}.

(** The conditions under which [accept] lets a reply through. *)
Definition same_question (q a : Question) : Prop :=
  query_type a = query_type q /\ query_class a = query_class q /\
  to_ascii_lowercase (to_ascii (q_name a)) = to_ascii_lowercase (to_ascii (q_name q)).

Lemma answers_request_spec req resp :
  answers_request req resp = true <->
  id (metadata resp) = id (metadata req) /\
  exists q a, head (queries req) = Some q /\ head (queries resp) = Some a /\ same_question q a.
Proof.
  unfold answers_request, same_question, eq_ignore_ascii_case.
  destruct (Z.eqb_spec (id (metadata resp)) (id (metadata req))) as [->|]; simpl; [|naive_solver].
  destruct (head (queries req)) as [q|]; [|naive_solver].
  destruct (head (queries resp)) as [a|]; [|naive_solver].
  rewrite !andb_true_iff, !Z.eqb_eq, String.eqb_eq. naive_solver.
Qed.

Lemma accept_ok parsed r reply :
  accept parsed r = Ok reply <->
  r = Some (Ok reply) /\ exists m, from_vec reply = Some m /\ answers_request parsed m = true.
Proof.
  unfold accept. split.
  - destruct r as [[s|e]|]; try done. destruct (from_vec s) as [m|] eqn:E; [|done].
    destruct (answers_request parsed m) eqn:Ha; [|done]. intros [= <-]. eauto.
  - intros (-> & m & -> & ->). done.
Qed.

Lemma forward_from_time lt net i ups wire limit parsed le :
  0 <= lt -> fst (forward_from lt net i ups wire limit parsed le) <= Z.of_nat (length ups) * lt.
Proof.
  intros Hlt. revert i le. induction ups as [|u ups IH]; intros i le; [simpl; lia|].
  cbn [forward_from length]. unfold try_upstream.
  pose proof (timeout_bound lt (attempt (net i) u wire limit) Hlt) as Ht.
  destruct (accept parsed _) as [reply|e]; cbn [fst]; [nia|].
  specialize (IH (S i) (Some e)). lia.
Qed.

Lemma forward_from_ok lt net i ups wire limit parsed le reply :
  snd (forward_from lt net i ups wire limit parsed le) = Ok reply <->
  exists k u, ups !! k = Some u /\ snd (try_upstream lt (net (i + k)%nat) u wire limit parsed) = Ok reply /\
    forall j u', (j < k)%nat -> ups !! j = Some u' ->
      is_ok (snd (try_upstream lt (net (i + j)%nat) u' wire limit parsed)) = false.
Proof.
  revert i le. induction ups as [|u ups IH]; intros i le; cbn [forward_from].
  { simpl. split; [done|]. intros (k & u & ? & _). done. }
  destruct (try_upstream lt (net i) u wire limit parsed) as [t [r|e]] eqn:E; cbn [snd].
  - split.
    + intros [= ->]. exists 0%nat, u. rewrite Nat.add_0_r, E. split_and!; [done|done|lia].
    + intros (k & u' & Hk & Hr & Hj). destruct k as [|k].
      * injection Hk as <-. rewrite Nat.add_0_r, E in Hr. by injection Hr as ->.
      * specialize (Hj 0%nat u ltac:(lia) eq_refl). by rewrite Nat.add_0_r, E in Hj.
  - rewrite IH. split; intros (k & u' & Hk & Hr & Hj).
    + exists (S k), u'. rewrite Nat.add_succ_r. split_and!; [done|done|].
      intros [|j] u'' Hlt Hj'; [rewrite Nat.add_0_r; injection Hj' as <-; by rewrite E|].
      rewrite Nat.add_succ_r. apply (Hj j); [lia|done].
    + destruct k as [|k]; [injection Hk as <-; rewrite Nat.add_0_r, E in Hr; done|].
      exists k, u'. rewrite Nat.add_succ_r in Hr. split_and!; [done|done|].
      intros j u'' Hlt Hj'. specialize (Hj (S j) u'' ltac:(lia) Hj'). by rewrite Nat.add_succ_r in Hj.
Qed.

(** Forwarding takes the first upstream, in configuration order, whose
    attempt is accepted, fails only when every one of them was refused, and
    never takes longer than one time limit per upstream. *)
Theorem forward_first_accepted tmo limit ups net request parsed :
  0 <= tmo ->
  let try := fun i u => try_upstream (from_millis tmo) (net i) u
                          (clamp_upstream_payload request parsed limit) limit parsed in
  let r := forward tmo limit ups net request parsed in
  fst r <= Z.of_nat (length ups) * from_millis tmo /\
  (forall reply, snd r = Ok reply <->
     exists k u, ups !! k = Some u /\ snd (try k u) = Ok reply /\
       forall j u', (j < k)%nat -> ups !! j = Some u' -> is_ok (snd (try j u')) = false) /\
  (is_ok (snd r) = false <-> forall k u, ups !! k = Some u -> is_ok (snd (try k u)) = false).
Proof.
  intros Hn. cbv zeta. unfold forward. split_and!.
  - apply forward_from_time. unfold from_millis. lia.
  - intros reply. apply forward_from_ok.
  - generalize (clamp_upstream_payload request parsed limit), (from_millis tmo). intros wire lt.
    assert (forall ups i le, is_ok (snd (forward_from lt net i ups wire limit parsed le)) = false <->
      forall k u, ups !! k = Some u -> is_ok (snd (try_upstream lt (net (i + k)%nat) u wire limit parsed)) = false)
      as Hg; [|apply (Hg ups 0%nat)].
    clear. induction ups as [|u ups IH]; intros i le; cbn [forward_from]; [done|].
    destruct (try_upstream lt (net i) u wire limit parsed) as [t [r|e]] eqn:E; cbn [snd].
    + split; [done|]. intros Hk. specialize (Hk 0%nat u eq_refl). by rewrite Nat.add_0_r, E in Hk.
    + rewrite IH. split; intros Hk.
      * intros [|k] u' Hu; [injection Hu as <-; by rewrite Nat.add_0_r, E|].
        rewrite Nat.add_succ_r. by apply (Hk k).
      * intros k u' Hu. specialize (Hk (S k) u' Hu). by rewrite Nat.add_succ_r in Hk.
Qed.

Lemma attempt_ok sc u wire limit t reply :
  attempt sc u wire limit = Ready t (Ok reply) ->
  (exists t', udp_exchange sc u wire limit = Ready t' (Ok reply) /\ is_truncated reply = false) \/
  (exists t1 t2 stub, udp_exchange sc u wire limit = Ready t1 (Ok stub) /\ is_truncated stub = true /\
     tcp_exchange (sc_tcp sc) wire = Ready t2 (Ok reply)).
Proof.
  unfold attempt. destruct (udp_exchange sc u wire limit) as [t1 [s|e]|]; cbn [and_then]; try done.
  destruct (is_truncated s) eqn:E.
  - destruct (tcp_exchange (sc_tcp sc) wire) as [t2 r|]; [|done]. intros [= <- ->]. right. eauto 6.
  - intros [= <- <-]. left. eauto.
Qed.

(** C7. Nothing but an answer to the question asked is ever passed on: what
    forwarding returns came from a configured upstream, decodes, and has the
    request's identifier and first question (names compared without case);
    and it came over UDP only if it is not truncated, a truncated reply being
    replaced by what the same upstream said over TCP. *)
Theorem forwarded_answers_request tmo limit ups net request parsed reply :
  snd (forward tmo limit ups net request parsed) = Ok reply ->
  let wire := clamp_upstream_payload request parsed limit in
  exists m q a k u, from_vec reply = Some m /\
    id (metadata m) = id (metadata parsed) /\
    head (queries parsed) = Some q /\ head (queries m) = Some a /\ same_question q a /\
    ups !! k = Some u /\
    ((exists t, udp_exchange (net k) u wire limit = Ready t (Ok reply) /\ truncation (metadata m) = false) \/
     (exists t t' stub, udp_exchange (net k) u wire limit = Ready t (Ok stub) /\ is_truncated stub = true /\
        tcp_exchange (sc_tcp (net k)) wire = Ready t' (Ok reply))).
Proof.
  intros Hf. cbv zeta. unfold forward in Hf.
  apply forward_from_ok in Hf as (k & u & Hk & Hr & _). cbn [Nat.add] in Hr.
  unfold try_upstream in Hr. cbn [snd] in Hr. apply accept_ok in Hr as (Hr & m & Hm & Ha).
  apply answers_request_spec in Ha as (Hid & q & a & Hq & Haq & Hs).
  exists m, q, a, k, u. split_and!; try done.
  destruct (attempt (net k) u _ limit) as [t r|] eqn:E; [|done]. unfold timeout in Hr.
  destruct (t <=? _); [|done]. simpl in Hr. injection Hr as ->.
  apply attempt_ok in E as [(t' & Hu & Htc)|(t1 & t2 & stub & Hu & Htc & Ht)].
  - left. exists t'. split; [done|]. unfold is_truncated in Htc. by rewrite Hm in Htc.
  - right. eauto 6.
Qed.

(** A client's advertised size is only ever lowered: the bytes sent
    upstream are the client's own, or encode the same message with the EDNS
    size reduced to the configured limit (at least 512). *)
Theorem clamp_only_lowers request parsed limit :
  let wire := clamp_upstream_payload request parsed limit in
  wire = request \/
  exists e, edns parsed = Some e /\ limit < e_max_payload e /\
    to_vec (set_edns_field (Some (set_max_payload e limit)) parsed) = Some wire /\
    e_max_payload (set_max_payload e limit) = Z.max limit 512.
Proof.
  cbv zeta. unfold clamp_upstream_payload. destruct (edns parsed) as [e|]; simpl; [|by left].
  destruct (Z.ltb_spec limit (e_max_payload e)) as [Hlt|]; simpl; [|by left].
  destruct (to_vec _) as [v|] eqn:Ev; [|by left]. right. exists e. split_and!; try done.
  destruct (Z.ltb_spec limit 512).
  - rewrite e_max_payload_small by done. lia.
  - rewrite e_max_payload_set by done. lia.
Qed.

(** Forged datagrams cannot stall or replace an answer: those that do not
    carry the identifier of the query are passed over, and the first one that
    does is the reply, clipped to the buffer, which is never smaller than
    512 bytes. *)
Theorem udp_exchange_skips_forged sc u wire limit junk t p rest :
  sc_bind sc (bind_addr u) = true -> sc_connect sc = true -> sc_send sc = true ->
  sc_udp sc = junk ++ (t, Datagram p) :: rest ->
  Forall (fun e => exists p, snd e = Datagram p /\ same_id wire (received (Z.max limit 512) p) = false) junk ->
  same_id wire (received (Z.max limit 512) p) = true ->
  exists t', udp_exchange sc u wire limit = Ready t' (Ok (received (Z.max limit 512) p)).
Proof.
  intros Hb Hc Hs Hudp Hj Hp. unfold udp_exchange. rewrite Hb, Hc, Hs, Hudp. simpl. by apply udp_recv_skips.
Qed.
End Properties.

(* ------------------------------------------------------------------ *)
(** ** Witnesses *)

Section Witness.
#[local] Existing Instance simple_hickory.
#[local] Existing Instance simple_codec.

Definition w_request : string := simple_header 7 false +:+ "a.example".
Definition w_parsed : Message :=
  mk_message (mk_metadata 7 Query OP_QUERY NoError false false true false false)
    [mk_question ("a.example" : @Name simple_hickory) TYPE_A 1] [] [] [] None.
Definition w_stub : string := simple_header 7 true +:+ "a.example".
Definition w_no_tcp : TcpScript := mk_tcp false 0 false "" false.
Definition w_udp (evs : list (Duration * UdpEvent)) (tcp : TcpScript) : Script :=
  mk_script (fun _ => true) true true evs tcp.
Definition w_upstreams : list SocketAddr :=
  [mk_socket (V4 (ipv4 1 1 1 1)) 53; mk_socket (V4 (ipv4 9 9 9 9)) 53].
(** The first upstream is silent; the second sends a forged datagram, then a
    truncated answer, and the whole answer over TCP. *)
Definition w_net (i : nat) : Script :=
  match i with
  | O => w_udp [] w_no_tcp
  | _ => w_udp [(1000000, Datagram (simple_header 9 false)); (1000000, Datagram w_stub)]
           (mk_tcp true 5000000 true (frame w_request) true)
  end.

Lemma w_forwarded : forward 2000 1232 w_upstreams w_net w_request w_parsed = (from_millis 2007, Ok w_request).
Proof. reflexivity. Qed.

Lemma forward_first_accepted_witness :
  0 <= 2000 /\ fst (forward 2000 1232 w_upstreams w_net w_request w_parsed)
    <= Z.of_nat (length w_upstreams) * from_millis 2000.
Proof.
  split; [lia|]. apply (forward_first_accepted 2000 1232 w_upstreams w_net w_request w_parsed). lia.
Defined.

Lemma forwarded_answers_request_witness :
  exists m q a k u, from_vec w_request = Some m /\ id (metadata m) = id (metadata w_parsed) /\
    head (queries w_parsed) = Some q /\ head (queries m) = Some a /\ same_question q a /\
    w_upstreams !! k = Some u.
Proof.
  destruct (forwarded_answers_request 2000 1232 w_upstreams w_net w_request w_parsed w_request)
    as (m & q & a & k & u & H1 & H2 & H3 & H4 & H5 & H6 & _); [by rewrite w_forwarded|].
  exists m, q, a, k, u. done.
Defined.

Lemma udp_exchange_skips_forged_witness :
  exists t', udp_exchange (w_net 1) (mk_socket (V4 (ipv4 9 9 9 9)) 53) w_request 1232 = Ready t' (Ok w_stub).
Proof.
  apply (udp_exchange_skips_forged (w_net 1) (mk_socket (V4 (ipv4 9 9 9 9)) 53) w_request 1232
    [(1000000, Datagram (simple_header 9 false))] 1000000 w_stub []); try reflexivity.
  repeat constructor. eexists. split; reflexivity.
Defined.

(** A buffer never smaller than 512 bytes: an upstream's longer datagram is
    clipped before it is decoded. *)
Example clipped_to_buffer :
  str_len (received (Z.max 100 512) (string_of_bytes (repeat 0 600))) = 512.
Proof. reflexivity. Qed.
End Witness.
