(* ===== verification/Db.v ===== *)
(** * The event store (src/db.rs)

    The write queue between the program and the writer thread, the flush of a
    batch into the tables, retention, and the queries the dashboard and the
    alerts run.  A table is the list of its rows in insertion order; SQL's own
    engine is outside the repository, each statement is translated as the
    operation on rows it denotes. *)
From S2P Require Import Prelude Str Float.
Open Scope Z_scope.

Inductive QueryStatus : Type := Forwarded | Cached | Blocked | NxDomain | SServFail | SRefused.
#[export] Instance query_status_eq_dec : EqDecision QueryStatus.
Proof. solve_decision. Defined.
Definition as_str (s : QueryStatus) : string :=
  match s with
  | Forwarded => "forwarded" | Cached => "cached" | Blocked => "blocked"
  | NxDomain => "nxdomain" | SServFail => "servfail" | SRefused => "refused"
  end.

Record QueryEvent : Type := mk_event {
  ev_ts : Z;
  ev_client_ip : string;
  ev_domain : string;
  ev_qtype : string;
  ev_status : QueryStatus;
  ev_elapsed_ms : option Z;
  ev_answer : option string;
  ev_blocklist : option string }.

Record IfaceSample : Type := mk_iface {
  if_ts : Z; if_iface : string; if_rx_bytes : Z; if_tx_bytes : Z; if_rx_bps : Z; if_tx_bps : Z }.

Inductive WriteOp : Type :=
  | OpQuery (e : QueryEvent)
  | OpIface (s : IfaceSample)
  | OpLatency (ts : Z) (target : string) (ms : F64)
  | OpAlert (ts : Z) (kind severity subject detail : string) (notified : bool)
  | OpDevice (mac : string) (ip hostname vendor : option string) (randomized : bool) (ts : Z).

(* ------------------------------------------------------------------ *)
(** ** The write queue *)

Record DropCounts : Type := mk_drops {
  d_queries : Z; d_devices : Z; d_monitoring : Z; d_alerts : Z }.
Definition no_drops : DropCounts := mk_drops 0 0 0 0.

Definition count_drop (op : WriteOp) (d : DropCounts) : DropCounts :=
  match op with
  | OpQuery _ => mk_drops (wrap 64 (d_queries d + 1)) (d_devices d) (d_monitoring d) (d_alerts d)
  | OpDevice _ _ _ _ _ _ => mk_drops (d_queries d) (wrap 64 (d_devices d + 1)) (d_monitoring d) (d_alerts d)
  | OpIface _ | OpLatency _ _ _ => mk_drops (d_queries d) (d_devices d) (wrap 64 (d_monitoring d + 1)) (d_alerts d)
  | OpAlert _ _ _ _ _ _ => mk_drops (d_queries d) (d_devices d) (d_monitoring d) (wrap 64 (d_alerts d + 1))
  end.

Definition CHANNEL : Z := 8192.
Definition BATCH : nat := 512.

(** The bounded channel: what waits in it, whether the writer thread still
    holds the receiving end, what was dropped; and what the thread has
    received and not yet written (its own [pending]). *)
Record Writer : Type := mk_writer {
  w_queue : list WriteOp; w_open : bool; w_dropped : DropCounts; w_pending : list WriteOp }.
Definition new_writer : Writer := mk_writer [] true no_drops [].

(** Everything accepted and not yet written, oldest first. *)
Definition backlog (w : Writer) : list WriteOp := w_pending w ++ w_queue w.

(** [Writer::send]: [try_send] fails on a full or closed channel. *)
Definition send (op : WriteOp) (w : Writer) : Writer :=
  if w_open w && (Z.of_nat (length (w_queue w)) <? CHANNEL)
  then mk_writer (w_queue w ++ [op]) (w_open w) (w_dropped w) (w_pending w)
  else mk_writer (w_queue w) (w_open w) (count_drop op (w_dropped w)) (w_pending w).
Definition send_all (ops : list WriteOp) (w : Writer) : Writer := fold_left (fun w op => send op w) ops w.

(* ------------------------------------------------------------------ *)
(** ** Tables *)

Record QueryRec : Type := mk_query { q_id : Z; q_event : QueryEvent }.
Record DeviceRec : Type := mk_device {
  dr_mac : string;
  dr_ip : option string;
  dr_hostname : option string;
  dr_vendor : option string;
  dr_randomized : bool;
  dr_first_seen : Z;
  dr_last_seen : Z }.
Record AlertRec : Type := mk_alert_row {
  a_id : Z; a_ts : Z; a_kind : string; a_severity : string; a_subject : string;
  a_detail : string; a_notified : bool }.

Record Db : Type := mk_db {
  t_queries : list QueryRec;
  next_query : Z;
  t_devices : list DeviceRec;
  t_iface : list IfaceSample;
  t_alerts : list AlertRec;
  next_alert : Z;
  t_latency : list (Z * string * F64) }.
Definition empty_db : Db := mk_db [] 1 [] [] [] 1 [].

Definition set_devices (l : list DeviceRec) (db : Db) : Db :=
  mk_db (t_queries db) (next_query db) l (t_iface db) (t_alerts db) (next_alert db) (t_latency db).

(** [UPDATE devices SET ip = NULL WHERE ip = ?1 AND mac != ?2]. *)
Definition release_ip (ip mac : string) (d : DeviceRec) : DeviceRec :=
  if bool_decide (dr_ip d = Some ip) && negb (dr_mac d =? mac)%string
  then mk_device (dr_mac d) None (dr_hostname d) (dr_vendor d) (dr_randomized d) (dr_first_seen d) (dr_last_seen d)
  else d.

(** SQL's [COALESCE(new, old)]. *)
Definition coalesce {A} (new old : option A) : option A := match new with Some x => Some x | None => old end.

(** [INSERT ... ON CONFLICT(mac) DO UPDATE]. *)
Definition update_device (mac : string) (ip hostname vendor : option string) (randomized : bool) (ts : Z)
    (d : DeviceRec) : DeviceRec :=
  mk_device (dr_mac d) (coalesce ip (dr_ip d)) (coalesce hostname (dr_hostname d))
    (coalesce vendor (dr_vendor d)) randomized (dr_first_seen d) ts.
Fixpoint upsert_device (mac : string) (ip hostname vendor : option string) (randomized : bool) (ts : Z)
    (l : list DeviceRec) : list DeviceRec :=
  match l with
  | [] => [mk_device mac ip hostname vendor randomized ts ts]
  | d :: r => if (dr_mac d =? mac)%string then update_device mac ip hostname vendor randomized ts d :: r
              else d :: upsert_device mac ip hostname vendor randomized ts r
  end.

Definition apply_op (db : Db) (op : WriteOp) : Db :=
  match op with
  | OpQuery e =>
      mk_db (t_queries db ++ [mk_query (next_query db) e]) (next_query db + 1) (t_devices db)
        (t_iface db) (t_alerts db) (next_alert db) (t_latency db)
  | OpIface s =>
      mk_db (t_queries db) (next_query db) (t_devices db) (t_iface db ++ [s])
        (t_alerts db) (next_alert db) (t_latency db)
  | OpLatency ts target ms =>
      mk_db (t_queries db) (next_query db) (t_devices db) (t_iface db)
        (t_alerts db) (next_alert db) (t_latency db ++ [(ts, target, ms)])
  | OpAlert ts kind severity subject detail notified =>
      mk_db (t_queries db) (next_query db) (t_devices db) (t_iface db)
        (t_alerts db ++ [mk_alert_row (next_alert db) ts kind severity subject detail notified])
        (next_alert db + 1) (t_latency db)
  | OpDevice mac ip hostname vendor randomized ts =>
      let l := match ip with Some ip => map (release_ip ip mac) (t_devices db) | None => t_devices db end in
      set_devices (upsert_device mac ip hostname vendor randomized ts l) db
  end.

(** One transaction: all of the batch, or ([false]: a statement or the commit
    fails) none of it. *)
Definition flush (commits : bool) (ops : list WriteOp) (db : Db) : Db :=
  if commits then fold_left apply_op ops db else db.

Definition ALERT_RETENTION_DAYS : Z := 90.
(** One prune: the clock as it reads before the statements that use it, and
    how many of the four statements take effect.  They are no transaction: one
    that fails ends the prune, and those before it stand. *)
Record Pruning : Type := mk_pruning { pr_now : Z; pr_iface_now : Z; pr_alert_now : Z; pr_done : nat }.
Definition delete_queries (cutoff : Z) (db : Db) : Db :=
  mk_db (List.filter (fun q => negb (ev_ts (q_event q) <? cutoff)) (t_queries db)) (next_query db)
    (t_devices db) (t_iface db) (t_alerts db) (next_alert db) (t_latency db).
Definition delete_iface (cutoff : Z) (db : Db) : Db :=
  mk_db (t_queries db) (next_query db) (t_devices db)
    (List.filter (fun s => negb (if_ts s <? cutoff)) (t_iface db)) (t_alerts db) (next_alert db) (t_latency db).
Definition delete_latency (cutoff : Z) (db : Db) : Db :=
  mk_db (t_queries db) (next_query db) (t_devices db) (t_iface db) (t_alerts db) (next_alert db)
    (List.filter (fun l => negb (fst (fst l) <? cutoff)) (t_latency db)).
Definition delete_alerts (cutoff : Z) (db : Db) : Db :=
  mk_db (t_queries db) (next_query db) (t_devices db) (t_iface db)
    (List.filter (fun a => negb (a_ts a <? cutoff)) (t_alerts db)) (next_alert db) (t_latency db).
Definition prune (p : Pruning) (retention_days : Z) (db : Db) : Db :=
  let cutoff := pr_now p - retention_days * 86400 in
  let iface_cutoff := pr_iface_now p - 3 * 86400 in
  let alert_cutoff := pr_alert_now p - ALERT_RETENTION_DAYS * 86400 in
  fold_left (fun db delete => delete db)
    (take (pr_done p) [delete_queries cutoff; delete_iface iface_cutoff; delete_latency iface_cutoff;
                       delete_alerts alert_cutoff]) db.

(** The writer thread takes an operation out of the channel. *)
Definition receive (w : Writer) : Writer :=
  match w_queue w with
  | op :: rest =>
      if (length (w_pending w) <? BATCH)%nat
      then mk_writer rest (w_open w) (w_dropped w) (w_pending w ++ [op])
      else w
  | [] => w
  end.

(** One round of the thread: it has, or waits for, a first operation, takes
    up to [rd_size] more before its deadline, writes the batch in one
    transaction, and may prune. *)
Record Round : Type := mk_round { rd_size : nat; rd_commits : bool; rd_prune : option Pruning }.
Definition gather_first (w : Writer) : Writer := match w_pending w with [] => receive w | _ => w end.
Definition gathered (r : Round) (w : Writer) : Writer := Nat.iter (rd_size r) receive (gather_first w).
Definition written_batch (retention_days : Z) (r : Round) (batch : list WriteOp) (db : Db) : Db :=
  let db := flush (rd_commits r) batch db in
  match rd_prune r with Some p => prune p retention_days db | None => db end.
Definition writer_round (retention_days : Z) (r : Round) (w : Writer) (db : Db) : Writer * Db :=
  let w := gathered r w in
  match w_pending w with
  | [] => (w, db)
  | batch => (mk_writer (w_queue w) (w_open w) (w_dropped w) [], written_batch retention_days r batch db)
  end.

(* ------------------------------------------------------------------ *)
(** ** Queries *)

(** [LEFT JOIN devices d ON d.ip = client_ip]: one row per matching device,
    or one with none. *)
Definition devices_at (db : Db) (ip : string) : list DeviceRec :=
  List.filter (fun d => bool_decide (dr_ip d = Some ip)) (t_devices db).
Definition left_join (db : Db) (q : QueryRec) : list (QueryRec * option DeviceRec) :=
  match devices_at db (ev_client_ip (q_event q)) with
  | [] => [(q, None)]
  | ds => map (fun d => (q, Some d)) ds
  end.

Record QueryRow : Type := mk_query_row { qr_event : QueryEvent; qr_client_name : option string }.
Record QueryFilter : Type := mk_filter {
  f_limit : Z; f_offset : Z; f_search : option string; f_client : option string; f_status : option string }.

(** ORDER BY ts DESC, id DESC. *)
Definition newest_first (a b : QueryRec) : bool :=
  (ev_ts (q_event b) <? ev_ts (q_event a))
  || ((ev_ts (q_event a) =? ev_ts (q_event b)) && (q_id b <=? q_id a)).

(** The start of a report's window, [now() - n.max(1) * unit] in [i64]. *)
Definition window_start (now n unit : Z) : Z := i64 (now - i64 (Z.max n 1 * unit)).

(** It is the window asked for while nothing overflows: for every number of
    hours up to 2^51. *)
Lemma window_start_exact now n unit : 0 <= now < 2 ^ 63 -> 0 <= unit -> Z.max n 1 * unit < 2 ^ 63 ->
  window_start now n unit = now - Z.max n 1 * unit.
Proof. intros Hn Hu Ho. unfold window_start. rewrite (i64_small (_ * _)), i64_small by nia. done. Qed.

Record Counted : Type := mk_counted { label : string; sublabel : option string; count : Z }.

Section Queries.
(** SQL's LIKE and the order in which GROUP BY yields its groups belong to
    the engine. *)
Context (sql_like : string -> string -> bool).
Context (group_order : list string -> list string).

Definition matches_filter (f : QueryFilter) (q : QueryRec) : bool :=
  is_none_or (fun s => sql_like ("%" +:+ s +:+ "%") (ev_domain (q_event q))) (f_search f)
  && is_none_or (fun c => (ev_client_ip (q_event q) =? c)%string) (f_client f)
  && is_none_or (fun s => (as_str (ev_status (q_event q)) =? s)%string) (f_status f).

Definition joined_queries (db : Db) (f : QueryFilter) : list (QueryRec * option DeviceRec) :=
  sort_by (fun a b => newest_first (fst a) (fst b))
    (flat_map (left_join db) (List.filter (matches_filter f) (t_queries db))).

Definition recent_queries (db : Db) (f : QueryFilter) : list QueryRow :=
  map (fun p => mk_query_row (q_event (fst p)) (snd p ≫= dr_hostname))
    (take (Z.to_nat (clamp 1 1000 (f_limit f))) (drop (Z.to_nat (f_offset f)) (joined_queries db f))).

Definition count_where (p : QueryRec -> bool) (l : list QueryRec) : Z := Z.of_nat (length (List.filter p l)).
Definition is_status (s : QueryStatus) (q : QueryRec) : bool := bool_decide (ev_status (q_event q) = s).
Definition since (cutoff : Z) (q : QueryRec) : bool := cutoff <=? ev_ts (q_event q).

(** GROUP BY a text column with COUNT, ORDER BY the count DESC. *)
Definition group_counts (key : QueryRec -> string) (l : list QueryRec) : list (string * Z) :=
  map (fun k => (k, count_where (fun q => (key q =? k)%string) l)) (group_order (map key l)).
Definition by_count_desc (l : list (string * Z)) : list (string * Z) := sort_by (fun a b => snd b <=? snd a) l.

Definition nxdomain_offenders (now window_mins threshold : Z) (db : Db) : list (string * Z) :=
  let cutoff := now - window_mins * 60 in
  by_count_desc (List.filter (fun p => threshold <=? snd p)
    (group_counts (fun q => ev_client_ip (q_event q))
       (List.filter (fun q => since cutoff q && is_status NxDomain q) (t_queries db)))).

(** The row of a group that a bare column is taken from. *)
Context (pick_row : list QueryRec -> option QueryRec).

(** The grouped reports: a group, a further column and the count. *)
Definition counted_groups (key : QueryRec -> string) (sub : list QueryRec -> option string) (l : list QueryRec)
    : list Counted :=
  map (fun k => let mine := List.filter (fun q => (key q =? k)%string) l in
                mk_counted k (sub mine) (Z.of_nat (length mine))) (group_order (map key l)).
Definition most_counted (limit : nat) (l : list Counted) : list Counted :=
  take limit (sort_by (fun a b => count b <=? count a) l).

Definition top_domains (now hours limit : Z) (blocked : bool) (db : Db) : list Counted :=
  let from := window_start now hours 3600 in
  let sub mine := if blocked then pick_row mine ≫= (fun q => ev_blocklist (q_event q)) else None in
  most_counted (Z.to_nat (clamp 1 200 limit)) (counted_groups (fun q => ev_domain (q_event q)) sub
    (List.filter (fun q => since from q
       && (if blocked then is_status Blocked q else negb (is_status Blocked q))) (t_queries db))).

Definition query_types (now hours : Z) (db : Db) : list Counted :=
  let from := window_start now hours 3600 in
  most_counted 12 (counted_groups (fun q => ev_qtype (q_event q)) (fun _ => None)
    (List.filter (since from) (t_queries db))).
End Queries.

Record BypassSuspect : Type := mk_suspect { bs_device : DeviceRec; bs_queries : Z }.
Definition suspect_order (a b : BypassSuspect) : bool :=
  (bs_queries a <? bs_queries b)
  || ((bs_queries a =? bs_queries b) && (dr_last_seen (bs_device b) <=? dr_last_seen (bs_device a))).
Definition bypass_suspects (now window_hours max_queries limit : Z) (db : Db) : list BypassSuspect :=
  let cutoff := now - window_hours * 3600 in
  let present := List.filter (fun d => (cutoff <=? dr_last_seen d) && is_some (dr_ip d)) (t_devices db) in
  let counted := map (fun d => mk_suspect d
    (count_where (fun q => bool_decide (dr_ip d = Some (ev_client_ip (q_event q))) && since cutoff q) (t_queries db))) present in
  take (Z.to_nat limit) (sort_by suspect_order (List.filter (fun s => bs_queries s <=? max_queries) counted)).

Record KnownDevice : Type := mk_known {
  kd_mac : string; kd_ip : option string; kd_hostname : option string; kd_vendor : option string;
  kd_randomized : bool }.
Definition known_devices (db : Db) : list KnownDevice :=
  map (fun d => mk_known (dr_mac d) (dr_ip d) (dr_hostname d) (dr_vendor d) (dr_randomized d)) (t_devices db).

Record Summary : Type := mk_summary {
  total_24h : Z; blocked_24h : Z; block_percent : F64; cached_24h : Z; clients_24h : Z; unique_domains_24h : Z;
  total_1h : Z; queries_per_min : F64; avg_upstream_ms : option F64;
  device_count : Z; devices_active_24h : Z }.
Definition percent (part whole : Z) : F64 :=
  if 0 <? whole then f_div (f_mul (of_int part) (of_int 100)) (of_int whole) else f_zero.
(** SQL's [AVG] over the values that are not NULL: NULL when there is none. *)
Definition sql_avg (l : list (option Z)) : option F64 :=
  match omap id l with
  | [] => None
  | v => Some (f_div (of_int (fold_left Z.add v 0)) (of_int (Z.of_nat (length v))))
  end.
Definition count_distinct (l : list string) : Z := Z.of_nat (length (remove_dups l)).
Definition summary (now : Z) (db : Db) : Summary :=
  let day := now - 86400 in
  let hour := now - 3600 in
  let rows := List.filter (since day) (t_queries db) in
  let total := Z.of_nat (length rows) in
  let blocked := count_where (is_status Blocked) rows in
  let total_1h := count_where (since hour) (t_queries db) in
  mk_summary total blocked (percent blocked total) (count_where (is_status Cached) rows)
    (count_distinct (map (fun q => ev_client_ip (q_event q)) rows))
    (count_distinct (map (fun q => ev_domain (q_event q)) rows))
    total_1h (f_div (of_int total_1h) (of_int 60)) (sql_avg (map (fun q => ev_elapsed_ms (q_event q)) rows))
    (Z.of_nat (length (t_devices db)))
    (Z.of_nat (length (List.filter (fun d => day <=? dr_last_seen d) (t_devices db)))).

(** The dashboard's chart: [(ts / b) * b] with SQL's truncating division. *)
Record Bucket : Type := mk_bucket { bk_ts : Z; bk_allowed : Z; bk_blocked : Z }.
Definition bucket_of (b ts : Z) : Z := Z.quot ts b * b.
Definition timeseries (now hours bucket_secs : Z) (db : Db) : list Bucket :=
  let b := Z.max bucket_secs 60 in
  let rows := List.filter (since (window_start now hours 3600)) (t_queries db) in
  let buckets := sort_by Z.leb (remove_dups (map (fun q => bucket_of b (ev_ts (q_event q))) rows)) in
  map (fun t =>
    let mine := List.filter (fun q => bucket_of b (ev_ts (q_event q)) =? t) rows in
    mk_bucket t (count_where (fun q => negb (is_status Blocked q)) mine) (count_where (is_status Blocked) mine))
    buckets.

Definition alert_order (a b : AlertRec) : bool :=
  (a_ts b <? a_ts a) || ((a_ts a =? a_ts b) && (a_id b <=? a_id a)).
Definition alerts_query (limit : Z) (db : Db) : list AlertRec :=
  take (Z.to_nat limit) (sort_by alert_order (t_alerts db)).

Definition iface_series (now minutes : Z) (db : Db) : list IfaceSample :=
  sort_by (fun a b => if_ts a <=? if_ts b)
    (List.filter (fun s => window_start now minutes 60 <=? if_ts s) (t_iface db)).

(* ------------------------------------------------------------------ *)
(** ** Lemmas: devices *)

Definition macs (l : list DeviceRec) : list string := map dr_mac l.
Definition find_device (mac : string) (l : list DeviceRec) : option DeviceRec :=
  List.find (fun d => (dr_mac d =? mac)%string) l.

(** One row per MAC, one device per address. *)
Record devices_ok (l : list DeviceRec) : Prop := mk_devices_ok {
  do_macs : NoDup (macs l);
  do_ips : forall d1 d2 ip, d1 ∈ l -> d2 ∈ l -> dr_ip d1 = Some ip -> dr_ip d2 = Some ip -> dr_mac d1 = dr_mac d2 }.

Lemma release_ip_mac ip mac d : dr_mac (release_ip ip mac d) = dr_mac d.
Proof. unfold release_ip. by case_match. Qed.

Lemma macs_release ip mac l : macs (map (release_ip ip mac) l) = macs l.
Proof. unfold macs. rewrite map_map. apply map_ext. intros. apply release_ip_mac. Qed.

Lemma macs_upsert mac ip h v r ts l :
  macs (upsert_device mac ip h v r ts l) = (if decide (mac ∈ macs l) then macs l else macs l ++ [mac]).
Proof.
  unfold macs. induction l as [|d l IH]; [done|]. cbn [upsert_device map].
  destruct (String.eqb_spec (dr_mac d) mac) as [<-|Hne].
  - rewrite decide_True by set_solver. done.
  - cbn [map]. rewrite IH. destruct (decide (mac ∈ map dr_mac l)).
    + by rewrite decide_True by set_solver.
    + by rewrite decide_False by (apply not_elem_of_cons; auto).
Qed.

(** A row after the upsert: the one written, or an old one of another MAC. *)
Lemma upsert_elem mac ip h v r ts l d :
  NoDup (macs l) -> d ∈ upsert_device mac ip h v r ts l ->
  (dr_mac d <> mac /\ d ∈ l) \/
  (exists d0, d0 ∈ l /\ dr_mac d0 = mac /\ d = update_device mac ip h v r ts d0) \/
  ((mac ∉ macs l) /\ d = mk_device mac ip h v r ts ts).
Proof.
  unfold macs. induction l as [|x l IH]; cbn [upsert_device map].
  { intros _ ->%list_elem_of_singleton. right. right. split; [apply not_elem_of_nil|done]. }
  intros [Hx Hnd]%NoDup_cons. destruct (String.eqb_spec (dr_mac x) mac) as [<-|Hne].
  - intros [->|Hd]%elem_of_cons; [right; left; exists x; set_solver|].
    left. split; [|set_solver]. intros E. apply Hx. rewrite <-E. by apply list_elem_of_fmap_2.
  - intros [->|Hd]%elem_of_cons; [left; set_solver|].
    destruct (IH Hnd Hd) as [[??]|[(d0 & ? & ? & ?)|[? ?]]].
    + left. set_solver.
    + right. left. exists d0. set_solver.
    + right. right. split; [|done]. apply not_elem_of_cons. auto.
Qed.

Definition released (ip : option string) (mac : string) (l : list DeviceRec) : list DeviceRec :=
  match ip with Some ip => map (release_ip ip mac) l | None => l end.

Lemma macs_released ip mac l : macs (released ip mac l) = macs l.
Proof. destruct ip; [apply macs_release|done]. Qed.

Lemma released_elem ip mac l d :
  d ∈ released ip mac l ->
  exists d0, d0 ∈ l /\ dr_mac d = dr_mac d0 /\ (dr_ip d = dr_ip d0 \/ dr_ip d = None) /\
    (is_Some ip -> dr_ip d = ip -> dr_mac d = mac).
Proof.
  destruct ip as [ip|]; simpl.
  - intros (d0 & -> & Hd0)%list_elem_of_fmap. exists d0. split; [done|].
    split; [apply release_ip_mac|]. unfold release_ip.
    destruct (bool_decide (dr_ip d0 = Some ip)) eqn:E; cbn [andb].
    + destruct (String.eqb_spec (dr_mac d0) mac); simpl; (split; [auto|]); by intros _ ?.
    + bools. split; [auto|]. by intros _ ?.
  - intros Hd. exists d. split; [done|]. split; [done|]. split; [auto|]. by intros [].
Qed.

Lemma op_device_ok mac ip h v r ts l :
  devices_ok l -> devices_ok (upsert_device mac ip h v r ts (released ip mac l)).
Proof.
  intros [Hm Hi]. assert (NoDup (macs (released ip mac l))) as Hm' by by rewrite macs_released.
  split.
  - rewrite macs_upsert, macs_released. case_decide; [done|].
    apply NoDup_app. split; [done|]. split; [|apply NoDup_singleton]. set_solver.
  - (* whoever holds an address after the write held it before, or was just written *)
    assert (forall d i, d ∈ upsert_device mac ip h v r ts (released ip mac l) -> dr_ip d = Some i ->
      (dr_mac d = mac /\ ip = Some i) \/
      ((ip = Some i -> dr_mac d = mac) /\ exists d0, d0 ∈ l /\ dr_mac d0 = dr_mac d /\ dr_ip d0 = Some i)) as Hheld.
    { intros d i Hd Hip. apply upsert_elem in Hd as [[Hne Hd]|[(d1 & Hd1 & Hmac & ->)|[_ ->]]]; [..|done].
      - apply released_elem in Hd as (d0 & Hd0 & Hmac & [Hs|Hs] & Hrel); [|congruence].
        right. split; [intros ->; apply Hrel; [by eexists|done]|]. exists d0. split; [done|]. split; congruence.
      - simpl in *. destruct ip as [ip|]; simpl in Hip; [left; by simplify_eq|].
        apply released_elem in Hd1 as (d0 & Hd0 & Hm0 & [Hs|Hs] & _); [|congruence].
        right. split; [done|]. exists d0. split; [done|]. split; congruence.
      - left. by split. }
    intros d1 d2 i H1 H2 E1 E2.
    destruct (Hheld d1 i H1 E1) as [[Hd1 Hs1]|[Hr1 (x1 & Hx1 & Hm1 & Hi1)]];
      destruct (Hheld d2 i H2 E2) as [[Hd2 Hs2]|[Hr2 (x2 & Hx2 & Hm2 & Hi2)]].
    + congruence.
    + rewrite (Hr2 Hs1). exact Hd1.
    + rewrite (Hr1 Hs2). by symmetry.
    + rewrite <-Hm1, <-Hm2. by eapply Hi.
Qed.

Lemma apply_op_devices_ok db op : devices_ok (t_devices db) -> devices_ok (t_devices (apply_op db op)).
Proof. destruct op; try done. apply op_device_ok. Qed.

Lemma flush_devices_ok c ops db : devices_ok (t_devices db) -> devices_ok (t_devices (flush c ops db)).
Proof.
  unfold flush. destruct c; [|done]. intros Hd.
  by apply (fold_left_inv (fun db => devices_ok (t_devices db))); [|intros; apply apply_op_devices_ok].
Qed.

Lemma devices_at_short db ip :
  devices_ok (t_devices db) -> (length (devices_at db ip) <= 1)%nat.
Proof.
  unfold devices_at. intros [Hm Hi]. revert Hm Hi. unfold macs.
  induction (t_devices db) as [|d l IH]; simpl; [lia|]. intros [Hd Hnd]%NoDup_cons Hi.
  destruct (bool_decide (dr_ip d = Some ip)) eqn:E; simpl; [|apply IH; [done|]; intros; eapply Hi; [..|done]; set_solver].
  bools. assert (List.filter (fun d0 => bool_decide (dr_ip d0 = Some ip)) l = []) as ->; [|done].
  destruct (List.filter _ l) as [|x r] eqn:Ef; [done|]. exfalso.
  assert (In x (List.filter (fun d0 => bool_decide (dr_ip d0 = Some ip)) l)) as Hx by (rewrite Ef; by left).
  apply filter_In in Hx as [Hx%list_elem_of_In Hxi%bool_decide_eq_true]. apply Hd.
  rewrite (Hi d x ip) by set_solver. by apply list_elem_of_fmap_2.
Qed.

Lemma left_join_one db q : devices_ok (t_devices db) -> exists d, left_join db q = [(q, d)].
Proof.
  intros Hd. unfold left_join. pose proof (devices_at_short db (ev_client_ip (q_event q)) Hd) as Hs.
  destruct (devices_at _ _) as [|d [|d' l]]; [by eexists|by eexists|simpl in Hs; lia].
Qed.

Lemma join_queries db l :
  devices_ok (t_devices db) -> map fst (flat_map (left_join db) l) = l.
Proof.
  intros Hd. induction l as [|q l IH]; [done|]. simpl.
  destruct (left_join_one db q Hd) as [d ->]. simpl. by rewrite IH.
Qed.

(* ------------------------------------------------------------------ *)
(** ** Lemmas: the queue *)

(** The counter an operation is accounted in. *)
Definition op_kind (op : WriteOp) : nat :=
  match op with
  | OpQuery _ => 0 | OpDevice _ _ _ _ _ _ => 1 | OpIface _ | OpLatency _ _ _ => 2 | OpAlert _ _ _ _ _ _ => 3
  end.
Definition drop_count (k : nat) (d : DropCounts) : Z :=
  match k with O => d_queries d | 1%nat => d_devices d | 2%nat => d_monitoring d | _ => d_alerts d end.
Definition of_kind (k : nat) (l : list WriteOp) : Z :=
  Z.of_nat (length (List.filter (fun op => (op_kind op =? k)%nat) l)).

Lemma count_drop_kind k op d :
  (k < 4)%nat -> drop_count k (count_drop op d)
    = (if (op_kind op =? k)%nat then wrap 64 (drop_count k d + 1) else drop_count k d).
Proof. intros Hk. destruct op, k as [|[|[|[|k]]]]; try done; lia. Qed.

Lemma of_kind_app k l1 l2 : of_kind k (l1 ++ l2) = of_kind k l1 + of_kind k l2.
Proof. unfold of_kind. rewrite List.filter_app, length_app. lia. Qed.
Lemma of_kind_nonneg k l : 0 <= of_kind k l.
Proof. unfold of_kind. lia. Qed.
Lemma of_kind_cons k op l : of_kind k (op :: l) = (if (op_kind op =? k)%nat then 1 else 0) + of_kind k l.
Proof. unfold of_kind. simpl. case_match; simpl; lia. Qed.

Lemma send_backlog op w :
  backlog (send op w) =
    backlog w ++ (if w_open w && (Z.of_nat (length (w_queue w)) <? CHANNEL) then [op] else []).
Proof.
  unfold backlog, send. case_match; cbn [w_queue w_pending]; [by rewrite <-app_assoc|by rewrite app_nil_r].
Qed.

(** What a receive keeps, a round keeps. *)
Lemma gathered_inv (P : Writer -> Prop) r w : (forall v, P v -> P (receive v)) -> P w -> P (gathered r w).
Proof.
  intros Hr Hw. unfold gathered. assert (P (gather_first w)) as Hf by (unfold gather_first; case_match; auto).
  induction (rd_size r) as [|n IH]; [done|]. by apply Hr.
Qed.

(** Receiving moves operations and loses none. *)
Lemma receive_backlog w : backlog (receive w) = backlog w.
Proof.
  unfold backlog, receive. destruct (w_queue w) as [|op l] eqn:E; [by rewrite E|].
  case_match; cbn [w_queue w_pending]; [by rewrite <-app_assoc|by rewrite E].
Qed.
Lemma receive_dropped w : w_dropped (receive w) = w_dropped w.
Proof. unfold receive. by repeat case_match. Qed.
Lemma receive_bounds w : (length (w_pending w) <= BATCH)%nat ->
  (length (w_pending (receive w)) <= BATCH)%nat /\ (length (w_queue (receive w)) <= length (w_queue w))%nat.
Proof.
  unfold receive. destruct (w_queue w) as [|op l] eqn:E; [by rewrite E|].
  destruct (Nat.ltb_spec (length (w_pending w)) BATCH); cbn [w_queue w_pending]; [|by rewrite E].
  rewrite length_app. simpl. lia.
Qed.
Lemma gathered_backlog r w : backlog (gathered r w) = backlog w.
Proof. apply (gathered_inv (fun v => backlog v = backlog w)); [|done]. intros v <-. apply receive_backlog. Qed.
Lemma gathered_dropped r w : w_dropped (gathered r w) = w_dropped w.
Proof. apply (gathered_inv (fun v => w_dropped v = w_dropped w)); [|done]. intros v <-. apply receive_dropped. Qed.
Lemma gathered_bounds r w : (length (w_pending w) <= BATCH)%nat ->
  (length (w_pending (gathered r w)) <= BATCH)%nat /\ (length (w_queue (gathered r w)) <= length (w_queue w))%nat.
Proof.
  intros Hw. apply (gathered_inv (fun v => (length (w_pending v) <= BATCH)%nat /\ (length (w_queue v) <= length (w_queue w))%nat));
    [|done]. intros v [H1 H2]. destruct (receive_bounds v H1). lia.
Qed.

(** A round begins with the oldest operation there is. *)
Lemma gathered_some r w : backlog w <> [] -> w_pending (gathered r w) <> [].
Proof.
  intros Hw. unfold gathered. assert (w_pending (gather_first w) <> []) as Hf.
  { unfold gather_first, receive, backlog in *. destruct (w_pending w) eqn:E; [|congruence].
    destruct (w_queue w) as [|op l]; [done|]. discriminate. }
  induction (rd_size r) as [|n IH]; [done|]. simpl. unfold receive at 1.
  repeat case_match; try done. cbn [w_pending]. intros [_ Hn]%app_nil. discriminate.
Qed.

(** What a round does: it takes the front of the backlog, nothing only if
    there is nothing, and writes it. *)
Lemma writer_round_spec retention r w db :
  let batch := w_pending (gathered r w) in let rest := w_queue (gathered r w) in
  backlog w = batch ++ rest /\
  backlog (fst (writer_round retention r w db)) = rest /\
  w_dropped (fst (writer_round retention r w db)) = w_dropped w /\
  snd (writer_round retention r w db) = match batch with [] => db | _ => written_batch retention r batch db end.
Proof.
  intros batch rest. split; [by rewrite <-(gathered_backlog r)|]. unfold writer_round. fold batch.
  rewrite <-(gathered_dropped r w). destruct batch as [|op l] eqn:E; [|done].
  unfold backlog. cbn [fst]. fold batch. by rewrite E.
Qed.

(** What every statement of a prune keeps, a prune keeps. *)
Lemma prune_inv (P : Db -> Prop) p days db :
  (forall c db, P db -> P (delete_queries c db)) -> (forall c db, P db -> P (delete_iface c db)) ->
  (forall c db, P db -> P (delete_latency c db)) -> (forall c db, P db -> P (delete_alerts c db)) ->
  P db -> P (prune p days db).
Proof.
  intros Hq Hi Hl Ha Hdb. unfold prune. destruct (pr_done p) as [|[|[|[|n]]]]; simpl; rewrite ?take_nil; simpl; eauto.
Qed.

(** FIFO: rounds that commit apply the oldest operations first. *)
Definition run_rounds (retention : Z) (rs : list Round) (w : Writer) (db : Db) : Writer * Db :=
  fold_left (fun s r => writer_round retention r (fst s) (snd s)) rs (w, db).

(* ------------------------------------------------------------------ *)
(** ** Properties *)

(** What can happen to the tables. *)
Inductive db_step : Db -> Db -> Prop :=
  | step_flush commits ops db : db_step db (flush commits ops db)
  | step_prune p days db : db_step db (prune p days db).

Lemma db_reachable_ok db : rtc db_step empty_db db -> devices_ok (t_devices db).
Proof.
  assert (forall a b, rtc db_step a b -> devices_ok (t_devices a) -> devices_ok (t_devices b)) as Hr.
  { induction 1 as [|a b c Hs _ IH]; [done|]. intros Ha. apply IH.
    destruct Hs; [by apply flush_devices_ok|by apply (prune_inv (fun db => devices_ok (t_devices db)))]. }
  intros Hdb. apply (Hr _ _ Hdb). split; [constructor|]. by intros ? ? ? ?%elem_of_nil.
Qed.

(** However MACs rotate and leases move, each device has one row and each
    address at most one device, so joining the query log with the devices
    yields exactly one row per query: no query is lost or shown twice. *)
Theorem one_device_per_ip db f sql_like :
  rtc db_step empty_db db ->
  devices_ok (t_devices db) /\
  map fst (joined_queries sql_like db f) ≡ₚ List.filter (matches_filter sql_like f) (t_queries db).
Proof.
  intros Hd%db_reachable_ok. split; [done|]. unfold joined_queries. rewrite sort_by_perm. by rewrite join_queries.
Qed.

Definition w_ops : list WriteOp := [
  OpDevice "aa:aa:aa:aa:aa:aa" (Some "192.168.1.5") (Some "phone") None true 10;
  OpDevice "bb:bb:bb:bb:bb:bb" (Some "192.168.1.5") None None true 20;
  OpQuery (mk_event 21 "192.168.1.5" "example.com" "A" Forwarded (Some 5) None None)].
Definition w_filter : QueryFilter := mk_filter 100 0 None None None.
Definition w_like (p s : string) : bool := true.

Lemma one_device_per_ip_witness :
  let db := flush true w_ops empty_db in
  devices_ok (t_devices db) /\
  map fst (joined_queries w_like db w_filter) ≡ₚ List.filter (matches_filter w_like w_filter) (t_queries db).
Proof. apply (one_device_per_ip _ w_filter w_like). apply rtc_once, step_flush. Defined.

Lemma find_device_elem mac l d : find_device mac l = Some d -> d ∈ l /\ dr_mac d = mac.
Proof. intros [Hd E%String.eqb_eq]%find_some. split; [by apply list_elem_of_In|done]. Qed.

Lemma find_released ip mac m l :
  find_device m (released ip mac l) = option_map (fun d => match ip with Some i => release_ip i mac d | None => d end) (find_device m l).
Proof.
  destruct ip as [i|]; simpl; [|by destruct (find_device m l)].
  unfold find_device. induction l as [|d l IH]; [done|]. simpl. rewrite release_ip_mac. by case_match.
Qed.

Lemma find_upsert mac ip h v r ts l m :
  find_device m (upsert_device mac ip h v r ts l) =
  if (m =? mac)%string then
    Some (match find_device mac l with Some d => update_device mac ip h v r ts d
                                     | None => mk_device mac ip h v r ts ts end)
  else find_device m l.
Proof.
  unfold find_device. induction l as [|d l IH]; simpl.
  { rewrite String.eqb_sym. by case_match. }
  destruct (String.eqb_spec (dr_mac d) mac) as [<-|Hne]; simpl.
  - destruct (String.eqb_spec (dr_mac d) m) as [<-|Hm]; [by rewrite !String.eqb_refl|].
    by rewrite (proj2 (String.eqb_neq m (dr_mac d))) by auto.
  - rewrite IH. destruct (String.eqb_spec (dr_mac d) m) as [<-|]; [|done].
    by apply String.eqb_neq in Hne as ->.
Qed.

(** Writing a sighting: the device's row carries the new time, keeps its
    first sighting and every name, vendor or address the sighting does not
    mention, and takes the address it does; every other device keeps its row,
    except that the address moves away from its previous holder. *)
Theorem device_write_spec db mac ip h v r ts :
  let old := find_device mac (t_devices db) in
  let db' := apply_op db (OpDevice mac ip h v r ts) in
  (exists d, find_device mac (t_devices db') = Some d /\
     dr_last_seen d = ts /\ dr_randomized d = r /\
     dr_first_seen d = match old with Some o => dr_first_seen o | None => ts end /\
     dr_ip d = coalesce ip (old ≫= dr_ip) /\
     dr_hostname d = coalesce h (old ≫= dr_hostname) /\
     dr_vendor d = coalesce v (old ≫= dr_vendor)) /\
  (forall m, m <> mac ->
     match find_device m (t_devices db), find_device m (t_devices db') with
     | Some o, Some n =>
         if decide (is_Some ip /\ dr_ip o = ip)
         then n = mk_device (dr_mac o) None (dr_hostname o) (dr_vendor o) (dr_randomized o) (dr_first_seen o) (dr_last_seen o)
         else n = o
     | None, None => True
     | _, _ => False
     end) /\
  t_queries db' = t_queries db.
Proof.
  intros old db'.
  assert (t_devices db' = upsert_device mac ip h v r ts (released ip mac (t_devices db))) as -> by done.
  split; [|split; [|done]].
  - rewrite find_upsert, String.eqb_refl, find_released. fold old. eexists. split; [done|].
    destruct old as [o|] eqn:Ho; simpl; [|by destruct ip, h, v].
    apply find_device_elem in Ho as [_ Hm].
    destruct ip as [i|]; simpl; [|done]. unfold release_ip. rewrite Hm, String.eqb_refl, andb_false_r. done.
  - intros m Hm. rewrite find_upsert. apply String.eqb_neq in Hm as Hm'. rewrite Hm', find_released.
    destruct (find_device m (t_devices db)) as [o|] eqn:Ho; cbn [option_map]; [|done].
    apply find_device_elem in Ho as [_ Hom].
    destruct ip as [i|].
    + unfold release_ip. rewrite Hom, Hm', andb_true_r. case_bool_decide.
      * by rewrite decide_True by (split; [by eexists|done]).
      * by rewrite decide_False by (intros [_ ?]; done).
    + rewrite decide_False; [done|]. by intros [[? ?] _].
Qed.

(** The write queue never blocks and never grows past its bound, and what
    is lost is counted: for each kind of record, the operations queued plus
    the operations counted as dropped are the operations sent, in order. *)
Theorem send_accounting ops w k :
  (k < 4)%nat -> Z.of_nat (length (w_queue w)) <= CHANNEL ->
  0 <= drop_count k (w_dropped w) -> drop_count k (w_dropped w) + of_kind k ops < 2 ^ 64 ->
  let w' := send_all ops w in
  Z.of_nat (length (w_queue w')) <= CHANNEL /\
  (exists kept, w_queue w' = w_queue w ++ kept /\ kept `sublist_of` ops) /\
  of_kind k (w_queue w') + drop_count k (w_dropped w')
    = of_kind k (w_queue w) + drop_count k (w_dropped w) + of_kind k ops.
Proof.
  intros Hk. revert w. induction ops as [|op ops IH]; intros w Hq H0 Hd; simpl.
  { split; [done|]. split; [exists []; by rewrite app_nil_r|]. change (of_kind k []) with 0. lia. }
  rewrite of_kind_cons in *. pose proof (of_kind_nonneg k ops). unfold send.
  destruct (w_open w && (Z.of_nat (length (w_queue w)) <? CHANNEL)) eqn:E.
  - bools. destruct (IH (mk_writer (w_queue w ++ [op]) (w_open w) (w_dropped w) (w_pending w))) as (Hl & (kept & Hkq & Hs) & Ha).
    { simpl. rewrite length_app. simpl. lia. }
    { done. }
    { simpl. case_match; lia. }
    split; [done|]. simpl in Hkq, Ha. split.
    + exists (op :: kept). split; [by rewrite Hkq, <-app_assoc|]. by constructor.
    + fold (send_all ops) in *. simpl. rewrite Ha, of_kind_app, of_kind_cons. unfold of_kind at 2. simpl. lia.
  - destruct (IH (mk_writer (w_queue w) (w_open w) (count_drop op (w_dropped w)) (w_pending w))) as (Hl & (kept & Hkq & Hs) & Ha).
    { done. }
    { simpl. rewrite count_drop_kind by done. case_match; [apply Z.mod_pos_bound; lia|done]. }
    { simpl. rewrite count_drop_kind by done. case_match; [|lia].
      rewrite wrap_small by (unfold in_width; lia). lia. }
    split; [done|]. simpl in Hkq, Ha. split; [exists kept; split; [done|by constructor]|].
    simpl. rewrite Ha, count_drop_kind by done. case_match; [|lia].
    rewrite wrap_small by (unfold in_width; lia). lia.
Qed.

Lemma send_accounting_witness :
  let w' := send_all w_ops new_writer in
  Z.of_nat (length (w_queue w')) <= CHANNEL /\
  (exists kept, w_queue w' = w_queue new_writer ++ kept /\ kept `sublist_of` w_ops) /\
  of_kind 0 (w_queue w') + drop_count 0 (w_dropped w')
    = of_kind 0 (w_queue new_writer) + drop_count 0 (w_dropped new_writer) + of_kind 0 w_ops.
Proof. apply (send_accounting w_ops new_writer 0); [lia|by vm_compute..]. Defined.

(** The writer makes progress in order: each round applies at least the
    oldest waiting operation and at most a batch, and when its commits succeed
    the tables are those of the operations taken, in the order sent. *)
Theorem writer_fifo retention rs w db :
  (length (w_pending w) <= BATCH)%nat ->
  Forall (fun r => rd_commits r = true /\ rd_prune r = None) rs ->
  exists n, (Nat.min (length rs) (length (backlog w)) <= n <= length rs * BATCH)%nat /\
    backlog (fst (run_rounds retention rs w db)) = drop n (backlog w) /\
    snd (run_rounds retention rs w db) = fold_left apply_op (take n (backlog w)) db.
Proof.
  intros Hb Hrs. revert w db Hb. induction Hrs as [|r rs [Hc Hp] _ IH]; intros w db Hb.
  { exists 0%nat. split; [simpl; lia|]. by rewrite drop_0. }
  assert (run_rounds retention (r :: rs) w db =
    run_rounds retention rs (fst (writer_round retention r w db)) (snd (writer_round retention r w db))) as ->
    by (unfold run_rounds; simpl; by destruct (writer_round retention r w db)).
  destruct (writer_round_spec retention r w db) as (Happ & Hrest & _ & ->).
  set (w' := fst (writer_round retention r w db)) in *.
  set (batch := w_pending (gathered r w)) in *. set (rest := w_queue (gathered r w)) in *.
  assert (length (w_pending w') <= BATCH)%nat as Hb'.
  { subst w'. unfold writer_round. case_match eqn:E; cbn [fst w_pending length]; [rewrite E; simpl|]; lia. }
  assert (length batch <= BATCH)%nat as Hlen by by apply gathered_bounds.
  destruct (IH w' (match batch with [] => db | _ => written_batch retention r batch db end) Hb') as (n & Hn & Hq & Hdb).
  exists (length batch + n)%nat. rewrite Hrest in *. rewrite Happ, length_app. cbn [length]. rewrite Nat.mul_succ_l.
  split; [|split].
  - assert (backlog w <> [] -> batch <> []) as Hsome by apply gathered_some.
    rewrite Happ in Hsome. destruct batch, rest; simpl in *; [lia|by destruct Hsome|lia..].
  - by rewrite Hq, drop_app_add.
  - rewrite Hdb, take_app_add, fold_left_app. f_equal. unfold written_batch, flush. rewrite Hc, Hp. by destruct batch.
Qed.

Lemma writer_fifo_witness :
  let rs := [mk_round 0 true None; mk_round 2 true None] in
  exists n, (Nat.min 2 3 <= n <= 2 * BATCH)%nat /\
    backlog (fst (run_rounds 14 rs (send_all w_ops new_writer) empty_db)) = drop n (backlog (send_all w_ops new_writer)) /\
    snd (run_rounds 14 rs (send_all w_ops new_writer) empty_db)
      = fold_left apply_op (take n (backlog (send_all w_ops new_writer))) empty_db.
Proof.
  apply (writer_fifo 14 [mk_round 0 true None; mk_round 2 true None] (send_all w_ops new_writer) empty_db).
  - vm_compute. lia.
  - by repeat constructor.
Defined.

(** GROUP BY yields each group once. *)
Definition groups (group_order : list string -> list string) : Prop :=
  forall l, NoDup (group_order l) /\ forall x, x ∈ group_order l <-> x ∈ l.

(** The NXDOMAIN scan reports exactly the clients at or over the
    threshold within the window, each once with its count, worst first. *)
Theorem nxdomain_offenders_spec group_order now window threshold db :
  groups group_order ->
  let hits ip := count_where (fun q => (ev_client_ip (q_event q) =? ip)%string)
    (List.filter (fun q => since (now - window * 60) q && is_status NxDomain q) (t_queries db)) in
  let found := nxdomain_offenders group_order now window threshold db in
  NoDup (map fst found) /\
  StronglySorted (fun a b => snd b <= snd a) found /\
  forall ip n, (ip, n) ∈ found <-> n = hits ip /\ 1 <= n /\ threshold <= n.
Proof.
  intros Hg hits found. subst found. unfold nxdomain_offenders, by_count_desc, group_counts.
  set (rows := List.filter _ (t_queries db)) in *. destruct (Hg (map (fun q => ev_client_ip (q_event q)) rows)) as [Hnd Hin].
  split; [|split].
  - rewrite sort_by_perm. clear Hin. induction (group_order _) as [|k l IH]; [constructor|].
    apply NoDup_cons in Hnd as [Hk Hnd]. simpl. case_match; simpl; [|by apply IH].
    apply NoDup_cons. split; [|by apply IH]. intros ((k', n) & -> & Hx)%list_elem_of_fmap.
    apply list_elem_of_In, filter_In in Hx as [Hx _]. apply in_map_iff in Hx as (k2 & [= <- <-] & Hx).
    apply Hk. by apply list_elem_of_In.
  - apply (by_key_sorted snd).
  - intros ip n. rewrite sort_by_perm, list_elem_of_In, filter_In, in_map_iff. simpl. rewrite Z.leb_le. split.
    + intros [(k & [= <- <-] & Hk) Ht]. split; [done|]. split; [|done].
      apply list_elem_of_In, Hin, list_elem_of_fmap in Hk as (q & -> & Hq).
      unfold count_where. apply list_elem_of_In in Hq.
      assert (In q (List.filter (fun q0 => (ev_client_ip (q_event q0) =? ev_client_ip (q_event q))%string) rows)) as Hf.
      { apply filter_In. split; [done|apply String.eqb_refl]. }
      destruct (List.filter _ rows); [done|]. simpl. lia.
    + intros (-> & H1 & Ht). split; [|done]. exists ip. split; [done|].
      apply list_elem_of_In, Hin. unfold hits, count_where in H1.
      destruct (List.filter (fun q => (ev_client_ip (q_event q) =? ip)%string) rows) as [|q l] eqn:E; [simpl in H1; lia|].
      assert (In q (q :: l)) as Hq by by left. rewrite <-E in Hq. apply filter_In in Hq as [Hq He%String.eqb_eq].
      rewrite <-He. apply (list_elem_of_fmap_2 (fun q => ev_client_ip (q_event q))). by apply list_elem_of_In.
Qed.

Definition w_groups (l : list string) : list string := remove_dups l.
Lemma w_groups_ok : groups w_groups.
Proof. intros l. split; [apply NoDup_remove_dups|]. intros x. apply elem_of_remove_dups. Qed.

Lemma nxdomain_offenders_spec_witness :
  let hits ip := count_where (fun q => (ev_client_ip (q_event q) =? ip)%string)
    (List.filter (fun q => since (100 - 1 * 60) q && is_status NxDomain q) (t_queries (flush true w_ops empty_db))) in
  let found := nxdomain_offenders w_groups 100 1 1 (flush true w_ops empty_db) in
  NoDup (map fst found) /\
  StronglySorted (fun a b => snd b <= snd a) found /\
  forall ip n, (ip, n) ∈ found <-> n = hits ip /\ 1 <= n /\ 1 <= n.
Proof. apply (nxdomain_offenders_spec w_groups 100 1 1 (flush true w_ops empty_db)). apply w_groups_ok. Defined.
