(* ===== verification/WriterLoop.v ===== *)
(** * The writer thread in time (src/db.rs: [spawn_writer])

    [Db.v] has the queue and the round of the writer as steps on them.  Here
    is the thread itself: operations arrive at instants, the thread blocks
    for the first, drains the channel for a flush interval, flushes the batch
    in one transaction and, once an hour, prunes.  How long each round's
    database work takes, whether it commits and how a prune goes are
    arguments. *)
From S2P Require Import Prelude Str Db.
Open Scope Z_scope.

(** What the channel delivers, and when. *)
Definition Arrivals : Type := list (Instant * WriteOp).

(** The inner loop: [room] is what the batch still holds, [now] the clock.
    The channel is empty for ever ([[]]) when every sender is gone, which
    ends the drain at once, as a timeout does at the deadline. *)
Fixpoint drain (deadline now : Instant) (room : nat) (arrivals : Arrivals) : list WriteOp * Arrivals * Instant :=
  match room with
  | O => ([], arrivals, now)
  | S room =>
      let remaining := duration_since deadline now in
      if remaining =? 0 then ([], arrivals, now)
      else
        match arrivals with
        | [] => ([], [], now)
        | (t, op) :: rest =>
            if duration_since t now <=? remaining then
              let '(pending, waiting, now) := drain deadline (Z.max now t) room rest in (op :: pending, waiting, now)
            else ([], arrivals, deadline)
        end
  end.

(** One batch: when it was begun, what it held, when it was flushed. *)
Record Batch : Type := mk_batch { b_begun : Instant; b_ops : list WriteOp; b_flushed : Instant }.

Definition collect (flush_interval : Duration) (now : Instant) (first : Instant * WriteOp) (rest : Arrivals)
    : Batch * Arrivals :=
  let begun := Z.max now (fst first) in
  let '(pending, waiting, flushed) := drain (begun + flush_interval) begun (BATCH - 1) rest in
  (mk_batch begun (snd first :: pending) flushed, waiting).

(** The database work of one round: how long, whether it commits, and how a
    prune after it goes if one is due. *)
Record Work : Type := mk_work { wk_takes : Duration; wk_commits : bool; wk_prune : Pruning }.
Definition plain_work : Work := mk_work 0 true (mk_pruning 0 0 0 4).

Definition PRUNE_EVERY : Duration := from_secs 3600.

(** The thread, from one flush to the next: [None] is a run out of fuel. *)
Fixpoint writer_thread (fuel : nat) (flush_interval : Duration) (retention_days : Z) (work : list Work)
    (last_prune now : Instant) (arrivals : Arrivals) (db : Db) : option (list Batch * Db) :=
  match arrivals with
  | [] => Some ([], db)
  | first :: rest =>
      match fuel with
      | O => None
      | S fuel =>
          let '(b, waiting) := collect flush_interval now first rest in
          let w := default plain_work (head work) in
          let db := flush (wk_commits w) (b_ops b) db in
          let now := b_flushed b + wk_takes w in
          let due := PRUNE_EVERY <? duration_since now last_prune in
          let db := if due then prune (wk_prune w) retention_days db else db in
          let! (bs, db) := writer_thread fuel flush_interval retention_days (tail work)
                             (if due then now else last_prune) now waiting db in
          Some (b :: bs, db)
      end
  end.

(* ------------------------------------------------------------------ *)
(** ** Lemmas *)

Lemma drain_spec deadline now room arrivals :
  now <= deadline ->
  let '(pending, waiting, at_) := drain deadline now room arrivals in
  pending ++ map snd waiting = map snd arrivals /\ (length pending <= room)%nat /\
  (length waiting <= length arrivals)%nat /\ now <= at_ <= deadline.
Proof.
  revert now arrivals. induction room as [|room IH]; intros now arrivals Hn; cbn [drain].
  { split_and!; try done; simpl; lia. }
  destruct (duration_since deadline now =? 0); [split_and!; try done; simpl; lia|].
  destruct arrivals as [|[t op] rest]; [split_and!; try done; simpl; lia|].
  destruct (Z.leb_spec (duration_since t now) (duration_since deadline now)) as [Ht|Ht];
    [|split_and!; try done; simpl; lia].
  assert (Z.max now t <= deadline) as Hm by (unfold duration_since, saturating_sub in Ht; lia).
  specialize (IH (Z.max now t) rest Hm). destruct (drain deadline (Z.max now t) room rest) as [[p l] a].
  destruct IH as (H1 & H2 & H3 & H4). split_and!; simpl; try lia. by rewrite H1.
Qed.

Definition batch_ok (flush_interval : Duration) (b : Batch) : Prop :=
  (1 <= length (b_ops b) <= BATCH)%nat /\ b_begun b <= b_flushed b <= b_begun b + flush_interval.

Lemma collect_spec fi now first rest : 0 <= fi ->
  let '(b, waiting) := collect fi now first rest in
  b_ops b ++ map snd waiting = map snd (first :: rest) /\ batch_ok fi b /\ (length waiting <= length rest)%nat /\
  b_begun b = Z.max now (fst first).
Proof.
  intros Hfi. unfold collect.
  pose proof (drain_spec (Z.max now (fst first) + fi) (Z.max now (fst first)) (BATCH - 1) rest ltac:(lia)) as Hd.
  destruct (drain _ _ _ _) as [[p l] a]. destruct Hd as (H1 & H2 & H3 & H4).
  split_and!; simpl; try done; [by rewrite H1|]. split; [unfold BATCH in *; simpl; lia|simpl; lia].
Qed.

(** Each batch is begun when its first operation is there and the thread is
    free, after every earlier one was flushed. *)
Fixpoint in_order (free : Instant) (bs : list Batch) : Prop :=
  match bs with
  | [] => True
  | b :: r => free <= b_begun b /\ in_order (b_flushed b) r
  end.

Lemma in_order_weaken a b bs : b <= a -> in_order a bs -> in_order b bs.
Proof. destruct bs as [|x r]; [done|]. simpl. intros ? []. split; [lia|done]. Qed.

(* ------------------------------------------------------------------ *)
(** ** Properties *)

(** C38. The writer thread writes everything it is given, in order and in
    time: it works through any sequence of arrivals in as many rounds at
    most; the batches, put together, are the operations as they arrived;
    each holds between one and 512 of them and is flushed no later than the
    flush interval after it was begun, and no batch is begun before the
    previous one was flushed.  With no prune due and every transaction
    committed, the tables are those of all the operations. *)
Theorem writer_thread_delivers fi retention work last_prune now arrivals db :
  0 <= fi -> Forall (fun w => 0 <= wk_takes w) work ->
  exists bs db', writer_thread (length arrivals) fi retention work last_prune now arrivals db = Some (bs, db') /\
    concat (map b_ops bs) = map snd arrivals /\
    Forall (batch_ok fi) bs /\ in_order now bs /\
    (Forall (fun w => wk_commits w = true) work ->
     (forall b, b ∈ bs -> forall w, w ∈ plain_work :: work ->
        duration_since (b_flushed b + wk_takes w) last_prune <= PRUNE_EVERY) ->
     db' = fold_left apply_op (map snd arrivals) db).
Proof.
  intros Hfi. remember (length arrivals) as fuel eqn:Hf. assert (length arrivals <= fuel)%nat as Hle by lia. clear Hf.
  revert work last_prune now arrivals db Hle. induction fuel as [|fuel IH]; intros work lp now arrivals db Hle Hw.
  { destruct arrivals; [|simpl in Hle; lia]. exists [], db. by repeat constructor. }
  destruct arrivals as [|first rest]; [exists [], db; by repeat constructor|].
  simpl writer_thread. pose proof (collect_spec fi now first rest Hfi) as Hc.
  destruct (collect fi now first rest) as [b waiting]. destruct Hc as (Happ & Hb & Hlen & Hbegun).
  set (w := default plain_work (head work)). set (now' := b_flushed b + wk_takes w).
  set (due := PRUNE_EVERY <? duration_since now' lp).
  assert (0 <= wk_takes w) as Hwt by (subst w; destruct Hw; simpl; lia || done).
  assert (Forall (fun w => 0 <= wk_takes w) (tail work)) as Hw' by (by destruct Hw).
  set (db1 := flush (wk_commits w) (b_ops b) db).
  destruct (IH (tail work) (if due then now' else lp) now' waiting (if due then prune (wk_prune w) retention db1 else db1))
    as (bs & db' & -> & H1 & H2 & H3 & H4); [simpl in Hle; lia|done|].
  exists (b :: bs), db'. split; [done|]. split; [simpl; by rewrite H1|]. split; [by constructor|]. split.
  - split; [lia|]. apply (in_order_weaken now'); [lia|done].
  - intros Hcommit Hprune.
    assert (w ∈ plain_work :: work) as Hin by (subst w; destruct work; simpl; [left|right; left]).
    assert (due = false) as Hdue by (apply Z.ltb_ge, (Hprune b ltac:(left) w Hin)).
    assert (wk_commits w = true) as Hcw by (subst w; by destruct Hcommit). rewrite Hdue in H4.
    rewrite H4.
    + unfold db1, flush. rewrite Hcw, <- fold_left_app. by rewrite Happ.
    + by destruct Hcommit.
    + intros b' Hb' w' Hw2. apply (Hprune b' ltac:(by right)). apply elem_of_cons in Hw2 as [->|Hw2]; [left|].
      right. destruct work; [done|by right].
Qed.

(** Two operations within half a second share a transaction, the third,
    later one has its own. *)
Definition w_arrivals : Arrivals :=
  [(from_millis 100, OpLatency 0 "gateway" Float.f_zero); (from_millis 300, OpLatency 0 "upstream" Float.f_zero);
   (from_millis 900, OpLatency 1 "gateway" Float.f_zero)].

Lemma writer_thread_delivers_witness :
  writer_thread 3 (from_millis 500) 14 [] 0 0 w_arrivals empty_db
    = Some ([mk_batch (from_millis 100) (map snd (take 2 w_arrivals)) (from_millis 600);
             mk_batch (from_millis 900) (map snd (drop 2 w_arrivals)) (from_millis 900)],
            fold_left apply_op (map snd w_arrivals) empty_db) /\
  exists bs db', writer_thread 3 (from_millis 500) 14 [] 0 0 w_arrivals empty_db = Some (bs, db') /\
    concat (map b_ops bs) = map snd w_arrivals.
Proof.
  split; [reflexivity|].
  destruct (writer_thread_delivers (from_millis 500) 14 [] 0 0 w_arrivals empty_db ltac:(done) ltac:(constructor))
    as (bs & db' & H1 & H2 & _). by exists bs, db'.
Defined.
