(* ===== verification/Reports.v ===== *)
(** * What the dashboard reads (src/db.rs, the read side)

    The reports that join the query log with the devices: the busiest
    clients, the device list, the latest latency of each target.  The order
    of groups and the row SQL takes a bare column from belong to the engine
    and are arguments. *)
From S2P Require Import Prelude Str Float Db.
Open Scope Z_scope.

Record DeviceRow : Type := mk_device_row { dw_device : DeviceRec; queries_24h : Z; dw_blocked_24h : Z }.

Section Reports.
Context (group_order : list string -> list string).
(** The row of a group that a bare column is taken from. *)
Context (pick_joined : list (QueryRec * option DeviceRec) -> option (QueryRec * option DeviceRec)).
Context (pick_latency : list (Z * string * F64) -> option (Z * string * F64)).

Definition client_of (p : QueryRec * option DeviceRec) : string := ev_client_ip (q_event (fst p)).

(** COALESCE(d.hostname, d.vendor) *)
Definition display_name (d : DeviceRec) : option string := coalesce (dr_hostname d) (dr_vendor d).

(** The group of one client among the joined rows. *)
Definition client_group (rows : list (QueryRec * option DeviceRec)) (ip : string) : Counted :=
  let mine := List.filter (fun p => (client_of p =? ip)%string) rows in
  mk_counted ip (let! p := pick_joined mine in let! d := snd p in display_name d) (Z.of_nat (length mine)).

Definition top_clients (now hours limit : Z) (db : Db) : list Counted :=
  let from := window_start now hours 3600 in
  let rows := flat_map (left_join db) (List.filter (since from) (t_queries db)) in
  most_counted (Z.to_nat (clamp 1 200 limit)) (map (client_group rows) (group_order (map client_of rows))).

(** One device with the counts of the queries from its address. *)
Definition device_row (rows : list QueryRec) (d : DeviceRec) : DeviceRow :=
  let mine := List.filter (fun q => bool_decide (dr_ip d = Some (ev_client_ip (q_event q)))) rows in
  mk_device_row d (Z.of_nat (length mine)) (count_where (is_status Blocked) mine).

Definition devices (now : Z) (db : Db) : list DeviceRow :=
  let rows := List.filter (since (now - 86400)) (t_queries db) in
  sort_by (fun a b => dr_last_seen (dw_device b) <=? dr_last_seen (dw_device a)) (map (device_row rows) (t_devices db)).

Definition lat_ts (l : Z * string * F64) : Z := fst (fst l).
Definition lat_target (l : Z * string * F64) : string := snd (fst l).

(** The rows of a target whose time is the target's latest. *)
Definition latest_of (l : list (Z * string * F64)) (target : string) : list (Z * string * F64) :=
  List.filter (fun r => (lat_target r =? target)%string &&
    forallb (fun r' => negb (lat_target r' =? target)%string || (lat_ts r' <=? lat_ts r)) l) l.
Definition latest_latency (db : Db) : list (string * F64 * Z) :=
  omap (fun target => let! r := pick_latency (latest_of (t_latency db) target) in Some (lat_target r, snd r, lat_ts r))
    (group_order (map lat_target (t_latency db))).
End Reports.

Record IfaceRow : Type := mk_iface_row { ir_ts : Z; ir_iface : string; ir_rx_bps : Z; ir_tx_bps : Z }.
Definition iface_rows (now minutes : Z) (db : Db) : list IfaceRow :=
  map (fun s => mk_iface_row (if_ts s) (if_iface s) (if_rx_bps s) (if_tx_bps s)) (iface_series now minutes db).

(* ------------------------------------------------------------------ *)
(** ** Lemmas *)

(** The engine takes a bare column from some row of the group. *)
Definition picks {A} (pick : list A -> option A) : Prop :=
  forall l, match pick l with Some x => x ∈ l | None => l = [] end.

Lemma client_of_join db q p : p ∈ left_join db q -> fst p = q.
Proof.
  unfold left_join. destruct (devices_at db _) as [|d l]; [by intros ->%list_elem_of_singleton|].
  rewrite list_elem_of_In, in_map_iff. by intros (d' & <- & _).
Qed.

Lemma join_count db rows ip : devices_ok (t_devices db) ->
  length (List.filter (fun p => (client_of p =? ip)%string) (flat_map (left_join db) rows))
  = length (List.filter (fun q => (ev_client_ip (q_event q) =? ip)%string) rows).
Proof.
  intros Hd. rewrite <- (join_queries db rows Hd) at 2.
  generalize (flat_map (left_join db) rows) as l. induction l as [|p l IH]; [done|]. simpl.
  unfold client_of at 1. destruct (_ =? ip)%string; simpl; by rewrite IH.
Qed.

(** Every joined row of a client carries the device at its address. *)
Lemma join_device db rows p : devices_ok (t_devices db) -> p ∈ flat_map (left_join db) rows ->
  snd p = head (devices_at db (client_of p)).
Proof.
  intros Hd. rewrite list_elem_of_In, in_flat_map. intros (q & _ & Hp%list_elem_of_In).
  pose proof (client_of_join db q p Hp) as <-. unfold client_of, left_join in *.
  pose proof (devices_at_short db (ev_client_ip (q_event (fst p))) Hd) as Hs.
  destruct (devices_at db _) as [|d [|d' l]]; simpl in *; [..|lia];
    apply list_elem_of_singleton in Hp; by rewrite Hp.
Qed.

Lemma sum_perm (l k : list Z) : l ≡ₚ k -> foldr Z.add 0 l = foldr Z.add 0 k.
Proof. induction 1; simpl; lia. Qed.

Lemma device_rows_nil devs : foldr Z.add 0 (map queries_24h (map (device_row []) devs)) = 0.
Proof. induction devs as [|d l IH]; [done|]. simpl in *. lia. Qed.

Lemma device_rows_cons q rows devs :
  foldr Z.add 0 (map queries_24h (map (device_row (q :: rows)) devs))
  = Z.of_nat (length (List.filter (fun d => bool_decide (dr_ip d = Some (ev_client_ip (q_event q)))) devs))
    + foldr Z.add 0 (map queries_24h (map (device_row rows) devs)).
Proof.
  induction devs as [|d l IH]; [done|]. simpl map. cbn [foldr]. rewrite IH.
  simpl. case_bool_decide; simpl length; lia.
Qed.

Lemma device_rows_total db rows : devices_ok (t_devices db) ->
  foldr Z.add 0 (map queries_24h (map (device_row rows) (t_devices db))) <= Z.of_nat (length rows).
Proof.
  intros Hd. induction rows as [|q rows IH]; [rewrite device_rows_nil; lia|].
  rewrite device_rows_cons. pose proof (devices_at_short db (ev_client_ip (q_event q)) Hd) as Hs.
  unfold devices_at in Hs. simpl length. lia.
Qed.

Lemma sorted_take {A} (R : A -> A -> Prop) n l : StronglySorted R l -> StronglySorted R (take n l).
Proof.
  intros Hs. revert n. induction Hs as [|x l Hl IH Hx]; intros [|n]; try constructor; [apply IH|].
  by apply Forall_take.
Qed.

Lemma client_group_spec group_order pick db rows ip :
  devices_ok (t_devices db) -> groups group_order -> picks pick ->
  let joined := flat_map (left_join db) rows in
  ip ∈ group_order (map client_of joined) ->
  let c := client_group pick joined ip in
  count c = count_where (fun q => (ev_client_ip (q_event q) =? label c)%string) rows /\ 1 <= count c /\
  sublabel c = (let! d := head (devices_at db (label c)) in display_name d).
Proof.
  intros Hd Hg Hp joined Hip c. apply (proj2 (Hg _)), list_elem_of_fmap in Hip as (p & -> & Hin).
  set (mine := List.filter (fun p' => (client_of p' =? client_of p)%string) joined) in *.
  assert (p ∈ mine) as Hmine.
  { apply list_elem_of_In, filter_In. split; [by apply list_elem_of_In|apply String.eqb_refl]. }
  split; [|split].
  - simpl. unfold count_where. f_equal. by apply join_count.
  - simpl. fold mine. destruct mine; [by apply elem_of_nil in Hmine|]. simpl length. lia.
  - simpl. fold mine. pose proof (Hp mine) as Hpick. destruct (pick mine) as [x|].
    + apply list_elem_of_In, filter_In in Hpick as [Hx%list_elem_of_In Hc%String.eqb_eq].
      by rewrite (join_device db rows x Hd Hx), Hc.
    + rewrite Hpick in Hmine. by apply elem_of_nil in Hmine.
Qed.

Lemma latest_spec group_order pick db target ms ts : picks pick ->
  (target, ms, ts) ∈ latest_latency group_order pick db ->
  (ts, target, ms) ∈ t_latency db /\ forall ts' ms', (ts', target, ms') ∈ t_latency db -> ts' <= ts.
Proof.
  intros Hp (t & Ht & E)%list_elem_of_omap. pose proof (Hp (latest_of (t_latency db) t)) as Hpick.
  destruct (pick _) as [[[s n] v]|]; [|done]. injection E as <- <- <-.
  apply list_elem_of_In, filter_In in Hpick as [Hin%list_elem_of_In [Ht'%String.eqb_eq Hmax]%andb_prop].
  unfold lat_target in Ht'. simpl in Ht'. subst t. split; [exact Hin|]. intros ts' ms' Hin'.
  rewrite forallb_forall in Hmax. specialize (Hmax _ (proj1 (list_elem_of_In _ _) Hin')).
  unfold lat_target, lat_ts in Hmax. simpl in Hmax. rewrite String.eqb_refl in Hmax. simpl in Hmax. by apply Z.leb_le.
Qed.

(** ** The grouped reports *)

(** The grouped reports on the log: one row for each group, busiest first,
    with its number of rows. *)
Definition counts_groups (key : QueryRec -> string) (rows : list QueryRec) (top : list Counted) : Prop :=
  StronglySorted (fun a b => count b <= count a) top /\ NoDup (map label top) /\
  Forall (fun c => count c = count_where (fun q => (key q =? label c)%string) rows /\ 1 <= count c) top.

Lemma most_counted_all P n l : (forall c, c ∈ l -> P c) -> Forall P (most_counted n l).
Proof.
  intros H. apply Forall_take. rewrite (sort_by_perm _ l). by apply Forall_forall.
Qed.
Lemma most_counted_counts key rows n l :
  NoDup (map label l) ->
  (forall c, c ∈ l -> count c = count_where (fun q => (key q =? label c)%string) rows /\ 1 <= count c) ->
  counts_groups key rows (most_counted n l).
Proof.
  intros Hn Hl. split_and!; [apply sorted_take, by_key_sorted| |by apply most_counted_all].
  assert (NoDup (map label (sort_by (fun a b => count b <=? count a) l))) as Hs by by rewrite sort_by_perm.
  rewrite <-(take_drop n (sort_by _ l)), map_app in Hs. by apply NoDup_app in Hs as [? _].
Qed.

Lemma counted_groups_counts group_order key sub rows n : groups group_order ->
  counts_groups key rows (most_counted n (counted_groups group_order key sub rows)).
Proof.
  intros Hg. destruct (Hg (map key rows)) as [Hn Hin]. apply most_counted_counts.
  - unfold counted_groups. by rewrite map_map, map_id.
  - intros c (k & -> & (q & -> & Hq)%Hin%list_elem_of_fmap)%list_elem_of_fmap. cbn [count label]. split; [done|].
    assert (q ∈ List.filter (fun q' => (key q' =? key q)%string) rows) as Hm.
    { apply list_elem_of_In, filter_In. split; [by apply list_elem_of_In|apply String.eqb_refl]. }
    destruct (List.filter _ rows); [by apply elem_of_nil in Hm|]. simpl. lia.
Qed.

Lemma top_clients_counts group_order pick db now hours limit :
  devices_ok (t_devices db) -> groups group_order -> picks pick ->
  counts_groups (fun q => ev_client_ip (q_event q)) (List.filter (since (window_start now hours 3600)) (t_queries db))
    (top_clients group_order pick now hours limit db).
Proof.
  intros Hd Hg Hp. apply most_counted_counts.
  - rewrite map_map. simpl. rewrite map_id. apply Hg.
  - intros c (ip & -> & Hip)%list_elem_of_fmap. edestruct client_group_spec as (H1 & H2 & _); [done..|exact Hip|]. by split.
Qed.

Lemma filter_blocked (blocked : bool) from rows :
  List.filter (fun q => since from q && (if blocked then is_status Blocked q else negb (is_status Blocked q))) rows
  = List.filter (fun q => Bool.eqb blocked (is_status Blocked q)) (List.filter (since from) rows).
Proof.
  induction rows as [|q rows IH]; [done|]. simpl. destruct (since from q); simpl; [|done].
  rewrite IH. by destruct blocked, (is_status Blocked q).
Qed.

(* ------------------------------------------------------------------ *)
(** ** Properties *)


Definition w_report_db : Db := flush true (w_ops ++ [OpLatency 5 "gateway" f_zero; OpLatency 9 "gateway" f_infinity]) empty_db.
Definition w_head {A} (l : list A) : option A := head l.
Lemma w_head_picks {A} : picks (@w_head A).
Proof. intros [|x l]; [done|]. left. Qed.


(** Past the range of [i64] the window is another one: 2^62 hours wrap to
    none, and the report has no row of the past (a debug build stops there). *)
Example endless_window_is_empty : window_start 1700000000 (2 ^ 62) 3600 = 1700000000.
Proof. reflexivity. Qed.
