(* ===== verification/Storage.v ===== *)
(** * The database file (src/db.rs: [open], [maintain], [rebuild_database])

    What the program does to the file as a whole: creating it so that it can
    shrink, handing freed pages back, and the one-off rebuild of a file made
    before that was possible.  SQLite is outside the repository: the class
    [Sqlite] is the interface the program relies on, its laws what SQLite
    documents about [auto_vacuum], [VACUUM] and [incremental_vacuum], and
    [simple_sqlite] an instance the witnesses compute with. *)
From S2P Require Import Prelude Str Float.
Open Scope Z_scope.

(** The statements the program runs on the file as a whole. *)
Inductive Stmt : Type :=
  | AutoVacuumIncremental | JournalModeWal | SynchronousNormal | CreateTables
  | Vacuum | WalCheckpointTruncate.

Inductive SqlCode : Type := DatabaseBusy | DatabaseLocked | OtherCode (n : Z).
#[export] Instance sql_code_eq_dec : EqDecision SqlCode.
Proof. solve_decision. Defined.

Definition NONE : Z := 0.
Definition INCREMENTAL : Z := 2.
(** The argument of [PRAGMA incremental_vacuum]. *)
Definition VACUUM_PAGES : Z := 2048.

Class Sqlite : Type := {
  Conn : Type;
  execute : Stmt -> Conn -> result SqlCode Conn;
  (** [PRAGMA auto_vacuum], [page_size], [freelist_count] as queries. *)
  query_auto_vacuum : Conn -> result SqlCode Z;
  query_page_size : Conn -> result SqlCode Z;
  query_freelist_count : Conn -> result SqlCode Z;
  (** Preparing and starting [PRAGMA incremental_vacuum(2048)], and its next
      row after [k] rows: each row is one page given back. *)
  prepare_vacuum : Conn -> result SqlCode unit;
  start_vacuum : Conn -> result SqlCode unit;
  vacuum_row : Z -> Conn -> result SqlCode (option Conn);
  (** The state of the file: is a header written, the mode in it, the mode
      asked for, and the pages on the free list. *)
  header : Conn -> bool;
  mode : Conn -> Z;
  wish : Conn -> Z;
  free_pages : Conn -> Z;
  query_auto_vacuum_eq c m : query_auto_vacuum c = Ok m -> m = mode c;
  (** A database without a header takes the mode ... *)
  auto_vacuum_fresh c c' : header c = false -> execute AutoVacuumIncremental c = Ok c' ->
    mode c' = INCREMENTAL /\ wish c' = INCREMENTAL /\ header c' = false;
  (** ... one made with NONE keeps it, and the wish waits for a VACUUM ... *)
  auto_vacuum_none c c' : header c = true -> mode c = NONE -> execute AutoVacuumIncremental c = Ok c' ->
    mode c' = NONE /\ wish c' = INCREMENTAL /\ header c' = true;
  (** ... and FULL and INCREMENTAL can be switched at any time. *)
  auto_vacuum_switch c c' : header c = true -> mode c <> NONE -> execute AutoVacuumIncremental c = Ok c' ->
    mode c' = INCREMENTAL /\ wish c' = INCREMENTAL /\ header c' = true;
  vacuum_applies c c' : execute Vacuum c = Ok c' -> mode c' = wish c /\ header c' = true;
  (** Everything else that writes, writes a header and keeps the mode. *)
  others_keep s c c' : s <> AutoVacuumIncremental -> s <> Vacuum -> execute s c = Ok c' ->
    mode c' = mode c /\ (header c = true -> header c' = true);
  vacuum_row_frees k c c' : vacuum_row k c = Ok (Some c') ->
    free_pages c' = free_pages c - 1 /\ mode c' = mode c /\ k < VACUUM_PAGES /\ 0 < free_pages c;
  vacuum_row_done k c : vacuum_row k c = Ok None -> free_pages c = 0 \/ VACUUM_PAGES <= k;
  checkpoint_free c c' : execute WalCheckpointTruncate c = Ok c' -> free_pages c' = free_pages c;
  free_pages_nonneg c : 0 <= free_pages c }.

(** What can go wrong, with the text that tells the operator. *)
Inductive StorageError : Type :=
  | CreatingDirectory | OpeningDatabase | ApplyingSchema (e : SqlCode) | BusyTimeoutFails
  (** "the database is in use by another process ... stop it first" *)
  | InUse (doing : Stmt)
  | Failed (doing : Stmt) (e : SqlCode)
  | StillNotIncremental
  | PreparingVacuum (e : SqlCode) | IncrementalVacuum (e : SqlCode).

Section Storage.
Context `{Sqlite}.

(** [execute_batch]: statements in order, up to the first that fails. *)
Fixpoint execute_batch (l : list Stmt) (c : Conn) : result SqlCode Conn :=
  match l with
  | [] => Ok c
  | s :: r => let? c' := execute s c in execute_batch r c'
  end.

Definition SCHEMA : list Stmt := [AutoVacuumIncremental; JournalModeWal; SynchronousNormal; CreateTables].

(** [open]: [parent] is the directory part of the path, [mkdir] and
    [connect] what the file system and SQLite say. *)
Definition open (parent : option string) (mkdir : string -> bool) (connect : option Conn) (timeout_set : bool)
    : result StorageError Conn :=
  let? _ := match parent with
            | Some p => if is_empty p then Ok tt else ensure (mkdir p) CreatingDirectory
            | None => Ok tt
            end in
  let? conn := ok_or OpeningDatabase connect in
  let? conn := map_err ApplyingSchema (execute_batch SCHEMA conn) in
  let? _ := ensure timeout_set BusyTimeoutFails in
  Ok conn.

Definition incremental_vacuum_available (c : Conn) : bool :=
  match query_auto_vacuum c with Ok m => m =? 2 | Err _ => false end.

Record StorageSizes : Type := mk_sizes {
  db_bytes : Z; wal_bytes : Z; shm_bytes : Z; free_bytes : Z; incremental_vacuum : bool }.
Definition size_of (len : string -> option Z) (p : string) : Z := default 0 (len p).
Definition count_or_zero (r : result SqlCode Z) : Z := Z.max 0 (default 0 (ok r)).
Definition storage_sizes (len : string -> option Z) (c : Conn) (path : string) : StorageSizes :=
  mk_sizes (size_of len path) (size_of len (path +:+ "-wal")) (size_of len (path +:+ "-shm"))
    (wrap 64 (count_or_zero (query_page_size c) * count_or_zero (query_freelist_count c)))
    (incremental_vacuum_available c).

(** Lock errors become advice. *)
Definition busy_aware (doing : Stmt) (r : result SqlCode Conn) : result StorageError Conn :=
  match r with
  | Err DatabaseBusy | Err DatabaseLocked => Err (InUse doing)
  | Err e => Err (Failed doing e)
  | Ok c => Ok c
  end.

(** [rebuild_database]: sizes before and after, and the file it leaves. *)
Definition rebuild_database (len_before : option Z) (connect : option Conn) (timeout_set : bool)
    (len_after : option Z) : result StorageError (Z * Z * Conn) :=
  let before := default 0 len_before in
  let? conn := ok_or OpeningDatabase connect in
  let? _ := ensure timeout_set BusyTimeoutFails in
  let? conn := busy_aware AutoVacuumIncremental (execute AutoVacuumIncremental conn) in
  let? conn := busy_aware Vacuum (execute Vacuum conn) in
  let? conn := map_err (Failed WalCheckpointTruncate) (execute WalCheckpointTruncate conn) in
  let? _ := ensure (incremental_vacuum_available conn) StillNotIncremental in
  Ok (before, default 0 len_after, conn).

(** [while rows.next()?.is_some() {}] after [k] rows. *)
Fixpoint vacuum_loop (fuel : nat) (k : Z) (c : Conn) : option (result StorageError Conn) :=
  match fuel with
  | O => None
  | S fuel =>
      match vacuum_row k c with
      | Err e => Some (Err (IncrementalVacuum e))
      | Ok None => Some (Ok c)
      | Ok (Some c') => vacuum_loop fuel (k + 1) c'
      end
  end.
Definition VACUUM_FUEL : nat := Z.to_nat (VACUUM_PAGES + 1).

(** [maintain]; [None] is a run out of fuel. *)
Definition maintain (c : Conn) : option (result StorageError Conn) :=
  let vacuumed :=
    if incremental_vacuum_available c then
      match prepare_vacuum c with
      | Err e => Some (Err (PreparingVacuum e))
      | Ok _ =>
          match start_vacuum c with
          | Err e => Some (Err (IncrementalVacuum e))
          | Ok _ => vacuum_loop VACUUM_FUEL 0 c
          end
      end
    else Some (Ok c) in
  let! r := vacuumed in
  Some (let? c := r in
        match execute WalCheckpointTruncate c with
        | Ok c' => Ok c'
        | Err _ => Ok c
        end).
End Storage.

(** [now]: seconds since the epoch, 0 for a clock before it. *)
Definition now (since_epoch : option Z) : Z :=
  match since_epoch with Some s => u64_as_i64 s | None => 0 end.

(* ------------------------------------------------------------------ *)
(** ** A small file *)

Record File : Type := mk_file { fl_header : bool; fl_mode : Z; fl_wish : Z; fl_free : Z; fl_locked : bool }.

Definition simple_execute (s : Stmt) (f : File) : result SqlCode File :=
  if fl_locked f then Err DatabaseLocked
  else Ok match s with
  | AutoVacuumIncremental =>
      mk_file (fl_header f) (if fl_header f && (fl_mode f =? NONE) then NONE else INCREMENTAL) INCREMENTAL (fl_free f) false
  | Vacuum => mk_file true (fl_wish f) (fl_wish f) 0 false
  | JournalModeWal | CreateTables => mk_file true (fl_mode f) (fl_wish f) (fl_free f) false
  | SynchronousNormal | WalCheckpointTruncate => f
  end.

Definition simple_row (k : Z) (f : File) : result SqlCode (option File) :=
  if (0 <? fl_free f) && (k <? VACUUM_PAGES)
  then Ok (Some (mk_file (fl_header f) (fl_mode f) (fl_wish f) (fl_free f - 1) (fl_locked f)))
  else Ok None.

#[refine] Definition simple_sqlite : Sqlite := {|
  Conn := File;
  execute := simple_execute;
  query_auto_vacuum f := Ok (fl_mode f);
  query_page_size _ := Ok 4096;
  query_freelist_count f := Ok (Z.max 0 (fl_free f));
  prepare_vacuum _ := Ok tt;
  start_vacuum _ := Ok tt;
  vacuum_row := simple_row;
  header := fl_header; mode := fl_mode; wish := fl_wish; free_pages f := Z.max 0 (fl_free f) |}.
Proof.
  - by intros c m [= <-].
  - intros c c' Hh. unfold simple_execute. destruct (fl_locked c); [done|]. intros [= <-]. simpl. by rewrite Hh.
  - intros c c' Hh Hm. unfold simple_execute. destruct (fl_locked c); [done|]. intros [= <-]. simpl. by rewrite Hh, Hm.
  - intros c c' Hh Hm%Z.eqb_neq. unfold simple_execute. destruct (fl_locked c); [done|]. intros [= <-]. simpl. by rewrite Hh, Hm.
  - intros c c'. unfold simple_execute. destruct (fl_locked c); [done|]. by intros [= <-].
  - intros s c c' H1 H2. unfold simple_execute. destruct (fl_locked c); [done|]. by intros [= <-]; destruct s.
  - intros k c c'. unfold simple_row. destruct (Z.ltb_spec 0 (fl_free c)), (Z.ltb_spec k VACUUM_PAGES); try done.
    intros [= <-]. simpl. lia.
  - intros k c. unfold simple_row. destruct (Z.ltb_spec 0 (fl_free c)), (Z.ltb_spec k VACUUM_PAGES); try done; lia.
  - intros c c'. unfold simple_execute. destruct (fl_locked c); [done|]. by intros [= <-].
  - intros c. lia.
Defined.

(* ------------------------------------------------------------------ *)
(** ** Lemmas *)

Section StorageLemmas.
Context `{Sqlite}.

Lemma available_iff c : incremental_vacuum_available c = true -> mode c = INCREMENTAL.
Proof.
  unfold incremental_vacuum_available. destruct (query_auto_vacuum c) as [m|e] eqn:E; [|done].
  intros Hm%Z.eqb_eq. by rewrite <- (query_auto_vacuum_eq _ _ E).
Qed.

Lemma execute_batch_keeps l c c' :
  AutoVacuumIncremental ∉ l -> Vacuum ∉ l -> execute_batch l c = Ok c' -> mode c' = mode c.
Proof.
  revert c. induction l as [|s l IH]; intros c Ha Hv; [by intros [= ->]|].
  apply not_elem_of_cons in Ha as [Ha1 Ha2]. apply not_elem_of_cons in Hv as [Hv1 Hv2]. simpl.
  intros (d & Hd & Hl)%let_ok. rewrite (IH d Ha2 Hv2 Hl). by apply (others_keep s c d).
Qed.

Lemma busy_aware_ok s r c : busy_aware s r = Ok c <-> r = Ok c.
Proof. destruct r as [d|[]]; simpl; naive_solver. Qed.

(** Whatever the mode was, the wish is INCREMENTAL. *)
Lemma auto_vacuum_wish c c' : execute AutoVacuumIncremental c = Ok c' -> wish c' = INCREMENTAL.
Proof.
  intros Hc. destruct (header c) eqn:Hh; [|by destruct (auto_vacuum_fresh c c' Hh Hc) as (_ & ? & _)].
  destruct (decide (mode c = NONE)) as [Hm|Hm];
    [by destruct (auto_vacuum_none c c' Hh Hm Hc) as (_ & ? & _)|by destruct (auto_vacuum_switch c c' Hh Hm Hc) as (_ & ? & _)].
Qed.

(** The mode of a file that went through the three statements. *)
Lemma rebuilt_mode c c1 c2 c3 :
  execute AutoVacuumIncremental c = Ok c1 -> execute Vacuum c1 = Ok c2 -> execute WalCheckpointTruncate c2 = Ok c3 ->
  mode c3 = INCREMENTAL.
Proof.
  intros H1%auto_vacuum_wish [H2 _]%vacuum_applies H3. destruct (others_keep WalCheckpointTruncate c2 c3) as [-> _]; [done..|].
  congruence.
Qed.

Lemma query_available c : mode c = INCREMENTAL -> incremental_vacuum_available c = is_ok (query_auto_vacuum c).
Proof.
  intros Hm. unfold incremental_vacuum_available. destruct (query_auto_vacuum c) as [m|] eqn:E; [|done].
  by rewrite (query_auto_vacuum_eq _ _ E), Hm.
Qed.

(** What a lock or another failure of a statement is reported as. *)
Definition explained (doing : Stmt) (e : SqlCode) : StorageError :=
  if bool_decide (e = DatabaseBusy \/ e = DatabaseLocked) then InUse doing else Failed doing e.
Lemma busy_aware_err s e : busy_aware s (Err e) = Err (explained s e).
Proof. by destruct e. Qed.

(** Opening a file: the mode is settled by the first statement of the schema. *)
Lemma open_mode parent mkdir c timeout_set c' : open parent mkdir (Some c) timeout_set = Ok c' ->
  exists c1, execute AutoVacuumIncremental c = Ok c1 /\ mode c' = mode c1.
Proof.
  intros Ho. unfold open in Ho. apply let_ok in Ho as (u & _ & Ho). simpl ok_or in Ho.
  cbv beta iota in Ho. apply let_ok in Ho as (c2 & Hs%map_err_ok & Ho). destruct timeout_set; [|done]. injection Ho as <-.
  simpl in Hs. apply let_ok in Hs as (c1 & H1 & H2). exists c1. split; [done|].
  apply (execute_batch_keeps [JournalModeWal; SynchronousNormal; CreateTables]); [..|exact H2];
    rewrite !not_elem_of_cons; repeat split; (done || apply not_elem_of_nil).
Qed.

(** The loop stops after as many rows as there are free pages, or 2048. *)
Lemma vacuum_loop_ends fuel k c :
  0 <= k <= VACUUM_PAGES -> VACUUM_PAGES - k < Z.of_nat fuel ->
  exists r, vacuum_loop fuel k c = Some r /\
    match r with
    | Ok c' => free_pages c' = Z.max 0 (free_pages c - (VACUUM_PAGES - k)) /\ mode c' = mode c
    | Err _ => True
    end.
Proof.
  revert k c. induction fuel as [|fuel IH]; intros k c Hk Hf; [lia|]. simpl.
  pose proof (free_pages_nonneg c).
  destruct (vacuum_row k c) as [[c1|]|e] eqn:E; [| |by eexists].
  - apply vacuum_row_frees in E as (Hfree & Hmode & Hlt & Hpos).
    destruct (IH (k + 1) c1) as (r & Hr & Hpost); [lia|lia|]. exists r. split; [done|].
    destruct r as [c'|]; [|done]. destruct Hpost as [Hp Hm]. split; [lia|congruence].
  - apply vacuum_row_done in E. eexists. split; [done|]. split; [|done].
    destruct E as [E|E]; lia.
Qed.
End StorageLemmas.

(* ------------------------------------------------------------------ *)
(** ** Properties *)

(** C39. Files can shrink.  A database this program creates has incremental
    vacuum on, because the pragma comes before the statement that writes the
    header; an existing file is switched to it when it is opened if it has any
    vacuum mode, and keeps NONE otherwise.  A rebuild works from every mode:
    when each of its three statements succeeds the file is incremental, and
    success with both sizes is reported (unless the mode cannot be read
    back); and each failure is reported as what it is: a file that cannot be
    opened, a lock held by the running service at the two steps that need the
    file alone, the failed statement otherwise, the checkpoint included. *)
Theorem rebuild_or_explain `{Sqlite} :
  (forall parent mkdir c timeout_set c', open parent mkdir (Some c) timeout_set = Ok c' ->
     mode c' = if header c && (mode c =? NONE) then NONE else INCREMENTAL) /\
  (forall before timeout_set after, rebuild_database before None timeout_set after = Err OpeningDatabase) /\
  (forall before c after, rebuild_database before (Some c) false after = Err BusyTimeoutFails) /\
  (forall before c after, let r := rebuild_database before (Some c) true after in
     match execute AutoVacuumIncremental c with
     | Err e => r = Err (explained AutoVacuumIncremental e)
     | Ok c1 =>
         match execute Vacuum c1 with
         | Err e => r = Err (explained Vacuum e)
         | Ok c2 =>
             match execute WalCheckpointTruncate c2 with
             | Err e => r = Err (Failed WalCheckpointTruncate e)
             | Ok c3 => mode c3 = INCREMENTAL /\
                 r = if is_ok (query_auto_vacuum c3) then Ok (default 0 before, default 0 after, c3)
                     else Err StillNotIncremental
             end
         end
     end).
Proof.
  split_and!; [|done|done|].
  - intros parent mkdir c ts c' (c1 & H1 & ->)%open_mode. destruct (header c) eqn:Hh; [|by apply (auto_vacuum_fresh c)].
    cbn [andb]. destruct (Z.eqb_spec (mode c) NONE); [by apply (auto_vacuum_none c)|by apply (auto_vacuum_switch c)].
  - intros before c after r. unfold r, rebuild_database. cbn [ok_or ensure].
    destruct (execute AutoVacuumIncremental c) as [c1|e] eqn:H1; [|by rewrite busy_aware_err]. cbn [busy_aware].
    destruct (execute Vacuum c1) as [c2|e] eqn:H2; [|by rewrite busy_aware_err]. cbn [busy_aware].
    destruct (execute WalCheckpointTruncate c2) as [c3|e] eqn:H3; [|done]. cbn [map_err].
    pose proof (rebuilt_mode c c1 c2 c3 H1 H2 H3) as Hm. split; [done|]. rewrite query_available by done.
    by destruct (is_ok _).
Qed.

Definition old_file : File := mk_file true NONE NONE 700 false.
Definition FULL : Z := 1.

Lemma rebuild_or_explain_witness :
  (exists c', open (H := simple_sqlite) (Some "/var/lib/netwatch") (fun _ => true) (Some (mk_file false NONE NONE 0 false)) true = Ok c' /\
     fl_mode c' = INCREMENTAL) /\
  (exists c', open (H := simple_sqlite) None (fun _ => true) (Some old_file) true = Ok c' /\ fl_mode c' = NONE) /\
  (exists c', open (H := simple_sqlite) None (fun _ => true) (Some (mk_file true FULL FULL 0 false)) true = Ok c' /\
     fl_mode c' = INCREMENTAL) /\
  rebuild_database (H := simple_sqlite) (Some 18) (Some (mk_file true NONE NONE 700 true)) true None
    = Err (InUse AutoVacuumIncremental).
Proof.
  destruct (@rebuild_or_explain simple_sqlite) as (H1 & _ & _ & H4). split_and!.
  - eexists. split; [reflexivity|]. by apply (H1 (Some "/var/lib/netwatch") (fun _ => true) (mk_file false NONE NONE 0 false) true).
  - eexists. split; [reflexivity|]. by apply (H1 None (fun _ => true) old_file true).
  - eexists. split; [reflexivity|]. by apply (H1 None (fun _ => true) (mk_file true FULL FULL 0 false) true).
  - exact (H4 (Some 18) (mk_file true NONE NONE 700 true) None).
Defined.

(** A rebuild of the old file, step by step. *)
Example rebuild_example :
  rebuild_database (H := simple_sqlite) (Some 18) (Some old_file) true (Some 7)
  = Ok (18, 7, mk_file true INCREMENTAL INCREMENTAL 0 false).
Proof. reflexivity. Qed.

(** Hourly maintenance ends, and when it reports success on a file with
    incremental vacuum it has given back every free page, or 2048 of them:
    the pragma is stepped to its end, not once.  A file without is left with
    its free pages, and a failed checkpoint is not an error. *)
Theorem maintain_reclaims `{Sqlite} c :
  exists r, maintain c = Some r /\
    match r with
    | Ok c' =>
        free_pages c' =
          (if incremental_vacuum_available c then Z.max 0 (free_pages c - VACUUM_PAGES) else free_pages c)
    | Err _ => incremental_vacuum_available c = true
    end.
Proof.
  assert (forall d, exists d', (match execute WalCheckpointTruncate d with Ok d' => Ok d' | Err _ => Ok d end
    : result StorageError Conn) = Ok d' /\ free_pages d' = free_pages d) as Hck.
  { intros d. destruct (execute WalCheckpointTruncate d) as [d'|] eqn:E; [|by eauto].
    exists d'. split; [done|]. by apply checkpoint_free. }
  unfold maintain. destruct (incremental_vacuum_available c).
  - destruct (prepare_vacuum c); [|by eexists]. destruct (start_vacuum c); [|by eexists].
    destruct (vacuum_loop_ends VACUUM_FUEL 0 c) as (r & -> & Hr); [done|done|].
    eexists. split; [reflexivity|]. destruct r as [c'|]; [|done]. destruct Hr as [Hf _].
    destruct (Hck c') as (d & -> & ->). by rewrite Hf, Z.sub_0_r.
  - eexists. split; [reflexivity|]. by destruct (Hck c) as (d & -> & ->).
Qed.

Example maintain_example :
  maintain (H := simple_sqlite) (mk_file true INCREMENTAL INCREMENTAL 5000 false)
  = Some (Ok (mk_file true INCREMENTAL INCREMENTAL 2952 false)).
Proof. vm_compute. reflexivity. Qed.
