(* ===== verification/Monitor.v ===== *)
(** * Periodic sampling (src/monitor.rs and the probe of src/netinfo.rs)

    Two loops: one turns the kernel's interface counters into rates, one times
    a TCP handshake with the router and with an upstream resolver.  What
    /proc says and how a connection attempt ends are arguments of a tick. *)
From S2P Require Import Prelude Str Float Addr Netinfo Upstream Db.
Open Scope Z_scope.

(* ------------------------------------------------------------------ *)
(** ** Throughput *)

(** [last]: the counters of the previous reading and when it was made. *)
Abbreviation Last := (gmap string (Z * Z * Instant)).

(** [(delta as f64 * 8.0) / secs) as i64] *)
Definition rate (delta : Z) (secs : F64) : Z := as_i64 (f_div (f_mul (of_int delta) (of_int 8)) secs).

Definition sample (now : Instant) (ts : Z) (c : IfaceCounters) (prev_rx prev_tx : Z) (prev_at : Instant) : IfaceSample :=
  let secs := as_secs_f64 (duration_since now prev_at) in
  mk_iface ts (ic_iface c) (u64_as_i64 (rx_bytes c)) (u64_as_i64 (tx_bytes c))
    (rate (saturating_sub (rx_bytes c) prev_rx) secs) (rate (saturating_sub (tx_bytes c) prev_tx) secs).

(** The body of the loop over the counters; [continue] keeps the old entry. *)
Definition sample_counter (now : Instant) (ts : Z) (st : Last * Writer) (c : IfaceCounters) : Last * Writer :=
  let '(last, w) := st in
  match last !! ic_iface c with
  | Some (prev_rx, prev_tx, prev_at) =>
      if f_leb (as_secs_f64 (duration_since now prev_at)) f_zero then (last, w)
      else (<[ic_iface c := (rx_bytes c, tx_bytes c, now)]> last, send (OpIface (sample now ts c prev_rx prev_tx prev_at)) w)
  | None => (<[ic_iface c := (rx_bytes c, tx_bytes c, now)]> last, w)
  end.

(** One tick of [throughput_sampler]; [None]: /proc/net/dev could not be read. *)
Definition throughput_tick (now : Instant) (ts : Z) (text : option string) (st : Last * Writer) : Last * Writer :=
  match iface_counters text with
  | None => st
  | Some cs => fold_left (sample_counter now ts) cs st
  end.

(** The sampler from its start: what each tick reads. *)
Definition throughput_run (ticks : list (Instant * Z * option string)) (w : Writer) : Last * Writer :=
  fold_left (fun st '(now, ts, text) => throughput_tick now ts text st) ticks (∅, w).

(* ------------------------------------------------------------------ *)
(** ** Latency *)

(** How a connection attempt ends, when it does. *)
Inductive Connect : Type := Connected | ConnectionRefused | ConnectFails.

(** [tcp_probe_ms]: a refusal times the round trip as well as a handshake. *)
Definition tcp_probe_ms (connect : SocketAddr -> Outcome Connect) (target : SocketAddr) (timeout_ms : Z) : option F64 :=
  match timeout (from_millis timeout_ms) (connect target) with
  | (elapsed, Some Connected) | (elapsed, Some ConnectionRefused) =>
      Some (f_mul (as_secs_f64 elapsed) (of_int 1000))
  | _ => None
  end.

Definition gateway_ms (connect : SocketAddr -> Outcome Connect) (gw : Z) : option F64 :=
  match tcp_probe_ms connect (mk_socket (V4 gw) 53) 1500 with
  | Some v => Some v
  | None => tcp_probe_ms connect (mk_socket (V4 gw) 80) 1500
  end.

Definition send_latency (ts : Z) (target : string) (ms : option F64) (w : Writer) : Writer :=
  match ms with Some ms => send (OpLatency ts target ms) w | None => w end.

(** One tick of [latency_sampler]. *)
Definition latency_tick (connect : SocketAddr -> Outcome Connect) (ts : Z) (route : option DefaultRoute)
    (upstream : SocketAddr) (w : Writer) : Writer :=
  let w := match route with
           | Some r => send_latency ts "gateway" (gateway_ms connect (gateway r)) w
           | None => w
           end in
  send_latency ts "upstream" (tcp_probe_ms connect upstream 2500) w.

(* ------------------------------------------------------------------ *)
(** ** Lemmas *)

Lemma rate_range delta secs : 0 <= delta -> f_sign secs = false -> 0 <= rate delta secs <= i64_max.
Proof. intros Hd Hs. apply as_i64_range, f_div_sign, Hs. apply f_mul_sign; by apply of_int_sign. Qed.

Lemma rate_zero secs : rate 0 secs = 0.
Proof.
  unfold rate. change (f_mul (of_int 0) (of_int 8)) with f_zero.
  destruct secs as [[]|[]| |[] m e]; reflexivity.
Qed.

Lemma as_secs_sign d : 0 <= d -> f_sign (as_secs_f64 d) = false.
Proof.
  intros Hd. assert (0 < NANOS) by done. pose proof (Z.div_pos d NANOS Hd ltac:(done)).
  pose proof (Z.mod_pos_bound d NANOS ltac:(done)).
  apply f_add_sign; [by apply of_int_sign|]. apply f_div_sign; [apply of_int_sign; lia|done].
Qed.

Lemma duration_since_nonneg now earlier : 0 <= duration_since now earlier.
Proof. unfold duration_since, saturating_sub. lia. Qed.

(** A rate in the range of its column. *)
Definition sample_ok (s : IfaceSample) : Prop := 0 <= if_rx_bps s <= i64_max /\ 0 <= if_tx_bps s <= i64_max.

Lemma sample_in_range now ts c rx tx at_ : sample_ok (sample now ts c rx tx at_).
Proof.
  pose proof (as_secs_sign _ (duration_since_nonneg now at_)).
  split; apply rate_range; try done; unfold saturating_sub; lia.
Qed.

(** [w'] is [w] after sending samples that are in range, and nothing else. *)
Definition sends_samples (w w' : Writer) : Prop :=
  exists l, w' = send_all (map OpIface l) w /\ Forall sample_ok l.

#[export] Instance sends_samples_preorder : PreOrder sends_samples.
Proof.
  split; [by exists []|]. intros a b c (l1 & -> & H1) (l2 & -> & H2). exists (l1 ++ l2).
  unfold send_all. by rewrite map_app, fold_left_app, Forall_app.
Qed.

Lemma sample_counter_sends now ts st c : sends_samples (snd st) (snd (sample_counter now ts st c)).
Proof.
  destruct st as [last w]. unfold sample_counter. destruct (last !! ic_iface c) as [[[rx tx] at_]|]; [|done].
  case_match; [done|]. exists [sample now ts c rx tx at_]. split; [done|].
  constructor; [apply sample_in_range|constructor].
Qed.

Lemma throughput_tick_sends now ts text st : sends_samples (snd st) (snd (throughput_tick now ts text st)).
Proof.
  unfold throughput_tick. destruct (iface_counters text) as [cs|]; [|done].
  apply (fold_left_inv (fun s => sends_samples (snd st) (snd s))); [done|].
  intros s c Hs. etransitivity; [exact Hs|]. apply sample_counter_sends.
Qed.

(* ------------------------------------------------------------------ *)
(** ** One tick, exactly *)

(** What a counter gives when its interface was read before. *)
Definition sample_of (now : Instant) (ts : Z) (last : Last) (c : IfaceCounters) : option IfaceSample :=
  let! (prev_rx, prev_tx, prev_at) := last !! ic_iface c in Some (sample now ts c prev_rx prev_tx prev_at).

Definition remember (now : Instant) (last : Last) (c : IfaceCounters) : Last :=
  <[ic_iface c := (rx_bytes c, tx_bytes c, now)]> last.

(** Every remembered reading is older than [now], by less than 2^53 seconds. *)
Definition older (now : Instant) (last : Last) : Prop :=
  forall i rx tx at_, last !! i = Some (rx, tx, at_) -> at_ < now /\ seconds_small (now - at_).

Lemma guard_passes now at_ : at_ < now -> seconds_small (now - at_) ->
  f_leb (as_secs_f64 (duration_since now at_)) f_zero = false.
Proof.
  intros Hlt Hs. apply f_pos_not_le_zero. unfold duration_since, saturating_sub.
  rewrite Z.max_r by lia. apply as_secs_pos; [lia|done].
Qed.

Lemma sample_counters_exact now ts cs last last0 w :
  NoDup (map ic_iface cs) -> older now last0 -> (forall c, c ∈ cs -> last !! ic_iface c = last0 !! ic_iface c) ->
  fold_left (sample_counter now ts) cs (last, w)
  = (fold_left (remember now) cs last, send_all (map OpIface (omap (sample_of now ts last0) cs)) w).
Proof.
  intros Hnd Hold. revert last w. induction cs as [|c cs IH]; intros last w Hl; [done|].
  simpl in Hnd. apply NoDup_cons in Hnd as [Hc Hnd]. simpl.
  assert (forall c', c' ∈ cs -> remember now last c !! ic_iface c' = last0 !! ic_iface c') as Hl'.
  { intros c' Hc'. unfold remember. rewrite lookup_insert_ne; [apply Hl; by right|].
    intros E. apply Hc. rewrite E. by apply list_elem_of_fmap_2. }
  pose proof (Hl c ltac:(left)) as E. unfold sample_of at 1. rewrite <- E.
  destruct (last !! ic_iface c) as [[[rx tx] at_]|] eqn:El; simpl.
  - destruct (Hold _ _ _ _ (eq_sym E)). rewrite guard_passes by done. by apply IH.
  - by apply IH.
Qed.

Lemma remember_older now later last cs : older now last -> now < later -> seconds_small (later - now) ->
  (forall i rx tx at_, last !! i = Some (rx, tx, at_) -> seconds_small (later - at_)) ->
  older later (fold_left (remember now) cs last).
Proof.
  intros Hold Hlt Hs Hs'. apply (fold_left_inv (older later)).
  - intros i rx tx at_ E. split; [destruct (Hold _ _ _ _ E); lia|by apply (Hs' _ _ _ _ E)].
  - intros l c Hl i rx tx at_. unfold remember. rewrite lookup_insert_Some.
    intros [[_ [=]]|[_ E]]; [subst; done|]. by apply (Hl _ _ _ _ E).
Qed.

Lemma sample_backwards now ts c rx tx at_ :
  (rx_bytes c <= rx -> if_rx_bps (sample now ts c rx tx at_) = 0) /\
  (tx_bytes c <= tx -> if_tx_bps (sample now ts c rx tx at_) = 0).
Proof. split; intros H; simpl; unfold saturating_sub; rewrite Z.max_l by lia; apply rate_zero. Qed.

(* ------------------------------------------------------------------ *)
(** ** Theorems *)

(** Whatever /proc/net/dev says and however the clock moves, the sampler
    only ever sends interface samples, and no rate is negative or leaves its
    column. *)
Theorem throughput_rates_in_range ticks w : sends_samples w (snd (throughput_run ticks w)).
Proof.
  apply (fold_left_inv (fun st => sends_samples w (snd st))); [done|].
  intros st [[now ts] text] H. etransitivity; [exact H|]. apply throughput_tick_sends.
Qed.

(** C36. A tick of the throughput sampler sends exactly one sample for each
    interface that was read before and none for a new one, in the order of
    the file; every rate is in the range of its column, a counter that went
    backwards gives a rate of zero instead of a spike, and what the tick
    remembers is again older than any later tick. *)
Theorem throughput_tick_exact now ts text cs last w :
  iface_counters text = Some cs -> NoDup (map ic_iface cs) -> older now last ->
  let samples := omap (sample_of now ts last) cs in
  throughput_tick now ts text (last, w) = (fold_left (remember now) cs last, send_all (map OpIface samples) w) /\
  Forall sample_ok samples /\
  (forall c rx tx at_, c ∈ cs -> last !! ic_iface c = Some (rx, tx, at_) ->
     exists s, s ∈ samples /\ if_iface s = ic_iface c /\
       (rx_bytes c <= rx -> if_rx_bps s = 0) /\ (tx_bytes c <= tx -> if_tx_bps s = 0)) /\
  (forall later, now < later -> seconds_small (later - now) ->
     (forall i rx tx at_, last !! i = Some (rx, tx, at_) -> seconds_small (later - at_)) ->
     older later (fold_left (remember now) cs last)).
Proof.
  intros E Hnd Hold samples. split; [|split; [|split]].
  - unfold throughput_tick. rewrite E. by apply sample_counters_exact.
  - apply Forall_forall. intros s Hs. apply list_elem_of_omap in Hs as (c & _ & Hs). unfold sample_of in Hs.
    destruct (last !! _) as [[[rx tx] at_]|]; [|done]. injection Hs as <-. apply sample_in_range.
  - intros c rx tx at_ Hc Hl. exists (sample now ts c rx tx at_). split; [|split; [done|apply sample_backwards]].
    apply list_elem_of_omap. exists c. split; [done|]. unfold sample_of. by rewrite Hl.
  - intros later. by apply remember_older.
Qed.

Definition proc_net_dev (rx tx : string) : string :=
  str_join (String newline "")
    ["Inter-|   Receive                            |  Transmit";
     " face |bytes packets errs drop fifo frame compressed multicast|bytes packets errs drop fifo colls carrier compressed";
     "    lo: 99 1 0 0 0 0 0 0 99 1 0 0 0 0 0 0";
     "  eth0: " +:+ rx +:+ " 10 0 0 0 0 0 0 " +:+ tx +:+ " 20 0 0 0 0 0 0"].
Definition w_first : Last * Writer := throughput_tick (from_secs 10) 10 (Some (proc_net_dev "1000" "5000")) (∅, new_writer).

(** Two seconds later 3000 more bytes came in; the other counter was reset. *)
Example throughput_rate :
  map (fun op => match op with OpIface s => Some (if_rx_bps s, if_tx_bps s) | _ => None end)
    (w_queue (snd (throughput_tick (from_secs 12) 12 (Some (proc_net_dev "4000" "70")) w_first)))
  = [Some (12000, 0)].
Proof. vm_compute. reflexivity. Qed.

Lemma w_older : older (from_secs 12) (fst w_first).
Proof.
  intros i rx tx at_. change (fst w_first) with ({[ "eth0" := (1000, 5000, from_secs 10) ]} : Last).
  rewrite lookup_singleton_Some. by intros [_ [=<- <- <-]].
Qed.

Lemma throughput_tick_exact_witness :
  omap (sample_of (from_secs 12) 12 (fst w_first)) (parse_iface_counters (proc_net_dev "4000" "70"))
  = [mk_iface 12 "eth0" 4000 70 12000 0] /\
  Forall sample_ok (omap (sample_of (from_secs 12) 12 (fst w_first)) (parse_iface_counters (proc_net_dev "4000" "70"))).
Proof.
  split; [vm_compute; reflexivity|].
  apply (throughput_tick_exact (from_secs 12) 12 (Some (proc_net_dev "4000" "70"))
           (parse_iface_counters (proc_net_dev "4000" "70")) (fst w_first) (snd w_first)).
  - reflexivity.
  - apply (bool_decide_unpack _). vm_compute. exact I.
  - exact w_older.
Defined.

(** A connection attempt does not end before it started. *)
Definition honest (connect : SocketAddr -> Outcome Connect) : Prop :=
  forall a, match connect a with Ready t _ => 0 <= t | Pending => True end.

Lemma tcp_probe_nonneg connect target ms v : honest connect -> 0 <= ms <= 2500 ->
  tcp_probe_ms connect target ms = Some v -> f_nonneg v.
Proof.
  intros Hc Hms. specialize (Hc target). unfold tcp_probe_ms, timeout.
  destruct (connect target) as [t r|]; [|done]. destruct (Z.leb_spec t (from_millis ms)) as [Ht|]; [|done].
  assert (f_nonneg (as_secs_f64 t)) as Hs.
  { apply as_secs_nonneg; [done|]. unfold seconds_small, NANOS, from_millis in *. lia. }
  destruct r; intros [= <-]; apply (f_mul_nonneg _ false); done.
Qed.

(** A latency row is about the gateway or the upstream, at most one of each
    per tick, and its value is a number from zero up: never NaN, which the
    column would refuse together with the whole batch. *)
Theorem latency_tick_sound connect ts route upstream w : honest connect ->
  exists g u, latency_tick connect ts route upstream w = send_all (g ++ u) w /\
    (g = [] \/ exists r ms, route = Some r /\ g = [OpLatency ts "gateway" ms] /\ f_nonneg ms) /\
    (u = [] \/ exists ms, u = [OpLatency ts "upstream" ms] /\ f_nonneg ms).
Proof.
  intros Hc.
  exists (match route with Some r => match gateway_ms connect (gateway r) with
            Some ms => [OpLatency ts "gateway" ms] | None => [] end | None => [] end),
    (match tcp_probe_ms connect upstream 2500 with Some ms => [OpLatency ts "upstream" ms] | None => [] end).
  unfold latency_tick, send_latency. split; [|split].
  - destruct route as [r|]; [destruct (gateway_ms _ _)|]; by destruct (tcp_probe_ms _ upstream _).
  - destruct route as [r|]; [|by left]. destruct (gateway_ms _ _) as [ms|] eqn:E; [|by left].
    right. exists r, ms. split_and!; try done. unfold gateway_ms in E.
    destruct (tcp_probe_ms connect (mk_socket (V4 (gateway r)) 53) 1500) eqn:E'; simplify_eq.
    + by apply (tcp_probe_nonneg connect _ 1500 _ Hc ltac:(lia) E').
    + by apply (tcp_probe_nonneg connect _ 1500 _ Hc ltac:(lia) E).
  - destruct (tcp_probe_ms connect upstream 2500) as [ms|] eqn:E; [|by left]. right. exists ms.
    split; [done|]. by apply (tcp_probe_nonneg connect upstream 2500 _ Hc ltac:(lia)).
Qed.
