(* ===== verification/Resolver.v ===== *)
(** * The resolver (src/dns/mod.rs: [Resolver])

    What happens to one DNS request: refusals, the Firefox canary, the block
    list, the cache, the upstreams, and the answer and log entry each path
    ends in.  A request runs without waiting up to the point where it needs
    the network ([prepare]), and again once the network has answered
    ([finish]) or the request's time is up ([budget_spent]); [handle] puts the
    parts together.  The device registry and the write queue are behind the
    interface [QueryObserver]. *)
From S2P Require Import Prelude Str Addr Acl Blocklist Config Netinfo DnsMsg Cache Upstream Db.
Open Scope Z_scope.

Definition BLOCK_TTL : Z := 60.
Definition FIREFOX_CANARY : string := "use-application-dns.net".
Definition FIREFOX_CANARY_LABEL : string := "firefox-doh-canary".

(* ------------------------------------------------------------------ *)
(** ** The interface to the registry and the write queue

    [touch] is [DeviceStore::touch_ip], [learn] is
    [DeviceStore::learn_from_dns], [record_query] is [Writer::send] of a
    query.  An observer promises that each recorded query is offered to the
    write queue exactly once, modulo the width of its counter, and that the
    other two offer none. *)

Class QueryObserver `{Hickory} (S : Type) : Type := {
  touch : Instant -> Z -> IpAddr -> S -> S;
  learn : Instant -> Z -> Message -> S -> S;
  record_query : QueryEvent -> S -> S;
  offered : S -> Z;
  touch_offers now ts ip s : offered (touch now ts ip s) = offered s;
  learn_offers now ts m s : offered (learn now ts m s) = offered s;
  record_offers e s : wrap 64 (offered (record_query e s)) = wrap 64 (offered s + 1) }.

(* ------------------------------------------------------------------ *)
(** ** State *)

Record Stats : Type := mk_stats {
  total : Z;
  blocked : Z;
  cache_hits : Z;
  upstream_errors : Z;
  denied : Z;
  udp_overload_drops : Z;
  tcp_rejections : Z;
  request_timeouts : Z }.
Definition default_stats : Stats := mk_stats 0 0 0 0 0 0 0 0.

(** [fetch_add(1, Relaxed)] on each counter. *)
Definition add_total (s : Stats) : Stats :=
  mk_stats (wrap 64 (total s + 1)) (blocked s) (cache_hits s) (upstream_errors s) (denied s)
    (udp_overload_drops s) (tcp_rejections s) (request_timeouts s).
Definition add_blocked (s : Stats) : Stats :=
  mk_stats (total s) (wrap 64 (blocked s + 1)) (cache_hits s) (upstream_errors s) (denied s)
    (udp_overload_drops s) (tcp_rejections s) (request_timeouts s).
Definition add_cache_hit (s : Stats) : Stats :=
  mk_stats (total s) (blocked s) (wrap 64 (cache_hits s + 1)) (upstream_errors s) (denied s)
    (udp_overload_drops s) (tcp_rejections s) (request_timeouts s).
Definition add_upstream_error (s : Stats) : Stats :=
  mk_stats (total s) (blocked s) (cache_hits s) (wrap 64 (upstream_errors s + 1)) (denied s)
    (udp_overload_drops s) (tcp_rejections s) (request_timeouts s).
Definition add_denied (s : Stats) : Stats :=
  mk_stats (total s) (blocked s) (cache_hits s) (upstream_errors s) (wrap 64 (denied s + 1))
    (udp_overload_drops s) (tcp_rejections s) (request_timeouts s).
Definition add_udp_overload (s : Stats) : Stats :=
  mk_stats (total s) (blocked s) (cache_hits s) (upstream_errors s) (denied s)
    (wrap 64 (udp_overload_drops s + 1)) (tcp_rejections s) (request_timeouts s).
Definition add_tcp_rejection (s : Stats) : Stats :=
  mk_stats (total s) (blocked s) (cache_hits s) (upstream_errors s) (denied s)
    (udp_overload_drops s) (wrap 64 (tcp_rejections s + 1)) (request_timeouts s).
Definition add_timeout (s : Stats) : Stats :=
  mk_stats (total s) (blocked s) (cache_hits s) (upstream_errors s) (denied s)
    (udp_overload_drops s) (tcp_rejections s) (wrap 64 (request_timeouts s + 1)).

(* ------------------------------------------------------------------ *)
(** ** Building answers *)

Section Answers.
Context `{Codec}.

Definition base_response (request : Message) (our_max_payload : Z) : Message :=
  let resp := response (id (metadata request)) in
  let resp := set_flags (recursion_desired (metadata request)) true (checking_disabled (metadata request)) resp in
  let resp := set_queries (queries request) resp in
  match response_edns request our_max_payload with
  | Some e => set_edns e resp
  | None => resp
  end.

Definition error_response (request : Message) (code our_max_payload : Z) : Message :=
  set_response_code code (base_response request our_max_payload).

Definition encode (msg : Message) : option string := to_vec msg.

(** [blocking.mode]'s answer for a blocked name. *)
Definition sinkhole (block_nxdomain : bool) (limit : Z) (request : Message) (qtype : Z) : Message :=
  let resp := base_response request limit in
  if block_nxdomain then set_response_code NXDomain resp
  else match head (queries request) with
  | Some query =>
      let answer data := set_sections (answers resp ++ [mk_record (q_name query) BLOCK_TTL data])
                           (authorities resp) (additionals resp) resp in
      if qtype =? TYPE_A then answer (A 0)
      else if qtype =? TYPE_AAAA then answer (AAAA 0)
      else resp
  | None => resp
  end.

(** The envelope of this request around the sections of a cached answer. *)
Definition from_cache (msg : Message) (limit : Z) (hit : CachedAnswer) : Message :=
  set_sections (ca_answers hit) (ca_authorities hit) (ca_additionals hit)
    (set_authoritative (ca_authoritative hit)
      (set_response_code (ca_response_code hit) (base_response msg limit))).

Definition summarize_record (rec : Record_) : string :=
  match r_data rec with
  | A a => show_ipv4 a
  | AAAA a => show_ipv6 a
  | CNAME c => to_ascii c
  | PTR p => to_ascii p
  | MX x _ => to_ascii x
  | TXT _ => "TXT"
  | _ => show_rtype (record_type rec)
  end.
Definition summarize_answers (msg : Message) : option string :=
  match answers msg with
  | [] => None
  | l =>
      let parts := map summarize_record (take 4 l) in
      let parts := if (4 <? length l)%nat
                   then parts ++ ["+" +:+ show_uint (Z.of_nat (length l - 4))] else parts in
      Some (str_join ", " parts)
  end.

Definition query_name (q : Question) : string :=
  to_ascii_lowercase (trim_end_matches "." (to_ascii (q_name q))).

(** The status logged for an upstream's answer. *)
Definition status_of (code : Z) : QueryStatus :=
  if code =? NoError then Forwarded
  else if code =? NXDomain then NxDomain
  else if code =? Refused then SRefused
  else SServFail.

(** Keep a UDP answer within the size the client said it could accept. *)
Definition udp_limit (req : Message) (our_max_payload : Z) : Z :=
  Z.max (Z.min (max_payload req) our_max_payload) 512.
Definition fit_udp (request response : string) (our_max_payload : Z) : option string :=
  let! req := from_vec request in
  if str_len response <=? udp_limit req our_max_payload then Some response
  else
    let! resp := from_vec response in
    to_vec (truncate resp).
End Answers.

(* ------------------------------------------------------------------ *)
(** ** The resolver *)

(** The readings of the two clocks during one uninterrupted run. *)
Record Clock : Type := mk_clock {
  ck_lookup : Instant; ck_evict : Instant; ck_insert : Instant;
  ck_learn : Instant; ck_learn_ts : Z;
  ck_touch : Instant; ck_touch_ts : Z;
  ck_log_ts : Z }.

Section Resolver.
Context `{Codec} {S : Type} `{!QueryObserver S}.
Context (order : gmap Key Cache.Entry -> list (Key * Cache.Entry)).

Record Resolver : Type := mk_resolver {
  r_cfg : DnsConfig;
  r_acl : Acl;
  warned_denied : bool;
  block_nxdomain : bool;
  doh_disabled : bool;
  r_blocklist : Lock Blocklist;
  r_cache : Lock Cache;
  r_obs : S;
  r_stats : Stats }.

Definition set_stats (f : Stats -> Stats) (r : Resolver) : Resolver :=
  mk_resolver (r_cfg r) (r_acl r) (warned_denied r) (block_nxdomain r) (doh_disabled r)
    (r_blocklist r) (r_cache r) (r_obs r) (f (r_stats r)).
Definition set_warned (r : Resolver) : Resolver :=
  mk_resolver (r_cfg r) (r_acl r) true (block_nxdomain r) (doh_disabled r)
    (r_blocklist r) (r_cache r) (r_obs r) (r_stats r).
Definition set_cache (c : Cache) (r : Resolver) : Resolver :=
  mk_resolver (r_cfg r) (r_acl r) (warned_denied r) (block_nxdomain r) (doh_disabled r)
    (r_blocklist r) (lock_set (r_cache r) c) (r_obs r) (r_stats r).
Definition set_obs (f : S -> S) (r : Resolver) : Resolver :=
  mk_resolver (r_cfg r) (r_acl r) (warned_denied r) (block_nxdomain r) (doh_disabled r)
    (r_blocklist r) (r_cache r) (f (r_obs r)) (r_stats r).

(** [Resolver::new]; the list of rules was checked when the configuration
    was loaded, and an unparsable one falls back to the empty list. *)
Definition new_resolver (cfg : Config) (lan : option Subnet) (bl : Lock Blocklist) (obs : S) : Resolver :=
  let acl := match Acl.parse (allow_from (dns cfg)) with Ok a => a | Err _ => mk_acl [] end in
  let acl := match lan with
             | Some s => fst (trust_subnet acl (network s) (prefix_len s))
             | None => acl
             end in
  mk_resolver (dns cfg) acl false (blocking_mode (blocking cfg) =? "nxdomain")%string
    (disable_firefox_doh (blocking cfg)) bl
    (new_lock (new_cache (cache_max_entries (dns cfg)) (cache_min_ttl (dns cfg)) (cache_max_ttl (dns cfg))))
    obs default_stats.

Definition udp_payload_limit (r : Resolver) : Z := upstream_udp_payload (r_cfg r).

Definition resolver_allows (client : IpAddr) (r : Resolver) : Resolver * bool :=
  if Acl.allows (r_acl r) client then (r, true)
  else (set_warned (set_stats add_denied r), false).

Definition note_udp_overload (r : Resolver) : Resolver := set_stats add_udp_overload r.
Definition note_tcp_rejection (r : Resolver) : Resolver := set_stats add_tcp_rejection r.

Definition resolver_cache_len (r : Resolver) : Z :=
  match lock_ok (r_cache r) with Some c => cache_len c | None => 0 end.
Definition flush_cache (r : Resolver) : Resolver :=
  match lock_ok (r_cache r) with Some c => set_cache (clear c) r | None => r end.
(** One tick of [cache_sweeper]. *)
Definition sweep_cache (now : Instant) (r : Resolver) : Resolver :=
  match lock_ok (r_cache r) with Some c => set_cache (sweep now c) r | None => r end.

(** [Resolver::log]. *)
Definition log (ck : Clock) (domain : string) (qtype : Z) (client : IpAddr) (status : QueryStatus)
    (elapsed_ms : option Z) (answer blocklist : option string) (r : Resolver) : Resolver :=
  set_obs (fun o =>
    record_query (mk_event (ck_log_ts ck) (show_ip client) domain (show_rtype qtype) status
                    elapsed_ms answer blocklist)
      (touch (ck_touch ck) (ck_touch_ts ck) client o)) r.

(** The block list's verdict on a name; the root is never blocked. *)
Definition blocked_by (name : string) (r : Resolver) : option string :=
  if is_empty name then None
  else let! bl := lock_ok (r_blocklist r) in Blocklist.lookup bl name.

(** [if self.cfg.cache && let Some(key) = ..]: look the key up. *)
Definition cache_lookup (now : Instant) (key : option Key) (r : Resolver) : Resolver * option CachedAnswer :=
  if cache_enabled (r_cfg r) then
    match key with
    | Some key =>
        match lock_ok (r_cache r) with
        | Some c => let p := Cache.get now key c in (set_cache (fst p) r, snd p)
        | None => (r, None)
        end
    | None => (r, None)
    end
  else (r, None).

Definition cache_store (ck : Clock) (key : option Key) (m : Message) (r : Resolver) : Resolver :=
  if cache_enabled (r_cfg r) then
    match key with
    | Some key =>
        match lock_ok (r_cache r) with
        | Some c => set_cache (fst (Cache.insert order (ck_evict ck) (ck_insert ck) key m c)) r
        | None => r
        end
    | None => r
    end
  else r.

(** What [handle_inner] has decided when it first waits. *)
Inductive Prepared : Type :=
  | Reply (out : option string)
  | MustForward (msg : Message) (query : Question) (key : option Key).

Definition prepare (ck : Clock) (request : string) (client : SocketAddr) (r0 : Resolver) : Resolver * Prepared :=
  let r := set_stats add_total r0 in
  let limit := upstream_udp_payload (r_cfg r) in
  match from_vec request with
  | None => (r, Reply None)
  | Some msg =>
      if negb (bool_decide (message_type (metadata msg) = Query)) || negb (op_code (metadata msg) =? OP_QUERY)
      then (r, Reply (encode (error_response msg Refused limit)))
      else match head (queries msg) with
      | None => (r, Reply (encode (error_response msg FormErr limit)))
      | Some query =>
          let name := query_name query in
          let qtype := query_type query in
          let client_ip := sa_ip client in
          if doh_disabled r && (name =? FIREFOX_CANARY)%string then
            let resp := set_response_code NXDomain (base_response msg limit) in
            let r := set_stats add_blocked r in
            let r := log ck name qtype client_ip Blocked None None (Some FIREFOX_CANARY_LABEL) r in
            (r, Reply (encode resp))
          else match blocked_by name r with
          | Some list =>
              let r := set_stats add_blocked r in
              let resp := sinkhole (block_nxdomain r) limit msg qtype in
              let r := log ck name qtype client_ip Blocked None None (Some list) r in
              (r, Reply (encode resp))
          | None =>
              let key := from_request msg name in
              match cache_lookup (ck_lookup ck) key r with
              | (r, Some hit) =>
                  let resp := from_cache msg limit hit in
                  let r := set_stats add_cache_hit r in
                  let r := log ck name qtype client_ip Cached None (summarize_answers resp) None r in
                  (r, Reply (encode resp))
              | (r, None) => (r, MustForward msg query key)
              end
          end
      end
  end.

(** After [forward]: [elapsed] is the time it took. *)
Definition finish (ck : Clock) (client : SocketAddr) (msg : Message) (query : Question) (key : option Key)
    (elapsed : Duration) (res : result UpstreamError string) (r : Resolver) : Resolver * option string :=
  let name := query_name query in
  let qtype := query_type query in
  let client_ip := sa_ip client in
  match res with
  | Ok raw =>
      let elapsed := Z.min (as_millis elapsed) u32_max in
      match from_vec raw with
      | Some m =>
          let r := cache_store ck key m r in
          let r := set_obs (learn (ck_learn ck) (ck_learn_ts ck) m) r in
          (log ck name qtype client_ip (status_of (response_code (metadata m))) (Some elapsed)
             (summarize_answers m) None r, Some raw)
      | None => (log ck name qtype client_ip Forwarded (Some elapsed) None None r, Some raw)
      end
  | Err _ =>
      let r := set_stats add_upstream_error r in
      let r := log ck name qtype client_ip SServFail None None None r in
      (r, encode (error_response msg ServFail (upstream_udp_payload (r_cfg r))))
  end.

(** The request's time is up. *)
Definition budget_spent (request : string) (r : Resolver) : Resolver * option string :=
  let r := set_stats add_timeout r in
  (r, let! msg := from_vec request in
      encode (error_response msg ServFail (upstream_udp_payload (r_cfg r)))).

Definition ask_upstreams (net : nat -> Script) (request : string) (msg : Message) (r : Resolver)
    : Duration * result UpstreamError string :=
  let cfg := r_cfg r in
  forward (upstream_timeout_ms cfg) (upstream_udp_payload cfg) (upstreams cfg) net request msg.

(** What a request meets: the clock before and after the network, the
    network, and the state of the resolver when the network has answered,
    which other requests may have changed meanwhile. *)
Record Env : Type := mk_env {
  env_before : Clock;
  env_after : Clock;
  env_net : nat -> Script;
  env_others : Resolver -> Resolver }.

(** [Resolver::handle]: the time taken and the raw answer. *)
Definition handle (env : Env) (request : string) (client : SocketAddr) (r : Resolver)
    : Resolver * (Duration * option string) :=
  match prepare (env_before env) request client r with
  | (r1, Reply out) => (r1, (0, out))
  | (r1, MustForward msg query key) =>
      let asked := ask_upstreams (env_net env) request msg r1 in
      let r2 := env_others env r1 in
      match timeout (from_millis (request_timeout_ms (r_cfg r1))) (Ready (fst asked) (snd asked)) with
      | (t, Some res) =>
          let p := finish (env_after env) client msg query key t res r2 in (fst p, (t, snd p))
      | (t, None) => let p := budget_spent request r2 in (fst p, (t, snd p))
      end
  end.
End Resolver.

(* ------------------------------------------------------------------ *)
(** ** What answers look like *)

Section Envelopes.
Context `{Codec}.

(** An answer in this request's envelope: its identifier, its questions, its
    RD and CD bits, recursion available, and an OPT record exactly if the
    request has one, with the DO bit of the request and a size no larger
    than the client's or ours. *)
Record envelope (limit : Z) (req resp : Message) : Prop := mk_envelope {
  en_id : id (metadata resp) = id (metadata req);
  en_type : message_type (metadata resp) = Response;
  en_queries : queries resp = queries req;
  en_rd : recursion_desired (metadata resp) = recursion_desired (metadata req);
  en_ra : recursion_available (metadata resp) = true;
  en_cd : checking_disabled (metadata resp) = checking_disabled (metadata req);
  en_tc : truncation (metadata resp) = false;
  en_edns : match edns req, edns resp with
            | None, None => True
            | Some e, Some e' => e_dnssec_ok e' = e_dnssec_ok e /\
                e_max_payload e' = Z.max (Z.min (e_max_payload e) limit) 512
            | _, _ => False
            end }.

Lemma base_response_eq req limit :
  base_response req limit = mk_message
    (mk_metadata (id (metadata req)) Response OP_QUERY NoError false false
       (recursion_desired (metadata req)) true (checking_disabled (metadata req)))
    (queries req) [] [] [] (response_edns req limit).
Proof.
  unfold base_response. rewrite response_empty. destruct (response_edns req limit) as [e|]; [|done].
  by rewrite set_edns_field_eq.
Qed.

Lemma base_response_envelope req limit : envelope limit req (base_response req limit).
Proof.
  rewrite base_response_eq. split; try done. cbn [edns].
  unfold response_edns. destruct (edns req) as [e|]; [|done].
  rewrite e_dnssec_ok_set, e_max_payload_do, e_max_payload_version. split; [done|].
  destruct (Z.ltb_spec (Z.min (e_max_payload e) limit) 512).
  - rewrite e_max_payload_small by done. lia.
  - rewrite e_max_payload_set by done. lia.
Qed.

(** Changing the sections, the response code or AA keeps the envelope. *)
Lemma envelope_code limit req resp c : envelope limit req resp -> envelope limit req (set_response_code c resp).
Proof. intros []. by split. Qed.
Lemma envelope_aa limit req resp b : envelope limit req resp -> envelope limit req (set_authoritative b resp).
Proof. intros []. by split. Qed.
Lemma envelope_sections limit req resp a b c :
  envelope limit req resp -> envelope limit req (set_sections a b c resp).
Proof. intros []. by split. Qed.

Lemma error_response_envelope req code limit : envelope limit req (error_response req code limit).
Proof. apply envelope_code, base_response_envelope. Qed.
Lemma from_cache_envelope req limit hit : envelope limit req (from_cache req limit hit).
Proof. apply envelope_sections, envelope_aa, envelope_code, base_response_envelope. Qed.
Lemma sinkhole_envelope nx req limit t : envelope limit req (sinkhole nx limit req t).
Proof.
  unfold sinkhole. destruct nx; [apply envelope_code, base_response_envelope|].
  destruct (head (queries req)); [|apply base_response_envelope].
  repeat case_match; try apply envelope_sections; apply base_response_envelope.
Qed.
End Envelopes.
#[export] Hint Resolve base_response_envelope error_response_envelope from_cache_envelope
  sinkhole_envelope envelope_code : nw.

(* ------------------------------------------------------------------ *)
(** ** Lemmas about requests *)

Section Requests.
Context `{Codec} {S : Type} `{!QueryObserver S}.
Abbreviation Resolver := (Resolver (S := S)).

(** A request that is served: a standard query with a question. *)
Definition question_of (request : string) : option (Message * Question) :=
  let! msg := from_vec request in
  if bool_decide (message_type (metadata msg) = Query) && (op_code (metadata msg) =? OP_QUERY)
  then let! q := head (queries msg) in Some (msg, q) else None.

(** The label of the rule that answers a name at home. *)
Definition verdict (name : string) (r : Resolver) : option string :=
  if doh_disabled r && (name =? FIREFOX_CANARY)%string then Some FIREFOX_CANARY_LABEL else blocked_by name r.
Definition home_answer (r : Resolver) (msg : Message) (q : Question) : Message :=
  let limit := udp_payload_limit r in
  if doh_disabled r && (query_name q =? FIREFOX_CANARY)%string
  then set_response_code NXDomain (base_response msg limit)
  else sinkhole (block_nxdomain r) limit msg (query_type q).

(** What may be sent back for a request: an answer in its own envelope, or
    the verbatim reply of an upstream to this very request. *)
Definition proper_reply (limit : Z) (request out : string) : Prop :=
  exists msg, from_vec request = Some msg /\
    ((exists resp, to_vec resp = Some out /\ envelope limit msg resp) \/
     (exists m, from_vec out = Some m /\ answers_request msg m = true)).

Lemma home_answer_envelope r msg q : envelope (udp_payload_limit r) msg (home_answer r msg q).
Proof. unfold home_answer. case_match; auto with nw. Qed.

Lemma cache_lookup_facts now key (r : Resolver) :
  let r' := fst (cache_lookup now key r) in
  r_cfg r' = r_cfg r /\ r_acl r' = r_acl r /\ block_nxdomain r' = block_nxdomain r /\
  doh_disabled r' = doh_disabled r /\ r_blocklist r' = r_blocklist r /\ r_obs r' = r_obs r /\ r_stats r' = r_stats r.
Proof. unfold cache_lookup. repeat case_match; done. Qed.

(** [prepare] case by case: not a question, answered at home, in the cache,
    or to be forwarded. *)
Lemma prepare_other ck request client (r : Resolver) :
  question_of request = None ->
  prepare ck request client r = (set_stats add_total r, Reply
    (let! msg := from_vec request in
     encode (error_response msg
       (if bool_decide (message_type (metadata msg) = Query) && (op_code (metadata msg) =? OP_QUERY)
        then FormErr else Refused) (udp_payload_limit r)))).
Proof.
  unfold question_of, prepare. destruct (from_vec request) as [msg|]; [|done].
  rewrite <-negb_andb. destruct (_ && _); simpl; [|done]. by destruct (head (queries msg)).
Qed.

Lemma prepare_home ck request client (r : Resolver) msg q label :
  question_of request = Some (msg, q) -> verdict (query_name q) r = Some label ->
  prepare ck request client r =
    (log ck (query_name q) (query_type q) (sa_ip client) Blocked None None (Some label)
       (set_stats add_blocked (set_stats add_total r)),
     Reply (encode (home_answer r msg q))).
Proof.
  unfold question_of, prepare, verdict, home_answer. destruct (from_vec request) as [m|]; [|done].
  rewrite <-negb_andb. destruct (_ && (op_code _ =? _)); simpl; [|done].
  destruct (head (queries m)) as [q'|]; [|done]. intros [= -> ->].
  destruct (doh_disabled r && (query_name q =? FIREFOX_CANARY)%string); [by intros [= <-]|].
  change (blocked_by (query_name q) (set_stats add_total r)) with (blocked_by (query_name q) r).
  by intros ->.
Qed.

Lemma prepare_lookup ck request client (r : Resolver) msg q :
  question_of request = Some (msg, q) -> verdict (query_name q) r = None ->
  let key := from_request msg (query_name q) in
  let p := cache_lookup (ck_lookup ck) key (set_stats add_total r) in
  prepare ck request client r =
    match snd p with
    | Some hit =>
        let resp := from_cache msg (udp_payload_limit r) hit in
        (log ck (query_name q) (query_type q) (sa_ip client) Cached None (summarize_answers resp) None
           (set_stats add_cache_hit (fst p)), Reply (encode resp))
    | None => (fst p, MustForward msg q key)
    end.
Proof.
  unfold question_of, prepare, verdict. destruct (from_vec request) as [m|]; [|done].
  rewrite <-negb_andb. destruct (_ && (op_code _ =? _)); simpl; [|done].
  destruct (head (queries m)) as [q'|]; [|done]. intros [= -> ->].
  destruct (doh_disabled r && (query_name q =? FIREFOX_CANARY)%string); [done|].
  change (blocked_by (query_name q) (set_stats add_total r)) with (blocked_by (query_name q) r).
  intros ->. by destruct (cache_lookup _ _ _) as [r1 [hit|]].
Qed.

(** Every request falls in one of these cases. *)
Lemma prepare_cases request (r : Resolver) :
  question_of request = None \/
  exists msg q, question_of request = Some (msg, q) /\
    ((exists label, verdict (query_name q) r = Some label) \/ verdict (query_name q) r = None).
Proof.
  destruct (question_of request) as [[msg q]|]; [right|by left]. exists msg, q. split; [done|].
  destruct (verdict _ r); eauto.
Qed.

Lemma question_of_from request msg q : question_of request = Some (msg, q) -> from_vec request = Some msg.
Proof.
  unfold question_of. destruct (from_vec request) as [m|]; [|done]. destruct (_ && _); [|done].
  destruct (head _); [|done]. by intros [= -> ->].
Qed.

(** What [prepare] leaves for later, or answers. *)
Lemma prepare_out ck request client (r r1 : Resolver) p :
  prepare ck request client r = (r1, p) ->
  r_cfg r1 = r_cfg r /\
  match p with
  | Reply out => forall msg, from_vec request = Some msg ->
      exists resp, envelope (udp_payload_limit r) msg resp /\ out = to_vec resp
  | MustForward msg q key => question_of request = Some (msg, q) /\ verdict (query_name q) r = None /\
      key = from_request msg (query_name q)
  end /\ (from_vec request = None -> p = Reply None).
Proof.
  destruct (prepare_cases request r) as [Hq|(msg & q & Hq & [[label Hv]|Hv])].
  - rewrite prepare_other by done. intros [= <- <-]. split_and!; [done| |by intros ->].
    intros msg ->. eauto with nw.
  - rewrite (prepare_home _ _ _ _ msg q label) by done. apply question_of_from in Hq as Hm.
    rewrite Hm. intros [= <- <-]. split_and!; [done| |done].
    intros m [= <-]. eauto using home_answer_envelope.
  - rewrite (prepare_lookup _ _ _ _ msg q) by done. apply question_of_from in Hq as Hm. rewrite Hm.
    destruct (cache_lookup_facts (ck_lookup ck) (from_request msg (query_name q)) (set_stats add_total r)) as [Hc _].
    destruct (snd _) as [hit|]; intros [= <- <-]; (split; [exact Hc|]); (split; [|done]); [|done].
    intros m [= <-]. eauto with nw.
Qed.
End Requests.

(* ------------------------------------------------------------------ *)
(** ** Properties *)

Section Properties.
Context `{Codec} {S : Type} `{!QueryObserver S}.
Context (order : gmap Key Cache.Entry -> list (Key * Cache.Entry)).
Abbreviation Resolver := (Resolver (S := S)).

(** [handle] when the request is decided without the network. *)
Lemma handle_reply env request client (r r1 : Resolver) out :
  prepare (env_before env) request client r = (r1, Reply out) ->
  handle order env request client r = (r1, (0, out)).
Proof. unfold handle. by intros ->. Qed.

(** [handle] when it is not. *)
Lemma handle_forward env request client (r r1 : Resolver) msg q key :
  prepare (env_before env) request client r = (r1, MustForward msg q key) ->
  let asked := ask_upstreams (env_net env) request msg r1 in
  let budget := from_millis (request_timeout_ms (r_cfg r)) in
  handle order env request client r =
    if fst asked <=? budget
    then let p := finish order (env_after env) client msg q key (fst asked) (snd asked) (env_others env r1) in
         (fst p, (fst asked, snd p))
    else let p := budget_spent request (env_others env r1) in (fst p, (budget, snd p)).
Proof.
  intros Hp. pose proof (prepare_out _ _ _ _ _ _ Hp) as [Hc _].
  cbv zeta. unfold handle. rewrite Hp, Hc. cbn [timeout].
  by destruct (Z.leb _ _).
Qed.

Lemma finish_out ck client msg q key t res (r : Resolver) :
  snd (finish order ck client msg q key t res r) =
    match res with
    | Ok raw => Some raw
    | Err _ => encode (error_response msg ServFail (udp_payload_limit r))
    end.
Proof. unfold finish. destruct res as [raw|e]; [|done]. by destruct (from_vec raw). Qed.

Lemma budget_spent_out request (r : Resolver) :
  snd (budget_spent request r) =
    let! msg := from_vec request in encode (error_response msg ServFail (udp_payload_limit r)).
Proof. done. Qed.

(** Each way a request can end sends a proper reply or none. *)
Lemma prepared_reply_proper ck request client (r r1 : Resolver) out :
  prepare ck request client r = (r1, Reply (Some out)) -> proper_reply (udp_payload_limit r) request out.
Proof.
  intros (_ & Hout & Hnone)%prepare_out. unfold proper_reply.
  destruct (from_vec request) as [msg|]; [|by specialize (Hnone eq_refl)].
  destruct (Hout msg eq_refl) as (resp & He & Hv). eauto 6.
Qed.
Lemma finish_proper ck client msg q key t net request (r r2 : Resolver) out :
  question_of request = Some (msg, q) ->
  snd (finish order ck client msg q key t (snd (ask_upstreams net request msg r)) r2) = Some out ->
  proper_reply (udp_payload_limit r2) request out.
Proof.
  intros Hq%question_of_from. rewrite finish_out. intros Ho. exists msg. split; [done|].
  destruct (snd (ask_upstreams _ _ _ _)) as [raw|e] eqn:Hf.
  - injection Ho as ->. right. apply forward_from_ok in Hf as (k & u & _ & Hf & _).
    apply accept_ok in Hf as (_ & m & ? & ?). eauto.
  - left. eauto with nw.
Qed.
Lemma budget_spent_proper request (r : Resolver) out :
  snd (budget_spent request r) = Some out -> proper_reply (udp_payload_limit r) request out.
Proof.
  rewrite budget_spent_out. unfold proper_reply. destruct (from_vec request) as [msg|]; [|done].
  intros Ho. exists msg. eauto with nw.
Qed.


(** C3. The resolver never goes silent: within its time budget a request that
    is a DNS message gets an answer, unless an answer in the request's
    envelope cannot be encoded; and bytes that are not a message get none. *)
Theorem always_answers_in_time env request client (r : Resolver) :
  (forall x, r_cfg (env_others env x) = r_cfg x) -> 0 <= request_timeout_ms (r_cfg r) ->
  let p := snd (handle order env request client r) in
  fst p <= from_millis (request_timeout_ms (r_cfg r)) /\
  match from_vec request with
  | None => snd p = None
  | Some msg => snd p = None ->
      exists resp, envelope (udp_payload_limit r) msg resp /\ to_vec resp = None
  end.
Proof.
  intros Ho Hb. cbv zeta. assert (0 <= from_millis (request_timeout_ms (r_cfg r))) by (unfold from_millis; lia).
  destruct (prepare (env_before env) request client r) as [r1 p] eqn:Hp.
  pose proof (prepare_out _ _ _ _ _ _ Hp) as (Hc & Hout & Hnone). destruct p as [o|msg q key].
  - rewrite (handle_reply _ _ _ _ _ _ Hp). cbn [fst snd]. split; [done|].
    destruct (from_vec request) as [msg|]; [|by injection (Hnone eq_refl)].
    destruct (Hout msg eq_refl) as (resp & He & ->). eauto.
  - destruct Hout as (Hq & _ & _). apply question_of_from in Hq. rewrite Hq.
    rewrite (handle_forward _ _ _ _ _ _ _ _ Hp).
    assert (udp_payload_limit (env_others env r1) = udp_payload_limit r) as Hl.
    { unfold udp_payload_limit. by rewrite Ho, Hc. }
    destruct (Z.leb_spec (fst (ask_upstreams (env_net env) request msg r1))
      (from_millis (request_timeout_ms (r_cfg r)))); cbn [fst snd]; (split; [lia|]).
    + rewrite finish_out. destruct (snd _) as [raw|e]; [done|]. rewrite Hl. eauto with nw.
    + rewrite budget_spent_out, Hq, Hl. eauto with nw.
Qed.

(** C4. A blocked name never leaves the house: whatever the network does, it
    is answered at once with the canary's NXDOMAIN or the sinkhole's answer,
    in the request's envelope; the cache is not consulted, and exactly one
    blocked event, naming the rule, is logged after the client was seen. *)
Theorem blocked_answered_at_home env request client (r : Resolver) msg q label :
  question_of request = Some (msg, q) -> verdict (query_name q) r = Some label ->
  handle order env request client r =
    (mk_resolver (r_cfg r) (r_acl r) (warned_denied r) (block_nxdomain r) (doh_disabled r)
       (r_blocklist r) (r_cache r)
       (record_query (mk_event (ck_log_ts (env_before env)) (show_ip (sa_ip client)) (query_name q)
                        (show_rtype (query_type q)) Blocked None None (Some label))
          (touch (ck_touch (env_before env)) (ck_touch_ts (env_before env)) (sa_ip client) (r_obs r)))
       (add_blocked (add_total (r_stats r))),
     (0, to_vec (home_answer r msg q))) /\
  envelope (udp_payload_limit r) msg (home_answer r msg q).
Proof.
  intros Hq Hv. split; [|apply home_answer_envelope].
  rewrite (handle_reply _ _ _ _ _ _ (prepare_home (env_before env) request client r msg q label Hq Hv)). done.
Qed.

(** The sinkhole's answer, and the canary's. *)
Definition sinkhole_data (t : Z) : option RData :=
  if t =? TYPE_A then Some (A 0) else if t =? TYPE_AAAA then Some (AAAA 0) else None.

(** What a blocked name resolves to: NXDOMAIN and nothing else for the
    Firefox canary in every mode and for all names in NXDOMAIN mode;
    otherwise no error and, for an A or AAAA question only, the one record
    that points the name at the null address for sixty seconds. *)
Theorem home_answer_spec (r : Resolver) msg q :
  head (queries msg) = Some q ->
  let nx := (doh_disabled r && (query_name q =? FIREFOX_CANARY)%string) || block_nxdomain r in
  let a := home_answer r msg q in
  response_code (metadata a) = (if nx then NXDomain else NoError) /\
  authorities a = [] /\ additionals a = [] /\
  answers a = (if nx then [] else
    match sinkhole_data (query_type q) with
    | Some d => [mk_record (q_name q) 60 d]
    | None => []
    end).
Proof.
  intros Hq. cbv zeta. unfold home_answer, sinkhole, sinkhole_data. rewrite Hq, base_response_eq.
  destruct (doh_disabled r && (query_name q =? FIREFOX_CANARY)%string); [done|]. cbn [orb].
  destruct (block_nxdomain r); [done|].
  destruct (query_type q =? TYPE_A); [done|]. by destruct (query_type q =? TYPE_AAAA).
Qed.

(** What the resolver owes the dashboard: one logged event or one counted
    time-out. *)
Definition accounted (r : Resolver) : Z := wrap 64 (offered (r_obs r) + request_timeouts (r_stats r)).

Lemma accounted_add_event e now ts ip (o : S) n :
  wrap 64 (offered (record_query e (touch now ts ip o)) + n) = wrap 64 (offered o + n + 1).
Proof.
  pose proof (record_offers e (touch now ts ip o)) as He. rewrite touch_offers in He. unfold wrap in *.
  rewrite Zplus_mod, He, <-Zplus_mod. f_equal. lia.
Qed.
Lemma accounted_log ck name t ip st el ans bl (r : Resolver) :
  accounted (log ck name t ip st el ans bl r) = wrap 64 (accounted r + 1).
Proof.
  unfold accounted at 1, log. cbn [set_obs r_obs r_stats]. rewrite accounted_add_event.
  unfold accounted, wrap. by rewrite Zplus_mod_idemp_l.
Qed.
Lemma accounted_stats f (r : Resolver) :
  (forall s, request_timeouts (f s) = request_timeouts s) -> accounted (set_stats f r) = accounted r.
Proof. intros Hf. unfold accounted. cbn [set_stats r_obs r_stats]. by rewrite Hf. Qed.
Lemma accounted_timeout (r : Resolver) : accounted (set_stats add_timeout r) = wrap 64 (accounted r + 1).
Proof.
  unfold accounted, add_timeout, wrap. cbn [set_stats r_obs r_stats request_timeouts]. unfold wrap.
  rewrite Zplus_mod_idemp_r, Zplus_mod_idemp_l. f_equal. lia.
Qed.
Lemma accounted_learn now ts m (r : Resolver) : accounted (set_obs (learn now ts m) r) = accounted r.
Proof. unfold accounted. cbn [set_obs r_obs r_stats]. by rewrite learn_offers. Qed.
Lemma accounted_store ck key m (r : Resolver) : accounted (cache_store order ck key m r) = accounted r.
Proof. unfold cache_store. repeat case_match; done. Qed.
Lemma accounted_lookup now key (r : Resolver) : accounted (fst (cache_lookup now key r)) = accounted r.
Proof. unfold cache_lookup. repeat case_match; done. Qed.

Lemma accounted_prepare ck request client (r r1 : Resolver) p :
  prepare ck request client r = (r1, p) ->
  accounted r1 = wrap 64 (accounted r + match p with
    | Reply _ => if is_some (question_of request) then 1 else 0 | MustForward _ _ _ => 0 end).
Proof.
  assert (forall x, wrap 64 (accounted x + 0) = accounted x) as Hz.
  { intros x. rewrite Z.add_0_r. unfold accounted, wrap. by rewrite Zmod_mod. }
  destruct (prepare_cases request r) as [Hq|(msg & q & Hq & [[label Hv]|Hv])]; rewrite Hq.
  - rewrite prepare_other by done. intros [= <- <-]. rewrite accounted_stats by done. symmetry. apply Hz.
  - rewrite (prepare_home _ _ _ _ msg q label) by done. intros [= <- <-].
    rewrite accounted_log, !accounted_stats by done. done.
  - rewrite (prepare_lookup _ _ _ _ msg q) by done.
    destruct (snd _) as [hit|]; intros [= <- <-].
    + rewrite accounted_log, accounted_stats, accounted_lookup, accounted_stats by done. done.
    + rewrite accounted_lookup, accounted_stats by done. symmetry. apply Hz.
Qed.

Lemma accounted_finish ck client msg q key t res (r : Resolver) :
  accounted (fst (finish order ck client msg q key t res r)) = wrap 64 (accounted r + 1).
Proof.
  unfold finish. destruct res as [raw|e]; [destruct (from_vec raw)|]; cbn [fst]; rewrite accounted_log.
  - by rewrite accounted_learn, accounted_store.
  - done.
  - by rewrite accounted_stats.
Qed.

(** Every request is accounted for once: a standard query with a question
    adds exactly one to the logged events and counted time-outs together,
    anything else adds nothing, and each adds one to the total. *)
Theorem one_event_per_question env request client (r : Resolver) :
  (forall x, accounted (env_others env x) = accounted x /\ total (r_stats (env_others env x)) = total (r_stats x)) ->
  let r' := fst (handle order env request client r) in
  accounted r' = wrap 64 (accounted r + if is_some (question_of request) then 1 else 0) /\
  total (r_stats r') = wrap 64 (total (r_stats r) + 1).
Proof.
  intros Ho. cbv zeta. destruct (prepare (env_before env) request client r) as [r1 p] eqn:Hp.
  pose proof (accounted_prepare _ _ _ _ _ _ Hp) as Ha.
  assert (total (r_stats r1) = wrap 64 (total (r_stats r) + 1)) as Ht.
  { destruct (prepare_cases request r) as [Hq|(msg & q & Hq & [[label Hv]|Hv])].
    - rewrite prepare_other in Hp by done. by injection Hp as <- _.
    - rewrite (prepare_home _ _ _ _ msg q label) in Hp by done. by injection Hp as <- _.
    - rewrite (prepare_lookup _ _ _ _ msg q) in Hp by done.
      pose proof (cache_lookup_facts (ck_lookup (env_before env)) (from_request msg (query_name q))
        (set_stats add_total r)) as (_ & _ & _ & _ & _ & _ & Hs).
      destruct (snd _) as [hit|]; injection Hp as <- _; cbn [log set_obs set_stats r_stats] in *; by rewrite Hs. }
  destruct p as [o|msg q key].
  - rewrite (handle_reply _ _ _ _ _ _ Hp). by split.
  - rewrite (handle_forward _ _ _ _ _ _ _ _ Hp).
    pose proof (prepare_out _ _ _ _ _ _ Hp) as (_ & (Hq & _ & _) & _). rewrite Hq. cbn [is_some].
    assert (accounted r1 = accounted r) as Ha'.
    { rewrite Ha, Z.add_0_r. unfold accounted, wrap. by rewrite Zmod_mod. }
    destruct (Ho r1) as [Hoa Hot]. destruct (Z.leb _ _); cbn [fst].
    + rewrite accounted_finish, Hoa, Ha'. split; [done|]. rewrite <-Ht, <-Hot. unfold finish.
      destruct (snd _) as [raw|e]; [|done]. destruct (from_vec raw); [|done].
      unfold cache_store. repeat case_match; done.
    + unfold budget_spent. cbn [fst]. rewrite accounted_timeout, Hoa, Ha'. split; [done|]. by rewrite <-Ht, <-Hot.
Qed.
End Properties.

(* ------------------------------------------------------------------ *)
(** ** Caching end to end, and the size of UDP answers *)

Section EndToEnd.
Context `{Codec} {S : Type} `{!QueryObserver S}.
Context (order : gmap Key Cache.Entry -> list (Key * Cache.Entry)).
Abbreviation Resolver := (Resolver (S := S)).

(** A stored answer is found while it lives. *)
Lemma insert_then_get t1 t2 now key m c ttl :
  cacheable_code (response_code (metadata m)) = true -> shortest_ttl m = Some ttl ->
  ttl <> 0 -> min_ttl c <= ttl -> now < t2 + from_secs (Z.min ttl (max_ttl c)) ->
  let el := wrap 32 (as_secs (duration_since now t2)) in
  snd (Cache.get now key (fst (Cache.insert order t1 t2 key m c))) =
    Some (mk_cached (age el (answers m)) (age el (authorities m))
      (age el (List.filter (fun r => negb (record_type r =? TYPE_OPT)) (additionals m)))
      (response_code (metadata m)) (authoritative (metadata m))).
Proof.
  intros Hc Ht Hz Hmin Hnow. cbv zeta.
  destruct (insert_cases order t1 t2 key m c) as [[_ [?|[?|(t & Ht' & Hd)]]]|(t & c1 & Ht' & _ & _ & _ & _ & ->)].
  - congruence.
  - congruence.
  - rewrite Ht in Ht'. injection Ht' as <-. lia.
  - rewrite Ht in Ht'. injection Ht' as <-. unfold Cache.get. cbn [fst map_ set_map].
    rewrite lookup_insert_eq. cbn [expires inserted c_answers c_authorities c_additionals c_response_code c_authoritative].
    destruct (Z.leb_spec (t2 + from_secs (Z.min ttl (max_ttl c))) now); [lia|done].
Qed.

(** C5. What one client's query fetched answers the next client from the
    cache: after a forwarded, cacheable answer, any request with the same
    key within the lifetime of the entry is answered at once, whatever the
    network does, with the answer's own records counted down, in the second
    request's envelope, and is logged as cached. *)
Theorem answered_again_from_cache env1 env2 request1 request2 client1 client2 (r r1 : Resolver) raw m c ttl
    msg1 q1 msg2 q2 key :
  prepare (env_before env1) request1 client1 r = (r1, MustForward msg1 q1 (Some key)) ->
  fst (ask_upstreams (env_net env1) request1 msg1 r1) <= from_millis (request_timeout_ms (r_cfg r)) ->
  snd (ask_upstreams (env_net env1) request1 msg1 r1) = Ok raw -> from_vec raw = Some m ->
  cacheable_code (response_code (metadata m)) = true -> shortest_ttl m = Some ttl -> ttl <> 0 ->
  (forall x, r_cfg (env_others env1 x) = r_cfg x) ->
  cache_enabled (r_cfg r) = true -> lock_ok (r_cache (env_others env1 r1)) = Some c -> min_ttl c <= ttl ->
  let r' := fst (handle order env1 request1 client1 r) in
  question_of request2 = Some (msg2, q2) -> verdict (query_name q2) r' = None ->
  from_request msg2 (query_name q2) = Some key ->
  let now := ck_lookup (env_before env2) in let t2 := ck_insert (env_after env1) in
  now < t2 + from_secs (Z.min ttl (max_ttl c)) ->
  let el := wrap 32 (as_secs (duration_since now t2)) in
  exists resp, snd (handle order env2 request2 client2 r') = (0, to_vec resp) /\
    envelope (udp_payload_limit r') msg2 resp /\
    answers resp = age el (answers m) /\ authorities resp = age el (authorities m) /\
    response_code (metadata resp) = response_code (metadata m) /\
    cache_hits (r_stats (fst (handle order env2 request2 client2 r')))
      = wrap 64 (cache_hits (r_stats r') + 1).
Proof.
  intros Hp Ht Hraw Hm Hcode Hs Hz Ho Hon Hlock Hmin r' Hq Hv Hk now t2 Hnow el.
  pose proof (prepare_out _ _ _ _ _ _ Hp) as (Hcfg & _).
  assert (r_cache r' = lock_set (r_cache (env_others env1 r1))
            (fst (Cache.insert order (ck_evict (env_after env1)) t2 key m c)) /\ r_cfg r' = r_cfg r) as [Hc' Hcfg'].
  { unfold r'. rewrite (handle_forward order _ _ _ _ _ _ _ _ Hp).
    destruct (Z.leb_spec (fst (ask_upstreams (env_net env1) request1 msg1 r1))
      (from_millis (request_timeout_ms (r_cfg r)))); [|lia].
    cbn [fst]. unfold finish. rewrite Hraw, Hm. unfold cache_store. rewrite Ho, Hcfg, Hon, Hlock. cbn [fst].
    split; [done|]. cbn [log set_obs set_cache r_cfg]. by rewrite Ho, Hcfg. }
  assert (lock_ok (r_cache r') = Some (fst (Cache.insert order (ck_evict (env_after env1)) t2 key m c))) as Hl.
  { rewrite Hc', lock_ok_set. unfold lock_ok in Hlock. by destruct (lk_poisoned _). }
  pose proof (prepare_lookup (env_before env2) request2 client2 r' msg2 q2 Hq Hv) as Hp2. cbv zeta in Hp2.
  rewrite Hk in Hp2. unfold cache_lookup in Hp2. cbn [set_stats r_cfg r_cache] in Hp2.
  rewrite Hcfg', Hon, Hl in Hp2. cbn [snd fst] in Hp2.
  rewrite (insert_then_get _ _ _ _ _ _ ttl) in Hp2 by done. fold now t2 el in Hp2.
  rewrite (handle_reply order _ _ _ _ _ _ Hp2). eexists. split; [reflexivity|].
  split; [apply from_cache_envelope|]. done.
Qed.

(** C6. A UDP answer fits: what is sent for a decodable request is the answer
    itself when it is no longer than the smaller of what the client accepts
    and what we send (at least 512 bytes), and otherwise the encoding of its
    truncated form, which has the same identifier and questions and tells
    the client to retry over TCP. *)
Theorem fit_udp_fits request raw our out :
  fit_udp request raw our = Some out ->
  exists req, from_vec request = Some req /\
    512 <= udp_limit req our <= Z.max our 512 /\
    udp_limit req our <= match edns req with Some e => Z.max (e_max_payload e) 512 | None => 512 end /\
    (str_len raw <= udp_limit req our /\ out = raw \/
     udp_limit req our < str_len raw /\
     exists resp, from_vec raw = Some resp /\ to_vec (truncate resp) = Some out /\
       truncation (metadata (truncate resp)) = true /\
       id (metadata (truncate resp)) = id (metadata resp) /\ queries (truncate resp) = queries resp).
Proof.
  unfold fit_udp. destruct (from_vec request) as [req|]; [|done]. intros Hf. exists req.
  assert (512 <= udp_limit req our <= Z.max our 512 /\
    udp_limit req our <= match edns req with Some e => Z.max (e_max_payload e) 512 | None => 512 end) as [? ?].
  { unfold udp_limit. rewrite max_payload_eq. destruct (edns req) as [e|]; lia. }
  split_and!; [done|lia|lia|lia|].
  destruct (Z.leb_spec (str_len raw) (udp_limit req our)); [left; by injection Hf as <-|].
  right. split; [done|]. destruct (from_vec raw) as [resp|]; [|done]. exists resp.
  split_and!; [done|done|apply truncate_flag|apply truncate_id|apply truncate_queries].
Qed.
End EndToEnd.

(* ------------------------------------------------------------------ *)
(** ** Witnesses *)

Section Witness.
#[local] Existing Instance simple_hickory.
#[local] Existing Instance simple_codec.

(** An observer that keeps the events. *)
#[refine] Definition list_observer : QueryObserver (list QueryEvent) := {|
  touch _ _ _ s := s; learn _ _ _ s := s; record_query e s := e :: s;
  offered s := Z.of_nat (length s) |}.
Proof. all: try reflexivity. intros e s. f_equal. simpl length. lia. Defined.
#[local] Existing Instance list_observer.

Definition w_clock (now : Instant) : Clock := mk_clock now now now now 0 now 0 0.
Definition w_env (now : Instant) (net : nat -> Script) : Env (S := list QueryEvent) := mk_env (w_clock now) (w_clock now) net (fun r => r).
Definition w_silent (i : nat) : Script := w_udp [] w_no_tcp.
Definition w_answers (i : nat) : Script :=
  w_udp [(from_millis 20, Datagram (simple_answer 7 +:+ "a.example"))] w_no_tcp.
Definition w_client : SocketAddr := mk_socket (V4 (ipv4 192 168 1 20)) 40000.
Definition w_block : Lock Blocklist :=
  new_lock (fst (ingest empty_blocklist ("ads.example" +:+ String newline "") "list" false)).
Definition w_r : Resolver (S := list QueryEvent) := new_resolver default_config None w_block [].
Definition w_ads : string := simple_header 9 false +:+ "ads.example".
Definition w_first : Resolver (S := list QueryEvent) := fst (handle w_order (w_env 0 w_answers) w_request w_client w_r).
Definition w_second : string := simple_header 8 false +:+ "A.Example.".

Lemma w_limit : udp_payload_limit w_r = 1232.
Proof. reflexivity. Qed.
Lemma w_handled : handle w_order (w_env 0 w_answers) w_request w_client w_r
  = (w_first, (from_millis 20, Some (simple_answer 7 +:+ "a.example"))).
Proof. reflexivity. Qed.


(** With every upstream silent the request ends with SERVFAIL. *)
Lemma always_answers_in_time_witness :
  fst (snd (handle w_order (w_env 0 w_silent) w_request w_client w_r)) <= from_millis 10000.
Proof.
  apply (always_answers_in_time w_order (w_env 0 w_silent) w_request w_client w_r); [done|].
  change (0 <= 10000). lia.
Defined.

Definition w_query (i : Z) (n : string) : Message :=
  mk_message (mk_metadata i Query OP_QUERY NoError false false true false false)
    [mk_question (n : @Name simple_hickory) TYPE_A 1] [] [] [] None.
Definition w_q (n : string) : Question := mk_question (n : @Name simple_hickory) TYPE_A 1.

Lemma blocked_answered_at_home_witness :
  envelope (udp_payload_limit w_r) (w_query 9 "ads.example") (home_answer w_r (w_query 9 "ads.example") (w_q "ads.example")).
Proof.
  apply (blocked_answered_at_home w_order (w_env 0 w_silent) w_ads w_client w_r _ _ "list"); reflexivity.
Defined.

Lemma home_answer_spec_witness :
  answers (home_answer w_r (w_query 9 "ads.example") (w_q "ads.example"))
    = [mk_record ("ads.example" : @Name simple_hickory) 60 (A 0)].
Proof. apply (home_answer_spec w_r (w_query 9 "ads.example") (w_q "ads.example")). reflexivity. Defined.

Lemma one_event_per_question_witness :
  accounted (fst (handle w_order (w_env 0 w_silent) w_request w_client w_r))
    = wrap 64 (accounted w_r + if is_some (question_of w_request) then 1 else 0).
Proof. apply (one_event_per_question w_order (w_env 0 w_silent) w_request w_client w_r). done. Defined.

Definition w_acache_key : Key := mk_key "a.example" TYPE_A 1 false false.
Definition w_answered : Message :=
  mk_message (mk_metadata 7 Query OP_QUERY NoError false false true false false)
    [w_q "a.example"] [mk_record ("a.example" : @Name simple_hickory) 300 (A 16909060)] [] [] None.

Definition w_prepared_state : Resolver (S := list QueryEvent) := set_cache (new_cache 20000 30 86400) (set_stats add_total w_r).
Lemma w_prepared :
  prepare (w_clock 0) w_request w_client w_r
    = (w_prepared_state, MustForward (w_query 7 "a.example") (w_q "a.example") (Some w_acache_key)).
Proof. reflexivity. Qed.
Lemma w_asked :
  ask_upstreams w_answers w_request (w_query 7 "a.example") w_prepared_state
    = (from_millis 20, Ok (simple_answer 7 +:+ "a.example")).
Proof. reflexivity. Qed.
Lemma w_decoded : from_vec (simple_answer 7 +:+ "a.example") = Some w_answered.
Proof. reflexivity. Qed.
Lemma w_first_verdict : verdict (query_name (w_q "A.Example.")) w_first = None.
Proof. reflexivity. Qed.
Lemma answered_again_from_cache_witness :
  exists resp, snd (handle w_order (w_env (from_secs 100) w_silent) w_second w_client w_first) = (0, to_vec resp) /\
    envelope (udp_payload_limit w_first) (w_query 8 "A.Example.") resp /\
    answers resp = [mk_record ("a.example" : @Name simple_hickory) 200 (A 16909060)].
Proof.
  destruct (answered_again_from_cache w_order (w_env 0 w_answers) (w_env (from_secs 100) w_silent) w_request w_second
    w_client w_client w_r w_prepared_state
    (simple_answer 7 +:+ "a.example") w_answered (new_cache 20000 30 86400) 300
    (w_query 7 "a.example") (w_q "a.example") (w_query 8 "A.Example.") (w_q "A.Example.") w_acache_key)
    as (resp & H1 & H2 & H3 & _).
  - apply w_prepared.
  - cbn [w_env env_net]. rewrite w_asked. cbn [fst]. done.
  - cbn [w_env env_net]. by rewrite w_asked.
  - apply w_decoded.
  - reflexivity.
  - reflexivity.
  - done.
  - done.
  - reflexivity.
  - reflexivity.
  - done.
  - reflexivity.
  - apply w_first_verdict.
  - reflexivity.
  - reflexivity.
  - exists resp. split_and!; [exact H1|exact H2|exact H3].
Defined.

Lemma fit_udp_fits_witness :
  exists req, from_vec w_request = Some req /\ 512 <= udp_limit req 1232 <= Z.max 1232 512.
Proof.
  destruct (fit_udp_fits w_request (simple_answer 7 +:+ "a.example") 1232 (simple_answer 7 +:+ "a.example"))
    as (req & H1 & H2 & _); [reflexivity|]. exists req. split; [exact H1|exact H2].
Defined.

(** The resolver counts a request that timed out, but leaves no trace of it
    in the query log. *)
Example timeout_is_not_logged :
  let slow i := w_udp [(from_millis 3000, RecvError)] w_no_tcp in
  let cfg := mk_config (mk_dns_config (mk_socket (V4 0) 53) None true ["private"]
               [mk_socket (V4 1) 53; mk_socket (V4 2) 53] 4000 1232 128 64 5000 true 20000 30 86400)
               default_web default_storage default_discovery default_blocking default_alerts in
  let r := fst (handle w_order (w_env 0 slow) w_request w_client (new_resolver cfg None w_block [])) in
  r_obs r = [] /\ request_timeouts (r_stats r) = 1 /\ total (r_stats r) = 1.
Proof. split_and!; reflexivity. Qed.
End Witness.
