(* ===== verification/ResolverSpec.v ===== *)
(** * What the resolver promises, and that it keeps it

    An abstract specification of one request: it knows the policy for a name,
    the answers that are live in the cache, and what the network answered,
    and nothing of locks, counters, clocks or the order of the checks.  The
    refinement theorem says that [handle] of src/dns/mod.rs does nothing the
    specification does not allow. *)
From S2P Require Import Prelude Str Addr Blocklist Config DnsMsg Cache Upstream Db Resolver.
Open Scope Z_scope.

Section Spec.
Context `{Codec}.

(** What the abstract resolver sees of the concrete one at some instant. *)
Record View : Type := mk_view {
  v_limit : Z;
  (** The rule that forbids a name, and the answer it gets then. *)
  v_rule : string -> option string;
  v_home : Message -> Question -> Message;
  (** The answers that may be served from the cache. *)
  v_live : Key -> option CachedAnswer }.

(** How a request ended, as the dashboard will show it: not at all, or a
    status and the rule that blocked it. *)
Definition Shown : Type := option (QueryStatus * option string).

(** The promise: what may be sent back for [request], and shown, when
    [asked] is what the upstreams say within their time limits. *)
Inductive promised (v : View) (request : string) (asked : Message -> result UpstreamError string)
    : option string -> Shown -> Prop :=
  (** Bytes that are not a message are ignored. *)
  | pr_garbage :
      from_vec request = None -> promised v request asked None None
  (** Anything but a standard query with a question is declined. *)
  | pr_declined msg code :
      from_vec request = Some msg -> question_of request = None -> code = FormErr \/ code = Refused ->
      promised v request asked (to_vec (error_response msg code (v_limit v))) None
  (** A forbidden name is answered at home. *)
  | pr_home msg q rule :
      question_of request = Some (msg, q) -> v_rule v (query_name q) = Some rule ->
      promised v request asked (to_vec (v_home v msg q)) (Some (Blocked, Some rule))
  (** Any other is served a live answer to the same question if there is
      one. *)
  | pr_cached msg q key a :
      question_of request = Some (msg, q) -> v_rule v (query_name q) = None ->
      from_request msg (query_name q) = Some key -> v_live v key = Some a ->
      promised v request asked (to_vec (from_cache msg (v_limit v) a)) (Some (Cached, None))
  (** Otherwise it is told what an upstream answered to this request. *)
  | pr_forwarded msg q raw m :
      question_of request = Some (msg, q) -> v_rule v (query_name q) = None ->
      (forall key, from_request msg (query_name q) = Some key -> v_live v key = None) ->
      asked msg = Ok raw -> from_vec raw = Some m -> answers_request msg m = true ->
      promised v request asked (Some raw) (Some (status_of (response_code (metadata m)), None))
  (** Or that none did. *)
  | pr_failed msg q e :
      question_of request = Some (msg, q) -> v_rule v (query_name q) = None ->
      (forall key, from_request msg (query_name q) = Some key -> v_live v key = None) ->
      asked msg = Err e ->
      promised v request asked (to_vec (error_response msg ServFail (v_limit v))) (Some (SServFail, None))
  (** Or that its time was up. *)
  | pr_late msg q :
      question_of request = Some (msg, q) -> v_rule v (query_name q) = None ->
      (forall key, from_request msg (query_name q) = Some key -> v_live v key = None) ->
      promised v request asked (to_vec (error_response msg ServFail (v_limit v))) None.

(** An entry that has not run out, its records counted down. *)
Definition live_answer (now : Instant) (key : Key) (c : Cache) : option CachedAnswer :=
  let! e := map_ c !! key in
  if now <? expires e then
    let el := wrap 32 (as_secs (duration_since now (inserted e))) in
    Some (mk_cached (age el (c_answers e)) (age el (c_authorities e)) (age el (c_additionals e))
      (c_response_code e) (c_authoritative e))
  else None.

Lemma get_live now key c : snd (Cache.get now key c) = live_answer now key c.
Proof.
  unfold Cache.get, live_answer. destruct (map_ c !! key) as [e|]; [|done].
  destruct (Z.leb_spec (expires e) now), (Z.ltb_spec now (expires e)); done || lia.
Qed.
End Spec.

Section Refinement.
Context `{Codec} {S : Type} `{!QueryObserver S}.
Context (order : gmap Key Cache.Entry -> list (Key * Cache.Entry)).
Abbreviation Resolver := (Resolver.Resolver (S := S)).

(** The abstraction of a resolver. *)
Definition view_of (now : Instant) (r : Resolver) : View :=
  mk_view (udp_payload_limit r) (fun name => verdict name r) (home_answer r)
    (fun key => if cache_enabled (r_cfg r)
                then let! c := lock_ok (r_cache r) in live_answer now key c else None).

(** What was shown is what was recorded, once, and nothing else was. *)
Definition shown_as (x : Shown) (o o' : S) : Prop :=
  match x with
  | None => o' = o
  | Some (st, rule) => exists ev o1, o' = record_query ev o1 /\ offered o1 = offered o /\
      ev_status ev = st /\ ev_blocklist ev = rule
  end.

Lemma shown_log ck name t ip st el an rule (r : Resolver) o :
  offered (r_obs r) = offered o -> shown_as (Some (st, rule)) o (r_obs (log ck name t ip st el an rule r)).
Proof. intros Ho. eexists _, _. split; [reflexivity|]. by rewrite touch_offers. Qed.

Lemma lookup_live now msg q (r : Resolver) :
  let key := from_request msg (query_name q) in
  snd (cache_lookup now key r) = let! k := key in v_live (view_of now r) k.
Proof.
  unfold cache_lookup, view_of. cbn [v_live]. destruct (from_request msg (query_name q)) as [key|];
    destruct (cache_enabled (r_cfg r)); try done.
  destruct (lock_ok (r_cache r)) as [c|]; [|done]. cbn [snd]. apply get_live.
Qed.

Lemma offered_store ck key m (r : Resolver) : r_obs (cache_store order ck key m r) = r_obs r.
Proof. unfold cache_store. repeat case_match; done. Qed.

(** The three ways a forwarded request can end. *)
Lemma forwarded_refines env request client (r r1 : Resolver) msg q key :
  prepare (env_before env) request client r = (r1, MustForward msg q key) ->
  r_obs r1 = r_obs r -> question_of request = Some (msg, q) -> verdict (query_name q) r = None ->
  (forall k, from_request msg (query_name q) = Some k -> v_live (view_of (ck_lookup (env_before env)) r) k = None) ->
  (forall x, r_cfg (env_others env x) = r_cfg x) ->
  let p := handle order env request client r in
  let asked := fun msg => snd (ask_upstreams (env_net env) request msg r) in
  exists shown, promised (view_of (ck_lookup (env_before env)) r) request asked (snd (snd p)) shown /\
    shown_as shown (r_obs (env_others env r1)) (r_obs (fst p)).
Proof.
  intros Hp Ho Hs Hv Hlive Hq. cbv zeta. rewrite (handle_forward order _ _ _ _ _ _ _ _ Hp).
  set (r2 := env_others env r1). assert (r_cfg r2 = r_cfg r1) as Hc2 by apply Hq.
  apply prepare_out in Hp as [Hc _].
  assert (ask_upstreams (env_net env) request msg r1 = ask_upstreams (env_net env) request msg r) as Ha.
  { unfold ask_upstreams. by rewrite Hc. }
  assert (udp_payload_limit r2 = udp_payload_limit r) as Hlim by (unfold udp_payload_limit; by rewrite Hc2, Hc).
  rewrite Ha. destruct (Z.leb _ _); cbn [fst snd].
  - rewrite finish_out, Hlim. destruct (ask_upstreams (env_net env) request msg r) as [t [raw|e]] eqn:Hasked; cbn [fst snd].
    + assert (snd (ask_upstreams (env_net env) request msg r) = Ok raw) as Hraw by by rewrite Hasked.
      pose proof Hraw as Hacc. unfold ask_upstreams, forward in Hacc.
      apply forward_from_ok in Hacc as (k & u & _ & Hacc & _). apply accept_ok in Hacc as (_ & m & Hm & Hans).
      exists (Some (status_of (response_code (metadata m)), None)). split.
      * by apply (pr_forwarded _ _ _ msg q raw m).
      * unfold finish. rewrite Hm. cbn [fst]. apply shown_log. cbn [set_obs r_obs].
        by rewrite learn_offers, offered_store.
    + exists (Some (SServFail, None)). split.
      * unfold encode. apply (pr_failed (view_of _ r) _ _ msg q e); try done. by rewrite Hasked.
      * unfold finish. cbn [fst]. by apply shown_log.
  - exists None. split; [|done]. rewrite budget_spent_out, (question_of_from _ _ _ Hs), Hlim.
    unfold encode. by apply (pr_late (view_of _ r) _ _ msg q).
Qed.

(** The registry and the queue as the request finds them when it writes its
    event: at once, or as the other requests left them while it waited. *)
Definition found (env : Env) (r : Resolver) (o : S) : Prop :=
  o = r_obs r \/ exists r1, r_obs r1 = r_obs r /\ o = r_obs (env_others env r1).

(** C1. The resolver refines its specification: whatever other requests do to
    the cache, the lists and the log while this one waits, what [handle] sends
    back and what it records is, for every request, network and state, one of
    the outcomes promised for what its policy and its cache hold when it
    begins: a forbidden name is never answered from anywhere but home, a live
    answer is never fetched again, and only an upstream's answer to this very
    request is passed on. *)
Theorem handle_refines env request client (r : Resolver) :
  (forall x, r_cfg (env_others env x) = r_cfg x) ->
  let p := handle order env request client r in
  let asked := fun msg => snd (ask_upstreams (env_net env) request msg r) in
  exists shown o, found env r o /\
    promised (view_of (ck_lookup (env_before env)) r) request asked (snd (snd p)) shown /\
    shown_as shown o (r_obs (fst p)).
Proof.
  intros Hq. cbv zeta. destruct (prepare_cases request r) as [Hn|(msg & q & Hs & [[rule Hv]|Hv])].
  - rewrite (handle_reply order _ _ _ _ _ _ (prepare_other _ _ _ _ Hn)). exists None, (r_obs r).
    split; [by left|]. split; [|done]. cbn [fst snd].
    destruct (from_vec request) as [msg|] eqn:Hm; [|by apply pr_garbage].
    unfold encode. apply (pr_declined (view_of _ r) _ _ msg _ Hm Hn). case_match; auto.
  - rewrite (handle_reply order _ _ _ _ _ _ (prepare_home _ _ _ _ msg q rule Hs Hv)).
    exists (Some (Blocked, Some rule)), (r_obs r). split; [by left|]. split; [unfold encode; by apply (pr_home (view_of _ r) _ _ msg q rule)|]. by apply shown_log.
  - pose proof (prepare_lookup (env_before env) request client r msg q Hs Hv) as Hp. cbv zeta in Hp.
    rewrite lookup_live in Hp.
    pose proof (cache_lookup_facts (ck_lookup (env_before env)) (from_request msg (query_name q))
      (set_stats add_total r)) as (Hc & _ & _ & _ & _ & Ho & _).
    change (v_live (view_of ?t (set_stats add_total r))) with (v_live (view_of t r)) in Hp.
    change (r_cfg (set_stats add_total r)) with (r_cfg r) in Hc.
    change (r_obs (set_stats add_total r)) with (r_obs r) in Ho.
    destruct (from_request msg (query_name q)) as [key|] eqn:Hk; [destruct (v_live _ key) as [a|] eqn:Hl|].
    + rewrite (handle_reply order _ _ _ _ _ _ Hp). exists (Some (Cached, None)), (r_obs r). split; [by left|]. split.
      * unfold encode. by apply (pr_cached (view_of _ r) _ _ msg q key a).
      * apply shown_log. cbn [set_stats r_obs]. by rewrite Ho.
    + destruct (forwarded_refines _ _ _ _ _ _ _ _ Hp) as (shown & H1' & H2'); try done; [naive_solver|].
      eexists shown, _. split; [right; eexists; split; [exact Ho|reflexivity]|done].
    + destruct (forwarded_refines _ _ _ _ _ _ _ _ Hp) as (shown & H1' & H2'); try done; [naive_solver|].
      eexists shown, _. split; [right; eexists; split; [exact Ho|reflexivity]|done].
Qed.
End Refinement.

(* ------------------------------------------------------------------ *)
(** ** Witness *)

Section Witness.
#[local] Existing Instance simple_hickory.
#[local] Existing Instance simple_codec.
#[local] Existing Instance list_observer.

(** Meanwhile another request is answered from the block list, and the cache
    is flushed. *)
Definition w_busy : Env (S := list QueryEvent) :=
  mk_env (w_clock 0) (w_clock 0) w_answers (fun r => flush_cache (fst (prepare (w_clock 0) w_ads w_client r))).
Lemma w_busy_keeps r : r_cfg (env_others w_busy r) = r_cfg r.
Proof.
  cbn [w_busy env_others]. destruct (prepare (w_clock 0) w_ads w_client r) as [r1 p] eqn:E.
  apply prepare_out in E as [<- _]. unfold flush_cache. by case_match.
Qed.

Lemma handle_refines_witness :
  let p := handle w_order w_busy w_request w_client w_r in
  length (r_obs (fst p)) = 2%nat /\
  exists shown o, found w_busy w_r o /\
    promised (view_of 0 w_r) w_request (fun msg => snd (ask_upstreams w_answers w_request msg w_r)) (snd (snd p)) shown /\
    shown_as shown o (r_obs (fst p)).
Proof.
  split; [reflexivity|]. apply (handle_refines w_order w_busy w_request w_client w_r). apply w_busy_keeps.
Defined.
End Witness.
