(* ===== verification/Serve.v ===== *)
(** * Serving DNS (src/dns/mod.rs: [bind_with_retry], [serve_udp], [serve_tcp])

    Binding the listening sockets, the UDP loop with its bound on requests
    in flight, and the TCP loop with its bound on connections and its
    length-prefixed sessions.  The loops are step relations: datagrams,
    connections and task completions may come in any order.  [Session.v] has
    the session in time. *)
From S2P Require Import Prelude Str Addr Socket Acl Blocklist Config DnsMsg Cache Upstream Db Resolver.
Open Scope Z_scope.

(* ------------------------------------------------------------------ *)
(** ** Binding with retries *)

Definition BIND_RETRY_WINDOW : Duration := from_secs 30.

Record IoError : Type := mk_io_error { addr_in_use : bool; raw_os_error : option Z }.
Record BindFailure : Type := mk_bind_failure { bf_cause : IoError; bf_hint : string }.

Definition bind_hint (e : IoError) : string :=
  if bool_decide (raw_os_error e = Some 97)
  then "this host has no IPv6 support — unset dns.listen_v6"
  else "port 53 needs root or CAP_NET_BIND_SERVICE".

(** One attempt: how long it takes, what it yields, and by how much the
    sleep after it overshoots. *)
Record BindTry (T : Type) : Type := mk_try {
  try_takes : Duration; try_result : result IoError T; try_late : Duration }.
Arguments mk_try {T} _ _ _.
Arguments try_takes {T} _.
Arguments try_result {T} _.
Arguments try_late {T} _.

Section Bind.
Context {T : Type} (tries : nat -> BindTry T).

(** The loop from its [i]th pass; the result counts the attempts made. *)
Fixpoint bind_loop (fuel i : nat) (now deadline delay : Z) : option (nat * result BindFailure T) :=
  match fuel with
  | O => None
  | S fuel =>
      let t := tries i in
      let now := now + try_takes t in
      match try_result t with
      | Ok v => Some (S i, Ok v)
      | Err e =>
          if addr_in_use e && (now <? deadline)
          then bind_loop fuel (S i) (now + delay + try_late t) deadline (Z.min (delay * 2) (from_secs 5))
          else Some (S i, Err (mk_bind_failure e (bind_hint e)))
      end
  end.
Definition bind_with_retry (fuel : nat) (now : Instant) (max_wait : Duration) : option (nat * result BindFailure T) :=
  bind_loop fuel 0 now (now + max_wait) (from_millis 250).
End Bind.

(** The listening socket of [serve_udp] or [serve_tcp] ([setup] is
    [udp_setup] or [tcp_setup]): [kernel i] answers the calls of the [i]th
    attempt, [takes] and [late] are its delays. *)
Definition bind_listener (setup : SocketAddr -> list SockOp) (kernel : nat -> SockOp -> option IoError)
    (takes late : nat -> Duration) (listen : SocketAddr) (fuel : nat) (now : Instant) : option (nat * result BindFailure unit) :=
  bind_with_retry (fun i => mk_try (takes i) (run_setup (kernel i) (setup listen)) (late i)) fuel now BIND_RETRY_WINDOW.

(* ------------------------------------------------------------------ *)
(** ** The UDP loop *)

Section Udp.
Context `{Codec} {S : Type} `{!QueryObserver S}.
Context (order : gmap Key Cache.Entry -> list (Key * Cache.Entry)).
Abbreviation Resolver := (Resolver (S := S)).

(** A spawned task: not yet run, or waiting for the upstreams. *)
Inductive TaskState : Type :=
  | Fresh
  | Waiting (msg : Message) (query : Question) (key : option Key).
Record Task : Type := mk_task { tk_peer : SocketAddr; tk_request : string; tk_state : TaskState }.
(** What [send_to] was asked to send, and the request it answers. *)
Record Sent : Type := mk_sent { st_peer : SocketAddr; st_request : string; st_bytes : string }.

Record UdpServer : Type := mk_udp {
  us_resolver : Resolver;
  us_permits : Z;
  us_tasks : list Task;
  us_sent : list Sent }.

(** Bound, with its semaphore made (which panics past 2^61 - 1 permits: see
    [semaphore] of Lifecycle.v). *)
Definition serve_udp_start (r : Resolver) : UdpServer :=
  mk_udp r (max_udp_in_flight (r_cfg r)) [] [].

(** One pass of the receive loop. *)
Definition udp_receive (peer : SocketAddr) (payload : string) (s : UdpServer) : UdpServer :=
  let '(r, allowed) := resolver_allows (sa_ip peer) (us_resolver s) in
  if negb allowed then mk_udp r (us_permits s) (us_tasks s) (us_sent s)
  else if us_permits s <=? 0 then mk_udp (note_udp_overload r) (us_permits s) (us_tasks s) (us_sent s)
  else mk_udp r (us_permits s - 1) (us_tasks s ++ [mk_task peer (received 4096 payload) Fresh]) (us_sent s).

(** The end of the [i]th task, which releases its permit. *)
Definition end_task (i : nat) (s : UdpServer) : UdpServer :=
  mk_udp (us_resolver s) (us_permits s + 1) (delete i (us_tasks s)) (us_sent s).

(** The rest of a task once [handle] has returned. *)
Definition respond (i : nat) (t : Task) (out : option string) (r : Resolver) (s : UdpServer) : UdpServer :=
  let sent := match out with
              | None => us_sent s
              | Some response =>
                  match fit_udp (tk_request t) response (udp_payload_limit r) with
                  | Some bytes => us_sent s ++ [mk_sent (tk_peer t) (tk_request t) bytes]
                  | None => us_sent s
                  end
              end in
  end_task i (mk_udp r (us_permits s) (us_tasks s) sent).

(** A task runs until [handle] returns or waits. *)
Definition run_task (i : nat) (t : Task) (ck : Clock) (s : UdpServer) : UdpServer :=
  match prepare ck (tk_request t) (tk_peer t) (us_resolver s) with
  | (r, Reply out) => respond i t out r s
  | (r, MustForward msg q key) =>
      mk_udp r (us_permits s) (<[i := mk_task (tk_peer t) (tk_request t) (Waiting msg q key)]> (us_tasks s)) (us_sent s)
  end.

(** A waiting task resumes: its upstreams have answered or failed, or its
    budget is spent. *)
Definition resume_task (i : nat) (t : Task) (msg : Message) (q : Question) (key : option Key)
    (ck : Clock) (net : nat -> Script) (s : UdpServer) : UdpServer :=
  let r := us_resolver s in
  let asked := ask_upstreams net (tk_request t) msg r in
  match timeout (from_millis (request_timeout_ms (r_cfg r))) (Ready (fst asked) (snd asked)) with
  | (elapsed, Some res) =>
      let p := finish order ck (tk_peer t) msg q key elapsed res r in respond i t (snd p) (fst p) s
  | (_, None) => let p := budget_spent (tk_request t) r in respond i t (snd p) (fst p) s
  end.

(** Everything that can happen next. *)
Inductive udp_step : UdpServer -> UdpServer -> Prop :=
  | udp_recv_step peer payload s : udp_step s (udp_receive peer payload s)
  | udp_run i t ck s : us_tasks s !! i = Some t -> tk_state t = Fresh -> udp_step s (run_task i t ck s)
  | udp_resume i t msg q key ck net s :
      us_tasks s !! i = Some t -> tk_state t = Waiting msg q key ->
      udp_step s (resume_task i t msg q key ck net s)
  (** A task that panics drops its permit all the same. *)
  | udp_panic i t s : us_tasks s !! i = Some t -> udp_step s (end_task i s)
  (** The rest of the program shares the resolver but not its settings. *)
  | udp_elsewhere r s :
      r_cfg r = r_cfg (us_resolver s) -> r_acl r = r_acl (us_resolver s) ->
      udp_step s (mk_udp r (us_permits s) (us_tasks s) (us_sent s)).
End Udp.

(* ------------------------------------------------------------------ *)
(** ** The TCP loop *)

Section Tcp.
Context `{Codec} {S : Type} `{!QueryObserver S}.
Context (order : gmap Key Cache.Entry -> list (Key * Cache.Entry)).
Abbreviation Resolver := (Resolver (S := S)).

(** A session: the requests in the bytes of [stream], which the peer then
    closes or not, answered in turn; [envs i] is what the [i]th meets.  The
    result is what is written, [None] when out of fuel.  A stream that stops
    within a frame ends the run here, whether the peer has closed it or the
    session waits for the rest until its time is up.  The limit of thirty
    seconds itself is not in it: the session in time is [Session.v], and this
    is what a session writes that stays within its limit. *)
Fixpoint tcp_session (fuel : nat) (envs : nat -> Env) (i : nat) (closes : bool) (peer : SocketAddr)
    (stream : string) (r : Resolver) : option (Resolver * string) :=
  match fuel with
  | O => None
  | Datatypes.S fuel =>
      match read_exact 2 closes stream with
      | Ready _ (Some (len_buf, rest)) =>
          let len := from_be_bytes len_buf in
          if (len =? 0) || (65535 <? len) then Some (r, "")
          else match read_exact len closes rest with
          | Ready _ (Some (request, rest)) =>
              match handle order (envs i) request peer r with
              | (r, (_, Some response)) =>
                  if u16_max <? str_len response then Some (r, "")
                  else
                    let! p := tcp_session fuel envs (Datatypes.S i) closes peer rest r in
                    Some (fst p, to_be_bytes (str_len response) +:+ response +:+ snd p)
              | (r, (_, None)) => Some (r, "")
              end
          | _ => Some (r, "")
          end
      | _ => Some (r, "")
      end
  end.

(** The accept loop: the resolver, the free connections, and the peers
    being served.  The semaphore is made as for UDP. *)
Record TcpServer : Type := mk_tcp_server {
  ts_resolver : Resolver; ts_permits : Z; ts_conns : list SocketAddr }.
Definition serve_tcp_start (r : Resolver) : TcpServer := mk_tcp_server r (max_tcp_connections (r_cfg r)) [].
Definition tcp_accept (peer : SocketAddr) (s : TcpServer) : TcpServer :=
  let '(r, allowed) := resolver_allows (sa_ip peer) (ts_resolver s) in
  if negb allowed then mk_tcp_server r (ts_permits s) (ts_conns s)
  else if ts_permits s <=? 0 then mk_tcp_server (note_tcp_rejection r) (ts_permits s) (ts_conns s)
  else mk_tcp_server r (ts_permits s - 1) (ts_conns s ++ [peer]).
Inductive tcp_step : TcpServer -> TcpServer -> Prop :=
  | tcp_accept_step peer s : tcp_step s (tcp_accept peer s)
  | tcp_serve peer env request s :
      peer ∈ ts_conns s -> (forall x, r_cfg (env_others env x) = r_cfg x /\ r_acl (env_others env x) = r_acl x) ->
      tcp_step s (mk_tcp_server (fst (handle order env request peer (ts_resolver s))) (ts_permits s) (ts_conns s))
  | tcp_close i peer s :
      ts_conns s !! i = Some peer ->
      tcp_step s (mk_tcp_server (ts_resolver s) (ts_permits s + 1) (delete i (ts_conns s)))
  | tcp_elsewhere r s :
      r_cfg r = r_cfg (ts_resolver s) -> r_acl r = r_acl (ts_resolver s) ->
      tcp_step s (mk_tcp_server r (ts_permits s) (ts_conns s)).
End Tcp.

(* ------------------------------------------------------------------ *)
(** ** Properties *)

Section BindProperties.
Context {T : Type} (tries : nat -> BindTry T).

(** The time the [k]th attempt of a run that starts at [now] ends, if the
    ones before it all failed. *)
Fixpoint attempt_end (k i : nat) (now delay : Z) : Z :=
  match k with
  | O => now + try_takes (tries i)
  | S k => attempt_end k (S i) (now + try_takes (tries i) + delay + try_late (tries i)) (Z.min (delay * 2) (from_secs 5))
  end.

Definition in_use (k : nat) : Prop := exists e, try_result (tries k) = Err e /\ addr_in_use e = true.
Definition verdict_of (r : result IoError T) : result BindFailure T :=
  map_err (fun e => mk_bind_failure e (bind_hint e)) r.

(** Where the loop stops. *)
Lemma bind_loop_stop fuel i now deadline delay n res :
  bind_loop tries fuel i now deadline delay = Some (n, res) ->
  exists k, n = S (i + k) /\ res = verdict_of (try_result (tries (i + k))) /\
    (forall j, (j < k)%nat -> in_use (i + j) /\ attempt_end j i now delay < deadline) /\
    (in_use (i + k) -> deadline <= attempt_end k i now delay).
Proof.
  revert i now delay. induction fuel as [|fuel IH]; intros i now delay; cbn [bind_loop]; [done|].
  destruct (try_result (tries i)) as [v|e] eqn:E.
  - intros [= <- <-]. exists 0%nat. rewrite Nat.add_0_r, E. split_and!; [done|done|lia|].
    intros (e & He & _). congruence.
  - destruct (addr_in_use e) eqn:Hu; cbn [andb].
    + destruct (Z.ltb_spec (now + try_takes (tries i)) deadline) as [Hlt|Hge].
      * intros (k & -> & -> & Hj & Hk)%IH. exists (S k). rewrite !Nat.add_succ_r. split_and!; try done.
        intros [|j] Hjk; [rewrite Nat.add_0_r; split; [by exists e|done]|].
        rewrite Nat.add_succ_r. apply (Hj j). lia.
      * intros [= <- <-]. exists 0%nat. rewrite Nat.add_0_r, E. split_and!; [done|done|lia|]. intros _. exact Hge.
    + intros [= <- <-]. exists 0%nat. rewrite Nat.add_0_r, E. split_and!; [done|done|lia|].
      intros (e' & He & Hu'). congruence.
Qed.

(** No more attempts than fuel. *)
Lemma bind_loop_fuel fuel i now deadline delay n res :
  bind_loop tries fuel i now deadline delay = Some (n, res) -> (n <= i + fuel)%nat.
Proof.
  revert i now delay. induction fuel as [|fuel IH]; intros i now delay; cbn [bind_loop]; [done|].
  repeat case_match; [by intros [= <- _]; lia| |by intros [= <- _]; lia]. intros ?%IH. lia.
Qed.

Context (Htimes : forall k, 0 <= try_takes (tries k) /\ 0 <= try_late (tries k)).

(** Ten back-offs outlast the window. *)
Lemma bind_loop_ends now max_wait :
  max_wait <= BIND_RETRY_WINDOW -> is_Some (bind_with_retry tries 11 now max_wait).
Proof using Htimes.
  intros Hw. unfold bind_with_retry, BIND_RETRY_WINDOW, from_millis, from_secs in *.
  assert (now + max_wait <= now + 30 * 1000000000) as Hd by lia. revert Hd.
  generalize (now + max_wait). intros d Hd.
  do 11 (cbn [bind_loop];
    match goal with |- context [try_result (tries ?i)] =>
      pose proof (Htimes i); destruct (try_result (tries i)) as [?|?]; [by eexists|];
      match goal with |- context [addr_in_use ?e] => destruct (addr_in_use e); [|by eexists] end;
      cbn [andb]; match goal with |- context [?a <? ?b] => destruct (Z.ltb_spec a b); [|by eexists] end
    end).
  exfalso. unfold from_secs in *. lia.
Qed.

(** C11. Binding always ends, after at most eleven attempts for the window of
    thirty seconds: with the first attempt that succeeds or fails for
    another reason than the address being in use, whatever that is, or with
    the first that is still in use once the window has passed; before that
    it never gives up, and it never retries anything else. *)
Theorem bind_with_retry_ends now max_wait :
  0 <= max_wait <= BIND_RETRY_WINDOW ->
  exists k res, bind_with_retry tries 11 now max_wait = Some (S k, res) /\ (k < 11)%nat /\
    res = verdict_of (try_result (tries k)) /\
    (forall j, (j < k)%nat -> in_use j /\ attempt_end j 0 now (from_millis 250) < now + max_wait) /\
    (in_use k -> now + max_wait <= attempt_end k 0 now (from_millis 250)).
Proof using Htimes.
  intros Hw. destruct (bind_loop_ends now max_wait) as [[n res] Hr]; [lia|].
  pose proof Hr as Hr'. apply bind_loop_stop in Hr' as (k & -> & Hres & Hj & Hk). cbn [Nat.add] in *.
  exists k, res. split_and!; try done.
  apply bind_loop_fuel in Hr. lia.
Qed.
End BindProperties.

Section UdpProperties.
Context `{Codec} {S : Type} `{!QueryObserver S}.
Context (order : gmap Key Cache.Entry -> list (Key * Cache.Entry)).
Abbreviation Resolver := (Resolver (S := S)).
Abbreviation UdpServer := (UdpServer (S := S)).
Context (r0 : Resolver).

(** A reply that may go out: to a client the access list admits, a fitting
    form of a proper reply to its request. *)
Definition sent_ok (x : Sent) : Prop :=
  Acl.allows (r_acl r0) (sa_ip (st_peer x)) = true /\
  exists raw, proper_reply (udp_payload_limit r0) (st_request x) raw /\
    fit_udp (st_request x) raw (udp_payload_limit r0) = Some (st_bytes x).
Definition task_ok (t : Task) : Prop :=
  Acl.allows (r_acl r0) (sa_ip (tk_peer t)) = true /\
  match tk_state t with Fresh => True | Waiting msg q _ => question_of (tk_request t) = Some (msg, q) end.

Record udp_ok (s : UdpServer) : Prop := mk_udp_ok {
  uo_cfg : r_cfg (us_resolver s) = r_cfg r0;
  uo_acl : r_acl (us_resolver s) = r_acl r0;
  uo_room : 0 <= us_permits s;
  uo_permits : us_permits s + Z.of_nat (length (us_tasks s)) = max_udp_in_flight (r_cfg r0);
  uo_tasks : Forall task_ok (us_tasks s);
  uo_sent : Forall sent_ok (us_sent s) }.

Lemma udp_limit_eq (r : Resolver) : r_cfg r = r_cfg r0 -> udp_payload_limit r = udp_payload_limit r0.
Proof. unfold udp_payload_limit. by intros ->. Qed.

Lemma prepare_acl ck request client (r : Resolver) :
  r_acl (fst (prepare ck request client r)) = r_acl r.
Proof.
  destruct (prepare_cases request r) as [Hq|(msg & q & Hq & [[label Hv]|Hv])].
  - by rewrite prepare_other.
  - by rewrite (prepare_home _ _ _ _ msg q label).
  - rewrite (prepare_lookup _ _ _ _ msg q) by done.
    pose proof (cache_lookup_facts (ck_lookup ck) (from_request msg (query_name q)) (set_stats add_total r))
      as (_ & Ha & _). destruct (snd _) as [hit|]; cbn [fst]; exact Ha.
Qed.
Lemma prepare_cfg ck request client (r : Resolver) :
  r_cfg (fst (prepare ck request client r)) = r_cfg r.
Proof. destruct (prepare ck request client r) as [r1 p] eqn:E. by apply prepare_out in E as [? _]. Qed.
Lemma finish_keeps ck client msg q key t res (r : Resolver) :
  r_cfg (fst (finish order ck client msg q key t res r)) = r_cfg r /\
  r_acl (fst (finish order ck client msg q key t res r)) = r_acl r.
Proof. unfold finish, cache_store. repeat case_match; done. Qed.

Lemma end_task_ok i t s : us_tasks s !! i = Some t -> udp_ok s -> udp_ok (end_task i s).
Proof.
  intros Hi [Hc Ha Hr Hp Ht Hs]. split; cbn [us_resolver us_permits us_tasks us_sent end_task]; try done; [lia| |].
  - apply lookup_lt_Some in Hi as Hlt. rewrite length_delete by (by rewrite Hi). lia.
  - by apply Forall_delete.
Qed.

Lemma respond_ok i t out r s :
  us_tasks s !! i = Some t -> udp_ok s -> r_cfg r = r_cfg r0 -> r_acl r = r_acl r0 ->
  (forall raw, out = Some raw -> proper_reply (udp_payload_limit r0) (tk_request t) raw) ->
  udp_ok (respond i t out r s).
Proof.
  intros Hi [Hc Ha Hr Hp Ht Hs] Hcr Har Hout. unfold respond. rewrite (udp_limit_eq r Hcr).
  eapply end_task_ok; [exact Hi|]. split; try done. cbn [us_sent].
  destruct out as [raw|]; [|done]. destruct (fit_udp _ _ _) as [bytes|] eqn:Hf; [|done].
  apply Forall_app. split; [done|]. apply Forall_singleton. split.
  - exact (proj1 (Forall_lookup_1 _ _ _ _ Ht Hi)).
  - eauto.
Qed.

Lemma resolver_allows_keeps ip (r r' : Resolver) b :
  resolver_allows ip r = (r', b) -> r_cfg r' = r_cfg r /\ r_acl r' = r_acl r /\ b = Acl.allows (r_acl r) ip.
Proof. unfold resolver_allows. destruct (Acl.allows _ _); by intros [= <- <-]. Qed.

Lemma udp_receive_ok peer payload s : udp_ok s -> udp_ok (udp_receive peer payload s).
Proof.
  intros [Hc Ha Hr Hp Ht Hs]. unfold udp_receive.
  destruct (resolver_allows (sa_ip peer) (us_resolver s)) as [r b] eqn:E.
  apply resolver_allows_keeps in E as (Hc' & Ha' & ->). rewrite Hc in Hc'. rewrite Ha in Ha'. rewrite Ha.
  destruct (Acl.allows (r_acl r0) (sa_ip peer)) eqn:Hal; cbn [negb]; [|by split].
  destruct (Z.leb_spec (us_permits s) 0); split; cbn; try done; [lia| |].
  - rewrite length_app. simpl. lia.
  - apply Forall_app. split; [done|]. apply Forall_singleton. by split.
Qed.

Lemma run_task_ok i t ck s :
  us_tasks s !! i = Some t -> udp_ok s -> udp_ok (run_task i t ck s).
Proof.
  intros Hi Hok. pose proof Hok as [Hc Ha Hr Hp Ht Hs]. unfold run_task.
  destruct (prepare ck (tk_request t) (tk_peer t) (us_resolver s)) as [r p] eqn:E.
  assert (r_cfg r = r_cfg r0 /\ r_acl r = r_acl r0) as [Hcr Har].
  { pose proof (prepare_cfg ck (tk_request t) (tk_peer t) (us_resolver s)) as H1.
    pose proof (prepare_acl ck (tk_request t) (tk_peer t) (us_resolver s)) as H2.
    rewrite E in H1, H2. cbn [fst] in H1, H2. by rewrite H1, H2. }
  destruct p as [out|msg q key].
  - apply respond_ok; try done. intros raw ->. rewrite <-(udp_limit_eq (us_resolver s) Hc).
    by eapply prepared_reply_proper.
  - apply prepare_out in E as (_ & (Hq & _ & _) & _). split; cbn; try done.
    + by rewrite length_insert.
    + apply Forall_insert; [done|]. split; [|exact Hq].
      exact (proj1 (Forall_lookup_1 _ _ _ _ Ht Hi)).
Qed.

Lemma resume_task_ok i t msg q key ck net s :
  us_tasks s !! i = Some t -> tk_state t = Waiting msg q key -> udp_ok s ->
  udp_ok (resume_task order i t msg q key ck net s).
Proof.
  intros Hi Hw Hok. pose proof Hok as [Hc Ha Hr Hp Ht Hs].
  pose proof (Forall_lookup_1 _ _ _ _ Ht Hi) as [_ Hq]. rewrite Hw in Hq.
  unfold resume_task. cbn [timeout].
  destruct (Z.leb _ _).
  - pose proof (finish_keeps ck (tk_peer t) msg q key
      (fst (ask_upstreams net (tk_request t) msg (us_resolver s)))
      (snd (ask_upstreams net (tk_request t) msg (us_resolver s))) (us_resolver s)) as [Hfc Hfa].
    apply respond_ok; try done; [by rewrite Hfc|by rewrite Hfa|].
    intros raw Hraw. rewrite <-(udp_limit_eq (us_resolver s) Hc). by eapply finish_proper.
  - apply respond_ok; try done. intros raw Hraw. rewrite <-(udp_limit_eq (us_resolver s) Hc).
    by eapply budget_spent_proper.
Qed.

Lemma udp_step_ok s s' : udp_step order s s' -> udp_ok s -> udp_ok s'.
Proof.
  destruct 1 as [peer payload s|i t ck s Hi _|i t msg q key ck net s Hi Hw|i t s Hi|r s Hc Ha]; intros Hok.
  - by apply udp_receive_ok.
  - by apply run_task_ok.
  - by apply resume_task_ok.
  - by eapply end_task_ok.
  - destruct Hok. split; cbn; congruence.
Qed.
End UdpProperties.

Section UdpSafety.
Context `{Codec} {S : Type} `{!QueryObserver S}.
Context (order : gmap Key Cache.Entry -> list (Key * Cache.Entry)).

(** C8. However datagrams, answers, timeouts and panics interleave: there are
    never more requests in flight than configured and every ended task has
    given its permit back; and every datagram ever sent goes to a client the
    access list admits and is the fitting form of a proper reply to what
    that client asked. *)
Theorem udp_server_safe (r : Resolver.Resolver (S := S)) s :
  0 <= max_udp_in_flight (r_cfg r) ->
  rtc (udp_step order) (serve_udp_start r) s ->
  Z.of_nat (length (us_tasks s)) <= max_udp_in_flight (r_cfg r) /\
  us_permits s = max_udp_in_flight (r_cfg r) - Z.of_nat (length (us_tasks s)) /\
  Forall (fun x =>
    Acl.allows (r_acl r) (sa_ip (st_peer x)) = true /\
    exists raw, proper_reply (udp_payload_limit r) (st_request x) raw /\
      fit_udp (st_request x) raw (udp_payload_limit r) = Some (st_bytes x)) (us_sent s).
Proof.
  intros Hm Hs. assert (udp_ok r s) as [_ _ ? ? _ Hsent].
  { remember (serve_udp_start r) as s0 eqn:E0. assert (udp_ok r s0) as H0'.
    { subst s0. split; cbn; try done; [lia|constructor..]. }
    clear E0. induction Hs as [|a b c Hab _ IH]; [done|]. apply IH. by eapply udp_step_ok. }
  split_and!; [lia|lia|exact Hsent].
Qed.
End UdpSafety.

Section TcpProperties.
Context `{Codec} {S : Type} `{!QueryObserver S}.
Context (order : gmap Key Cache.Entry -> list (Key * Cache.Entry)).
Abbreviation Resolver := (Resolver.Resolver (S := S)).
Abbreviation TcpServer := (TcpServer (S := S)).

(** Requests one after the other, up to the first without a reply that fits
    a frame: what a session means. *)
Fixpoint serve_each (envs : nat -> Env) (i : nat) (peer : SocketAddr) (qs : list string) (r : Resolver)
    : Resolver * list string :=
  match qs with
  | [] => (r, [])
  | q :: qs =>
      match handle order (envs i) q peer r with
      | (r, (_, Some reply)) =>
          if u16_max <? str_len reply then (r, [])
          else let p := serve_each envs (Datatypes.S i) peer qs r in (fst p, reply :: snd p)
      | (r, (_, None)) => (r, [])
      end
  end.
Definition frames (l : list string) : string := foldr (fun m s => frame m +:+ s) "" l.

Lemma read_exact_shorter n closes stream t a rest :
  0 < n -> read_exact n closes stream = Ready t (Some (a, rest)) -> (String.length rest < String.length stream)%nat.
Proof.
  unfold read_exact, drop_bytes. intros Hn. destruct (Z.leb_spec n (str_len stream)) as [Hle|]; [|by destruct closes].
  intros [= _ _ <-]. unfold str_len in Hle.
  assert (forall s n m, (String.length (String.substring n m s) <= m)%nat) as Hsub.
  { clear. induction s as [|c s IH]; intros [|n] [|m]; simpl; try lia; [specialize (IH 0%nat m)|apply IH..]; lia. }
  specialize (Hsub stream (Z.to_nat n) (String.length stream - Z.to_nat n)%nat). lia.
Qed.

Lemma tcp_session_total fuel envs i closes peer stream r :
  (String.length stream < fuel)%nat -> is_Some (tcp_session order fuel envs i closes peer stream r).
Proof.
  revert i stream r. induction fuel as [|fuel IH]; intros i stream r Hf; [lia|]. cbn [tcp_session].
  destruct (read_exact 2 closes stream) as [t [[len rest]|]|] eqn:E2; try by eexists.
  apply read_exact_shorter in E2; [|lia].
  destruct (Z.eqb_spec (from_be_bytes len) 0); [by eexists|].
  destruct (Z.ltb_spec 65535 (from_be_bytes len)); [by eexists|]. cbn [orb].
  destruct (read_exact _ closes rest) as [t' [[q rest']|]|] eqn:El; try by eexists.
  assert (String.length rest' <= String.length rest)%nat as Hr.
  { destruct (Z.ltb_spec 0 (from_be_bytes len)); [apply read_exact_shorter in El; lia|].
    assert (0 <= from_be_bytes len); [|lia].
    unfold from_be_bytes, code. repeat case_match; lia. }
  destruct (handle _ _ _ _ _) as [r' [t'' [reply|]]]; [|by eexists].
  destruct (_ <? _); [by eexists|].
  destruct (IH (Datatypes.S i) rest' r') as [p ->]; [lia|]. by eexists.
Qed.

Lemma tcp_session_frames fuel envs i closes peer qs r :
  (length qs < fuel)%nat -> Forall (fun q => 0 < str_len q <= u16_max) qs ->
  tcp_session order fuel envs i closes peer (frames qs) r =
    Some (fst (serve_each envs i peer qs r), frames (snd (serve_each envs i peer qs r))).
Proof.
  intros Hf Hq. revert fuel i r Hf. induction Hq as [|q qs Hl Hq IH]; intros [|fuel] i r Hf; simpl in Hf; try lia.
  { cbn. by destruct closes. }
  cbn [tcp_session frames foldr serve_each]. fold (frames qs).
  destruct (read_frame q (frames qs) closes) as (-> & Hlen & Hr); [unfold in_width; pow_lia|].
  cbv zeta. rewrite Hlen. destruct (Z.eqb_spec (str_len q) 0); [lia|].
  destruct (Z.ltb_spec 65535 (str_len q)); [unfold u16_max in Hl; lia|]. cbn [orb]. rewrite Hr.
  destruct (handle order (envs i) q peer r) as [r' [t [reply|]]]; [|done].
  destruct (u16_max <? str_len reply); [done|]. rewrite IH by lia. cbn [fst snd frames foldr].
  unfold frame at 1. by rewrite str_app_assoc.
Qed.

(** C9. A TCP session always ends its run over the bytes it was sent, and
    serves pipelined requests in order: a stream of length-prefixed requests
    is answered by the length-prefixed replies, one by one, until the first
    request without a reply that fits a frame. *)
Theorem tcp_session_in_order envs closes peer (r : Resolver) :
  (forall stream, is_Some (tcp_session order (Datatypes.S (String.length stream)) envs 0 closes peer stream r)) /\
  forall qs, Forall (fun q => 0 < str_len q <= u16_max) qs ->
    forall fuel, (length qs < fuel)%nat ->
    tcp_session order fuel envs 0 closes peer (frames qs) r =
      Some (fst (serve_each envs 0 peer qs r), frames (snd (serve_each envs 0 peer qs r))).
Proof.
  split; [intros stream; apply tcp_session_total; lia|]. intros qs Hq fuel Hf. by apply tcp_session_frames.
Qed.

Lemma handle_keeps env request peer (r : Resolver) :
  (forall x, r_cfg (env_others env x) = r_cfg x /\ r_acl (env_others env x) = r_acl x) ->
  r_cfg (fst (handle order env request peer r)) = r_cfg r /\
  r_acl (fst (handle order env request peer r)) = r_acl r.
Proof.
  intros Ho. destruct (prepare (env_before env) request peer r) as [r1 p] eqn:E.
  assert (r_cfg r1 = r_cfg r /\ r_acl r1 = r_acl r) as [Hc Ha].
  { pose proof (prepare_cfg (env_before env) request peer r) as H1.
    pose proof (prepare_acl (env_before env) request peer r) as H2.
    rewrite E in H1, H2. by split. }
  destruct p as [out|msg q key].
  - by rewrite (handle_reply order _ _ _ _ _ _ E).
  - rewrite (handle_forward order _ _ _ _ _ _ _ _ E). destruct (Ho r1) as [H1 H2].
    destruct (Z.leb _ _); cbn [fst].
    + pose proof (finish_keeps order (env_after env) peer msg q key
        (fst (ask_upstreams (env_net env) request msg r1)) (snd (ask_upstreams (env_net env) request msg r1))
        (env_others env r1)) as [-> ->]. by rewrite H1, H2.
    + unfold budget_spent. cbn. by rewrite H1, H2.
Qed.

Record tcp_ok (r0 : Resolver) (s : TcpServer) : Prop := mk_tcp_ok {
  to_cfg : r_cfg (ts_resolver s) = r_cfg r0;
  to_acl : r_acl (ts_resolver s) = r_acl r0;
  to_room : 0 <= ts_permits s;
  to_permits : ts_permits s + Z.of_nat (length (ts_conns s)) = max_tcp_connections (r_cfg r0);
  to_conns : Forall (fun peer => Acl.allows (r_acl r0) (sa_ip peer) = true) (ts_conns s) }.

Lemma tcp_step_ok r0 s s' : tcp_step order s s' -> tcp_ok r0 s -> tcp_ok r0 s'.
Proof.
  destruct 1 as [peer s|peer env request s Hp Ho|i peer s Hi|r s Hc Ha]; intros Hok; pose proof Hok as [Hcf Hac Hr Hpm Hcn].
  - unfold tcp_accept. destruct (resolver_allows (sa_ip peer) (ts_resolver s)) as [r b] eqn:E.
    apply resolver_allows_keeps in E as (Hc' & Ha' & ->). rewrite Hcf in Hc'. rewrite Hac in Ha'. rewrite Hac.
    destruct (Acl.allows (r_acl r0) (sa_ip peer)) eqn:Hal; cbn [negb]; [|by split].
    destruct (Z.leb_spec (ts_permits s) 0); split; cbn; try done; [lia| |].
    + rewrite length_app. simpl. lia.
    + apply Forall_app. split; [done|]. by apply Forall_singleton.
  - destruct (handle_keeps env request peer (ts_resolver s) Ho) as [H1 H2]. split; cbn; congruence.
  - apply lookup_lt_Some in Hi as Hlt. split; cbn; try done; [lia| |by apply Forall_delete].
    rewrite length_delete by (by rewrite Hi). lia.
  - split; cbn; congruence.
Qed.

(** The TCP side is bounded and closed to strangers: in every reachable
    state at most the configured number of connections is served, each one
    from an address the access list admits, and every connection that ended
    has made room for another. *)
Theorem tcp_server_bounded (r : Resolver) s :
  0 <= max_tcp_connections (r_cfg r) ->
  rtc (tcp_step order) (serve_tcp_start r) s ->
  Z.of_nat (length (ts_conns s)) <= max_tcp_connections (r_cfg r) /\
  ts_permits s = max_tcp_connections (r_cfg r) - Z.of_nat (length (ts_conns s)) /\
  Forall (fun peer => Acl.allows (r_acl r) (sa_ip peer) = true) (ts_conns s).
Proof.
  intros Hm Hs. assert (tcp_ok r s) as [_ _ ? ? Hc].
  { remember (serve_tcp_start r) as s0 eqn:E0. assert (tcp_ok r s0) as H0'.
    { subst s0. split; cbn; try done. lia. }
    clear E0. induction Hs as [|a b c Hab _ IH]; [done|]. apply IH. by eapply tcp_step_ok. }
  split_and!; [lia|lia|exact Hc].
Qed.
End TcpProperties.

(* ------------------------------------------------------------------ *)
(** ** Witnesses *)

Section Witness.
#[local] Existing Instance simple_hickory.
#[local] Existing Instance simple_codec.
#[local] Existing Instance list_observer.

(** In use twice, then free. *)
Definition w_tries (k : nat) : BindTry Z :=
  mk_try 1000 (if (k <? 2)%nat then Err (mk_io_error true (Some 98)) else Ok 53) 0.
Lemma bind_with_retry_ends_witness :
  exists k res, bind_with_retry w_tries 11 0 (from_secs 30) = Some (Datatypes.S k, res) /\ (k < 11)%nat /\
    res = verdict_of (try_result (w_tries k)).
Proof.
  destruct (bind_with_retry_ends w_tries) with (now := 0) (max_wait := from_secs 30) as (k & res & H1 & H2 & H3 & _).
  - intros k. unfold w_tries. simpl. lia.
  - by vm_compute.
  - exists k, res. split_and!; [exact H1|exact H2|exact H3].
Defined.

(** Port 53 held for ever: eleven attempts in all. *)
Example bind_gives_up :
  option_map fst (bind_with_retry (fun _ => mk_try (T := Z) 0 (Err (mk_io_error true (Some 98))) 0) 11 0 (from_secs 30))
  = Some 11%nat.
Proof. reflexivity. Qed.

(** The port is taken for the first two attempts; a kernel without IPv6
    refuses the first call of the first one, and the hint says so. *)
Definition w_busy_port (i : nat) (op : SockOp) : option IoError :=
  match op with Bind _ => if (i <? 2)%nat then Some (mk_io_error true (Some 98)) else None | _ => None end.
Definition w_no_ipv6 (i : nat) (op : SockOp) : option IoError :=
  match op with Create true _ => Some (mk_io_error false (Some 97)) | _ => None end.
Example listener_examples :
  bind_listener udp_setup w_busy_port (fun _ => 0) (fun _ => 0) (mk_socket (V4 0) 53) 11 0 = Some (3%nat, Ok tt) /\
  bind_listener tcp_setup w_no_ipv6 (fun _ => 0) (fun _ => 0) (mk_socket (V6 0) 53) 11 0
    = Some (1%nat, Err (mk_bind_failure (mk_io_error false (Some 97)) "this host has no IPv6 support — unset dns.listen_v6")).
Proof. vm_compute. done. Qed.

Definition w_started : UdpServer (S := list QueryEvent) := serve_udp_start w_r.
Definition w_received : UdpServer (S := list QueryEvent) := udp_receive w_client w_ads w_started.
Definition w_task : Task := mk_task w_client w_ads Fresh.
Definition w_done : UdpServer (S := list QueryEvent) := run_task 0 w_task (w_clock 0) w_received.

Lemma udp_server_safe_witness :
  Z.of_nat (length (us_tasks w_done)) <= max_udp_in_flight (r_cfg w_r) /\
  us_permits w_done = max_udp_in_flight (r_cfg w_r) - Z.of_nat (length (us_tasks w_done)) /\ length (us_sent w_done) = 1%nat.
Proof.
  destruct (udp_server_safe w_order w_r w_done) as (H1 & H2 & _).
  - change (0 <= 128). lia.
  - eapply rtc_l; [apply (udp_recv_step w_order w_client w_ads)|]. apply rtc_once.
    apply (udp_run w_order 0 w_task (w_clock 0) w_received); reflexivity.
  - split_and!; [exact H1|exact H2|reflexivity].
Defined.

Lemma tcp_server_bounded_witness :
  let s := tcp_accept w_client (serve_tcp_start w_r) in
  Z.of_nat (length (ts_conns s)) <= max_tcp_connections (r_cfg w_r) /\
  ts_permits s = max_tcp_connections (r_cfg w_r) - Z.of_nat (length (ts_conns s)) /\
  Forall (fun peer => Acl.allows (r_acl w_r) (sa_ip peer) = true) (ts_conns s).
Proof.
  apply (tcp_server_bounded w_order w_r); [change (0 <= 64); lia|]. apply rtc_once, tcp_accept_step.
Defined.

Definition w_session : Resolver.Resolver (S := list QueryEvent) * list string :=
  serve_each w_order (fun _ => w_env 0 w_silent) 0 w_client [w_ads; w_request] w_r.
Lemma tcp_session_in_order_witness :
  tcp_session w_order 3 (fun _ => w_env 0 w_silent) 0 true w_client (frames [w_ads; w_request]) w_r
    = Some (fst w_session, frames (snd w_session)).
Proof.
  destruct (tcp_session_in_order w_order (fun _ => w_env 0 w_silent) true w_client w_r) as [_ H].
  apply H; [|simpl; lia]. do 2 (apply Forall_cons; split; [split; by vm_compute|]). constructor.
Defined.
End Witness.
