(* ===== verification/Session.v ===== *)
(** * A TCP session in time (src/dns/mod.rs: [serve_tcp])

    [Serve.v] runs a session over the bytes a peer sent.  Here the reads and
    writes take time, may fail or never end, and the whole session has thirty
    seconds: what it is doing when they are over is dropped where it waits. *)
From S2P Require Import Prelude Str Addr Acl Blocklist Config DnsMsg Cache Upstream Db Resolver Serve.
Open Scope Z_scope.

Definition SESSION_LIMIT : Duration := from_secs 30.

Section Session.
Context `{Codec} {S : Type} `{!QueryObserver S}.
Context (order : gmap Key Cache.Entry -> list (Key * Cache.Entry)).
Abbreviation Resolver := (Resolver.Resolver (S := S)).

(** What one pass of the loop meets: the two reads ([None]: the peer has
    closed, or an error), the request's way through the resolver, and the two
    writes, of which the peer takes [tu_taken] bytes if they do not succeed. *)
Record Turn : Type := mk_turn {
  tu_len : Outcome (option string);
  tu_body : Z -> Outcome (option string);
  tu_env : Env (S := S);
  tu_write : Outcome bool;
  tu_taken : nat }.

(** [o.await] at [now] in the session: when it is over, unless the enclosing
    [timeout] strikes first. *)
Definition await {A} (now : Duration) (o : Outcome A) : option (Duration * A) :=
  match timeout (SESSION_LIMIT - now) o with (t, Some a) => Some (now + t, a) | (_, None) => None end.

Inductive Ending : Type := Returned | Dropped.
Record Ended : Type := mk_ended { se_resolver : Resolver; se_written : string; se_lasted : Duration; se_ending : Ending }.
Definition drop_here (r : Resolver) (written : string) : Ended := mk_ended r written SESSION_LIMIT Dropped.
Definition return_ (r : Resolver) (now : Duration) (written : string) : Ended := mk_ended r written now Returned.
Definition after_writing (out : string) (e : Ended) : Ended :=
  mk_ended (se_resolver e) (out +:+ se_written e) (se_lasted e) (se_ending e).

(** [read_exact] of the length and of the body: a request, the end, or no time. *)
Inductive ReadResult : Type := NoTime | Close (now : Duration) | Got (now : Duration) (request : string).
Definition read_request (now : Duration) (t : Turn) : ReadResult :=
  match await now (tu_len t) with
  | None => NoTime
  | Some (now, None) => Close now
  | Some (now, Some len_buf) =>
      let len := from_be_bytes len_buf in
      if (len =? 0) || (65535 <? len) then Close now
      else match await now (tu_body t len) with
           | None => NoTime
           | Some (now, None) => Close now
           | Some (now, Some request) => Got now request
           end
  end.

(** The session; after its last turn the peer stays silent.  A request that
    is dropped inside [handle] waits for the network: [prepare] has run. *)
Fixpoint session (now : Duration) (peer : SocketAddr) (turns : list Turn) (r : Resolver) : Ended :=
  match turns with
  | [] => drop_here r ""
  | t :: turns =>
      match read_request now t with
      | NoTime => drop_here r ""
      | Close now => return_ r now ""
      | Got now request =>
          let p := handle order (tu_env t) request peer r in
          if SESSION_LIMIT - now <? fst (snd p) then drop_here (fst (prepare (env_before (tu_env t)) request peer r)) ""
          else
            let now := now + fst (snd p) in
            match snd (snd p) with
            | None => return_ (fst p) now ""
            | Some response =>
                if u16_max <? str_len response then return_ (fst p) now ""
                else
                  match await now (tu_write t) with
                  | None => drop_here (fst p) (take_bytes (tu_taken t) (frame response))
                  | Some (now, false) => return_ (fst p) now (take_bytes (tu_taken t) (frame response))
                  | Some (now, true) => after_writing (frame response) (session now peer turns (fst p))
                  end
            end
      end
  end.

(* ------------------------------------------------------------------ *)
(** ** The same session with all the time in the world *)

(** The request of a turn, whenever it comes. *)
Definition request_of (t : Turn) : option string :=
  match tu_len t with
  | Ready _ (Some len_buf) =>
      let len := from_be_bytes len_buf in
      if (len =? 0) || (65535 <? len) then None
      else match tu_body t len with Ready _ (Some request) => Some request | _ => None end
  | _ => None
  end.

(** The replies it is owed: each request through the resolver in turn. *)
Fixpoint replies (peer : SocketAddr) (turns : list Turn) (r : Resolver) : list string :=
  match turns with
  | [] => []
  | t :: turns =>
      match request_of t with
      | None => []
      | Some request =>
          let p := handle order (tu_env t) request peer r in
          match snd (snd p) with
          | None => []
          | Some response =>
              if u16_max <? str_len response then [] else response :: replies peer turns (fst p)
          end
      end
  end.

(* ------------------------------------------------------------------ *)
(** ** Lemmas *)

Lemma take_bytes_prefix n s : exists rest, s = take_bytes n s +:+ rest.
Proof.
  unfold take_bytes. revert s. induction n as [|n IH]; intros [|c s]; simpl; [by exists ""|by eexists|by exists ""|].
  destruct (IH s) as [rest E]. exists rest. by rewrite <- E.
Qed.

Lemma await_in_time {A} now (o : Outcome A) now' a :
  await now o = Some (now', a) -> now' <= SESSION_LIMIT /\ exists t, o = Ready t a.
Proof.
  unfold await, timeout. destruct o as [t b|]; [|done]. destruct (Z.leb_spec t (SESSION_LIMIT - now)); [|done].
  intros [= <- <-]. split; [lia|by eexists].
Qed.

Lemma read_request_got now t now' request :
  read_request now t = Got now' request -> now' <= SESSION_LIMIT /\ request_of t = Some request.
Proof.
  unfold read_request, request_of. destruct (await now (tu_len t)) as [[l [len|]]|] eqn:E1; try done.
  apply await_in_time in E1 as [_ [t1 ->]]. destruct (_ || _); [done|].
  destruct (await l _) as [[l' [q|]]|] eqn:E2; try done. apply await_in_time in E2 as [H1 [t2 ->]].
  by intros [= <- <-].
Qed.
Lemma read_request_close now t now' :
  read_request now t = Close now' -> now' <= SESSION_LIMIT /\ request_of t = None.
Proof.
  unfold read_request, request_of. destruct (await now (tu_len t)) as [[l [len|]]|] eqn:E1; try done.
  - apply await_in_time in E1 as [H1 [t1 ->]]. destruct (_ || _); [by intros [= <-]|].
    destruct (await l _) as [[l' [q|]]|] eqn:E2; try done. apply await_in_time in E2 as [H2 [t2 ->]]. by intros [= <-].
  - apply await_in_time in E1 as [H1 [t1 ->]]. by intros [= <-].
Qed.

(** Whole replies, and then perhaps the beginning of the next one. *)
Definition beginning (out : string) (l : list string) : Prop :=
  exists n part rest, out = frames (take n l) +:+ part /\ frames (take 1 (drop n l)) = part +:+ rest.

Lemma beginning_nil l : beginning "" l.
Proof. exists 0%nat, "", (frames (take 1 l)). by rewrite take_0, drop_0. Qed.
Lemma beginning_part n r l : beginning (take_bytes n (frame r)) (r :: l).
Proof.
  destruct (take_bytes_prefix n (frame r)) as [rest E]. exists 0%nat, (take_bytes n (frame r)), rest.
  split; [done|]. simpl. by rewrite str_app_nil_r.
Qed.
Lemma beginning_cons out r l : beginning out l -> beginning (frame r +:+ out) (r :: l).
Proof.
  intros (n & part & rest & -> & E). exists (Datatypes.S n), part, rest. split; [|exact E].
  simpl. by rewrite str_app_assoc.
Qed.

Lemma session_spec turns now peer r :
  let e := session now peer turns r in
  se_lasted e <= SESSION_LIMIT /\ beginning (se_written e) (replies peer turns r) /\
  (se_ending e = Returned -> Forall (fun t => exists d, tu_write t = Ready d true) turns ->
   se_written e = frames (replies peer turns r)).
Proof.
  cbv zeta. revert now r. induction turns as [|t turns IH]; intros now r; cbn [session replies].
  { split; [done|]. split; [apply beginning_nil|done]. }
  destruct (read_request now t) as [|now'|now' request] eqn:E; cbn [se_lasted se_written se_ending drop_here return_].
  { split; [done|]. split; [apply beginning_nil|done]. }
  { apply read_request_close in E as [H1 ->]. split; [done|]. split; [apply beginning_nil|done]. }
  apply read_request_got in E as [H1 ->]. cbv zeta. set (p := handle _ _ _ _ _).
  destruct (Z.ltb_spec (SESSION_LIMIT - now') (fst (snd p))); cbn [se_lasted se_written se_ending drop_here].
  { split; [done|]. split; [apply beginning_nil|done]. }
  destruct (snd (snd p)) as [response|]; cbn [se_lasted se_written se_ending return_].
  2: { split; [lia|]. split; [apply beginning_nil|done]. }
  destruct (u16_max <? str_len response); cbn [se_lasted se_written se_ending return_].
  { split; [lia|]. split; [apply beginning_nil|done]. }
  destruct (await _ (tu_write t)) as [[l []]|] eqn:Ew; cbn [se_lasted se_written se_ending return_ drop_here after_writing].
  - destruct (IH l (fst p)) as (I1 & I2 & I3). split; [done|]. split; [by apply beginning_cons|].
    intros He [_ Hw]%Forall_cons. by rewrite I3.
  - apply await_in_time in Ew as [Hl [d Hd]]. split; [done|]. split; [apply beginning_part|].
    intros _ [[d' Hw] _]%Forall_cons. congruence.
  - split; [done|]. split; [apply beginning_part|done].
Qed.

(** C10. A TCP session lasts thirty seconds at most, whatever the peer, the
    network and the upstreams do; what it writes is the replies to the
    requests in order, whole frames except that the last may be cut; and a
    session that ends by itself with a peer that takes the replies has
    delivered every one. *)
Theorem session_bounded peer turns r :
  let e := session 0 peer turns r in
  se_lasted e <= SESSION_LIMIT /\ beginning (se_written e) (replies peer turns r) /\
  (se_ending e = Returned -> Forall (fun t => exists d, tu_write t = Ready d true) turns ->
   se_written e = frames (replies peer turns r)).
Proof. apply session_spec. Qed.
End Session.

(* ------------------------------------------------------------------ *)
(** ** Sessions *)

Section Sessions.
#[local] Existing Instance simple_hickory.
#[local] Existing Instance simple_codec.
#[local] Existing Instance list_observer.
Abbreviation Turn := (Turn (S := list QueryEvent)).

(** A request that comes after [pause], and a peer that takes the reply. *)
Definition w_turn (pause : Duration) (request : string) : Turn :=
  mk_turn (Ready pause (Some (to_be_bytes (str_len request)))) (fun _ => Ready 0 (Some request))
    (w_env 0 w_silent) (Ready 0 true) 0.

(** A peer that is never idle for more than eight seconds is cut off all the
    same: three of its five requests are answered. *)
Example busy_session_is_cut :
  let e := session w_order 0 w_client (repeat (w_turn (from_secs 8) w_ads) 5) w_r in
  se_ending e = Dropped /\ length (replies w_order w_client (repeat (w_turn (from_secs 8) w_ads) 5) w_r) = 5%nat /\
  se_written e = frames (take 3 (replies w_order w_client (repeat (w_turn (from_secs 8) w_ads) 5) w_r)).
Proof. vm_compute. done. Qed.

(** A question that is with the upstreams when the time is over is counted,
    but neither answered nor recorded, and not counted as timed out either. *)
Example dropped_question_leaves_no_event :
  let e := session w_order 0 w_client [w_turn (from_secs 29) w_request] w_r in
  se_ending e = Dropped /\ se_written e = "" /\ r_obs (se_resolver e) = [] /\
  total (r_stats (se_resolver e)) = 1 /\ request_timeouts (r_stats (se_resolver e)) = 0.
Proof. vm_compute. done. Qed.

(** One that closes after its questions has every reply. *)
Definition w_closing : list Turn := [w_turn 0 w_ads; w_turn 0 w_ads; mk_turn (Ready 0 None) (fun _ => Pending) (w_env 0 w_silent) (Ready 0 true) 0].
Lemma session_bounded_witness :
  let e := session w_order 0 w_client w_closing w_r in
  se_ending e = Returned /\ length (replies w_order w_client w_closing w_r) = 2%nat /\
  se_lasted e <= SESSION_LIMIT /\ se_written e = frames (replies w_order w_client w_closing w_r).
Proof.
  destruct (session_bounded w_order w_client w_closing w_r) as (H1 & _ & H3).
  split; [reflexivity|]. split; [reflexivity|]. split; [exact H1|].
  apply H3; [reflexivity|]. repeat (apply Forall_cons; split; [by eexists|]). constructor.
Defined.
End Sessions.
