(* ===== verification/Alerts.v ===== *)
(** * Alerts (src/alerts.rs)

    Raising an alert with its per-subject cooldown, the bounded queue, the
    task that notifies and records, and the NXDOMAIN storm scan. *)
From S2P Require Import Prelude Str Addr Acl Config Db.
Open Scope Z_scope.

Definition QUEUE_DEPTH : nat := 256.

Inductive Severity : Type := Info | Warning.
Definition severity_str (s : Severity) : string := match s with Info => "info" | Warning => "warning" end.
Definition ntfy_priority (s : Severity) : string := match s with Info => "3" | Warning => "4" end.
Definition ntfy_tag (s : Severity) : string := match s with Info => "bulb" | Warning => "warning" end.

Record Alert : Type := mk_alert {
  al_kind : string;
  al_severity : Severity;
  al_subject : string;
  al_title : string;
  al_detail : string }.

Definition new_device (mac : string) (hostname vendor : option string) : Alert :=
  let who := default "an unnamed device" hostname in
  let make := default "unknown vendor" vendor in
  mk_alert "new_device" Info mac "New device on the network" (who +:+ " (" +:+ make +:+ ") — " +:+ mac).

Definition nxdomain_storm (client : string) (count window_mins : Z) : Alert :=
  mk_alert "nxdomain_storm" Warning client "Unusual NXDOMAIN volume"
    (client +:+ " got " +:+ show_int count +:+ " NXDOMAIN answers in " +:+ show_uint window_mins +:+ " minutes. "
     +:+ "That is the usual shape of malware looking for a command-and-control "
     +:+ "host, though a broken app can do it too.").

Abbreviation Cooldowns := (gmap (string * string) Instant).
Record AlertSink : Type := mk_sink {
  sk_queue : list Alert;
  sk_open : bool;
  sk_cooldown : Lock Cooldowns;
  sk_cooldown_for : Duration }.

(** The decision under the lock: the new map and whether the slot was free. *)
Definition take_slot (cooldown_for : Duration) (now : Instant) (key : string * string) (map : Cooldowns)
    : Cooldowns * bool :=
  if is_some_and (fun last => duration_since now last <? cooldown_for) (map !! key) then (map, false)
  else
    let map1 := if (4096 <? size map)%nat
                then filter (fun p => duration_since now (snd p) < cooldown_for) map else map in
    (<[key := now]> map1, true).

Definition take_cooldown_slot (now : Instant) (kind subject : string) (s : AlertSink) : AlertSink * bool :=
  match lock_ok (sk_cooldown s) with
  | None => (s, true)
  | Some map =>
      let '(map', free) := take_slot (sk_cooldown_for s) now (kind, subject) map in
      (mk_sink (sk_queue s) (sk_open s) (lock_set (sk_cooldown s) map') (sk_cooldown_for s), free)
  end.

Definition raise (now : Instant) (alert : Alert) (s : AlertSink) : AlertSink :=
  let '(s1, free) := take_cooldown_slot now (al_kind alert) (al_subject alert) s in
  if negb free then s1
  else if sk_open s1 && (length (sk_queue s1) <? QUEUE_DEPTH)%nat
  then mk_sink (sk_queue s1 ++ [alert]) (sk_open s1) (sk_cooldown s1) (sk_cooldown_for s1)
  else s1.

(** [spawn]: no sink when alerting is off. *)
Definition spawn (cfg : AlertConfig) : option AlertSink :=
  if negb (alerts_enabled cfg) then None
  else Some (mk_sink [] true (new_lock ∅) (from_secs (cooldown_mins cfg * 60))).

(** One turn of the task: [delivered] is whether ntfy accepted the push, when
    there is a client to push with. *)
Definition record_op (ts : Z) (alert : Alert) (notified : bool) : WriteOp :=
  OpAlert ts (al_kind alert) (severity_str (al_severity alert)) (al_subject alert) (al_detail alert) notified.
Definition drain_one (ts : Z) (client : bool) (delivered : bool) (s : AlertSink) (w : Writer) : AlertSink * Writer :=
  match sk_queue s with
  | [] => (s, w)
  | alert :: rest =>
      (mk_sink rest (sk_open s) (sk_cooldown s) (sk_cooldown_for s),
       send (record_op ts alert (client && delivered)) w)
  end.

(** [build_client]: no client without a URL, or when it cannot be built. *)
Definition build_client (url : string) (built : bool) : bool := negb (is_empty url) && built.

(** The POST that [notify] makes. *)
Record Push : Type := mk_push { pu_url : string; pu_headers : list (string * string); pu_body : string }.
Definition push_of (url : string) (alert : Alert) : Push :=
  mk_push url [("Title", al_title alert); ("Priority", ntfy_priority (al_severity alert));
               ("Tags", ntfy_tag (al_severity alert))] (al_detail alert).
(** [post] is the HTTP client: the status of the answer, [None] for none. *)
Definition notify (post : Push -> option Z) (url : string) (alert : Alert) : bool :=
  match post (push_of url alert) with
  | Some status => (200 <=? status) && (status <=? 299)
  | None => false
  end.

(** The task of [spawn] over the alerts that are waiting: [ts] reads the
    clock for each, [post] answers each push. *)
Fixpoint drain_all (ts : nat -> Z) (built : bool) (post : nat -> Push -> option Z) (url : string) (i : nat)
    (alerts : list Alert) (s : AlertSink) (w : Writer) : AlertSink * Writer :=
  match alerts with
  | [] => (s, w)
  | alert :: rest =>
      let '(s, w) := drain_one (ts i) (build_client (trim url) built) (notify (post i) (trim url) alert) s w in
      drain_all ts built post url (Datatypes.S i) rest s w
  end.

(** One scan of [storm_watcher]; [None]: the database was busy.  Each alert
    reads the clock as it is raised. *)
Definition storm_scan (clock : nat -> Instant) (window_mins : Z) (found : option (list (string * Z))) (s : AlertSink) : AlertSink :=
  match found with
  | Some offenders => fold_left (fun s p => raise (clock (fst p)) (nxdomain_storm (fst (snd p)) (snd (snd p)) window_mins) s)
                        (imap pair offenders) s
  | None => s
  end.

(** One tick of [storm_watcher]: the scan runs on the blocking pool
    ([joined]) on the read connection, and may fail ([sql_ok]). *)
Definition storm_tick (group_order : list string -> list string) (joined sql_ok : bool) (clock : nat -> Instant)
    (now window_mins threshold : Z) (db : Lock Db) (s : AlertSink) : AlertSink :=
  if negb joined then s
  else storm_scan clock window_mins
         (let! d := lock_ok db in if sql_ok then Some (nxdomain_offenders group_order now window_mins threshold d) else None) s.

(* ------------------------------------------------------------------ *)
(** ** The cooldown over time *)

(** A history of requests: which key, when, and (computed) whether it passed. *)
Fixpoint cooldown_run (cooldown_for : Duration) (map : Cooldowns) (reqs : list (Instant * (string * string)))
    : list (Instant * (string * string) * bool) :=
  match reqs with
  | [] => []
  | (now, key) :: r =>
      let '(map', free) := take_slot cooldown_for now key map in
      (now, key, free) :: cooldown_run cooldown_for map' r
  end.

(** The specification: a request passes iff every earlier one of its key that
    passed is at least the cooldown in the past. *)
Fixpoint cooldown_spec (cooldown_for : Duration) (passed : list (Instant * (string * string)))
    (reqs : list (Instant * (string * string))) : list (Instant * (string * string) * bool) :=
  match reqs with
  | [] => []
  | (now, key) :: r =>
      let free := forallb (fun p => negb (bool_decide (snd p = key)) || (cooldown_for <=? now - fst p)) passed in
      (now, key, free) :: cooldown_spec cooldown_for (if free then (now, key) :: passed else passed) r
  end.

(** The map knows every pass that still matters at time [now]. *)
Definition tracks (cooldown_for now : Z) (map : Cooldowns) (passed : list (Instant * (string * string))) : Prop :=
  (forall key t, map !! key = Some t -> (t, key) ∈ passed) /\
  (forall key t, (t, key) ∈ passed ->
     t <= now /\ (cooldown_for <= now - t \/ exists t' : Instant, map !! key = Some t' /\ t <= t')).

Lemma tracks_later c now now' m p : now <= now' -> tracks c now m p -> tracks c now' m p.
Proof.
  intros Hn [H1 H2]. split; [done|]. intros key t Ht. destruct (H2 _ _ Ht) as [Hle [?|?]]; split; auto; [lia| |lia].
  left. lia.
Qed.

Lemma take_slot_free c now key m p :
  tracks c now m p ->
  snd (take_slot c now key m) =
  forallb (fun q => negb (bool_decide (snd q = key)) || (c <=? now - fst q)) p.
Proof.
  intros [H1 H2]. apply eq_true_iff_eq. rewrite forallb_is_true. unfold take_slot. split.
  - destruct (m !! key) as [last|] eqn:Em; simpl.
    + destruct (Z.ltb_spec (duration_since now last) c) as [|Hge]; simpl; [done|].
      intros _ [t k] Hq. simpl. case_bool_decide as Hk; [|done]. subst k. simpl. apply Z.leb_le.
      destruct (H2 key t Hq) as [Ht [?|(t' & Em' & Hle)]]; [done|]. rewrite Em in Em'. simplify_eq.
      pose proof (H1 _ _ Em) as Hp. apply H2 in Hp as [Hl _].
      unfold duration_since, saturating_sub in Hge. lia.
    + intros _ [t k] Hq. simpl. case_bool_decide as Hk; [|done]. subst k. simpl. apply Z.leb_le.
      destruct (H2 key t Hq) as [Ht [?|(t' & Em' & Hle)]]; [done|congruence].
  - intros Hall. destruct (m !! key) as [last|] eqn:Em; simpl; [|done].
    pose proof (H1 _ _ Em) as Hp. pose proof (Hall _ Hp) as Hc. simpl in Hc.
    rewrite bool_decide_true in Hc by done. simpl in Hc. apply Z.leb_le in Hc.
    rewrite (proj2 (Z.ltb_ge _ _)); [done|]. unfold duration_since, saturating_sub. lia.
Qed.

Lemma take_slot_tracks c now key m p :
  tracks c now m p ->
  tracks c now (fst (take_slot c now key m))
    (if snd (take_slot c now key m) then (now, key) :: p else p).
Proof.
  intros [H1 H2]. unfold take_slot. destruct (is_some_and _ _); [done|]. cbn [fst snd].
  set (m1 := if (4096 <? size m)%nat then _ else m).
  assert (m1 ⊆ m) as Hsub by (subst m1; case_match; [apply map_filter_subseteq|done]).
  assert (forall k t, m !! k = Some t -> duration_since now t < c -> m1 !! k = Some t) as Hkeep.
  { intros k t Hk Hd. subst m1. case_match; [|done]. by apply map_lookup_filter_Some. }
  split.
  - intros k t. destruct (decide (k = key)) as [->|Hne].
    + rewrite lookup_insert_eq. intros [= <-]. set_solver.
    + rewrite lookup_insert_ne by done. intros Hk. right. apply H1. by eapply lookup_weaken.
  - intros k t [[= -> ->]|Hp]%elem_of_cons.
    + split; [lia|]. right. exists now. by rewrite lookup_insert_eq.
    + destruct (H2 k t Hp) as [Hle Hor]. split; [done|].
      destruct (decide (k = key)) as [->|Hne]; [right; exists now; by rewrite lookup_insert_eq|].
      rewrite lookup_insert_ne by done. destruct Hor as [?|(t' & Hk & Hl)]; [by left|].
      destruct (Z.lt_ge_cases (duration_since now t') c) as [Hd|Hd]; [right; eauto|left].
      pose proof (H1 _ _ Hk) as Hq. apply H2 in Hq as [Hl' _].
      unfold duration_since, saturating_sub in Hd. lia.
Qed.

(* ------------------------------------------------------------------ *)
(** ** Properties *)

(** C35. The cooldown is exact: with a clock that does not run backwards, an
    alert passes if and only if every alert of the same kind and subject that
    passed before is at least the cooldown in the past; pruning the map never
    lets a repeat through early nor holds one back. *)
Theorem cooldown_exact cooldown_for reqs :
  Sorted Z.le (map fst reqs) ->
  cooldown_run cooldown_for ∅ reqs = cooldown_spec cooldown_for [] reqs.
Proof.
  intros Hs%Sorted_StronglySorted; [|intros x y z; lia].
  assert (forall reqs m p now, tracks cooldown_for now m p -> StronglySorted Z.le (map fst reqs) ->
    Forall (fun t => now <= t) (map fst reqs) -> cooldown_run cooldown_for m reqs = cooldown_spec cooldown_for p reqs) as H.
  { clear. induction reqs as [|[t key] r IH]; intros m p now Ht Hs Hn; [done|]. cbn [map fst] in *.
    apply StronglySorted_inv in Hs as [Hs Hle]. apply Forall_cons in Hn as [Hnt _].
    apply (tracks_later _ _ t) in Ht; [|done]. cbn [cooldown_run cooldown_spec].
    pose proof (take_slot_free cooldown_for t key m p Ht) as Hf.
    pose proof (take_slot_tracks cooldown_for t key m p Ht) as Htr.
    destruct (take_slot cooldown_for t key m) as [m' free]. cbn [fst snd] in *. rewrite <-Hf. f_equal.
    by apply (IH _ _ t). }
  destruct reqs as [|[t key] r]; [done|]. apply (H _ _ _ t).
  - split; [intros k t'; by rewrite lookup_empty|]. by intros ? ? ?%elem_of_nil.
  - done.
  - cbn [map fst] in *. apply StronglySorted_inv in Hs as [_ Hl]. by constructor.
Qed.

Definition w_reqs : list (Instant * (string * string)) :=
  [(0, ("new_device", "aa")); (5, ("new_device", "aa")); (6, ("new_device", "bb")); (10, ("new_device", "aa"))].

Lemma cooldown_exact_witness :
  cooldown_run 10 ∅ w_reqs = cooldown_spec 10 [] w_reqs.
Proof. apply (cooldown_exact 10 w_reqs). repeat constructor; simpl; lia. Defined.

Example cooldown_run_example : map snd (cooldown_run 10 ∅ w_reqs) = [true; false; true; true].
Proof. vm_compute. reflexivity. Qed.

(** The task loses no alert to a failing push: everything that was queued is
    recorded, in order, and marked as notified exactly when there was a
    client and the push was accepted. *)
Theorem alerts_recorded ts built post url i s w :
  let notified k a := build_client (trim url) built && notify (post k) (trim url) a in
  let '(s', w') := drain_all ts built post url i (sk_queue s) s w in
  sk_queue s' = [] /\ sk_cooldown s' = sk_cooldown s /\
  w' = send_all (imap (fun k a => record_op (ts (i + k)%nat) a (notified (i + k)%nat a)) (sk_queue s)) w.
Proof.
  cbv zeta. remember (sk_queue s) as q eqn:Hq. revert i s w Hq. induction q as [|a q IH]; intros i s w Hq; [by simpl|].
  cbn [drain_all]. unfold drain_one. rewrite <- Hq.
  specialize (IH (Datatypes.S i) (mk_sink q (sk_open s) (sk_cooldown s) (sk_cooldown_for s))
    (send (record_op (ts i) a (build_client (trim url) built && notify (post i) (trim url) a)) w) eq_refl).
  destruct (drain_all _ _ _ _ _ q _ _) as [s' w']. destruct IH as (H1 & H2 & ->). split; [done|]. split; [done|].
  cbn [imap]. unfold send_all. cbn [fold_left]. rewrite Nat.add_0_r. f_equal.
  apply imap_ext. intros k x _. simpl. by rewrite Nat.add_succ_r.
Qed.
