(* ===== verification/Devices.v ===== *)
(** * The device registry (src/devices.rs)

    Which device an address belongs to, and what it is called: sightings from
    the neighbour table, names from DHCP, mDNS and DNS answers, the write
    debouncing that protects the SD card, and the parsers of device-supplied
    data. *)
From S2P Require Import Prelude Str Addr Acl Config Oui Netinfo DnsMsg Db Alerts.
Open Scope Z_scope.

Definition LAST_SEEN_HEARTBEAT : Duration := from_secs 60.

Record Device : Type := mk_dev {
  dv_mac : string;
  dv_ip : option Z;
  dv_hostname : option string;
  dv_vendor : option string;
  dv_randomized : bool;
  written_fingerprint : option Z;
  last_seen_written : option Instant }.
(** [Device { mac, ..Device::default() }]. *)
Definition blank_device (mac : string) (ip : option Z) : Device := mk_dev mac ip None None false None None.

Record Inner : Type := mk_inner {
  by_mac : gmap string Device;
  ip_to_mac : gmap Z string;
  pending_names : gmap Z string }.
Definition empty_inner : Inner := mk_inner ∅ ∅ ∅.

Record Store : Type := mk_store {
  inner : Lock Inner;
  oui : OuiDb;
  writer : option Writer;
  alert_sink : option AlertSink }.

Definition new_store (oui : OuiDb) (w : Writer) : Store := mk_store (new_lock empty_inner) oui (Some w) None.
Definition with_alerts (s : Store) (sink : option AlertSink) : Store :=
  mk_store (inner s) (oui s) (writer s) sink.

(** Leave a new registry behind under the write lock. *)
Definition set_inner (s : Store) (i : Inner) : Store :=
  mk_store (lock_set (inner s) i) (oui s) (writer s) (alert_sink s).

(* ------------------------------------------------------------------ *)
(** ** Names *)

Definition hostname_char (b : ascii) : bool :=
  is_ascii_alphanumeric b || Ascii.eqb b "-" || Ascii.eqb b "_" || Ascii.eqb b ".".

Definition sanitize_hostname (raw : string) : option string :=
  let trimmed := trim_end_matches "." (trim raw) in
  if is_empty trimmed || (64 <? str_len trimmed) then None
  else if negb (str_forallb hostname_char trimmed) then None
  else if is_some (parse_ip trimmed) then None
  else Some (to_ascii_lowercase trimmed).

(** All the parts must be octets; the last part is the first octet. *)
Fixpoint parse_octets (parts : list string) : option (list Z) :=
  match parts with
  | [] => Some []
  | p :: r => let! o := parse_uint u8_max p in let! l := parse_octets r in Some (o :: l)
  end.
Definition ptr_name_to_ip (name : string) : option Z :=
  let n := to_ascii_lowercase (trim_end_matches "." name) in
  let! base := strip_suffix ".in-addr.arpa" n in
  let parts := split_char "." base in
  if negb (length parts =? 4)%nat then None
  else let! octets := parse_octets (rev parts) in Some (ipv4_of_octets octets).

(* ------------------------------------------------------------------ *)
(** ** The registry *)

Section Registry.
(** The standard library's hasher, applied to the fields of the fingerprint. *)
Context (hash : option Z * option string * option string * bool -> Z).

Definition fingerprint (d : Device) : Z := hash (dv_ip d, dv_hostname d, dv_vendor d, dv_randomized d).

Definition heartbeat_due (now : Instant) (d : Device) : bool :=
  is_none_or (fun t => LAST_SEEN_HEARTBEAT <=? duration_since now t) (last_seen_written d).

Definition mark_written (now : Instant) (d : Device) : Device :=
  mk_dev (dv_mac d) (dv_ip d) (dv_hostname d) (dv_vendor d) (dv_randomized d)
    (Some (fingerprint d)) (Some now).

Definition take_write_slot (now : Instant) (d : Device) : Device * bool :=
  let changed := negb (bool_decide (written_fingerprint d = Some (fingerprint d))) in
  let stale := heartbeat_due now d in
  if changed || stale then (mark_written now d, true) else (d, false).

(** Load one database row. *)
Definition hydrate_row (now : Instant) (st : Inner * Z) (row : KnownDevice) : Inner * Z :=
  let '(i, loaded) := st in
  match Oui.normalize (kd_mac row) with
  | None => st
  | Some mac =>
      let ip := kd_ip row ≫= parse_ipv4 in
      let dev := mark_written now (mk_dev mac ip (kd_hostname row) (kd_vendor row) (kd_randomized row) None None) in
      (mk_inner (<[mac := dev]> (by_mac i))
         (match ip with Some ip => <[ip := mac]> (ip_to_mac i) | None => ip_to_mac i end)
         (pending_names i), loaded + 1)
  end.
Definition hydrate (now : Instant) (rows : list KnownDevice) (s : Store) : Store * Z :=
  match lock_ok (inner s) with
  | None => (s, 0)
  | Some i => let '(i', loaded) := fold_left (hydrate_row now) rows (i, 0) in (set_inner s i', loaded)
  end.

Definition device_op (ts : Z) (d : Device) : WriteOp :=
  OpDevice (dv_mac d) (option_map show_ipv4 (dv_ip d)) (dv_hostname d) (dv_vendor d) (dv_randomized d) ts.
Definition persist (ts : Z) (d : Device) (s : Store) : Store :=
  match writer s with
  | None => s
  | Some w => mk_store (inner s) (oui s) (Some (send (device_op ts d) w)) (alert_sink s)
  end.
Definition persist_opt (ts : Z) (d : option Device) (s : Store) : Store :=
  match d with Some d => persist ts d s | None => s end.

Definition vendor_of (o : OuiDb) (mac : string) : option string :=
  if Oui.is_randomized mac then Some "(randomized MAC)" else Oui.lookup o mac.

(** The entry of a sighting, with what it learned. *)
Definition sighted (ip : option Z) (name : option string) (randomized : bool) (vendor : option string) (d : Device) : Device :=
  mk_dev (dv_mac d) (match ip with Some ip => Some ip | None => dv_ip d end)
    (match name with Some n => Some n | None => dv_hostname d end)
    (match dv_vendor d with Some v => Some v | None => vendor end)
    randomized (written_fingerprint d) (last_seen_written d).

(** The registry part of [observe]: the new registry, the row to write if
    any, and the device if it was never seen before. *)
Definition observe_inner (o : OuiDb) (now : Instant) (ip : Z) (mac : string) (i : Inner)
    : Inner * option Device * option Device :=
  let pending := pending_names i !! ip in
  let is_new := negb (is_some (by_mac i !! mac)) in
  let entry := default (blank_device mac None) (by_mac i !! mac) in
  let snapshot := sighted (Some ip) pending (Oui.is_randomized mac) (vendor_of o mac) entry in
  let '(entry', write) := take_write_slot now snapshot in
  (mk_inner (<[mac := entry']> (by_mac i)) (<[ip := mac]> (ip_to_mac i)) (delete ip (pending_names i)),
   if write then Some snapshot else None, if is_new then Some snapshot else None).

(** The clock as one sighting reads it: for the write slot, for the row, and,
    outside the lock, for the alert. *)
Record SightClock : Type := mk_sight { sg_slot : Instant; sg_row : Z; sg_alert : Instant }.

Definition observe (ck : SightClock) (ip : Z) (mac : string) (s : Store) : Store :=
  match Oui.normalize mac with
  | None => s
  | Some mac =>
      match lock_ok (inner s) with
      | None => s
      | Some i =>
          let '(i', dev, first_sighting) := observe_inner (oui s) (sg_slot ck) ip mac i in
          let s1 := persist_opt (sg_row ck) dev (set_inner s i') in
          match first_sighting, alert_sink s1 with
          | Some d, Some sink =>
              mk_store (inner s1) (oui s1) (writer s1)
                (Some (raise (sg_alert ck) (new_device (dv_mac d) (dv_hostname d) (dv_vendor d)) sink))
          | _, _ => s1
          end
      end
  end.

Definition observe_named (now : Instant) (ts : Z) (mac hostname : string) (s : Store) : Store :=
  match Oui.normalize mac with
  | None => s
  | Some mac =>
      match sanitize_hostname hostname with
      | None => s
      | Some name =>
          match lock_ok (inner s) with
          | None => s
          | Some i =>
              let entry := default (blank_device mac None) (by_mac i !! mac) in
              let e1 := sighted None (Some name) (Oui.is_randomized mac) (vendor_of (oui s) mac) entry in
              let '(e2, write) := take_write_slot now e1 in
              persist_opt ts (if write then Some e2 else None)
                (set_inner s (mk_inner (<[mac := e2]> (by_mac i)) (ip_to_mac i) (pending_names i)))
          end
      end
  end.

Definition name_if_none (name : string) (d : Device) : Device :=
  mk_dev (dv_mac d) (dv_ip d) (match dv_hostname d with Some n => Some n | None => Some name end)
    (dv_vendor d) (dv_randomized d) (written_fingerprint d) (last_seen_written d).

Definition observe_name_for_ip (now : Instant) (ts ip : Z) (hostname : string) (s : Store) : Store :=
  match sanitize_hostname hostname with
  | None => s
  | Some name =>
      match lock_ok (inner s) with
      | None => s
      | Some i =>
          match ip_to_mac i !! ip with
          | Some mac =>
              let entry := default (blank_device mac (Some ip)) (by_mac i !! mac) in
              let '(e, write) := take_write_slot now (name_if_none name entry) in
              persist_opt ts (if write then Some e else None)
                (set_inner s (mk_inner (<[mac := e]> (by_mac i)) (ip_to_mac i) (pending_names i)))
          | None => set_inner s (mk_inner (by_mac i) (ip_to_mac i) (<[ip := name]> (pending_names i)))
          end
      end
  end.

(** [touch_ip]: the check under the read lock, then the update under the
    write lock, which checks again. *)
Definition device_at (i : Inner) (v4 : Z) : option Device :=
  let! mac := ip_to_mac i !! v4 in by_mac i !! mac.
Definition touch_due (now : Instant) (v4 : Z) (i : Inner) : bool :=
  is_some_and (heartbeat_due now) (device_at i v4).
Definition beat (now : Instant) (d : Device) : Device :=
  mk_dev (dv_mac d) (dv_ip d) (dv_hostname d) (dv_vendor d) (dv_randomized d) (written_fingerprint d) (Some now).
Definition touch_write (now : Instant) (ts v4 : Z) (s : Store) : Store :=
  match lock_ok (inner s) with
  | None => s
  | Some i =>
      match ip_to_mac i !! v4 with
      | None => s
      | Some mac =>
          match by_mac i !! mac with
          | Some d =>
              if heartbeat_due now d then
                persist ts (beat now d)
                  (set_inner s (mk_inner (<[mac := beat now d]> (by_mac i)) (ip_to_mac i) (pending_names i)))
              else s
          | None => s
          end
      end
  end.
Definition touch_ip (now : Instant) (ts : Z) (ip : IpAddr) (s : Store) : Store :=
  match ip with
  | V6 _ => s
  | V4 v4 =>
      match lock_ok (inner s) with
      | None => s
      | Some i => if touch_due now v4 i then touch_write now ts v4 s else s
      end
  end.

(** Addresses without a name, in the iteration order of the map. *)
Definition ips_needing_names (order : gmap Z string -> list (Z * string)) (s : Store) : list Z :=
  match lock_ok (inner s) with
  | None => []
  | Some i =>
      map fst (List.filter (fun p =>
        negb (is_some (pending_names i !! fst p))
        && is_none_or (fun d => is_none (dv_hostname d)) (by_mac i !! snd p)) (order (ip_to_mac i)))
  end.

Section Dns.
Context `{Hickory}.
Definition strip_local (s : string) : string := default s (strip_suffix ".local" s).

Definition learn_record (now : Instant) (ts : Z) (s : Store) (rec : Record_) : Store :=
  match r_data rec with
  | A a =>
      match strip_suffix ".local" (trim_end_matches "." (to_ascii (r_name rec))) with
      | Some stripped => observe_name_for_ip now ts a stripped s
      | None => s
      end
  | PTR ptr =>
      match ptr_name_to_ip (to_ascii (r_name rec)) with
      | Some ip => observe_name_for_ip now ts ip (strip_local (trim_end_matches "." (to_ascii ptr))) s
      | None => s
      end
  | _ => s
  end.
Definition learn_from_dns (now : Instant) (ts : Z) (msg : Message) (s : Store) : Store :=
  fold_left (learn_record now ts) (answers msg) s.

(** One packet of the mDNS listener, from [src]. *)
Definition mdns_packet (now : Instant) (ts src : Z) (msg : Message) (s : Store) : Store :=
  let own := List.filter (fun rec => match r_data rec with A a => a =? src | _ => false end) (answers msg) in
  match own with
  | _ :: _ => fold_left (fun s rec =>
      observe_name_for_ip now ts src (strip_local (trim_end_matches "." (to_ascii (r_name rec)))) s) own s
  | [] =>
      match List.find (fun rec => match r_data rec with SRV _ _ => true | _ => false end) (answers msg) with
      | Some rec => observe_name_for_ip now ts src (hd "" (split_char "." (to_ascii (r_name rec)))) s
      | None => s
      end
  end.
End Dns.

(** One tick of the neighbour-table poller. *)
Definition arp_wanted (iface : option string) (subnet : option Subnet) (e : ArpEntry) : bool :=
  is_none_or (String.eqb (arp_iface e)) iface && is_none_or (fun s => contains s (arp_ip e)) subnet.
Definition arp_tick (ck : nat -> SightClock) (iface : option string) (subnet : option Subnet)
    (table : option (list ArpEntry)) (s : Store) : Store :=
  match table with
  | None => s
  | Some entries => fold_left (fun s p => observe (ck (fst p)) (arp_ip (snd p)) (arp_mac (snd p)) s)
                      (imap pair (List.filter (arp_wanted iface subnet) entries)) s
  end.
End Registry.

(* ------------------------------------------------------------------ *)
(** ** DHCP *)

Definition byte_at (pkt : list Z) (i : nat) : Z := nth i pkt 0.
Definition slice (pkt : list Z) (a b : nat) : list Z := take (b - a) (drop a pkt).
Definition hex2 (b : Z) : string := show_hex_padded 2 b.

(** The options loop at offset [i]; [None] is a run out of fuel. *)
Fixpoint dhcp_options (fuel : nat) (pkt : list Z) (i : nat) (hostname : option string) : option (option string) :=
  match fuel with
  | O => None
  | S n =>
      if (length pkt <=? i)%nat then Some hostname
      else
        let code := byte_at pkt i in
        if code =? 0 then dhcp_options n pkt (i + 1) hostname
        else if code =? 255 then Some hostname
        else if (length pkt <=? i + 1)%nat then Some hostname
        else
          let len := Z.to_nat (byte_at pkt (i + 1)) in
          let start := (i + 2)%nat in
          let end_ := (start + len)%nat in
          if (length pkt <? end_)%nat then Some hostname
          else
            let hostname' :=
              if code =? 12
              then match from_utf8 (slice pkt start end_) with Some s => Some s | None => hostname end
              else hostname in
            dhcp_options n pkt end_ hostname'
  end.

Definition MAGIC : list Z := [99; 130; 83; 99].

Definition parse_dhcp (pkt : list Z) : option (string * option string) :=
  if (length pkt <? 240)%nat then None
  else if negb (byte_at pkt 0 =? 1) then None
  else
    let hlen := Z.to_nat (byte_at pkt 2) in
    if (hlen =? 0)%nat || (16 <? hlen)%nat then None
    else
      let mac_bytes := slice pkt 28 (28 + Nat.min hlen 6) in
      let! mac := Oui.normalize (str_join ":" (map hex2 mac_bytes)) in
      if negb (bool_decide (slice pkt 236 240 = MAGIC)) then Some (mac, None)
      else
        let! hostname := dhcp_options (S (length pkt)) pkt 240 None in
        Some (mac, hostname).

(** What the listener does with a packet. *)
Definition dhcp_packet hash (now : Instant) (ts : Z) (pkt : list Z) (s : Store) : Store :=
  match parse_dhcp pkt with
  | Some (mac, Some name) => observe_named hash now ts mac name s
  | _ => s
  end.

(* ------------------------------------------------------------------ *)
(** ** The tests of the source, evaluated *)

Example sanitize_examples :
  map sanitize_hostname ["Living-Room-TV."; "192.168.1.5"; "bad name"; ""]
  = [Some "living-room-tv"; None; None; None].
Proof. vm_compute. reflexivity. Qed.

Example ptr_examples :
  map ptr_name_to_ip ["42.1.168.192.in-addr.arpa."; "1.168.192.in-addr.arpa"; "300.1.168.192.in-addr.arpa"]
  = [Some (ipv4 192 168 1 42); None; None].
Proof. vm_compute. reflexivity. Qed.

(* ------------------------------------------------------------------ *)
(** ** Lemmas: names *)

(** What the dashboard may be given as a name. *)
Definition hostname_ok (n : string) : Prop :=
  n <> "" /\ str_len n <= 64 /\
  str_forallb (fun b => hostname_char b && negb (is_ascii_upper b)) n = true.

Lemma lower_hostname s :
  str_forallb hostname_char s = true ->
  str_forallb (fun b => hostname_char b && negb (is_ascii_upper b)) (to_ascii_lowercase s) = true.
Proof.
  unfold to_ascii_lowercase. induction s as [|a s IH]; [done|]. simpl. intros [Ha Hs]%andb_true_iff.
  rewrite IH by done. rewrite lower_char_not_upper, !andb_true_r. revert Ha. clear.
  unfold hostname_char. rewrite lower_char_alnum. all_chars a; done.
Qed.

Lemma sanitize_ok raw n : sanitize_hostname raw = Some n -> hostname_ok n.
Proof.
  unfold sanitize_hostname. set (t := trim_end_matches "." (trim raw)).
  destruct (is_empty t) eqn:He; cbn [orb]; [done|].
  destruct (Z.ltb_spec 64 (str_len t)); [done|].
  destruct (str_forallb hostname_char t) eqn:Hc; cbn [negb]; [|done].
  destruct (is_some (parse_ip t)); [done|]. intros [= <-]. split; [|split].
  - destruct t; [done|]. done.
  - unfold str_len, to_ascii_lowercase in *. by rewrite str_map_length.
  - by apply lower_hostname.
Qed.

(* ------------------------------------------------------------------ *)
(** ** Lemmas: the registry *)

Definition name_field_ok (n : option string) : Prop := match n with Some n => hostname_ok n | None => True end.

Record inner_ok (i : Inner) : Prop := mk_inner_ok {
  io_devices : map_Forall (fun mac d => dv_mac d = mac /\ canonical_mac mac /\ name_field_ok (dv_hostname d)) (by_mac i);
  io_index : map_Forall (fun _ mac => is_Some (by_mac i !! mac)) (ip_to_mac i);
  io_pending : map_Forall (fun _ n => hostname_ok n) (pending_names i) }.

Definition store_ok (s : Store) : Prop := inner_ok (lk_value (inner s)).
(** A device whose row may be written. *)
Definition device_ok (d : Device) : Prop := canonical_mac (dv_mac d) /\ name_field_ok (dv_hostname d).
Lemma stored_ok mac d m idx pend : inner_ok (mk_inner (<[mac := d]> m) idx pend) -> device_ok d.
Proof.
  intros [Hd _ _]. destruct (Hd mac d) as (<- & Hc & Hn); [apply lookup_insert_eq|]. by split.
Qed.

Lemma normalize_canon mac m : Oui.normalize mac = Some m -> canonical_mac m.
Proof. by intros (? & _)%mac_normalize_sound. Qed.

(** Replacing (or adding) one good device keeps the registry good. *)
Lemma insert_device_ok i mac d idx :
  inner_ok i -> dv_mac d = mac -> canonical_mac mac -> name_field_ok (dv_hostname d) ->
  (idx = ip_to_mac i \/ exists ip, idx = <[ip := mac]> (ip_to_mac i)) ->
  forall pend, pend ⊆ pending_names i ->
  inner_ok (mk_inner (<[mac := d]> (by_mac i)) idx pend).
Proof.
  intros [Hd Hi Hp] Hm Hc Hn Hidx pend Hsub. split; simpl.
  - by apply map_Forall_insert_2.
  - assert (map_Forall (fun _ m => is_Some (<[mac := d]> (by_mac i) !! m)) (ip_to_mac i)) as Hold.
    { intros ip m Hm'. destruct (decide (m = mac)) as [->|Hne]; [by rewrite lookup_insert_eq; eexists|].
      rewrite lookup_insert_ne by done. by apply (Hi ip). }
    destruct Hidx as [->|[ip ->]]; [done|]. apply map_Forall_insert_2; [|done].
    rewrite lookup_insert_eq. by eexists.
  - intros ip n Hn'. apply (Hp ip). by eapply lookup_weaken.
Qed.

Lemma device_or_blank i mac ip :
  inner_ok i -> canonical_mac mac ->
  dv_mac (default (blank_device mac ip) (by_mac i !! mac)) = mac /\
  name_field_ok (dv_hostname (default (blank_device mac ip) (by_mac i !! mac))).
Proof.
  intros [Hd _ _] Hc. destruct (by_mac i !! mac) as [d|] eqn:E; simpl; [|done].
  by destruct (Hd mac d E) as (? & ? & ?).
Qed.

Section RegistryLemmas.
Context (hash : option Z * option string * option string * bool -> Z).

Lemma take_write_slot_fields now d :
  let d' := fst (take_write_slot hash now d) in
  dv_mac d' = dv_mac d /\ dv_ip d' = dv_ip d /\ dv_hostname d' = dv_hostname d /\
  dv_vendor d' = dv_vendor d /\ dv_randomized d' = dv_randomized d.
Proof. unfold take_write_slot. by case_match. Qed.

Lemma persist_inner ts d s : inner (persist ts d s) = inner s.
Proof. unfold persist. by case_match. Qed.
Lemma persist_opt_inner ts d s : inner (persist_opt ts d s) = inner s.
Proof. destruct d; [apply persist_inner|done]. Qed.

Lemma lock_ok_value {A} (l : Lock A) a : lock_ok l = Some a -> lk_value l = a.
Proof. unfold lock_ok. case_match; [done|]. by intros [= ->]. Qed.

(** What a sighting leaves behind, and what it writes. *)
Lemma observe_inner_ok o now ip mac i :
  inner_ok i -> canonical_mac mac ->
  let '(i', dev, _) := observe_inner hash o now ip mac i in
  inner_ok i' /\ forall d, dev = Some d -> device_ok d.
Proof.
  intros Hi Hc. unfold observe_inner. set (snap := sighted _ _ _ _ _).
  destruct (device_or_blank i mac None Hi Hc) as [Hm Hn].
  assert (device_ok snap /\ dv_mac snap = mac) as [Hs Hsm].
  { split; [split|]; subst snap; simpl; rewrite ?Hm; try done.
    destruct (pending_names i !! ip) as [n|] eqn:Hp; [|done]. by apply (io_pending _ Hi ip). }
  pose proof (take_write_slot_fields now snap) as (H1 & _ & H3 & _).
  destruct (take_write_slot hash now snap) as [e w]. cbn [fst] in H1, H3. split.
  - apply insert_device_ok; [done|congruence|done|rewrite H3; apply Hs|right; by eexists|apply delete_subseteq].
  - destruct w; [|done]. by intros d [= <-].
Qed.

Lemma observe_ok ck ip mac s : store_ok s -> store_ok (observe hash ck ip mac s).
Proof.
  intros Hs. unfold observe. destruct (Oui.normalize mac) as [m|] eqn:Hm; [|done].
  destruct (lock_ok (inner s)) as [i|] eqn:Hi; [|done]. apply lock_ok_value in Hi. unfold store_ok in *. rewrite Hi in Hs.
  pose proof (observe_inner_ok (oui s) (sg_slot ck) ip m i Hs (normalize_canon _ _ Hm)) as Hok.
  destruct (observe_inner _ _ _ _ _ _) as [[i' dev] first]. destruct Hok as [Hok _].
  assert (inner (persist_opt (sg_row ck) dev (set_inner s i')) = lock_set (inner s) i') as Hin by apply persist_opt_inner.
  cbv zeta. repeat case_match; simpl; by rewrite Hin.
Qed.

Lemma observe_named_ok now ts mac h s : store_ok s -> store_ok (observe_named hash now ts mac h s).
Proof.
  intros Hs. unfold observe_named. destruct (Oui.normalize mac) as [m|] eqn:Hm; [|done].
  destruct (sanitize_hostname h) as [n|] eqn:Hn; [|done].
  destruct (lock_ok (inner s)) as [i|] eqn:Hi; [|done]. apply lock_ok_value in Hi. unfold store_ok in *. rewrite Hi in Hs.
  set (e1 := sighted _ _ _ _ _). pose proof (take_write_slot_fields now e1) as (H1 & _ & H3 & _).
  destruct (take_write_slot hash now e1) as [e2 w]. simpl in H1, H3. rewrite persist_opt_inner. simpl.
  apply normalize_canon in Hm. destruct (device_or_blank i m None Hs Hm) as [H4 H5].
  apply insert_device_ok; [done|congruence|done| |by left|done].
  rewrite H3. simpl. by eapply sanitize_ok.
Qed.

Lemma observe_name_for_ip_ok now ts ip h s : store_ok s -> store_ok (observe_name_for_ip hash now ts ip h s).
Proof.
  intros Hs. unfold observe_name_for_ip. destruct (sanitize_hostname h) as [n|] eqn:Hn; [|done].
  apply sanitize_ok in Hn.
  destruct (lock_ok (inner s)) as [i|] eqn:Hi; [|done]. apply lock_ok_value in Hi. unfold store_ok in *. rewrite Hi in Hs.
  destruct (ip_to_mac i !! ip) as [m|] eqn:Hm.
  - set (e1 := name_if_none n _). pose proof (take_write_slot_fields now e1) as (H1 & _ & H3 & _).
    destruct (take_write_slot hash now e1) as [e2 w]. simpl in H1, H3. rewrite persist_opt_inner. simpl.
    destruct (io_index _ Hs ip m Hm) as [d Hd]. destruct (io_devices _ Hs m d Hd) as (Hdm & Hc & Hdn).
    rewrite Hd in H1, H3. simpl in H1, H3.
    apply insert_device_ok; [done|congruence|done| |by left|done].
    rewrite H3. by destruct (dv_hostname d).
  - simpl. destruct Hs as [? ? ?]. split; simpl; [done|done|]. by apply map_Forall_insert_2.
Qed.

Lemma touch_ip_ok now ts ip s : store_ok s -> store_ok (touch_ip now ts ip s).
Proof.
  intros Hs. destruct ip as [v4|]; [|done]. unfold touch_ip, touch_write.
  destruct (lock_ok (inner s)) as [i|] eqn:Hi; [|done]. case_match; [|done].
  apply lock_ok_value in Hi. unfold store_ok in *. rewrite Hi in Hs.
  destruct (ip_to_mac i !! v4) as [m|]; [|by rewrite Hi].
  destruct (by_mac i !! m) as [d|] eqn:Hd; [|by rewrite Hi]. case_match; [|by rewrite Hi].
  rewrite persist_inner. simpl. destruct (io_devices _ Hs m d Hd) as (Hdm & Hc & Hdn).
  apply insert_device_ok; [done|done|done|done|by left|done].
Qed.

Lemma hydrate_ok now rows s :
  Forall (fun r => name_field_ok (kd_hostname r)) rows -> store_ok s -> store_ok (fst (hydrate hash now rows s)).
Proof.
  intros Hr Hs. unfold hydrate. destruct (lock_ok (inner s)) as [i|] eqn:Hi; [|done].
  apply lock_ok_value in Hi. unfold store_ok in *. rewrite Hi in Hs. clear Hi.
  assert (inner_ok (fst (fold_left (hydrate_row hash now) rows (i, 0)))) as H.
  { generalize 0 as n. revert i Hs. induction Hr as [|r rows Hn _ IH]; intros i Hs n; [done|]. simpl.
    destruct (Oui.normalize (kd_mac r)) as [m|] eqn:Hm; [|by apply IH]. apply IH.
    apply normalize_canon in Hm. apply insert_device_ok; [done|done|done|done| |done].
    destruct (kd_ip r ≫= parse_ipv4); [right; by eexists|by left]. }
  destruct (fold_left _ _ _) as [i' n]. done.
Qed.
End RegistryLemmas.

(* ------------------------------------------------------------------ *)
(** ** Lemmas: the same device seen again and again *)

Section Debounce.
Context (hash : option Z * option string * option string * bool -> Z).
Context (o : OuiDb) (ip : Z) (mac : string).

(** Sightings of one address and MAC at these times: was a row written? *)
Fixpoint observe_run (times : list Instant) (i : Inner) : list (Instant * bool) :=
  match times with
  | [] => []
  | t :: r => let '(i', dev, _) := observe_inner hash o t ip mac i in
              (t, is_some dev) :: observe_run r i'
  end.

(** The device as a sighting leaves it, last written at [t]. *)
Definition settled (t : Instant) (i : Inner) : Prop :=
  pending_names i !! ip = None /\
  exists d, by_mac i !! mac = Some d /\
    sighted (Some ip) None (Oui.is_randomized mac) (vendor_of o mac) d = d /\
    written_fingerprint d = Some (fingerprint hash d) /\ last_seen_written d = Some t.

Lemma sighted_idemp ip' name r v d :
  sighted ip' None r v (sighted ip' name r v d) = sighted ip' name r v d.
Proof. unfold sighted. destruct d as [? ? ? [?|] ? ? ?], ip', v, name; done. Qed.

Lemma mark_written_sighted t ip' r v d :
  sighted ip' None r v d = d -> sighted ip' None r v (mark_written hash t d) = mark_written hash t d.
Proof. unfold sighted, mark_written. destruct d; simpl. intros E. injection E as E1 E2 E3. congruence. Qed.

Lemma observe_settles t i :
  let '(i', dev, _) := observe_inner hash o t ip mac i in
  exists t', settled t' i' /\ (is_some dev = true -> t' = t).
Proof.
  unfold observe_inner. set (snap := sighted _ _ _ _ _).
  assert (sighted (Some ip) None (Oui.is_randomized mac) (vendor_of o mac) snap = snap) as Hs by apply sighted_idemp.
  unfold take_write_slot. destruct (_ || _) eqn:E.
  - exists t. split; [|done]. split; simpl; [apply lookup_delete_eq|].
    exists (mark_written hash t snap). split; [apply lookup_insert_eq|]. split; [by apply mark_written_sighted|done].
  - bools. unfold heartbeat_due, is_none_or in H0. destruct (last_seen_written snap) as [t0|] eqn:Ht; [|done].
    exists t0. split; [|done]. split; simpl; [apply lookup_delete_eq|].
    exists snap. split; [apply lookup_insert_eq|]. done.
Qed.

Lemma observe_settled t t0 i :
  settled t0 i ->
  let '(i', dev, _) := observe_inner hash o t ip mac i in
  is_some dev = (LAST_SEEN_HEARTBEAT <=? duration_since t t0) /\
  settled (if is_some dev then t else t0) i'.
Proof.
  intros (Hp & d & Hd & Hs & Hf & Ht). unfold observe_inner. rewrite Hp, Hd.
  assert (default (blank_device mac None) (Some d) = d) as -> by done. rewrite Hs. unfold take_write_slot, heartbeat_due. rewrite Hf, Ht.
  rewrite bool_decide_true by done. cbn [negb orb is_none_or].
  destruct (LAST_SEEN_HEARTBEAT <=? duration_since t t0) eqn:E; simpl; (split; [done|]);
    (split; simpl; [apply lookup_delete_eq|]).
  - exists (mark_written hash t d). split; [apply lookup_insert_eq|]. split; [by apply mark_written_sighted|done].
  - exists d. split; [apply lookup_insert_eq|]. done.
Qed.

(** Once settled, the next row is written a heartbeat later at the earliest. *)
Lemma settled_run times t0 i t :
  settled t0 i -> (t, true) ∈ observe_run times i -> LAST_SEEN_HEARTBEAT <= duration_since t t0.
Proof.
  revert t0 i. induction times as [|t1 r IH]; intros t0 i Hs; simpl; [by intros ?%elem_of_nil|].
  pose proof (observe_settled t1 t0 i Hs) as H. destruct (observe_inner _ _ _ _ _ _) as [[i' dev] first].
  destruct H as [Hd Hs']. intros [[= -> Hw]|Hin]%elem_of_cons.
  - rewrite <-Hw in Hd. symmetry in Hd. by apply Z.leb_le in Hd.
  - destruct (is_some dev) eqn:E; [|by apply (IH t0 i')].
    symmetry in Hd. apply Z.leb_le in Hd. pose proof (IH _ _ Hs' Hin).
    unfold duration_since, saturating_sub, LAST_SEEN_HEARTBEAT, from_secs in *. lia.
Qed.

(** Every earlier write is at least a heartbeat before every later one. *)
Definition spaced (l : list (Instant * bool)) : Prop :=
  StronglySorted (fun a b => snd a = true -> snd b = true -> LAST_SEEN_HEARTBEAT <= duration_since (fst b) (fst a)) l.

Lemma observe_run_spaced times i : spaced (observe_run times i).
Proof.
  revert i. induction times as [|t r IH]; intros i; [constructor|]. cbn [observe_run].
  pose proof (observe_settles t i) as H. destruct (observe_inner _ _ _ _ _ _) as [[i' dev] first].
  destruct H as (t' & Hs & Ht). constructor; [apply IH|]. apply Forall_forall. intros [t2 b2] Hin Hb1 Hb2.
  simpl in *. subst b2. rewrite <-(Ht Hb1). by eapply settled_run.
Qed.
End Debounce.

(* ------------------------------------------------------------------ *)
(** ** Lemmas: DHCP *)

Lemma dhcp_options_total fuel pkt i h :
  (length pkt - i < fuel)%nat -> is_Some (dhcp_options fuel pkt i h).
Proof.
  revert i h. induction fuel as [|n IH]; intros i h Hf; [lia|]. cbn [dhcp_options].
  destruct (Nat.leb_spec (length pkt) i); [by eexists|].
  destruct (byte_at pkt i =? 0); [apply IH; lia|].
  destruct (byte_at pkt i =? 255); [by eexists|].
  destruct (Nat.leb_spec (length pkt) (i + 1)); [by eexists|]. cbv zeta.
  destruct (Nat.ltb_spec (length pkt) (i + 2 + Z.to_nat (byte_at pkt (i + 1)))); [by eexists|].
  apply IH. lia.
Qed.

Lemma byte_at_app pre x r : byte_at (pre ++ x :: r) (length pre) = x.
Proof. unfold byte_at. rewrite app_nth2, Nat.sub_diag by lia. done. Qed.

Lemma slice_app pre body r a b :
  a = length pre -> b = (length pre + length body)%nat -> slice (pre ++ body ++ r) a b = body.
Proof.
  intros -> ->. unfold slice. rewrite drop_app_length, Nat.add_comm, Nat.add_sub. apply take_app_length.
Qed.

(** One DHCP option as it is sent. *)
Inductive DhcpOption : Type :=
  | Pad
  | Opt (code : Z) (body : list Z).
Definition option_ok (o : DhcpOption) : Prop :=
  match o with Pad => True | Opt c b => c <> 0 /\ c <> 255 /\ Z.of_nat (length b) <= 255 end.
Definition encode_option (o : DhcpOption) : list Z :=
  match o with Pad => [0] | Opt c b => c :: Z.of_nat (length b) :: b end.
Definition encode_options (l : list DhcpOption) : list Z := flat_map encode_option l.
(** The last host-name option that is text. *)
Definition host_name (l : list DhcpOption) (h : option string) : option string :=
  fold_left (fun h o => match o with
                        | Opt c b => if c =? 12 then match from_utf8 b with Some s => Some s | None => h end else h
                        | Pad => h end) l h.

Lemma dhcp_options_encoded l : forall fuel pre rest h,
  Forall option_ok l -> (length (encode_options l) < fuel)%nat ->
  dhcp_options fuel (pre ++ encode_options l ++ 255 :: rest) (length pre) h = Some (host_name l h).
Proof.
  induction l as [|o l IH]; intros fuel pre rest h Hl Hf; (destruct fuel as [|n]; [lia|]); cbn [dhcp_options].
  { cbn [encode_options flat_map app]. rewrite byte_at_app.
    destruct (Nat.leb_spec (length (pre ++ 255 :: rest)) (length pre)); [|done].
    rewrite length_app in H. simpl in H. lia. }
  apply Forall_cons in Hl as [Ho Hl].
  destruct (Nat.leb_spec (length (pre ++ encode_options (o :: l) ++ 255 :: rest)) (length pre)) as [Hx|Hx].
  { rewrite !length_app in Hx. simpl in Hx. lia. }
  clear Hx. cbn [encode_options flat_map] in *. fold (encode_options l) in *. rewrite length_app in Hf.
  destruct o as [|c b]; cbn [encode_option app] in *.
  - rewrite byte_at_app. cbn [Z.eqb].
    replace (length pre + 1)%nat with (length (pre ++ [0])) by (rewrite length_app; simpl; lia).
    replace (pre ++ 0 :: encode_options l ++ 255 :: rest) with ((pre ++ [0]) ++ encode_options l ++ 255 :: rest)
      by by rewrite <-app_assoc.
    apply IH; [done|simpl in Hf; lia].
  - destruct Ho as (H0 & H255 & Hb). rewrite byte_at_app.
    rewrite (proj2 (Z.eqb_neq c 0)), (proj2 (Z.eqb_neq c 255)) by done.
    set (pkt := pre ++ _).
    assert (pkt = (pre ++ [c]) ++ Z.of_nat (length b) :: (b ++ encode_options l) ++ 255 :: rest) as E1
      by (subst pkt; by rewrite <-!app_assoc).
    assert (pkt = (pre ++ [c; Z.of_nat (length b)]) ++ b ++ (encode_options l ++ 255 :: rest)) as E2
      by (subst pkt; by rewrite <-!app_assoc).
    assert (pkt = (pre ++ [c; Z.of_nat (length b)] ++ b) ++ encode_options l ++ 255 :: rest) as E3
      by (subst pkt; by rewrite <-!app_assoc).
    assert (byte_at pkt (length pre + 1) = Z.of_nat (length b)) as ->.
    { rewrite E1. replace (length pre + 1)%nat with (length (pre ++ [c])) by (rewrite length_app; done).
      apply byte_at_app. }
    rewrite Nat2Z.id.
    assert (length pkt = (length pre + 2 + length b + length (encode_options l) + S (length rest))%nat) as Hlen.
    { rewrite E2, !length_app. simpl. lia. }
    destruct (Nat.leb_spec (length pkt) (length pre + 1)); [lia|].
    cbv zeta. destruct (Nat.ltb_spec (length pkt) (length pre + 2 + length b)); [lia|].
    rewrite E2 at 2. rewrite slice_app by (rewrite length_app; simpl; lia).
    rewrite E3. replace (length pre + 2 + length b)%nat with (length (pre ++ [c; Z.of_nat (length b)] ++ b))
      by (rewrite !length_app; simpl; lia).
    rewrite IH; [done|done|simpl in Hf; lia].
Qed.

(* ------------------------------------------------------------------ *)
(** ** Properties *)

(** Everything that changes the registry. *)
Inductive reg_step hash : Store -> Store -> Prop :=
  | reg_hydrate now rows s : Forall (fun r => name_field_ok (kd_hostname r)) rows ->
      reg_step hash s (fst (hydrate hash now rows s))
  | reg_observe ck ip mac s : reg_step hash s (observe hash ck ip mac s)
  | reg_named now ts mac name s : reg_step hash s (observe_named hash now ts mac name s)
  | reg_name now ts ip name s : reg_step hash s (observe_name_for_ip hash now ts ip name s)
  | reg_touch now ts ip s : reg_step hash s (touch_ip now ts ip s).

Lemma reg_steps_ok hash a b : rtc (reg_step hash) a b -> store_ok a -> store_ok b.
Proof.
  induction 1 as [|a b c Hs _ IH]; [done|]. intros Ha. apply IH. destruct Hs.
  - by apply hydrate_ok.
  - by apply observe_ok.
  - by apply observe_named_ok.
  - by apply observe_name_for_ip_ok.
  - by apply touch_ip_ok.
Qed.

Lemma new_store_ok o w : store_ok (new_store o w).
Proof. split; simpl; apply map_Forall_empty. Qed.

(** C32. Whatever devices announce, the registry stays consistent and safe to
    show: every device is filed under its own canonical MAC, every indexed
    address leads to a device, and every name, attached or waiting, is at
    most 64 bytes of lower-case letters, digits, dots, hyphens and
    underscores. *)
Theorem registry_names_safe hash o w s :
  rtc (reg_step hash) (new_store o w) s ->
  map_Forall (fun mac d => dv_mac d = mac /\ canonical_mac mac /\ name_field_ok (dv_hostname d)) (by_mac (lk_value (inner s))) /\
  map_Forall (fun _ mac => is_Some (by_mac (lk_value (inner s)) !! mac)) (ip_to_mac (lk_value (inner s))) /\
  map_Forall (fun _ n => hostname_ok n) (pending_names (lk_value (inner s))).
Proof.
  intros Hs. by destruct (reg_steps_ok _ _ _ Hs (new_store_ok o w)).
Qed.

Definition w_hash (x : option Z * option string * option string * bool) : Z :=
  match x with (Some ip, _, _, _) => ip | _ => 0 end.
Definition w_store : Store := new_store ∅ new_writer.
Definition w_mac : string := "b8:27:eb:11:22:33".

Lemma registry_names_safe_witness :
  let s := observe w_hash (mk_sight 0 0 0) 5 w_mac w_store in
  map_Forall (fun mac d => dv_mac d = mac /\ canonical_mac mac /\ name_field_ok (dv_hostname d)) (by_mac (lk_value (inner s))) /\
  map_Forall (fun _ mac => is_Some (by_mac (lk_value (inner s)) !! mac)) (ip_to_mac (lk_value (inner s))) /\
  map_Forall (fun _ n => hostname_ok n) (pending_names (lk_value (inner s))).
Proof. apply (registry_names_safe w_hash ∅ new_writer). apply rtc_once, reg_observe. Defined.

Lemma persist_opt_sink ts d s : alert_sink (persist_opt ts d s) = alert_sink s.
Proof. destruct d; [|done]. simpl. unfold persist. by case_match. Qed.

Lemma hydrate_known hash now rows row mac i :
  row ∈ rows -> Oui.normalize (kd_mac row) = Some mac ->
  forall n, is_Some (by_mac (fst (fold_left (hydrate_row hash now) rows (i, n))) !! mac).
Proof.
  intros Hin Hm. assert (forall r st, is_Some (by_mac (fst st) !! mac) ->
    is_Some (by_mac (fst (hydrate_row hash now st r)) !! mac)) as Hkeep.
  { intros r [i0 n0] [d Hd]. unfold hydrate_row. destruct (Oui.normalize (kd_mac r)) as [m|]; [|by eexists].
    simpl. destruct (decide (m = mac)) as [->|Hne]; [rewrite lookup_insert_eq|rewrite lookup_insert_ne by done]; by eexists. }
  apply list_elem_of_split in Hin as (l1 & l2 & ->). intros n. rewrite fold_left_app. simpl.
  set (st := fold_left _ l1 (i, n)). clearbody st.
  apply (fold_left_inv (fun st => is_Some (by_mac (fst st) !! mac))); [|intros; by apply Hkeep].
  destruct st as [i0 n0]. unfold hydrate_row. rewrite Hm. simpl. rewrite lookup_insert_eq. by eexists.
Qed.

(** New-device alerts: a sighting raises the alert exactly when the MAC
    is not in the registry, and a device the database already knew, loaded at
    startup, never raises it. *)
Theorem new_device_alerts hash ck ip raw mac s i sink :
  Oui.normalize raw = Some mac -> lock_ok (inner s) = Some i -> alert_sink s = Some sink ->
  (by_mac i !! mac = None ->
     exists name vendor, alert_sink (observe hash ck ip raw s) = Some (raise (sg_alert ck) (new_device mac name vendor) sink)) /\
  (is_Some (by_mac i !! mac) -> alert_sink (observe hash ck ip raw s) = Some sink) /\
  (forall now0 rows row, row ∈ rows -> Oui.normalize (kd_mac row) = Some mac ->
     alert_sink (observe hash ck ip raw (fst (hydrate hash now0 rows s))) = Some sink).
Proof.
  intros Hm Hi Hs.
  assert (forall s i, lock_ok (inner s) = Some i -> alert_sink s = Some sink -> is_Some (by_mac i !! mac) ->
    alert_sink (observe hash ck ip raw s) = Some sink) as Hknown.
  { intros s0 i0 Hi0 Hs0 [d Hd]. unfold observe. rewrite Hm, Hi0. unfold observe_inner. rewrite Hd. cbn [is_some negb].
    destruct (take_write_slot _ _ _) as [e w]. by rewrite persist_opt_sink. }
  split; [|split].
  - intros Hn. unfold observe. rewrite Hm, Hi. unfold observe_inner. rewrite Hn. cbn [is_some negb].
    destruct (take_write_slot _ _ _) as [e w]. rewrite persist_opt_sink. cbn [alert_sink set_inner]. rewrite Hs.
    simpl. eexists _, _. done.
  - by apply Hknown.
  - intros now0 rows row Hin Hrow. unfold hydrate. rewrite Hi.
    pose proof (hydrate_known hash now0 rows row mac i Hin Hrow 0) as Hk.
    destruct (fold_left _ _ _) as [i' n]. cbn [fst] in *.
    apply (Hknown _ i'); [|done|done]. unfold lock_ok in *. simpl. by destruct (lk_poisoned (inner s)).
Qed.

Definition w_sink : AlertSink := mk_sink [] true (new_lock ∅) (from_secs 60).
Definition w_alerting : Store := with_alerts w_store (Some w_sink).

Lemma new_device_alerts_witness :
  (by_mac empty_inner !! w_mac = None ->
     exists name vendor, alert_sink (observe w_hash (mk_sight 0 0 1) 5 "B8:27:EB:11:22:33" w_alerting)
       = Some (raise 1 (new_device w_mac name vendor) w_sink)) /\
  (is_Some (by_mac empty_inner !! w_mac) ->
     alert_sink (observe w_hash (mk_sight 0 0 1) 5 "B8:27:EB:11:22:33" w_alerting) = Some w_sink) /\
  (forall now0 rows row, row ∈ rows -> Oui.normalize (kd_mac row) = Some w_mac ->
     alert_sink (observe w_hash (mk_sight 0 0 1) 5 "B8:27:EB:11:22:33" (fst (hydrate w_hash now0 rows w_alerting))) = Some w_sink).
Proof. apply (new_device_alerts w_hash (mk_sight 0 0 1) 5 "B8:27:EB:11:22:33" w_mac w_alerting); reflexivity. Defined.

(** C33. Write debouncing: however often one device is seen at one address,
    any two row writes this causes are at least a heartbeat apart. *)
Theorem observe_debounced hash o ip mac times i n m t1 t2 :
  (n < m)%nat ->
  observe_run hash o ip mac times i !! n = Some (t1, true) ->
  observe_run hash o ip mac times i !! m = Some (t2, true) ->
  LAST_SEEN_HEARTBEAT <= t2 - t1.
Proof.
  intros Hnm H1 H2. pose proof (observe_run_spaced hash o ip mac times i) as Hs. unfold spaced in Hs.
  assert (LAST_SEEN_HEARTBEAT <= duration_since t2 t1) as H.
  { revert n m Hnm H1 H2. induction Hs as [|x l _ IH Hx]; intros n m Hnm H1 H2; [done|].
    destruct m as [|m]; [lia|]. simpl in H2. destruct n as [|n]; simpl in H1.
    - simplify_eq. rewrite Forall_forall in Hx. apply list_elem_of_lookup_2 in H2. by apply (Hx _ H2).
    - by apply (IH n m); [lia|..]. }
  unfold duration_since, saturating_sub, LAST_SEEN_HEARTBEAT, from_secs in *. lia.
Qed.

Definition w_times : list Instant := map from_secs [0; 15; 30; 45; 60; 75].

Example debounce_example : map snd (observe_run w_hash ∅ 5 w_mac w_times empty_inner) = [true; false; false; false; true; false].
Proof. vm_compute. reflexivity. Qed.

Lemma observe_debounced_witness : LAST_SEEN_HEARTBEAT <= from_secs 60 - from_secs 0.
Proof.
  apply (observe_debounced w_hash ∅ 5 w_mac w_times empty_inner 0 4); [lia|vm_compute; reflexivity..].
Defined.

(** Malformed options never cost the sighting: a packet is rejected only
    for its fixed header (too short, a reply, a bad address length) or when
    the hardware address is not a MAC, and the walk over the options always
    ends. *)
Theorem parse_dhcp_total pkt :
  is_Some (parse_dhcp pkt) <->
  (240 <= length pkt)%nat /\ byte_at pkt 0 = 1 /\ (1 <= Z.to_nat (byte_at pkt 2) <= 16)%nat /\
  is_Some (Oui.normalize (str_join ":" (map hex2 (slice pkt 28 (28 + Nat.min (Z.to_nat (byte_at pkt 2)) 6))))).
Proof.
  unfold parse_dhcp. destruct (Nat.ltb_spec (length pkt) 240) as [|Hl].
  { split; [by intros []|lia]. }
  destruct (Z.eqb_spec (byte_at pkt 0) 1) as [Hop|]; cbn [negb]; [|split; [by intros []|by intros (_ & ? & _)]].
  cbv zeta. destruct (Nat.eqb_spec (Z.to_nat (byte_at pkt 2)) 0) as [Hz|]; cbn [orb].
  { split; [by intros []|]. intros (_ & _ & ? & _). lia. }
  destruct (Nat.ltb_spec 16 (Z.to_nat (byte_at pkt 2))) as [|Hh].
  { split; [by intros []|]. intros (_ & _ & ? & _). lia. }
  destruct (Oui.normalize _) as [mac|] eqn:Hm; [|split; [by intros []|by intros (_ & _ & _ & [])]].
  split; [intros _; repeat split; try lia; done|]. intros _.
  destruct (bool_decide _); cbn [negb]; [|by eexists].
  destruct (dhcp_options_total (S (length pkt)) pkt 240 None ltac:(lia)) as [h ->]. by eexists.
Qed.

(** C34. A request is read back as it was built: from a well-formed packet the
    listener takes the client's MAC and the last host-name option that is
    text, whatever other options and padding surround it. *)
Theorem parse_dhcp_roundtrip header opts rest mac :
  length header = 236%nat -> byte_at header 0 = 1 -> byte_at header 2 = 6 ->
  Oui.normalize (str_join ":" (map hex2 (slice header 28 34))) = Some mac ->
  Forall option_ok opts ->
  parse_dhcp (header ++ MAGIC ++ encode_options opts ++ 255 :: rest) = Some (mac, host_name opts None).
Proof.
  intros Hl Hop Hhl Hm Ho. set (pkt := header ++ _).
  assert (length pkt = (240 + (length (encode_options opts) + S (length rest)))%nat) as Hlen.
  { subst pkt. rewrite !length_app, Hl. simpl. lia. }
  assert (forall i, (i < 236)%nat -> byte_at pkt i = byte_at header i) as Hb.
  { intros i Hi. unfold byte_at, pkt. apply app_nth1. lia. }
  unfold parse_dhcp. destruct (Nat.ltb_spec (length pkt) 240); [lia|].
  rewrite !Hb, Hop, Hhl by lia. cbn [Z.eqb Pos.eqb negb]. cbv zeta.
  change (Z.to_nat 6) with 6%nat. cbn [Nat.eqb Nat.ltb Nat.leb orb Nat.min Nat.add].
  assert (slice pkt 28 34 = slice header 28 34) as ->.
  { unfold slice, pkt. rewrite drop_app_le by lia. apply take_app_le. rewrite length_drop. lia. }
  rewrite Hm.
  assert (slice pkt 236 240 = MAGIC) as ->.
  { unfold pkt. apply slice_app; [done|]. rewrite Hl. done. }
  rewrite bool_decide_true by done. cbn [negb].
  assert (pkt = (header ++ MAGIC) ++ encode_options opts ++ 255 :: rest) as E by (unfold pkt; by rewrite <-app_assoc).
  assert (240%nat = length (header ++ MAGIC)) as E2 by (rewrite length_app, Hl; done).
  replace (dhcp_options (S (length pkt)) pkt 240 None) with
    (dhcp_options (S (length pkt)) ((header ++ MAGIC) ++ encode_options opts ++ 255 :: rest) (length (header ++ MAGIC)) None)
    by by rewrite <-E, <-E2.
  rewrite dhcp_options_encoded; [done|done|]. rewrite Hlen. lia.
Qed.

Definition w_header : list Z := [1; 1; 6] ++ repeat 0 25 ++ [184; 39; 235; 17; 34; 51] ++ repeat 0 202.
Definition w_opts : list DhcpOption := [Opt 53 [1]; Pad; Opt 12 (as_bytes "kitchen-tv")].

Lemma parse_dhcp_roundtrip_witness :
  parse_dhcp (w_header ++ MAGIC ++ encode_options w_opts ++ 255 :: [0; 0]) = Some (w_mac, host_name w_opts None).
Proof.
  apply (parse_dhcp_roundtrip w_header w_opts [0; 0] w_mac); [reflexivity..|].
  repeat constructor; done.
Defined.
