(* ===== verification/Discovery.v ===== *)
(** * Discovery workers (src/devices.rs, "Background workers")

    The loops that feed the registry of [Devices.v]: the sweep that makes the
    kernel resolve every address of the LAN, the mDNS and DHCP listeners with
    the set-up of their sockets, and the worker that asks for PTR records.
    What sockets and peers do is an argument; every loop is a function of one
    pass of it. *)
From S2P Require Import Prelude Str Addr Socket Netinfo DnsMsg Upstream Db Devices.
Open Scope Z_scope.

(* ------------------------------------------------------------------ *)
(** ** The sweep *)

Definition DISCARD_PORT : Z := 9.
(** What is sent: to whom, and the payload. *)
Definition Sent : Type := (SocketAddr * list Z)%type.

(** One pass: [bound] is whether a socket could be opened; a failed send is
    ignored. *)
Definition sweep_pass (bound : bool) (hosts : list Z) : list Sent :=
  if bound then map (fun ip => (mk_socket (V4 ip) DISCARD_PORT, [0])) hosts else [].

(** [subnet_sweeper]: [None] when it returns at once. *)
Definition subnet_sweeper (subnet : Subnet) (passes : list bool) : option (list Sent) :=
  match hosts subnet with
  | [] => None
  | hs => Some (concat (map (fun b => sweep_pass b hs) passes))
  end.

(* ------------------------------------------------------------------ *)
(** ** Listeners: set-up *)

Definition MDNS_GROUP : Z := ipv4 224 0 0 251.
Definition mdns_setup : list SockOp :=
  [Create false DGRAM; ReuseAddress; ReusePort; Nonblocking; Bind (mk_socket (V4 0) 5353); JoinMulticast MDNS_GROUP; FromStd].
Definition dhcp_setup : list SockOp :=
  [Create false DGRAM; ReuseAddress; ReusePort; Broadcast; Nonblocking; Bind (mk_socket (V4 0) 67); FromStd].

(** [ListenerState], and what the task of a listener leaves there: [Active]
    before it starts, [Unavailable] once its set-up fails; the loop itself
    never returns. *)
Inductive ListenerState : Type := Disabled | Active | Unavailable (reason : SockOp).
Record DiscoveryStatus : Type := mk_status { st_dhcp : ListenerState; st_mdns : ListenerState }.
Definition default_status : DiscoveryStatus := mk_status Disabled Disabled.
Definition listener_state (works : SockOp -> bool) (ops : list SockOp) : ListenerState :=
  match run_setup (fun op => if works op then None else Some op) ops with Ok _ => Active | Err e => Unavailable e end.

(* ------------------------------------------------------------------ *)
(** ** Listeners: one packet *)

Section Workers.
Context (hash : option Z * option string * option string * bool -> Z).

(** What a receive gives: an error, or a peer and a datagram. *)
Inductive Received : Type := RecvFails | RecvFrom (peer : SocketAddr) (payload : string).

Definition MDNS_BUF : Z := 4096.
Definition mdns_step `{Codec} (now : Instant) (ts : Z) (ev : Received) (s : Store) : Store :=
  match ev with
  | RecvFails => s
  | RecvFrom peer payload =>
      match sa_ip peer with
      | V6 _ => s
      | V4 src =>
          match from_vec (received MDNS_BUF payload) with
          | Some msg => mdns_packet hash now ts src msg s
          | None => s
          end
      end
  end.

Definition DHCP_BUF : Z := 2048.
Definition dhcp_step (now : Instant) (ts : Z) (ev : Received) (s : Store) : Store :=
  match ev with
  | RecvFails => s
  | RecvFrom _ payload => dhcp_packet hash now ts (as_bytes (received DHCP_BUF payload)) s
  end.

(* ------------------------------------------------------------------ *)
(** ** Reverse lookups *)

Record PtrScript : Type := mk_ptr_script {
  ps_bind : bool; ps_connect : bool; ps_send : bool;
  (** The one [recv]; [None] is a socket error. *)
  ps_recv : Outcome (option string) }.

Definition PTR_BUF : Z := 1500.
Definition PTR_TIMEOUT : Duration := from_millis 1200.
Definition CLASS_IN : Z := 1.

Definition octets (ip : Z) : list Z := [ip / 16777216 mod 256; ip / 65536 mod 256; ip / 256 mod 256; ip mod 256].
Definition arpa_name (ip : Z) : string :=
  str_join "." (map show_uint (rev (octets ip))) +:+ ".in-addr.arpa.".

Section Lookup.
Context `{Codec}.
(** [Name::from_ascii] of the message library, and the identifier that
    [Message::query] drew. *)
Context (name_from_ascii : string -> option Name).

Definition ptr_query (qid : Z) (name : Name) : Message :=
  mk_message (mk_metadata qid Query OP_QUERY NoError false false true false false)
    [mk_question name TYPE_PTR CLASS_IN] [] [] [] None.

(** The name in the first PTR record: without its dot, [.local] and domain. *)
Definition short_name (target : string) : string :=
  hd "" (split_char "." (strip_local (trim_end_matches "." target))).
Definition ptr_answer (resp : Message) : option string :=
  first_some (fun rec => match r_data rec with PTR t => Some (short_name (to_ascii t)) | _ => None end) (answers resp).

Definition reverse_lookup (qid : Z) (net : PtrScript) (ip : Z) : option string :=
  let! name := name_from_ascii (arpa_name ip) in
  let! request := to_vec (ptr_query qid name) in
  if negb (ps_bind net) then None
  else if negb (ps_connect net) then None
  else if negb (ps_send net) then None
  else
    let! r := snd (timeout PTR_TIMEOUT (ps_recv net)) in
    let! bytes := r in
    let! resp := from_vec (received PTR_BUF bytes) in
    ptr_answer resp.
End Lookup.

Definition MAX_ATTEMPTS : Z := 3.

(** The worker: the registry, the attempts made per address, and a record of
    what was asked and whether it was answered. *)
Record Worker : Type := mk_worker { wk_store : Store; attempts : gmap Z Z; asked : list (Z * bool) }.
Definition new_worker (s : Store) : Worker := mk_worker s ∅ [].

(** What one turn sees: the clocks, and the answer of [reverse_lookup]. *)
Record Turn : Type := mk_turn { tn_now : Instant; tn_ts : Z; tn_lookup : Z -> option string }.

(** One address of a pass; [tries] is a [u8]. *)
Definition ask (turn : nat -> Turn) (w : Worker) (ip : Z) : Worker :=
  let tries := default 0 (attempts w !! ip) in
  let seen := <[ip := tries]> (attempts w) in
  if MAX_ATTEMPTS <=? tries then mk_worker (wk_store w) seen (asked w)
  else
    let seen := <[ip := wrap 8 (tries + 1)]> seen in
    let t := turn (length (asked w)) in
    match tn_lookup t ip with
    | Some name => mk_worker (observe_name_for_ip hash (tn_now t) (tn_ts t) ip name (wk_store w))
                     (delete ip seen) (asked w ++ [(ip, true)])
    | None => mk_worker (wk_store w) seen (asked w ++ [(ip, false)])
    end.

(** One tick of [reverse_dns_worker]: the addresses are listed once. *)
Definition reverse_pass (order : gmap Z string -> list (Z * string)) (turn : nat -> Turn) (w : Worker) : Worker :=
  fold_left (ask turn) (ips_needing_names order (wk_store w)) w.

(** Ticks of the worker among whatever else happens to the registry. *)
Inductive worker_step : Worker -> Worker -> Prop :=
  | wk_pass order turn w : worker_step w (reverse_pass order turn w)
  | wk_others w s : rtc (reg_step hash) (wk_store w) s -> worker_step w (mk_worker s (attempts w) (asked w)).
End Workers.

(** Whom [reverse_dns_worker] asks. *)
Definition ptr_server (upstream : SocketAddr) (gateway : option Z) : SocketAddr :=
  match gateway with Some gw => mk_socket (V4 gw) 53 | None => upstream end.

(* ------------------------------------------------------------------ *)
(** ** Lemmas: workers are steps of the registry *)

Section WorkerLemmas.
Context (hash : option Z * option string * option string * bool -> Z).
Abbreviation steps := (rtc (reg_step hash)).

Lemma fold_steps {A} (f : Store -> A -> Store) l s :
  (forall s a, steps s (f s a)) -> steps s (fold_left f l s).
Proof.
  intros Hf. apply (fold_left_inv (steps s)); [done|]. intros a b Ha. etransitivity; [exact Ha|apply Hf].
Qed.

Lemma name_steps now ts ip n s : steps s (observe_name_for_ip hash now ts ip n s).
Proof. apply rtc_once. constructor. Qed.

Lemma mdns_packet_steps `{Hickory} now ts src msg s : steps s (mdns_packet hash now ts src msg s).
Proof.
  unfold mdns_packet. destruct (List.filter _ _) as [|r l]; [|apply fold_steps; intros; apply name_steps].
  destruct (List.find _ _); [apply name_steps|done].
Qed.

Lemma mdns_steps `{Codec} now ts ev s : steps s (mdns_step hash now ts ev s).
Proof.
  destruct ev as [|p b]; [done|]. simpl. destruct (sa_ip p); [|done].
  destruct (from_vec _); [apply mdns_packet_steps|done].
Qed.

Lemma dhcp_steps now ts ev s : steps s (dhcp_step hash now ts ev s).
Proof.
  destruct ev as [|p b]; [done|]. simpl. unfold dhcp_packet.
  destruct (parse_dhcp _) as [[mac [name|]]|]; [apply rtc_once; constructor|done|done].
Qed.

Lemma arp_steps ck iface subnet table s : steps s (arp_tick hash ck iface subnet table s).
Proof.
  destruct table as [l|]; [|done]. apply fold_steps. intros. apply rtc_once. constructor.
Qed.

Lemma ask_steps turn w ip : steps (wk_store w) (wk_store (ask hash turn w ip)).
Proof. unfold ask. case_match; [done|]. destruct (tn_lookup _ _); [apply name_steps|done]. Qed.

(* ------------------------------------------------------------------ *)
(** ** Lemmas: attempts *)

(** How often an address was asked since it last answered. *)
Fixpoint unanswered (ip : Z) (acc : Z) (l : list (Z * bool)) : Z :=
  match l with
  | [] => acc
  | (a, ok) :: r => unanswered ip (if a =? ip then (if ok then 0 else acc + 1) else acc) r
  end.
Definition asks (ip : Z) (l : list (Z * bool)) : Z := Z.of_nat (length (List.filter (fun e => fst e =? ip) l)).

Lemma unanswered_app ip acc l r : unanswered ip acc (l ++ r) = unanswered ip (unanswered ip acc l) r.
Proof. revert acc. induction l as [|[a ok] l IH]; intros acc; [done|]. apply IH. Qed.

Lemma unanswered_asks ip acc l : (ip, true) ∉ l -> unanswered ip acc l = acc + asks ip l.
Proof.
  unfold asks. revert acc. induction l as [|[a ok] l IH]; intros acc Hl; simpl; [lia|].
  apply not_elem_of_cons in Hl as [Ha Hl]. rewrite IH by done.
  destruct (Z.eqb_spec a ip) as [->|]; [|done]. destruct ok; [done|]. simpl length. lia.
Qed.

Lemma unanswered_nonneg ip acc l : 0 <= acc -> 0 <= unanswered ip acc l.
Proof. revert acc. induction l as [|[a ok] l IH]; intros acc Ha; [done|]. apply IH. repeat case_match; lia. Qed.

(** The counts of the worker are those of its record, and no address was ever
    past its attempts. *)
Record worker_ok (w : Worker) : Prop := mk_worker_ok {
  wo_attempts : forall ip, default 0 (attempts w !! ip) = unanswered ip 0 (asked w);
  wo_bound : forall ip l, l `prefix_of` asked w -> unanswered ip 0 l <= MAX_ATTEMPTS }.

Lemma new_worker_ok s : worker_ok (new_worker s).
Proof.
  split; simpl; [done|]. intros ip l [k Hk]. destruct l; [|done]. simpl. unfold MAX_ATTEMPTS. lia.
Qed.

Lemma prefix_snoc {A} (l k : list A) x : l `prefix_of` k ++ [x] -> l `prefix_of` k \/ l = k ++ [x].
Proof.
  intros [r Hr]. destruct r as [|y r _] using rev_ind; [right; by rewrite app_nil_r in Hr|left].
  rewrite app_assoc in Hr. apply app_inj_tail in Hr as [-> _]. by exists r.
Qed.

Lemma ask_ok turn w ip : worker_ok w -> worker_ok (ask hash turn w ip).
Proof.
  intros [Ha Hb]. unfold ask. pose proof (Ha ip) as Hip. set (tries := default 0 _) in *.
  pose proof (unanswered_nonneg ip 0 (asked w) ltac:(done)) as Hn.
  destruct (Z.leb_spec MAX_ATTEMPTS tries) as [Hm|Hm].
  - split; [|done]. intros j. cbn [attempts asked]. destruct (decide (ip = j)) as [<-|].
    + by rewrite lookup_insert_eq.
    + by rewrite lookup_insert_ne.
  - assert (wrap 8 (tries + 1) = tries + 1) as Hw by (apply wrap_small; unfold in_width, MAX_ATTEMPTS in *; lia).
    rewrite Hw. destruct (tn_lookup _ ip) as [name|].
    + split; cbn [attempts asked].
      * intros j. rewrite unanswered_app. simpl. destruct (Z.eqb_spec ip j) as [<-|].
        -- by rewrite lookup_delete_eq.
        -- by rewrite lookup_delete_ne, !lookup_insert_ne.
      * intros j l [Hl| ->]%prefix_snoc; [by apply Hb|]. rewrite unanswered_app. simpl.
        pose proof (Hb j (asked w) (reflexivity _)). case_match; [done|lia].
    + split; cbn [attempts asked].
      * intros j. rewrite unanswered_app. simpl. destruct (Z.eqb_spec ip j) as [<-|].
        -- rewrite lookup_insert_eq. simpl. lia.
        -- by rewrite !lookup_insert_ne.
      * intros j l [Hl| ->]%prefix_snoc; [by apply Hb|]. rewrite unanswered_app. simpl.
        pose proof (Hb j (asked w) (reflexivity _)). destruct (Z.eqb_spec ip j) as [<-|]; lia.
Qed.

Lemma worker_step_ok w w' : worker_step hash w w' -> worker_ok w -> worker_ok w'.
Proof.
  destruct 1 as [order turn w|w s _]; intros Hw; [|by destruct Hw].
  apply (fold_left_inv worker_ok); [done|]. intros a b Ha. by apply ask_ok.
Qed.

Lemma worker_step_steps w w' : worker_step hash w w' -> steps (wk_store w) (wk_store w').
Proof.
  destruct 1 as [order turn w|w s Hs]; [|done].
  apply (fold_left_inv (fun v => steps (wk_store w) (wk_store v))); [done|].
  intros a b Ha. etransitivity; [exact Ha|apply ask_steps].
Qed.

(** Asking one address leaves the others' counts alone and only adds to the record. *)
Lemma ask_other turn w ip j : ip <> j -> default 0 (attempts (ask hash turn w ip) !! j) = default 0 (attempts w !! j).
Proof.
  intros Hne. unfold ask. case_match; cbn [attempts]; [by rewrite lookup_insert_ne|].
  destruct (tn_lookup _ ip); cbn [attempts]; [rewrite lookup_delete_ne by done|]; by rewrite !lookup_insert_ne.
Qed.
Lemma ask_extends turn w ip : exists l, asked (ask hash turn w ip) = asked w ++ l.
Proof.
  unfold ask. case_match; [exists []; by rewrite app_nil_r|]. destruct (tn_lookup _ ip); by eexists.
Qed.
Lemma pass_extends turn l w : exists k, asked (fold_left (ask hash turn) l w) = asked w ++ k.
Proof.
  apply (fold_left_inv (fun v => exists k, asked v = asked w ++ k)); [exists []; by rewrite app_nil_r|].
  intros v ip [k Hk]. destruct (ask_extends turn v ip) as [k' ->]. exists (k ++ k'). by rewrite Hk, app_assoc.
Qed.

Lemma pass_asks turn l w ip : ip ∈ l -> default 0 (attempts w !! ip) < MAX_ATTEMPTS ->
  exists k b, asked (fold_left (ask hash turn) l w) = asked w ++ k /\ (ip, b) ∈ k.
Proof.
  revert w. induction l as [|a l IH]; intros w Hin Hlt; [by apply elem_of_nil in Hin|]. simpl.
  destruct (decide (a = ip)) as [->|Hne].
  - destruct (pass_extends turn l (ask hash turn w ip)) as [k ->]. unfold ask.
    rewrite (proj2 (Z.leb_gt _ _) Hlt). destruct (tn_lookup _ ip); cbn [asked]; rewrite <- app_assoc;
      eexists _, _; (split; [reflexivity|left]).
  - apply elem_of_cons in Hin as [->|Hin]; [done|].
    destruct (IH (ask hash turn w a) Hin) as (k & b & -> & Hk); [by rewrite ask_other|].
    destruct (ask_extends turn w a) as [k' ->]. exists (k' ++ k), b. split; [by rewrite app_assoc|].
    apply elem_of_app. by right.
Qed.
End WorkerLemmas.

(* ------------------------------------------------------------------ *)
(** ** Lemmas: the sweep *)

Definition probe_to (ip : Z) (e : Sent) : bool := bool_decide (fst e = mk_socket (V4 ip) DISCARD_PORT).

Lemma probes_none ip l : ip ∉ l -> length (List.filter (probe_to ip) (sweep_pass true l)) = 0%nat.
Proof.
  induction l as [|a l IH]; [done|]. intros [Ha Hl]%not_elem_of_cons. simpl.
  unfold probe_to at 1. rewrite bool_decide_eq_false_2 by (intros [= ->]; done). by apply IH.
Qed.

Lemma probes_once ip l : NoDup l -> ip ∈ l -> length (List.filter (probe_to ip) (sweep_pass true l)) = 1%nat.
Proof.
  induction 1 as [|a l Ha Hl IH]; [by intros ?%elem_of_nil|]. intros Hin. simpl. unfold probe_to at 1.
  case_bool_decide as E; simpl in E.
  - injection E as ->. simpl. f_equal. by apply probes_none.
  - apply elem_of_cons in Hin as [->|Hin]; [done|]. by apply IH.
Qed.

Lemma probes_passes ip l passes : NoDup l -> ip ∈ l ->
  length (List.filter (probe_to ip) (concat (map (fun b => sweep_pass b l) passes)))
  = length (List.filter Datatypes.id passes).
Proof.
  intros Hnd Hin. induction passes as [|b passes IH]; [done|]. simpl concat.
  rewrite List.filter_app, length_app, IH. destruct b; [by rewrite probes_once|done].
Qed.

(* ------------------------------------------------------------------ *)
(** ** Properties *)

(** The sweep sends one byte to the discard port of each usable host
    address of the subnet, once per pass that has a socket, and to nothing
    else: every target lies in the subnet and is neither its network nor its
    broadcast address.  A subnet outside /16 to /30 is never swept. *)
Theorem sweep_spec s passes :
  subnet_wf s ->
  let first := Z.land (network s) (netmask s) in
  let last := first + 2 ^ (32 - prefix_len s) - 1 in
  match subnet_sweeper s passes with
  | None => prefix_len s < 16 \/ 30 < prefix_len s
  | Some sent =>
      16 <= prefix_len s <= 30 /\
      (forall a p, (a, p) ∈ sent -> p = [0] /\
         exists ip, a = mk_socket (V4 ip) DISCARD_PORT /\ contains s ip = true /\ ip <> first /\ ip <> last) /\
      (forall ip, in_width 32 ip -> contains s ip = true -> ip <> first -> ip <> last ->
         length (List.filter (probe_to ip) sent) = length (List.filter Datatypes.id passes))
  end.
Proof.
  intros Hs first last. destruct (hosts_usable s Hs) as (Hnd & Hnone & Hhosts). unfold subnet_sweeper.
  destruct (decide (prefix_len s < 16 \/ 30 < prefix_len s)) as [Hp|Hp]; [by rewrite (Hnone Hp)|].
  destruct (Hhosts ltac:(lia)) as [Hlen Hin].
  destruct (hosts s) as [|h hs]; [|split; [lia|split]].
  - assert (2 ^ 2 <= 2 ^ (32 - prefix_len s)) by (apply Z.pow_le_mono_r; lia). simpl in Hlen. lia.
  - intros a p Hsent. rewrite list_elem_of_In, in_concat in Hsent. destruct Hsent as (l & Hl & Hap).
    apply in_map_iff in Hl as ([] & <- & _); [|done]. apply in_map_iff in Hap as (ip & [= <- <-] & Hip).
    apply list_elem_of_In, Hin in Hip as (_ & ? & ? & ?). eauto 10.
  - intros ip Hw Hc H1 H2. apply probes_passes; [done|]. by apply Hin.
Qed.

Lemma sweep_spec_witness :
  let s := mk_subnet (ipv4 192 168 1 77) 29 in
  subnet_wf s /\
  match subnet_sweeper s [true; false; true] with
  | None => False
  | Some sent =>
      length sent = 12%nat /\
      forall ip, in_width 32 ip -> contains s ip = true -> ip <> ipv4 192 168 1 72 -> ip <> ipv4 192 168 1 79 ->
        length (List.filter (probe_to ip) sent) = 2%nat
  end.
Proof.
  assert (subnet_wf (mk_subnet (ipv4 192 168 1 77) 29)) as Hs by (split; [by vm_compute|simpl; lia]).
  split; [exact Hs|]. split; [reflexivity|].
  exact (proj2 (proj2 (sweep_spec (mk_subnet (ipv4 192 168 1 77) 29) [true; false; true] Hs))).
Defined.

(** C37. The reverse-DNS worker leaves the network alone: in any stretch of
    its life in which an address gives no answer, that address is asked at
    most three times, however the registry changes between the passes; and
    an address that needs a name and has not used up its attempts is asked
    in the next pass. *)
Theorem reverse_dns_bounded hash s w :
  rtc (worker_step hash) (new_worker s) w ->
  (forall pre mid post ip, asked w = pre ++ mid ++ post -> (ip, true) ∉ mid -> asks ip mid <= MAX_ATTEMPTS) /\
  (forall order turn ip, ip ∈ ips_needing_names order (wk_store w) -> unanswered ip 0 (asked w) < MAX_ATTEMPTS ->
     exists k b, asked (reverse_pass hash order turn w) = asked w ++ k /\ (ip, b) ∈ k).
Proof.
  intros Hr. assert (worker_ok w) as [Ha Hb].
  { remember (new_worker s) as w0 eqn:E. assert (worker_ok w0) as H0 by (subst; apply new_worker_ok). clear E.
    induction Hr as [|a b c Hab _ IH]; [done|]. apply IH. by eapply worker_step_ok. }
  split.
  - intros pre mid post ip E Hno. pose proof (Hb ip (pre ++ mid)) as Hp.
    rewrite unanswered_app, (unanswered_asks ip _ mid Hno) in Hp.
    pose proof (unanswered_nonneg ip 0 pre ltac:(done)).
    assert (pre ++ mid `prefix_of` asked w) as Hpre by (exists post; by rewrite E, app_assoc).
    specialize (Hp Hpre). lia.
  - intros order turn ip Hin Hlt. apply pass_asks; [done|]. by rewrite Ha.
Qed.

(** Three silent passes, and a fourth that asks nothing. *)
Definition w_silent (n : nat) : Turn := mk_turn 0 0 (fun _ => None).
Definition w_order (m : gmap Z string) : list (Z * string) := map_to_list m.
Definition w_seen_store : Store := observe w_hash (mk_sight 0 0 0) 5 w_mac w_store.
Definition w_passes (turn : nat -> Turn) (n : nat) : Worker :=
  Nat.iter n (reverse_pass w_hash w_order turn) (new_worker w_seen_store).

Lemma reverse_dns_bounded_witness :
  asked (w_passes w_silent 4) = [(5, false); (5, false); (5, false)] /\
  asks 5 (asked (w_passes w_silent 4)) <= MAX_ATTEMPTS.
Proof.
  split; [vm_compute; reflexivity|].
  refine (proj1 (reverse_dns_bounded w_hash w_seen_store (w_passes w_silent 4) _) [] _ [] 5 _ _).
  - eapply rtc_l, rtc_l, rtc_l, rtc_l, rtc_refl; apply wk_pass.
  - by rewrite app_nil_r.
  - change (asked (w_passes w_silent 4)) with [(5, false); (5, false); (5, false)].
    apply (bool_decide_unpack _). vm_compute. exact I.
Defined.

(** The worker, the pollers and the listeners only take steps of the
    registry: what holds of every reachable registry holds of theirs. *)
Theorem workers_keep_registry `{Codec} hash s w :
  store_ok s ->
  (rtc (worker_step hash) (new_worker s) w -> store_ok (wk_store w)) /\
  (forall now ts ev, store_ok (mdns_step hash now ts ev s)) /\
  (forall now ts ev, store_ok (dhcp_step hash now ts ev s)) /\
  (forall ck iface subnet table, store_ok (arp_tick hash ck iface subnet table s)).
Proof.
  intros Hs. split_and!; intros.
  - apply (reg_steps_ok hash s); [|done]. remember (new_worker s) as w0 eqn:E.
    assert (wk_store w0 = s) as <- by (by subst). clear E Hs.
    induction H1 as [|a b c Hab _ IH]; [done|]. etransitivity; [by apply worker_step_steps|exact IH].
  - eapply reg_steps_ok; [apply mdns_steps|done].
  - eapply reg_steps_ok; [apply dhcp_steps|done].
  - eapply reg_steps_ok; [apply arp_steps|done].
Qed.

(** An answer whose name is refused by [sanitize_hostname] counts as success:
    the address keeps its attempts and is asked in every pass, for ever. *)
Definition w_nameless (n : nat) : Turn := mk_turn 0 0 (fun _ => Some "???").
Example unusable_answers_never_stop :
  asked (w_passes w_nameless 6) = repeat (5, true) 6 /\
  ips_needing_names w_order (wk_store (w_passes w_nameless 6)) = [5].
Proof. vm_compute. done. Qed.

(** Whatever its identifier and question, the first datagram with a PTR
    record is taken for the answer. *)
Example any_reply_is_believed `{Codec} nfa qid i qs a ip bytes t :
  let resp := mk_message i qs [mk_record (q_name a) 0 (PTR t)] [] [] None in
  is_Some (nfa (arpa_name ip)) -> (forall m, is_Some (to_vec m)) -> received PTR_BUF bytes = bytes ->
  from_vec bytes = Some resp ->
  reverse_lookup nfa qid (mk_ptr_script true true true (Ready 0 (Some bytes))) ip = Some (short_name (to_ascii t)).
Proof.
  intros resp [n Hn] Hv Hr Hb. unfold reverse_lookup. rewrite Hn. destruct (Hv (ptr_query qid n)) as [v ->].
  simpl. by rewrite Hr, Hb.
Qed.
