(* ===== verification/Rows.v ===== *)
(** * What is written, and what is stored (src/db.rs, and every caller of [Writer::send])

    The types of the write queue and of the tables leave much unsaid: a MAC
    is a [String], a severity is a [String], a rate is an [i64].  Here is what
    each kind of row really holds, the proof that every producer (registry,
    alerts, monitor) only sends such rows, and that the tables keep them. *)
From S2P Require Import Prelude Str Float Addr Oui Netinfo DnsMsg Db Alerts Devices Monitor Discovery.
Open Scope Z_scope.

(* ------------------------------------------------------------------ *)
(** ** Well-typed operations *)

Definition lower_case (s : string) : Prop := str_forallb (fun b => negb (is_ascii_upper b)) s = true.

(** A row of the query log: only an answer from an upstream has a time, and
    exactly the blocked names have a list. *)
Record event_ok (e : QueryEvent) : Prop := mk_event_ok {
  eo_client : exists ip, ev_client_ip e = show_ip ip;
  eo_domain : lower_case (ev_domain e);
  eo_elapsed : forall t, ev_elapsed_ms e = Some t -> 0 <= t <= u32_max;
  eo_home : ev_status e = Blocked \/ ev_status e = Cached -> ev_elapsed_ms e = None;
  eo_list : is_Some (ev_blocklist e) <-> ev_status e = Blocked }.

Definition alert_kind_ok (kind severity : string) : Prop :=
  (kind = "new_device" /\ severity = "info") \/ (kind = "nxdomain_storm" /\ severity = "warning").
Definition ip_text_ok (ip : option string) : Prop := forall t, ip = Some t -> exists a, t = show_ipv4 a.
Definition latency_ok (target : string) (ms : F64) : Prop := (target = "gateway" \/ target = "upstream") /\ f_nonneg ms.

Definition op_ok (op : WriteOp) : Prop :=
  match op with
  | OpQuery e => event_ok e
  | OpIface s => sample_ok s
  | OpLatency _ target ms => latency_ok target ms
  | OpAlert _ kind severity _ _ _ => alert_kind_ok kind severity
  | OpDevice mac ip hostname _ _ _ => canonical_mac mac /\ name_field_ok hostname /\ ip_text_ok ip
  end.

Definition device_row_ok (d : DeviceRec) : Prop :=
  canonical_mac (dr_mac d) /\ name_field_ok (dr_hostname d) /\ ip_text_ok (dr_ip d).

Record rows_ok (db : Db) : Prop := mk_rows_ok {
  ro_queries : Forall (fun q => event_ok (q_event q)) (t_queries db);
  ro_devices : Forall device_row_ok (t_devices db);
  ro_unique : devices_ok (t_devices db);
  ro_iface : Forall sample_ok (t_iface db);
  ro_alerts : Forall (fun a => alert_kind_ok (a_kind a) (a_severity a)) (t_alerts db);
  ro_latency : Forall (fun l => latency_ok (snd (fst l)) (snd l)) (t_latency db) }.

(* ------------------------------------------------------------------ *)
(** ** The tables keep them *)

Lemma empty_rows_ok : rows_ok empty_db.
Proof. split; try (by apply Forall_nil). apply db_reachable_ok. apply rtc_refl. Qed.

Lemma coalesce_ok {A} (P : option A -> Prop) (new old : option A) : P new -> P old -> P (coalesce new old).
Proof. intros. by destruct new. Qed.

Lemma release_row_ok ip mac d : device_row_ok d -> device_row_ok (release_ip ip mac d).
Proof. intros (? & ? & ?). unfold release_ip. case_match; [|done]. by split_and!. Qed.

Lemma upsert_rows_ok mac ip h v r ts l :
  canonical_mac mac -> name_field_ok h -> ip_text_ok ip ->
  Forall device_row_ok l -> Forall device_row_ok (upsert_device mac ip h v r ts l).
Proof.
  intros Hm Hh Hip. induction 1 as [|d l Hd Hl IH]; simpl; [by apply Forall_singleton|].
  case_match; constructor; try done. destruct Hd as (? & ? & ?).
  split; [done|]. split; [by apply (coalesce_ok name_field_ok)|by apply (coalesce_ok ip_text_ok)].
Qed.

Lemma apply_op_rows_ok db op : op_ok op -> rows_ok db -> rows_ok (apply_op db op).
Proof.
  intros Ho [H1 H2 H3 H4 H5 H6].
  pose proof (apply_op_devices_ok db op H3) as H3'.
  destruct op as [e|s|ts tg ms|ts k sv sj dt nt|mac ip h v r ts]; split; simpl in *; try done;
    try (apply Forall_app; split; [done|by apply Forall_singleton]).
  destruct Ho as (? & ? & ?). apply upsert_rows_ok; try done.
  destruct ip; [|done]. apply Forall_fmap. eapply Forall_impl; [exact H2|]. intros d. apply release_row_ok.
Qed.

Lemma flush_rows_ok c ops db : Forall op_ok ops -> rows_ok db -> rows_ok (flush c ops db).
Proof.
  intros Ho. destruct c; [|done]. unfold flush. revert db. induction Ho as [|op ops Hop _ IH]; intros db Hdb; [done|].
  by apply IH, apply_op_rows_ok.
Qed.

Lemma Forall_list_filter {A} (P : A -> Prop) f (l : list A) : Forall P l -> Forall P (List.filter f l).
Proof. induction 1; simpl; [constructor|]. case_match; [by constructor|done]. Qed.

Lemma prune_rows_ok p days db : rows_ok db -> rows_ok (prune p days db).
Proof. apply prune_inv; intros c d []; split; try (by apply Forall_list_filter); done. Qed.

(** Rows loaded back at the next start. *)
Lemma known_devices_ok db : rows_ok db -> Forall (fun r => name_field_ok (kd_hostname r)) (known_devices db).
Proof.
  intros [_ Hd _ _ _ _]. apply Forall_fmap. eapply Forall_impl; [exact Hd|]. by intros d (_ & ? & _).
Qed.

(* ------------------------------------------------------------------ *)
(** ** The write queue *)

Definition drops_ok (d : DropCounts) : Prop :=
  in_width 64 (d_queries d) /\ in_width 64 (d_devices d) /\ in_width 64 (d_monitoring d) /\ in_width 64 (d_alerts d).
Record writer_ok (w : Writer) : Prop := mk_writer_ok {
  wr_bound : Z.of_nat (length (w_queue w)) <= CHANNEL;
  wr_pending : (length (w_pending w) <= BATCH)%nat;
  wr_ops : Forall op_ok (backlog w);
  wr_drops : drops_ok (w_dropped w) }.

Lemma new_writer_ok : writer_ok new_writer.
Proof. split; [done|simpl; lia|constructor|]. by repeat split. Qed.

Lemma count_drop_ok op d : drops_ok d -> drops_ok (count_drop op d).
Proof. intros (? & ? & ? & ?). destruct op; split_and!; try done; by apply wrap_in_width. Qed.

Lemma send_ok op w : op_ok op -> writer_ok w -> writer_ok (send op w).
Proof.
  intros Ho [H1 H2 H3 H4]. split.
  - unfold send. case_match eqn:E; [bools|done]. cbn [w_queue]. rewrite length_app. simpl. lia.
  - unfold send. by case_match.
  - rewrite send_backlog. apply Forall_app. split; [done|]. case_match; [by apply Forall_singleton|constructor].
  - unfold send. case_match; [done|by apply count_drop_ok].
Qed.

(** The other end: the writer thread receives, and writes a batch. *)
Lemma receive_ok w : writer_ok w -> writer_ok (receive w).
Proof.
  intros [H1 H2 H3 H4]. destruct (receive_bounds w H2). split; [lia|done|by rewrite receive_backlog|by rewrite receive_dropped].
Qed.

Lemma writer_round_ok retention rd w db :
  writer_ok w -> rows_ok db ->
  writer_ok (fst (writer_round retention rd w db)) /\ rows_ok (snd (writer_round retention rd w db)).
Proof.
  intros Hw Hdb. assert (writer_ok (gathered rd w)) as Hr by (apply gathered_inv; [apply receive_ok|done]).
  unfold writer_round. destruct (w_pending (gathered rd w)) as [|op l] eqn:E; [done|].
  destruct Hr as [H1 H2 [Hb Hq]%Forall_app H4]. rewrite E in Hb. split; [split; done || (simpl; lia)|].
  cbn [snd]. unfold written_batch. assert (rows_ok (flush (rd_commits rd) (op :: l) db)) by by apply flush_rows_ok.
  destruct (rd_prune rd); [by apply prune_rows_ok|done].
Qed.

(* ------------------------------------------------------------------ *)
(** ** Producers *)

(** [b] is [a] after sending operations that satisfy [P], and nothing else. *)
Definition sends (P : WriteOp -> Prop) (a b : option Writer) : Prop :=
  exists l, Forall P l /\ b = option_map (send_all l) a.

#[export] Instance sends_preorder P : PreOrder (sends P).
Proof.
  split; [intros [w|]; by exists []|]. intros a b c (l1 & H1 & ->) (l2 & H2 & ->). exists (l1 ++ l2).
  split; [by apply Forall_app|]. destruct a; [|done]. unfold send_all. cbn [option_map]. by rewrite fold_left_app.
Qed.

Lemma sends_weaken (P Q : WriteOp -> Prop) a b : (forall op, P op -> Q op) -> sends P a b -> sends Q a b.
Proof. intros HPQ (l & Hl & ->). exists l. split; [by eapply Forall_impl|done]. Qed.
Lemma sends_one (P : WriteOp -> Prop) op w : P op -> sends P (Some w) (Some (send op w)).
Proof. intros. exists [op]. split; [by apply Forall_singleton|done]. Qed.
Lemma sends_ok w w' : sends op_ok (Some w) (Some w') -> writer_ok w -> writer_ok w'.
Proof.
  intros (l & Hl & [= ->]). revert w. induction Hl as [|op l Ho _ IH]; intros w Hw; [done|]. by apply IH, send_ok.
Qed.

(** What the registry sends in state [s]: device rows, typed if it is consistent. *)
Definition registry_op (s : Store) (op : WriteOp) : Prop := op_kind op = 1%nat /\ (store_ok s -> op_ok op).

Lemma device_op_ok ts d : device_ok d -> op_ok (device_op ts d).
Proof.
  intros [Hm Hn]. split_and!; [done|done|]. intros t. destruct (dv_ip d) as [a|]; [|done]. intros [= <-]. by exists a.
Qed.
Lemma persist_sends ts d s0 s :
  (store_ok s0 -> device_ok d) -> sends (registry_op s0) (writer s) (writer (persist ts d s)).
Proof.
  intros Hd. unfold persist. destruct (writer s) as [w|] eqn:E; [|by rewrite E].
  apply sends_one. split; [done|]. intros Hs. by apply device_op_ok, Hd.
Qed.
Lemma persist_opt_sends ts d s0 s :
  (forall d', d = Some d' -> store_ok s0 -> device_ok d') -> sends (registry_op s0) (writer s) (writer (persist_opt ts d s)).
Proof. intros Hd. destruct d as [d|]; [apply persist_sends; by apply Hd|done]. Qed.

Section Registry.
Context (hash : option Z * option string * option string * bool -> Z).
Abbreviation steps := (rtc (reg_step hash)).

Lemma observe_sends ck ip mac s : sends (registry_op s) (writer s) (writer (observe hash ck ip mac s)).
Proof.
  unfold observe. destruct (Oui.normalize mac) as [m|] eqn:Hm; [|done].
  destruct (lock_ok (inner s)) as [i|] eqn:Hi; [|done].
  pose proof (observe_inner_ok hash (oui s) (sg_slot ck) ip m i) as Hok.
  destruct (observe_inner _ _ _ _ _ _) as [[i' dev] first].
  assert (sends (registry_op s) (writer s) (writer (persist_opt (sg_row ck) dev (set_inner s i')))) as Hp.
  { apply (persist_opt_sends (sg_row ck) dev s (set_inner s i')). intros d Hd Hs.
    apply (Hok ltac:(by rewrite <- (lock_ok_value _ _ Hi)) (normalize_canon _ _ Hm)), Hd. }
  cbv zeta. repeat case_match; exact Hp.
Qed.

Lemma observe_named_sends now ts mac n s : sends (registry_op s) (writer s) (writer (observe_named hash now ts mac n s)).
Proof.
  pose proof (observe_named_ok hash now ts mac n s) as Hok. unfold observe_named in *.
  repeat case_match; try done.
  match goal with |- sends _ _ (writer (persist_opt _ _ ?s')) => apply (persist_opt_sends _ _ s s') end.
  intros dev Hd Hs. specialize (Hok Hs). unfold store_ok in Hok. rewrite persist_opt_inner in Hok.
  apply stored_ok in Hok. congruence.
Qed.

Lemma observe_name_for_ip_sends now ts ip n s :
  sends (registry_op s) (writer s) (writer (observe_name_for_ip hash now ts ip n s)).
Proof.
  pose proof (observe_name_for_ip_ok hash now ts ip n s) as Hok. unfold observe_name_for_ip in *.
  repeat case_match; try done.
  match goal with |- sends _ _ (writer (persist_opt _ _ ?s')) => apply (persist_opt_sends _ _ s s') end.
  intros dev Hd Hs. specialize (Hok Hs). unfold store_ok in Hok. rewrite persist_opt_inner in Hok.
  apply stored_ok in Hok. congruence.
Qed.

Lemma touch_ip_sends now ts ip s : sends (registry_op s) (writer s) (writer (touch_ip now ts ip s)).
Proof.
  pose proof (touch_ip_ok now ts ip s) as Hok. unfold touch_ip, touch_write in *.
  repeat case_match; try done.
  match goal with |- sends _ _ (writer (persist _ _ ?s')) => apply (persist_sends _ _ s s') end.
  intros Hs. specialize (Hok Hs). unfold store_ok in Hok. rewrite persist_inner in Hok. by apply stored_ok in Hok.
Qed.

Lemma reg_step_sends s s' : reg_step hash s s' -> sends (registry_op s) (writer s) (writer s').
Proof.
  destruct 1.
  - unfold hydrate. destruct (lock_ok _); [|done]. by destruct (fold_left _ _ _).
  - apply observe_sends.
  - apply observe_named_sends.
  - apply observe_name_for_ip_sends.
  - apply touch_ip_sends.
Qed.

Lemma reg_steps_sends s s' : steps s s' -> sends (registry_op s) (writer s) (writer s').
Proof.
  induction 1 as [|s s1 s2 H1 _ IH]; [done|]. etransitivity; [by apply reg_step_sends|].
  eapply sends_weaken; [|exact IH]. intros op [Hk Ho]. split; [done|]. intros Hs.
  by apply Ho, (reg_steps_ok hash s), Hs; apply rtc_once.
Qed.

Lemma learn_steps `{Hickory} now ts m s : steps s (learn_from_dns hash now ts m s).
Proof.
  apply fold_steps. intros s' rec. unfold learn_record. repeat case_match; try done; apply name_steps.
Qed.
Lemma touch_steps now ts ip s : steps s (touch_ip now ts ip s).
Proof. apply rtc_once. constructor. Qed.
End Registry.

(* ------------------------------------------------------------------ *)
(** ** Alerts *)

Definition alert_ok (a : Alert) : Prop := alert_kind_ok (al_kind a) (severity_str (al_severity a)).
Definition sink_ok (o : option AlertSink) : Prop := forall k, o = Some k -> Forall alert_ok (sk_queue k).

Lemma raise_ok now a k : alert_ok a -> Forall alert_ok (sk_queue k) -> Forall alert_ok (sk_queue (raise now a k)).
Proof.
  intros Ha Hk. unfold raise, take_cooldown_slot. destruct (lock_ok _) as [m|].
  - destruct (take_slot _ _ _ _) as [m' []]; simpl; [|done]. case_match; [|done].
    apply Forall_app. split; [done|by apply Forall_singleton].
  - simpl. case_match; [|done]. apply Forall_app. split; [done|by apply Forall_singleton].
Qed.

Lemma observe_sink hash ck ip mac s : sink_ok (alert_sink s) -> sink_ok (alert_sink (observe hash ck ip mac s)).
Proof.
  intros Hs. unfold observe. destruct (Oui.normalize mac) as [m|]; [|done]. destruct (lock_ok (inner s)) as [i|]; [|done].
  destruct (observe_inner _ _ _ _ _ _) as [[i' dev] first]. set (s1 := persist_opt _ _ _).
  assert (alert_sink s1 = alert_sink s) as E by apply (persist_opt_sink _ _ (set_inner s i')). cbv zeta.
  destruct first as [d|]; [|by rewrite E]. destruct (alert_sink s1) as [k|] eqn:Ek; [|by rewrite Ek, E].
  intros k' [= <-]. apply raise_ok; [by left|]. apply Hs. congruence.
Qed.

Lemma reg_step_sink hash s s' : reg_step hash s s' -> sink_ok (alert_sink s) -> sink_ok (alert_sink s').
Proof.
  destruct 1; intros Hs.
  - unfold hydrate. destruct (lock_ok _); [|done]. by destruct (fold_left _ _ _).
  - by apply observe_sink.
  - unfold observe_named. repeat case_match; try done. by rewrite persist_opt_sink.
  - unfold observe_name_for_ip. repeat case_match; try done. by rewrite persist_opt_sink.
  - unfold touch_ip, touch_write, persist. by repeat case_match.
Qed.
Lemma reg_steps_sink hash s s' : rtc (reg_step hash) s s' -> sink_ok (alert_sink s) -> sink_ok (alert_sink s').
Proof. induction 1 as [|s s1 s2 H1 _ IH]; [done|]. intros Hs. by apply IH, (reg_step_sink hash s). Qed.

Lemma storm_tick_ok g j q clock now mins th db k :
  Forall alert_ok (sk_queue k) -> Forall alert_ok (sk_queue (storm_tick g j q clock now mins th db k)).
Proof.
  intros Hk. unfold storm_tick, storm_scan. repeat case_match; try done.
  apply (fold_left_inv (fun k => Forall alert_ok (sk_queue k))); [done|].
  intros k' p Hk'. apply raise_ok; [by right|done].
Qed.

(** The task that records an alert, whether or not it could be pushed. *)
Lemma drain_one_ok ts client delivered k w :
  Forall alert_ok (sk_queue k) -> writer_ok w ->
  Forall alert_ok (sk_queue (fst (drain_one ts client delivered k w))) /\
  writer_ok (snd (drain_one ts client delivered k w)).
Proof.
  intros Hk Hw. unfold drain_one. destruct (sk_queue k) as [|a l] eqn:E; [simpl; by rewrite E|].
  apply Forall_cons in Hk as [Ha Hl]. split; [done|]. by apply send_ok.
Qed.

(* ------------------------------------------------------------------ *)
(** ** Monitor *)

Lemma throughput_tick_ok now ts text last w :
  writer_ok w -> writer_ok (snd (throughput_tick now ts text (last, w))).
Proof.
  destruct (throughput_tick_sends now ts text (last, w)) as (l & E & Hl). cbn [snd] in E.
  apply sends_ok. exists (map OpIface l). split; [by apply Forall_fmap|]. by rewrite E.
Qed.

Lemma gateway_ms_nonneg connect gw v : honest connect -> gateway_ms connect gw = Some v -> f_nonneg v.
Proof.
  intros Hc E. unfold gateway_ms in E.
  destruct (tcp_probe_ms connect (mk_socket (V4 gw) 53) 1500) eqn:E'; simplify_eq.
  - by apply (tcp_probe_nonneg connect _ 1500 _ Hc ltac:(lia) E').
  - by apply (tcp_probe_nonneg connect _ 1500 _ Hc ltac:(lia) E).
Qed.
Lemma send_latency_ok ts target ms w :
  (target = "gateway" \/ target = "upstream") -> (forall v, ms = Some v -> f_nonneg v) ->
  writer_ok w -> writer_ok (send_latency ts target ms w).
Proof. intros Ht Hv Hw. destruct ms as [v|]; [|done]. apply send_ok; [|done]. split; [done|by apply Hv]. Qed.
Lemma latency_tick_ok connect ts route upstream w :
  honest connect -> writer_ok w -> writer_ok (latency_tick connect ts route upstream w).
Proof.
  intros Hc Hw. unfold latency_tick. apply send_latency_ok; [by right| |].
  - intros v Hv. by apply (tcp_probe_nonneg connect upstream 2500 _ Hc ltac:(lia)).
  - destruct route as [r|]; [|done]. apply send_latency_ok; [by left| |done]. intros v. by apply gateway_ms_nonneg.
Qed.
