(* ===== verification/Daemon.v ===== *)
(** * The daemon put together (src/main.rs, src/devices.rs, src/db.rs, src/dns/mod.rs)

    The resolver, the device registry, the alerts, the samplers, the write
    queue and the tables as one running program.  The registry, the resolver
    and the samplers hold the sending side of the same channel: [Shared] is
    the registry with that channel, and the instance of [QueryObserver] below
    is the proof that it keeps the promise the resolver relies on. *)
From S2P Require Import Prelude Str Addr Oui Netinfo Blocklist Config DnsMsg Cache Upstream Db Monitor Resolver Alerts Devices Discovery Rows.
Open Scope Z_scope.

Record Shared : Type := mk_shared { sh_store : Store; sh_writer : Writer }.

Definition with_writer (w : Writer) (s : Store) : Store := mk_store (inner s) (oui s) (Some w) (alert_sink s).
(** An operation of the registry, sending into the shared channel. *)
Definition through (f : Store -> Store) (d : Shared) : Shared :=
  let s := f (with_writer (sh_writer d) (sh_store d)) in
  mk_shared s (default (sh_writer d) (writer s)).
Definition set_sink (k : option AlertSink) (d : Shared) : Shared :=
  mk_shared (with_alerts (sh_store d) k) (sh_writer d).
Definition set_writer (w : Writer) (d : Shared) : Shared := mk_shared (sh_store d) w.
Definition observe_query (e : QueryEvent) (d : Shared) : Shared := set_writer (send (OpQuery e) (sh_writer d)) d.

(** The queries offered to a channel so far: waiting or dropped. *)
Definition offered_queries (w : Writer) : Z := of_kind 0 (backlog w) + d_queries (w_dropped w).

(* ------------------------------------------------------------------ *)
(** ** The registry as the resolver sees it *)

Lemma send_offered w op :
  wrap 64 (offered_queries (send op w)) = wrap 64 (offered_queries w + if (op_kind op =? 0)%nat then 1 else 0).
Proof.
  unfold offered_queries. rewrite send_backlog. unfold send. destruct (w_open w && _); cbn [w_dropped]; [|rewrite app_nil_r].
  - rewrite of_kind_app, of_kind_cons. change (of_kind 0 []) with 0. f_equal. lia.
  - pose proof (count_drop_kind 0 op (w_dropped w) ltac:(lia)) as Hd. unfold drop_count in Hd. rewrite Hd.
    case_match; [|f_equal; lia]. unfold wrap. rewrite Zplus_mod_idemp_r. f_equal. lia.
Qed.

(** What the registry sends are no queries. *)
Lemma registry_offers s w w' :
  sends (registry_op s) (Some w) (Some w') -> wrap 64 (offered_queries w') = wrap 64 (offered_queries w).
Proof.
  intros (l & Hl & [= ->]). revert w. induction Hl as [|op l [Hk _] _ IH]; intros w; [done|].
  change (send_all (op :: l) w) with (send_all l (send op w)). rewrite IH, send_offered, Hk. simpl. f_equal. lia.
Qed.

Section Observer.
Context `{Hickory} (hash : option Z * option string * option string * bool -> Z).

(** An operation of the registry through the shared channel. *)
Lemma through_sends f d :
  (forall s, rtc (reg_step hash) s (f s)) ->
  sends (registry_op (sh_store d)) (Some (sh_writer d)) (Some (sh_writer (through f d))).
Proof.
  intros Hf. set (s := with_writer (sh_writer d) (sh_store d)).
  destruct (reg_steps_sends hash s (f s) (Hf s)) as (l & Hl & E). exists l. split; [exact Hl|].
  unfold through. fold s. rewrite E. done.
Qed.

#[refine] Definition shared_observer : QueryObserver Shared := {|
  touch now ts ip := through (touch_ip now ts ip);
  learn now ts m := through (learn_from_dns hash now ts m);
  record_query := observe_query;
  offered d := wrap 64 (offered_queries (sh_writer d)) |}.
Proof.
  - intros now ts ip d. eapply registry_offers, through_sends. intros. apply touch_steps.
  - intros now ts m d. eapply registry_offers, through_sends. intros. apply learn_steps.
  - intros e d. unfold observe_query. cbn [sh_writer set_writer]. rewrite send_offered. cbn [op_kind Nat.eqb].
    unfold wrap. by rewrite Zmod_mod, Zplus_mod_idemp_l.
Defined.
End Observer.

(* ------------------------------------------------------------------ *)
(** ** The running daemon *)

Section Daemon.
Context `{Codec} (hash : option Z * option string * option string * bool -> Z).
Context (order : gmap Key Cache.Entry -> list (Key * Cache.Entry)).
#[local] Instance daemon_observer : QueryObserver Shared := shared_observer hash.
Abbreviation Resolver := (Resolver.Resolver (S := Shared)).

(** What the other tasks do to the resolver and the registry: a client is
    refused, a query shed, the cache is swept or flushed, the block list is
    replaced, the registry hears of devices and names, the log is scanned. *)
Inductive background_step : Resolver -> Resolver -> Prop :=
  | d_admit client r : background_step r (fst (resolver_allows client r))
  | d_udp_overload r : background_step r (note_udp_overload r)
  | d_tcp_rejection r : background_step r (note_tcp_rejection r)
  | d_sweep now r : background_step r (sweep_cache now r)
  | d_flush r : background_step r (flush_cache r)
  | d_blocklist bl r :
      background_step r (mk_resolver (r_cfg r) (r_acl r) (warned_denied r) (block_nxdomain r) (doh_disabled r)
                       bl (r_cache r) (r_obs r) (r_stats r))
  | d_arp ck iface subnet table r :
      background_step r (set_obs (through (arp_tick hash ck iface subnet table)) r)
  | d_dhcp now ts ev r : background_step r (set_obs (through (dhcp_step hash now ts ev)) r)
  | d_mdns now ts ev r : background_step r (set_obs (through (mdns_step hash now ts ev)) r)
  | d_ptr now ts ip name r : background_step r (set_obs (through (observe_name_for_ip hash now ts ip name)) r)
  | d_storm group_order joined sql_ok clock now mins threshold db k r :
      alert_sink (sh_store (r_obs r)) = Some k ->
      background_step r (set_obs (set_sink (Some (storm_tick group_order joined sql_ok clock now mins threshold db k))) r).

(** And the requests, in any order with them: one runs up to the network, or
    on past it, or is given up; or, while it waits for the network, its task
    is dropped (the TCP session it came in reached its limit, or panicked)
    and nothing of it is left. *)
Inductive daemon_step : Resolver -> Resolver -> Prop :=
  | d_background r r' : background_step r r' -> daemon_step r r'
  | d_prepare ck request client r :
      daemon_step r (fst (prepare ck request client r))
  | d_finish ck client msg q key t res r : 0 <= t ->
      daemon_step r (fst (finish order ck client msg q key t res r))
  | d_budget_spent request r : daemon_step r (fst (budget_spent request r))
  | d_dropped r : daemon_step r r.

(** The whole program: that, what the samplers remember, and the tables. *)
Record System : Type := mk_system { sy_resolver : Resolver; sy_last : Last; sy_db : Db }.

(** A start on the tables that are there. *)
Definition started (cfg : Config) (lan : option Subnet) (bl : Lock Blocklist) (o : OuiDb) (now : Instant) (db : Db) : System :=
  let store := with_alerts (new_store o new_writer) (spawn (alerts cfg)) in
  let store := fst (hydrate hash now (known_devices db) store) in
  mk_system (new_resolver cfg lan bl (mk_shared store new_writer)) ∅ db.

Definition sy_shared (s : System) : Shared := r_obs (sy_resolver s).
Definition sy_writer (s : System) : Writer := sh_writer (sy_shared s).
Definition write (w : Writer) (s : System) : Resolver := set_obs (set_writer w) (sy_resolver s).

(** The tasks that only write to the queue: the samplers, and the one that
    records alerts. *)
Inductive recorder_step : System -> System -> Prop :=
  | s_throughput now ts text s :
      let st := throughput_tick now ts text (sy_last s, sy_writer s) in
      recorder_step s (mk_system (write (snd st) s) (fst st) (sy_db s))
  | s_latency connect ts route upstream s : honest connect ->
      recorder_step s (mk_system (write (latency_tick connect ts route upstream (sy_writer s)) s) (sy_last s) (sy_db s))
  | s_alert ts client delivered k s :
      alert_sink (sh_store (sy_shared s)) = Some k ->
      let p := drain_one ts client delivered k (sy_writer s) in
      recorder_step s (mk_system (set_obs (set_sink (Some (fst p))) (write (snd p) s)) (sy_last s) (sy_db s)).

(** One step of a task; the last is the program stopped (what waits in the
    queue or with the writer is lost) and started again, with any
    configuration. *)
Inductive system_step : System -> System -> Prop :=
  | s_daemon r s : daemon_step (sy_resolver s) r -> system_step s (mk_system r (sy_last s) (sy_db s))
  | s_recorder s s' : recorder_step s s' -> system_step s s'
  | s_receive s : system_step s (mk_system (write (receive (sy_writer s)) s) (sy_last s) (sy_db s))
  | s_writer retention round s :
      let p := writer_round retention round (sy_writer s) (sy_db s) in
      system_step s (mk_system (write (fst p) s) (sy_last s) (snd p))
  | s_restart cfg lan bl o now s : system_step s (started cfg lan bl o now (sy_db s)).

(* ------------------------------------------------------------------ *)
(** ** The invariant *)

Definition stats_ok (s : Stats) : Prop :=
  Forall (in_width 64) [total s; blocked s; cache_hits s; upstream_errors s; denied s;
                        udp_overload_drops s; tcp_rejections s; request_timeouts s].
Record shared_ok (d : Shared) : Prop := mk_shared_ok {
  so_store : store_ok (sh_store d); so_sink : sink_ok (alert_sink (sh_store d)); so_writer : writer_ok (sh_writer d) }.
Record resolver_ok (r : Resolver) : Prop := mk_resolver_ok {
  re_cache : cache_ok (lk_value (r_cache r)); re_stats : stats_ok (r_stats r); re_shared : shared_ok (r_obs r) }.

Lemma through_ok f d : (forall s, rtc (reg_step hash) s (f s)) -> shared_ok d -> shared_ok (through f d).
Proof.
  intros Hf [H1 H2 H3]. set (s := with_writer (sh_writer d) (sh_store d)). split.
  - by apply (reg_steps_ok hash s); [apply Hf|].
  - by apply (reg_steps_sink hash s); [apply Hf|].
  - eapply sends_ok; [|exact H3]. eapply sends_weaken; [|by apply (through_sends hash)].
    intros op [_ Ho]. by apply Ho.
Qed.
Lemma touch_ok now ts ip d : shared_ok d -> shared_ok (touch now ts ip d).
Proof. apply through_ok. intros. apply touch_steps. Qed.
Lemma learn_ok now ts m d : shared_ok d -> shared_ok (learn now ts m d).
Proof. apply through_ok. intros. apply learn_steps. Qed.
Lemma set_writer_ok w d : writer_ok w -> shared_ok d -> shared_ok (set_writer w d).
Proof. intros Hw []. by split. Qed.
Lemma set_sink_ok k d : sink_ok k -> shared_ok d -> shared_ok (set_sink k d).
Proof. intros Hk []. by split. Qed.
Lemma record_ok e d : event_ok e -> shared_ok d -> shared_ok (record_query e d).
Proof. intros He Hd. apply set_writer_ok; [|done]. apply send_ok; [done|apply Hd]. Qed.

Lemma log_ok ck q t ip st el an bl (r : Resolver) :
  (forall v, el = Some v -> 0 <= v <= u32_max) -> (st = Blocked \/ st = Cached -> el = None) ->
  (is_Some bl <-> st = Blocked) ->
  resolver_ok r -> resolver_ok (log ck (query_name q) t ip st el an bl r).
Proof.
  intros Hel Hst Hbl [H1 H2 H3]. split; [done|done|]. apply record_ok; [|by apply touch_ok].
  split; try done; [by exists ip|]. apply lowercase_not_upper.
Qed.

Definition counts (f : Stats -> Stats) : Prop := forall s, stats_ok s -> stats_ok (f s).
Ltac counting := intros s Hs; unfold stats_ok in *; rewrite !Forall_cons in *; cbn in *; destruct_and!;
  split_and!; try done; by apply wrap_in_width.
Lemma add_total_counts : counts add_total. Proof. counting. Qed.
Lemma add_blocked_counts : counts add_blocked. Proof. counting. Qed.
Lemma add_cache_hit_counts : counts add_cache_hit. Proof. counting. Qed.
Lemma add_upstream_error_counts : counts add_upstream_error. Proof. counting. Qed.
Lemma add_denied_counts : counts add_denied. Proof. counting. Qed.
Lemma add_udp_overload_counts : counts add_udp_overload. Proof. counting. Qed.
Lemma add_tcp_rejection_counts : counts add_tcp_rejection. Proof. counting. Qed.
Lemma add_timeout_counts : counts add_timeout. Proof. counting. Qed.
Hint Resolve add_total_counts add_blocked_counts add_cache_hit_counts add_upstream_error_counts add_denied_counts
  add_udp_overload_counts add_tcp_rejection_counts add_timeout_counts : nw.

Lemma set_stats_ok f (r : Resolver) : counts f -> resolver_ok r -> resolver_ok (set_stats f r).
Proof. intros Hf []. split; [done|by apply Hf|done]. Qed.
Lemma set_cache_ok c (r : Resolver) : cache_ok c -> resolver_ok r -> resolver_ok (set_cache c r).
Proof. intros Hc []. by split. Qed.
Lemma set_obs_ok f (r : Resolver) : (shared_ok (r_obs r) -> shared_ok (f (r_obs r))) -> resolver_ok r -> resolver_ok (set_obs f r).
Proof. intros Hf []. split; [done|done|by apply Hf]. Qed.
Lemma locked_cache_ok (r : Resolver) c : lock_ok (r_cache r) = Some c -> resolver_ok r -> cache_ok c.
Proof. intros <-%lock_ok_value []. done. Qed.

Lemma cache_lookup_ok now key (r : Resolver) : resolver_ok r -> resolver_ok (fst (cache_lookup now key r)).
Proof.
  intros Hr. unfold cache_lookup. destruct (cache_enabled _), key as [key|]; try done.
  destruct (lock_ok (r_cache r)) as [c|] eqn:E; [|done]. cbn [fst].
  pose proof (locked_cache_ok r c E Hr) as Hc. apply set_cache_ok; [|done].
  by apply (cache_step_ok c), Hc; constructor.
Qed.

Lemma prepare_ok ck request client (r : Resolver) : resolver_ok r -> resolver_ok (fst (prepare ck request client r)).
Proof.
  intros Hr. assert (resolver_ok (set_stats add_total r)) as Hr' by (apply set_stats_ok; [auto with nw|done]).
  destruct (prepare_cases request r) as [Hq|(msg & q & Hq & [[label Hv]|Hv])].
  - by rewrite prepare_other by done.
  - rewrite (prepare_home _ _ _ _ msg q label) by done.
    apply log_ok; [done|done|by split|]. apply set_stats_ok; [auto with nw|done].
  - rewrite (prepare_lookup _ _ _ _ msg q) by done.
    pose proof (cache_lookup_ok (ck_lookup ck) (from_request msg (query_name q)) (set_stats add_total r) Hr') as Hl.
    destruct (snd _) as [hit|]; [|exact Hl].
    apply log_ok; [done|done|split; [by intros []|done]|]. apply set_stats_ok; [auto with nw|exact Hl].
Qed.

Context (Horder : iterates order).

Lemma cache_store_ok ck key raw m (r : Resolver) :
  from_vec raw = Some m -> resolver_ok r -> resolver_ok (cache_store order ck key m r).
Proof using Horder.
  intros Hm Hr. unfold cache_store. destruct (cache_enabled _), key as [key|]; try done.
  destruct (lock_ok (r_cache r)) as [c|] eqn:E; [|done].
  apply set_cache_ok; [|done]. pose proof (locked_cache_ok r c E Hr) as Hc.
  apply (cache_step_ok c); [|exact Hc]. constructor; [exact Horder|]. exact (from_vec_ttls _ _ Hm).
Qed.

Lemma status_of_fetched code : status_of code <> Blocked /\ status_of code <> Cached.
Proof. unfold status_of. by repeat case_match. Qed.

Lemma finish_ok ck client msg q key t res (r : Resolver) :
  0 <= t -> resolver_ok r -> resolver_ok (fst (finish order ck client msg q key t res r)).
Proof using Horder.
  intros Ht Hr. assert (forall v, Some (Z.min (as_millis t) u32_max) = Some v -> 0 <= v <= u32_max) as Hel.
  { intros v [= <-]. unfold as_millis, u32_max. split; [|lia]. apply Z.min_glb; [apply Z.div_pos; lia|lia]. }
  unfold finish. destruct res as [raw|e]; [destruct (from_vec raw) as [m|] eqn:Hm|]; cbn [fst].
  - destruct (status_of_fetched (response_code (metadata m))). apply log_ok; [done|by intros []|by split; [intros []|]|].
    apply set_obs_ok; [apply learn_ok|]. by apply (cache_store_ok ck key raw).
  - apply log_ok; [done|by intros []|by split; [intros []|]|done].
  - apply log_ok; [done|done|by split; [intros []|]|]. apply set_stats_ok; [auto with nw|done].
Qed.

Lemma background_step_ok r r' : background_step r r' -> resolver_ok r -> resolver_ok r'.
Proof.
  destruct 1; intros Hr.
  - unfold resolver_allows. case_match; [done|]. cbn [fst].
    destruct (set_stats_ok add_denied r add_denied_counts Hr). by split.
  - by apply set_stats_ok; [auto with nw|].
  - by apply set_stats_ok; [auto with nw|].
  - unfold sweep_cache. destruct (lock_ok _) as [c|] eqn:E; [|done]. apply set_cache_ok; [|done].
    eapply cache_step_ok; [constructor|by eapply locked_cache_ok].
  - unfold flush_cache. destruct (lock_ok _) as [c|] eqn:E; [|done]. apply set_cache_ok; [|done].
    eapply cache_step_ok; [constructor|by eapply locked_cache_ok].
  - destruct Hr. by split.
  - apply set_obs_ok; [|done]. apply through_ok. intros. apply arp_steps.
  - apply set_obs_ok; [|done]. apply through_ok. intros. apply dhcp_steps.
  - apply set_obs_ok; [|done]. apply through_ok. intros. apply mdns_steps.
  - apply set_obs_ok; [|done]. apply through_ok. intros. apply name_steps.
  - apply set_obs_ok; [|done]. apply set_sink_ok. intros k' [= <-]. apply storm_tick_ok.
    by apply (so_sink _ (re_shared _ Hr)).
Qed.

Lemma daemon_step_ok r r' : daemon_step r r' -> resolver_ok r -> resolver_ok r'.
Proof using Horder.
  destruct 1; intros Hr.
  - by eapply background_step_ok.
  - by apply prepare_ok.
  - by apply finish_ok.
  - by apply set_stats_ok; [auto with nw|].
  - done.
Qed.

Record system_ok (s : System) : Prop := mk_system_ok { sy_ok : resolver_ok (sy_resolver s); sy_rows : rows_ok (sy_db s) }.

Lemma started_ok cfg lan bl o now db : rows_ok db -> system_ok (started cfg lan bl o now db).
Proof.
  intros Hdb. split; [|done]. unfold started. cbn [sy_resolver]. set (st0 := with_alerts _ _).
  assert (rtc (reg_step hash) st0 (fst (hydrate hash now (known_devices db) st0))) as Hst
    by (apply rtc_once; constructor; by apply known_devices_ok).
  split.
  - unfold new_resolver. cbn [r_cache new_lock lk_value new_cache]. split; unfold cache_len; simpl;
      [rewrite map_size_empty; lia|lia|apply map_Forall_empty].
  - unfold stats_ok. simpl. repeat constructor; done.
  - split; cbn [r_obs new_resolver sh_store sh_writer].
    + apply (reg_steps_ok hash _ _ Hst). apply new_store_ok.
    + apply (reg_steps_sink hash _ _ Hst). subst st0. cbn [with_alerts alert_sink]. unfold spawn.
      case_match; [done|]. intros k [= <-]. constructor.
    + apply new_writer_ok.
Qed.

Lemma write_ok w s : writer_ok w -> resolver_ok (sy_resolver s) -> resolver_ok (write w s).
Proof. intros Hw. apply set_obs_ok. by apply set_writer_ok. Qed.

Lemma recorder_step_ok s s' : recorder_step s s' -> system_ok s -> system_ok s'.
Proof.
  destruct 1 as [now ts text s st|connect ts route upstream s Hc|ts client delivered k s Hk p]; intros [Hs Hdb];
    pose proof (so_writer _ (re_shared _ Hs)) as Hw; (split; [|done]).
  - apply write_ok; [|done]. by apply throughput_tick_ok.
  - apply write_ok; [|done]. by apply latency_tick_ok.
  - destruct (drain_one_ok ts client delivered k (sy_writer s)) as [Hk' Hw'];
      [by apply (so_sink _ (re_shared _ Hs))|done|].
    cbn [sy_resolver]. apply set_obs_ok; [|by apply write_ok]. apply set_sink_ok. by intros k' [= <-].
Qed.

Lemma system_step_ok s s' : system_step s s' -> system_ok s -> system_ok s'.
Proof using Horder.
  destruct 1 as [r s Hr|s s' Hr|s|retention round s p|cfg lan bl o now s]; intros [Hs Hdb].
  - split; [|done]. by eapply daemon_step_ok.
  - by eapply recorder_step_ok.
  - split; [|done]. apply write_ok; [|done]. apply receive_ok, Hs.
  - destruct (writer_round_ok retention round (sy_writer s) (sy_db s)) as [Hw' Hdb'];
      [exact (so_writer _ (re_shared _ Hs))|done|].
    split; [|done]. by apply write_ok.
  - by apply started_ok.
Qed.

Lemma system_reachable_ok cfg lan bl o now s : rtc system_step (started cfg lan bl o now empty_db) s -> system_ok s.
Proof using Horder.
  intros Hs. pose proof (started_ok cfg lan bl o now empty_db empty_rows_ok) as H0'.
  revert H0'. induction Hs as [|a b c Hab _ IH]; [done|]. intros Ha. by apply IH, (system_step_ok a).
Qed.

(** C12. Whatever clients ask, upstreams answer and devices announce, in any
    interleaving of the tasks, the daemon's shared state stays within bounds and
    consistent: the cache never exceeds its capacity and no entry outlives its
    records, the write queue never exceeds its channel nor the writer's batch
    its 512 operations, and every device of the registry is filed under its
    own canonical MAC with a safe name. *)
Theorem daemon_stays_consistent cfg lan bl o now s :
  rtc system_step (started cfg lan bl o now empty_db) s ->
  let c := lk_value (r_cache (sy_resolver s)) in let d := sy_shared s in let i := lk_value (inner (sh_store d)) in
  cache_len c <= max_entries c /\ map_Forall (fun _ e => entry_ok e) (map_ c) /\
  Z.of_nat (length (w_queue (sh_writer d))) <= CHANNEL /\ (length (w_pending (sh_writer d)) <= BATCH)%nat /\
  map_Forall (fun mac d => dv_mac d = mac /\ canonical_mac mac /\ name_field_ok (dv_hostname d)) (by_mac i) /\
  map_Forall (fun _ n => hostname_ok n) (pending_names i).
Proof using Horder.
  intros [[[H1 _ H2] _ [[H3 _ H5] _ [H4 H6 _ _]]] _]%system_reachable_ok. split_and!; done.
Qed.

(** C13. Every row is well typed, beyond what the columns enforce, over any
    number of restarts: in the log, names are lower case, exactly the blocked
    ones carry a list, and a latency fits its column and is absent for what
    was answered at home; device rows have canonical MACs and safe names, one
    row per MAC and one device per address; alerts have one of the two kinds
    with its severity; no rate is negative and no latency NaN.  The counters
    shown on the dashboard stay unsigned 64-bit numbers. *)
Theorem rows_well_typed cfg lan bl o now s :
  rtc system_step (started cfg lan bl o now empty_db) s ->
  rows_ok (sy_db s) /\ Forall op_ok (backlog (sy_writer s)) /\
  drops_ok (w_dropped (sy_writer s)) /\ stats_ok (r_stats (sy_resolver s)).
Proof using Horder.
  intros [[_ H2 [_ _ [_ _ H3 H4]]] H5]%system_reachable_ok. split_and!; done.
Qed.
End Daemon.

(* ------------------------------------------------------------------ *)
(** ** Witness *)

Section Witness.
#[local] Existing Instance simple_hickory.
#[local] Existing Instance simple_codec.
#[local] Instance w_observer : QueryObserver Shared := shared_observer w_hash.

Definition w_lan_table : option (list ArpEntry) := Some [mk_arp (ipv4 192 168 1 20) w_mac "eth0"].
Definition w_boot0 : System := started w_hash default_config None w_block ∅ 0 empty_db.
(** A device is seen, asks for a blocked name, the writer takes both rows,
    and the program is started again. *)
Definition w_seen : Resolver.Resolver (S := Shared) :=
  set_obs (through (arp_tick w_hash (fun _ => mk_sight 0 0 0) None None w_lan_table)) (sy_resolver w_boot0).
Definition w_asked_once : Resolver.Resolver (S := Shared) := fst (prepare (w_clock 0) w_ads w_client w_seen).
Definition w_asked : System := mk_system w_asked_once ∅ empty_db.
Definition w_stored : System :=
  let p := writer_round 14 (mk_round 512 true None) (sy_writer w_asked) (sy_db w_asked) in
  mk_system (write (fst p) w_asked) ∅ (snd p).
Definition w_again : System := started w_hash default_config None w_block ∅ 0 (sy_db w_stored).

Lemma w_asked_reached : rtc (system_step w_hash Cache.w_order) w_boot0 w_asked.
Proof.
  eapply rtc_l; [apply (s_daemon w_hash Cache.w_order w_seen w_boot0), d_background, (d_arp w_hash (fun _ => mk_sight 0 0 0) None None w_lan_table)|].
  apply rtc_once. apply (s_daemon w_hash Cache.w_order w_asked_once (mk_system w_seen ∅ empty_db)).
  apply (d_prepare w_hash Cache.w_order (w_clock 0) w_ads w_client w_seen).
Qed.
Lemma w_again_reached : rtc (system_step w_hash Cache.w_order) w_boot0 w_again.
Proof.
  eapply rtc_r; [eapply rtc_r; [exact w_asked_reached|]|].
  - apply (s_writer w_hash Cache.w_order 14 (mk_round 512 true None) w_asked).
  - apply (s_restart w_hash Cache.w_order default_config None w_block ∅ 0 w_stored).
Qed.

Lemma daemon_stays_consistent_witness :
  let c := lk_value (r_cache w_asked_once) in let d := r_obs w_asked_once in
  cache_len c <= max_entries c /\ map_Forall (fun _ e => entry_ok e) (map_ c) /\
  Z.of_nat (length (w_queue (sh_writer d))) <= CHANNEL /\ (length (w_pending (sh_writer d)) <= BATCH)%nat /\
  map_Forall (fun mac d => dv_mac d = mac /\ canonical_mac mac /\ name_field_ok (dv_hostname d))
    (by_mac (lk_value (inner (sh_store d)))) /\
  map_Forall (fun _ n => hostname_ok n) (pending_names (lk_value (inner (sh_store d)))).
Proof.
  apply (daemon_stays_consistent w_hash Cache.w_order w_iterates default_config None w_block ∅ 0 w_asked), w_asked_reached.
Defined.

Lemma rows_well_typed_witness :
  length (t_queries (sy_db w_again)) = 1%nat /\ length (t_devices (sy_db w_again)) = 1%nat /\
  size (by_mac (lk_value (inner (sh_store (sy_shared w_again))))) = 1%nat /\
  rows_ok (sy_db w_again) /\ Forall op_ok (backlog (sy_writer w_again)) /\
  drops_ok (w_dropped (sy_writer w_again)) /\ stats_ok (r_stats (sy_resolver w_again)).
Proof.
  split; [reflexivity|]. split; [reflexivity|]. split; [reflexivity|].
  apply (rows_well_typed w_hash Cache.w_order w_iterates default_config None w_block ∅ 0 w_again), w_again_reached.
Defined.

(** The sighting and the blocked query both reach the write queue. *)
Example both_recorded :
  map op_kind (w_queue (sh_writer (r_obs w_asked_once))) = [1%nat; 0%nat].
Proof. vm_compute. reflexivity. Qed.
End Witness.
