(* ===== verification/Ledger.v ===== *)
(** * The books of the query log (src/dns/mod.rs, src/db.rs, src/main.rs together)

    [Daemon.v] with the requests in flight and a history of what was asked:
    what the query log holds, end to end, from the question on the wire to the
    row in the table, over time-outs, full queues, failed transactions and
    restarts.  Every question is in exactly one place, and every row of the
    log is a question somebody asked. *)
From S2P Require Import Prelude Str Addr Oui Netinfo Blocklist Config DnsMsg Cache Upstream Db Monitor Resolver Alerts Devices Discovery Rows Daemon.
Open Scope Z_scope.

(* ------------------------------------------------------------------ *)
(** ** Counting in 64 bits *)

Definition cong (a b : Z) : Prop := wrap 64 a = wrap 64 b.
Infix "≡₆₄" := cong (at level 70) : nw_scope.

#[export] Instance cong_equivalence : Equivalence cong.
Proof. unfold cong. split; [done|by intros ? ?|intros ? ? ? -> ->; done]. Qed.
#[export] Instance cong_add : Proper (cong ==> cong ==> cong) Z.add.
Proof. unfold cong, wrap. intros a a' Ha b b' Hb. by rewrite Zplus_mod, Ha, Hb, <-Zplus_mod. Qed.
Lemma wrap_cong a : wrap 64 a ≡₆₄ a.
Proof. unfold cong, wrap. apply Zmod_mod. Qed.
Lemma eq_cong a b : a = b -> a ≡₆₄ b.
Proof. by intros ->. Qed.

(* ------------------------------------------------------------------ *)
(** ** Who sends what *)

(** Sent since, and no query. *)
Abbreviation no_query := (fun op => op_kind op <> 0%nat).
Abbreviation quiet a b := (sends no_query (Some a) (Some b)).

Lemma quiet_offered a b : quiet a b -> offered_queries b ≡₆₄ offered_queries a.
Proof.
  intros (l & Hl & [= ->]). revert a. induction Hl as [|op l Hk _ IH]; intros a; [done|].
  change (send_all (op :: l) a) with (send_all l (send op a)). rewrite IH. unfold cong. rewrite send_offered.
  destruct (Nat.eqb_spec (op_kind op) 0); [done|]. by rewrite Z.add_0_r.
Qed.

Lemma throughput_quiet now ts text last w : quiet w (snd (throughput_tick now ts text (last, w))).
Proof.
  destruct (throughput_tick_sends now ts text (last, w)) as (l & E & _). cbn [snd] in E.
  exists (map OpIface l). split; [|by rewrite E]. apply List.Forall_map, List.Forall_forall. done.
Qed.
Lemma send_latency_quiet ts target ms w : quiet w (send_latency ts target ms w).
Proof. destruct ms; [by apply sends_one|done]. Qed.
Lemma latency_quiet connect ts route upstream w : quiet w (latency_tick connect ts route upstream w).
Proof. unfold latency_tick. etransitivity; [|apply send_latency_quiet]. case_match; [apply send_latency_quiet|done]. Qed.
Lemma drain_one_quiet ts client delivered k w : quiet w (snd (drain_one ts client delivered k w)).
Proof. unfold drain_one. case_match; [done|]. by apply sends_one. Qed.

Section Ledger.
Context `{Codec} (hash : option Z * option string * option string * bool -> Z).
Context (order : gmap Key Cache.Entry -> list (Key * Cache.Entry)).
#[local] Instance ledger_observer : QueryObserver Shared := shared_observer hash.
Abbreviation Resolver := (Resolver.Resolver (S := Shared)).
Abbreviation queue_of r := (sh_writer (r_obs (r : Resolver))).

(** What a step of the resolver sent. *)
Abbreviation sent P r r' := (sends P (Some (queue_of r)) (Some (queue_of r'))).

Lemma through_quiet f d : (forall s, rtc (reg_step hash) s (f s)) -> quiet (sh_writer d) (sh_writer (through f d)).
Proof. intros Hf. eapply sends_weaken; [|by apply (through_sends hash)]. by intros op [-> _]. Qed.

Lemma background_quiet r r' : background_step hash r r' -> sent no_query r r'.
Proof.
  destruct 1; try done.
  - unfold resolver_allows. by case_match.
  - unfold sweep_cache. by case_match.
  - unfold flush_cache. by case_match.
  - apply through_quiet. intros. apply arp_steps.
  - apply through_quiet. intros. apply dhcp_steps.
  - apply through_quiet. intros. apply mdns_steps.
  - apply through_quiet. intros. apply name_steps.
Qed.

Lemma background_timeouts r r' :
  background_step hash r r' -> request_timeouts (r_stats r') = request_timeouts (r_stats r).
Proof.
  destruct 1; try done.
  - unfold resolver_allows. by case_match.
  - unfold sweep_cache. by case_match.
  - unfold flush_cache. by case_match.
Qed.

(** ** A question and its event *)

Definition Asked : Type := string * SocketAddr.
Definition is_question (a : Asked) : bool := is_some (question_of (fst a)).

(** The event tells who asked for what. *)
Definition event_for (a : Asked) (e : QueryEvent) : Prop :=
  exists msg q, question_of (fst a) = Some (msg, q) /\
    ev_client_ip e = show_ip (sa_ip (snd a)) /\ ev_domain e = query_name q /\ ev_qtype e = show_rtype (query_type q).
Definition asked_for (history : list Asked) (op : WriteOp) : Prop :=
  match op with OpQuery e => exists a, a ∈ history /\ event_for a e | _ => True end.

Lemma asked_for_weaken l1 l2 op : l1 ⊆ l2 -> asked_for l1 op -> asked_for l2 op.
Proof. destruct op; simpl; try done. intros Hs (a & Ha & He). exists a. split; [by apply Hs|done]. Qed.
Lemma no_query_asked l op : op_kind op <> 0%nat -> asked_for l op.
Proof. by destruct op. Qed.

Lemma log_sent ck request client msg q st el an bl r :
  question_of request = Some (msg, q) ->
  sent (asked_for [(request, client)]) r
    (log ck (query_name q) (query_type q) (sa_ip client) st el an bl r).
Proof.
  intros Hq. unfold log. cbn [set_obs r_obs]. etransitivity.
  - eapply sends_weaken; [apply no_query_asked|].
    apply (through_quiet (touch_ip (ck_touch ck) (ck_touch_ts ck) (sa_ip client))). intros. apply touch_steps.
  - apply sends_one. exists (request, client). split; [by apply list_elem_of_singleton|]. by exists msg, q.
Qed.

Lemma cache_lookup_queue now key r : queue_of (fst (cache_lookup now key r)) = queue_of r.
Proof. unfold cache_lookup. by repeat case_match. Qed.
Lemma cache_store_queue ck key m r : queue_of (cache_store order ck key m r) = queue_of r.
Proof. unfold cache_store. by repeat case_match. Qed.

Lemma prepare_sent ck request client r : sent (asked_for [(request, client)]) r (fst (prepare ck request client r)).
Proof.
  destruct (prepare_cases request r) as [Hq|(msg & q & Hq & [[label Hv]|Hv])].
  - by rewrite prepare_other.
  - rewrite (prepare_home _ _ _ _ msg q label) by done. cbn [fst]. etransitivity; [|by eapply log_sent]. done.
  - rewrite (prepare_lookup _ _ _ _ msg q) by done.
    pose proof (cache_lookup_queue (ck_lookup ck) (from_request msg (query_name q)) (set_stats add_total r)) as Hl.
    destruct (snd _) as [hit|]; cbn [fst].
    + etransitivity; [|by eapply log_sent]. cbn [set_stats r_obs]. by rewrite Hl.
    + by rewrite Hl.
Qed.

Lemma finish_sent ck request client msg q key t res r :
  question_of request = Some (msg, q) ->
  sent (asked_for [(request, client)]) r (fst (finish order ck client msg q key t res r)).
Proof.
  intros Hq. unfold finish. destruct res as [raw|e]; [destruct (from_vec raw) as [m|]|]; cbn [fst].
  - etransitivity; [|by eapply log_sent]. cbn [set_obs r_obs].
    etransitivity; [|eapply sends_weaken; [apply no_query_asked|]; apply (through_quiet (learn_from_dns hash (ck_learn ck) (ck_learn_ts ck) m)); intros; apply learn_steps].
    by rewrite cache_store_queue.
  - by eapply log_sent.
  - etransitivity; [|by eapply log_sent]. done.
Qed.

(* ------------------------------------------------------------------ *)
(** ** Runs, with their history *)

(** A request waiting for its upstreams. *)
Record Flight : Type := mk_flight {
  fl_asked : Asked; fl_msg : Message; fl_query : Question; fl_key : option Key }.

(** A running system, the requests in flight, what was asked so far (newest
    first), and how many questions were lost: with a transaction that failed,
    with the state of the program when it stopped, or with a task that was
    dropped while it waited for its upstreams. *)
Record Run : Type := mk_run {
  rn_sys : System; rn_flights : list Flight; rn_asked : list Asked; rn_failed : Z; rn_stopped : Z; rn_cut : Z }.

Abbreviation queue_now R := (sy_writer (rn_sys R)).
Definition waiting (R : Run) : Z := of_kind 0 (backlog (queue_now R)).
Definition dropped (R : Run) : Z := d_queries (w_dropped (queue_now R)).
Definition timed_out (R : Run) : Z := request_timeouts (r_stats (sy_resolver (rn_sys R))).
(** Rows ever inserted: the next identifier of the table, from one. *)
Definition stored (R : Run) : Z := next_query (sy_db (rn_sys R)) - 1.
Definition in_flight (R : Run) : Z := Z.of_nat (length (rn_flights R)).
Definition questions (R : Run) : Z := Z.of_nat (length (List.filter is_question (rn_asked R))).

(** The operations a round of the writer writes. *)
Definition taken (round : Round) (w : Writer) : list WriteOp := w_pending (gathered round w).

Definition with_resolver (r : Resolver) (R : Run) : System := mk_system r (sy_last (rn_sys R)) (sy_db (rn_sys R)).
Definition with_flights (l : list Flight) (r : Resolver) (R : Run) : Run :=
  mk_run (with_resolver r R) l (rn_asked R) (rn_failed R) (rn_stopped R) (rn_cut R).
Definition with_system (s : System) (R : Run) : Run :=
  mk_run s (rn_flights R) (rn_asked R) (rn_failed R) (rn_stopped R) (rn_cut R).

(** A request is read and runs up to the network; one in flight is answered
    or fails, or runs out of time, or is dropped with the task it runs in (a
    TCP session at its limit of thirty seconds, or one that panicked), which
    leaves no event and no count; another task has its turn; the writer takes
    an operation, or writes its batch; the program is stopped and started
    again. *)
Inductive run_step : Run -> Run -> Prop :=
  | u_ask ck request client R :
      let p := prepare ck request client (sy_resolver (rn_sys R)) in
      run_step R (mk_run (with_resolver (fst p) R)
        (match snd p with
         | MustForward msg q key => mk_flight (request, client) msg q key :: rn_flights R
         | Reply _ => rn_flights R
         end) ((request, client) :: rn_asked R) (rn_failed R) (rn_stopped R) (rn_cut R))
  | u_answer ck f l1 l2 t res R : 0 <= t -> rn_flights R = l1 ++ f :: l2 ->
      run_step R (with_flights (l1 ++ l2)
        (fst (finish order ck (snd (fl_asked f)) (fl_msg f) (fl_query f) (fl_key f) t res (sy_resolver (rn_sys R)))) R)
  | u_time_out f l1 l2 R : rn_flights R = l1 ++ f :: l2 ->
      run_step R (with_flights (l1 ++ l2) (fst (budget_spent (fst (fl_asked f)) (sy_resolver (rn_sys R)))) R)
  | u_cut f l1 l2 R : rn_flights R = l1 ++ f :: l2 ->
      run_step R (mk_run (rn_sys R) (l1 ++ l2) (rn_asked R) (rn_failed R) (rn_stopped R) (rn_cut R + 1))
  | u_background r R : background_step hash (sy_resolver (rn_sys R)) r ->
      run_step R (with_flights (rn_flights R) r R)
  | u_recorder s R : recorder_step (rn_sys R) s -> run_step R (with_system s R)
  | u_receive R : run_step R (with_flights (rn_flights R) (write (receive (queue_now R)) (rn_sys R)) R)
  | u_writer retention round R :
      let p := writer_round retention round (queue_now R) (sy_db (rn_sys R)) in
      run_step R (mk_run (mk_system (write (fst p) (rn_sys R)) (sy_last (rn_sys R)) (snd p)) (rn_flights R) (rn_asked R)
        (rn_failed R + if rd_commits round then 0 else of_kind 0 (taken round (queue_now R))) (rn_stopped R) (rn_cut R))
  | u_restart cfg lan bl o now R :
      run_step R (mk_run (started hash cfg lan bl o now (sy_db (rn_sys R))) [] (rn_asked R) (rn_failed R)
        (rn_stopped R + in_flight R + waiting R + dropped R + timed_out R) (rn_cut R)).

Definition first_run (s : System) : Run := mk_run s [] [] 0 0 0.

(** A run is a run of the system of [Daemon.v]. *)
Lemma run_step_system R R' : run_step R R' -> rtc (system_step hash order) (rn_sys R) (rn_sys R').
Proof.
  destruct 1 as [ck request client R p|ck f l1 l2 t res R Ht _|f l1 l2 R _|f l1 l2 R _|r R Hr|s R Hr|R|retention round R p|cfg lan bl o now R];
    (apply rtc_once || done).
  - apply s_daemon, d_prepare.
  - by apply s_daemon, d_finish.
  - apply s_daemon, d_budget_spent.
  - replace (rn_sys R) with (with_resolver (sy_resolver (rn_sys R)) R) at 2 by (unfold with_resolver; by destruct (rn_sys R)).
    apply s_daemon, d_dropped.
  - by apply s_daemon, d_background.
  - by apply s_recorder.
  - apply s_receive.
  - apply s_writer.
  - apply s_restart.
Qed.

(* ------------------------------------------------------------------ *)
(** ** The books balance *)

Definition balance (R : Run) : Z :=
  stored R + waiting R + dropped R + timed_out R + in_flight R + rn_failed R + rn_stopped R + rn_cut R.

(** What one place of the books says of the resolver alone. *)
Lemma accounted_cong (r : Resolver) : accounted r ≡₆₄ offered_queries (queue_of r) + request_timeouts (r_stats r).
Proof. unfold accounted. cbn [offered ledger_observer shared_observer]. by rewrite !wrap_cong. Qed.

Lemma balance_accounted R :
  balance R ≡₆₄ accounted (sy_resolver (rn_sys R)) + (stored R + in_flight R + rn_failed R + rn_stopped R + rn_cut R).
Proof.
  rewrite accounted_cong. apply eq_cong. unfold balance, offered_queries, waiting, dropped, timed_out, sy_writer, sy_shared. lia.
Qed.

Lemma quiet_accounted (r r' : Resolver) :
  sent no_query r r' -> request_timeouts (r_stats r') = request_timeouts (r_stats r) -> accounted r' ≡₆₄ accounted r.
Proof. intros Hs Ht. by rewrite !accounted_cong, Ht, (quiet_offered _ _ Hs). Qed.

Lemma recorder_same s s' :
  recorder_step s s' ->
  accounted (sy_resolver s') ≡₆₄ accounted (sy_resolver s) /\ sy_db s' = sy_db s /\
  quiet (sy_writer s) (sy_writer s').
Proof.
  destruct 1 as [now ts text s st|connect ts route upstream s Hc|ts client delivered k s Hk p];
    (split_and!; [|done|]).
  - apply quiet_accounted; [|done]. apply throughput_quiet.
  - apply throughput_quiet.
  - apply quiet_accounted; [|done]. apply latency_quiet.
  - apply latency_quiet.
  - apply quiet_accounted; [|done]. apply drain_one_quiet.
  - apply drain_one_quiet.
Qed.

Lemma flush_next c ops db :
  next_query (flush c ops db) = next_query db + if c then of_kind 0 ops else 0.
Proof.
  destruct c; [|simpl; lia]. unfold flush. revert db. induction ops as [|op ops IH]; intros db; simpl; [unfold of_kind; simpl; lia|].
  rewrite IH, of_kind_cons. destruct op; simpl; lia.
Qed.

Lemma writer_round_books retention round w db :
  let p := writer_round retention round w db in
  offered_queries (fst p) = offered_queries w - of_kind 0 (taken round w) /\
  next_query (snd p) = next_query db + (if rd_commits round then of_kind 0 (taken round w) else 0).
Proof.
  unfold taken, offered_queries. destruct (writer_round_spec retention round w db) as (-> & -> & -> & Hs).
  split; [rewrite of_kind_app; lia|]. cbn zeta. rewrite Hs. destruct (w_pending (gathered round w)) as [|op l].
  - unfold of_kind. simpl. case_match; lia.
  - unfold written_batch. rewrite <-flush_next. destruct (rd_prune round) as [p|]; [|done].
    by apply (prune_inv (fun d => next_query d = next_query _)).
Qed.

(** ** Each step keeps the balance *)

Lemma balance_step R R' : run_step R R' -> balance R' - questions R' ≡₆₄ balance R - questions R.
Proof.
  unfold Z.sub. intros Hs. rewrite !balance_accounted.
  destruct Hs as [ck request client R p|ck f l1 l2 t res R Ht E|f l1 l2 R E|f l1 l2 R E|r R Hr|s R Hr|R|retention round R p|cfg lan bl o now R].
  - destruct (prepare ck request client _) as [r out] eqn:Hp. subst p. cbn [fst snd].
    pose proof (accounted_prepare _ _ _ _ _ _ Hp) as Ha.
    unfold stored, in_flight, questions. cbn [rn_sys rn_asked rn_flights rn_failed rn_stopped rn_cut with_resolver sy_resolver sy_db List.filter].
    rewrite Ha, wrap_cong. apply eq_cong. unfold is_question at 1. cbn [fst].
    destruct out as [o|msg q key].
    + destruct (question_of request); cbn [is_some length]; lia.
    + pose proof (prepare_out _ _ _ _ _ _ Hp) as (_ & (Hq & _ & _) & _). rewrite Hq. cbn [is_some length]. lia.
  - unfold stored, in_flight, questions. rewrite E.
    cbn [with_flights rn_sys rn_asked rn_flights rn_failed rn_stopped rn_cut with_resolver sy_resolver sy_db].
    rewrite accounted_finish, wrap_cong. apply eq_cong. rewrite !length_app. simpl. lia.
  - unfold stored, in_flight, questions. rewrite E.
    cbn [with_flights rn_sys rn_asked rn_flights rn_failed rn_stopped rn_cut with_resolver sy_resolver sy_db budget_spent fst].
    rewrite accounted_timeout, wrap_cong. apply eq_cong. rewrite !length_app. simpl. lia.
  - unfold stored, in_flight, questions. rewrite E.
    cbn [rn_sys rn_asked rn_flights rn_failed rn_stopped rn_cut]. apply eq_cong. rewrite !length_app. simpl. lia.
  - unfold stored, in_flight, questions.
    cbn [with_flights rn_sys rn_asked rn_flights rn_failed rn_stopped rn_cut with_resolver sy_resolver sy_db].
    by rewrite (quiet_accounted _ _ (background_quiet _ _ Hr) (background_timeouts _ _ Hr)).
  - destruct (recorder_same _ _ Hr) as (Ha & Hdb & _). unfold stored, in_flight, questions.
    cbn [with_system rn_sys rn_asked rn_flights rn_failed rn_stopped rn_cut]. by rewrite Hdb, Ha.
  - rewrite !accounted_cong. cbn [with_flights rn_sys with_resolver sy_resolver write set_obs r_obs r_stats set_writer sh_writer].
    unfold offered_queries. by rewrite receive_backlog, receive_dropped.
  - destruct (writer_round_books retention round (queue_now R) (sy_db (rn_sys R))) as [Ho Hn].
    subst p. unfold stored, in_flight, questions.
    cbn [rn_sys rn_asked rn_flights rn_failed rn_stopped rn_cut sy_resolver sy_db fst snd].
    rewrite !accounted_cong, Hn. cbn [write set_obs r_obs r_stats set_writer sh_writer]. rewrite Ho.
    apply eq_cong. unfold sy_writer, sy_shared. case_match; lia.
  - unfold stored, in_flight, questions, waiting, dropped, timed_out, sy_writer, sy_shared.
    cbn [rn_sys rn_asked rn_flights rn_failed rn_stopped rn_cut].
    rewrite !accounted_cong. unfold offered_queries.
    apply eq_cong. cbn [started sy_resolver sy_db new_resolver r_obs r_stats sh_writer new_writer w_queue w_dropped no_drops d_queries default_stats request_timeouts length].
    unfold of_kind at 1. simpl. unfold in_flight, waiting, dropped, timed_out, sy_writer, sy_shared. lia.
Qed.

(** ** Every query in the queue or the table was asked *)

Lemma sends_queue P a b : sends P (Some a) (Some b) -> Forall P (backlog a) -> Forall P (backlog b).
Proof.
  intros (l & Hl & [= ->]). revert a. induction Hl as [|op l Ho _ IH]; intros a Ha; [done|].
  apply (IH (send op a)). rewrite send_backlog. apply Forall_app. split; [done|].
  case_match; [by apply Forall_singleton|constructor].
Qed.

Lemma flush_rows P c ops db :
  Forall P ops -> Forall (fun q => P (OpQuery (q_event q))) (t_queries db) ->
  Forall (fun q => P (OpQuery (q_event q))) (t_queries (flush c ops db)).
Proof.
  destruct c; [|done]. unfold flush. intros Ho. revert db. induction Ho as [|op ops Hop _ IH]; intros db Hdb; [done|].
  apply IH. destruct op; try done. apply Forall_app. split; [done|by apply Forall_singleton].
Qed.

Lemma prune_log P p days db : Forall P (t_queries db) -> Forall P (t_queries (prune p days db)).
Proof. apply (prune_inv (fun d => Forall P (t_queries d))); try done. intros. by apply Forall_list_filter. Qed.

Lemma writer_round_rows P retention round w db :
  Forall P (backlog w) -> Forall (fun q => P (OpQuery (q_event q))) (t_queries db) ->
  let p := writer_round retention round w db in
  Forall P (backlog (fst p)) /\ Forall (fun q => P (OpQuery (q_event q))) (t_queries (snd p)).
Proof.
  intros Hw Hdb p. destruct (writer_round_spec retention round w db) as (Happ & Hrest & _ & Hs).
  fold p in Hrest, Hs. rewrite Happ in Hw. apply Forall_app in Hw as [Hb Hr]. split; [by rewrite Hrest|]. rewrite Hs.
  destruct (w_pending (gathered round w)) as [|op l]; [done|]. unfold written_batch.
  destruct (rd_prune round); [apply prune_log|]; by apply flush_rows.
Qed.

Definition flight_ok (history : list Asked) (f : Flight) : Prop :=
  fl_asked f ∈ history /\ question_of (fst (fl_asked f)) = Some (fl_msg f, fl_query f).
Record asked_ok (R : Run) : Prop := mk_asked_ok {
  ak_queue : Forall (asked_for (rn_asked R)) (backlog (queue_now R));
  ak_rows : Forall (fun q => asked_for (rn_asked R) (OpQuery (q_event q))) (t_queries (sy_db (rn_sys R)));
  ak_flights : Forall (flight_ok (rn_asked R)) (rn_flights R) }.

Lemma asked_ok_step R R' : run_step R R' -> asked_ok R -> asked_ok R'.
Proof.
  destruct 1 as [ck request client R p|ck f l1 l2 t res R Ht E|f l1 l2 R E|f l1 l2 R E|r R Hr|s R Hr|R|retention round R p|cfg lan bl o now R];
    intros [H1 H2 H3].
  - assert (rn_asked R ⊆ (request, client) :: rn_asked R) as Hsub by (intros a; by right).
    subst p. split; cbn [rn_sys rn_asked rn_flights with_resolver sy_db].
    + eapply sends_queue.
      * eapply sends_weaken; [|apply prepare_sent]. intros op. apply asked_for_weaken. intros a ->%list_elem_of_singleton. by left.
      * eapply Forall_impl; [exact H1|]. intros op. by apply asked_for_weaken.
    + eapply Forall_impl; [exact H2|]. intros q. by apply asked_for_weaken.
    + assert (Forall (flight_ok ((request, client) :: rn_asked R)) (rn_flights R)) as H3'.
      { eapply Forall_impl; [exact H3|]. intros f [Hf ?]. split; [by right|done]. }
      destruct (prepare ck request client _) as [r out] eqn:Hp. cbn [snd]. destruct out as [o|msg q key]; [done|].
      constructor; [|done]. split; [by left|]. by apply prepare_out in Hp as (_ & (? & _ & _) & _).
  - rewrite E in H3. apply Forall_app in H3 as [Ha [Hf Hb]%Forall_cons].
    split; cbn [with_flights rn_sys rn_asked rn_flights with_resolver sy_db]; [|done|by apply Forall_app].
    destruct f as [[request client] msg q key], Hf as [Hin Hq]. cbn [fl_asked fl_msg fl_query fl_key fst snd] in *.
    eapply sends_queue; [|exact H1]. eapply sends_weaken; [|eapply finish_sent; exact Hq].
    intros op. apply asked_for_weaken. by intros a ->%list_elem_of_singleton.
  - rewrite E in H3. apply Forall_app in H3 as [Ha [Hf Hb]%Forall_cons].
    split; cbn [with_flights rn_sys rn_asked rn_flights with_resolver sy_db]; [done|done|by apply Forall_app].
  - rewrite E in H3. apply Forall_app in H3 as [Ha [Hf Hb]%Forall_cons].
    split; cbn [rn_sys rn_asked rn_flights]; [done|done|by apply Forall_app].
  - split; [|done|done]. eapply sends_queue; [|exact H1]. eapply sends_weaken; [apply no_query_asked|by eapply background_quiet].
  - destruct (recorder_same _ _ Hr) as (_ & Hdb & Hq). split; cbn [with_system rn_sys rn_asked rn_flights]; [|by rewrite Hdb|done].
    eapply sends_queue; [|exact H1]. eapply sends_weaken; [apply no_query_asked|exact Hq].
  - split; [|done|done]. cbn [with_flights rn_sys with_resolver sy_writer sy_shared sy_resolver write set_obs r_obs set_writer sh_writer].
    unfold sy_writer, sy_shared. cbn [sy_resolver set_obs r_obs set_writer sh_writer]. by rewrite receive_backlog.
  - destruct (writer_round_rows (asked_for (rn_asked R)) retention round _ _ H1 H2). by split.
  - by split; [constructor| |constructor].
Qed.

(** ** Over whole runs *)

Lemma balance_run a R : rtc run_step a R -> balance R - questions R ≡₆₄ balance a - questions a.
Proof. induction 1 as [|a b c Hab _ IH]; [done|]. etransitivity; [exact IH|by apply balance_step]. Qed.
Lemma run_system a R : rtc run_step a R -> rtc (system_step hash order) (rn_sys a) (rn_sys R).
Proof. induction 1 as [|a b c Hab _ IH]; [done|]. etransitivity; [by apply run_step_system|exact IH]. Qed.
Lemma asked_ok_run a R : rtc run_step a R -> asked_ok a -> asked_ok R.
Proof. induction 1 as [|a b c Hab _ IH]; [done|]. intros Ha. by eapply IH, asked_ok_step. Qed.

(** ** Properties *)

Definition first_start cfg lan bl o now : Run := first_run (started hash cfg lan bl o now empty_db).

(** C14. No question is lost without trace.  Whatever the tasks do, in any
    interleaving and over any number of restarts, the questions asked are
    exactly those in one of these places: a row ever written to the query log,
    the write queue or the writer's batch, the count of queue overflows, the
    count of time-outs, the requests in flight, those dropped with the task
    that waited for their upstreams (a TCP session cut at its limit: they leave
    no event and no counter), the batches whose transaction failed, and what a
    stop of the program lost; counted in the program's 64 bits.  And every
    run is one of the system of which the other properties speak. *)
Theorem questions_in_the_books cfg lan bl o now R :
  rtc run_step (first_start cfg lan bl o now) R ->
  wrap 64 (questions R) =
    wrap 64 (stored R + waiting R + dropped R + timed_out R + in_flight R + rn_failed R + rn_stopped R + rn_cut R) /\
  rtc (system_step hash order) (started hash cfg lan bl o now empty_db) (rn_sys R).
Proof.
  intros Hs. pose proof (balance_run _ _ Hs) as Hb. change (balance (first_start cfg lan bl o now) - _) with 0 in Hb.
  split; [|exact (run_system _ _ Hs)].
  change (questions R ≡₆₄ balance R). symmetry.
  transitivity (balance R - questions R + questions R); [apply eq_cong; lia|]. by rewrite Hb.
Qed.

(** C15. The query log tells the truth about who asked what: every row in the
    table, after any number of restarts, and every one still in the queue,
    carries the name, the type and the client of a request that was read. *)
Theorem log_is_what_was_asked cfg lan bl o now R :
  rtc run_step (first_start cfg lan bl o now) R ->
  Forall (fun row => exists a, a ∈ rn_asked R /\ event_for a (q_event row)) (t_queries (sy_db (rn_sys R))) /\
  Forall (asked_for (rn_asked R)) (backlog (queue_now R)).
Proof.
  intros Hs. destruct (asked_ok_run _ _ Hs) as [H1 H2 _]; [by split; constructor|by split].
Qed.
End Ledger.

(* ------------------------------------------------------------------ *)
(** ** Witness *)

Section Witness.
#[local] Existing Instance simple_hickory.
#[local] Existing Instance simple_codec.
#[local] Instance w_ledger_observer : QueryObserver Shared := shared_observer w_hash.

(** A blocked name is asked and written to the log; of two that wait for
    their upstreams one is dropped with its TCP session and one is there when
    the program is stopped and started again. *)
Definition w_start : Run := first_start w_hash default_config None w_block ∅ 0.
Definition w_ask (request : string) (R : Run) : Run :=
  let p := prepare (w_clock 0) request w_client (sy_resolver (rn_sys R)) in
  mk_run (with_resolver (fst p) R)
    (match snd p with
     | MustForward msg q key => mk_flight (request, w_client) msg q key :: rn_flights R
     | Reply _ => rn_flights R
     end) ((request, w_client) :: rn_asked R) (rn_failed R) (rn_stopped R) (rn_cut R).
Definition w_write (R : Run) : Run :=
  let rd := mk_round 512 true None in
  let p := writer_round 14 rd (sy_writer (rn_sys R)) (sy_db (rn_sys R)) in
  mk_run (mk_system (write (fst p) (rn_sys R)) (sy_last (rn_sys R)) (snd p)) (rn_flights R) (rn_asked R)
    (rn_failed R + if rd_commits rd then 0 else of_kind 0 (taken rd (sy_writer (rn_sys R)))) (rn_stopped R) (rn_cut R).
Definition w_hang_up (R : Run) : Run :=
  mk_run (rn_sys R) (tail (rn_flights R)) (rn_asked R) (rn_failed R) (rn_stopped R) (rn_cut R + 1).
Definition w_flying : Run := w_ask w_request (w_write (w_ask w_ads w_start)).
Definition w_waiting : Run := w_ask w_request (w_hang_up w_flying).
Definition w_restarted : Run :=
  mk_run (started w_hash default_config None w_block ∅ 0 (sy_db (rn_sys w_waiting))) [] (rn_asked w_waiting) (rn_failed w_waiting)
    (rn_stopped w_waiting + in_flight w_waiting + waiting w_waiting + dropped w_waiting + timed_out w_waiting) (rn_cut w_waiting).

Lemma w_restarted_reached : rtc (run_step w_hash Cache.w_order) w_start w_restarted.
Proof.
  eapply rtc_l; [exact (u_ask w_hash Cache.w_order (w_clock 0) w_ads w_client w_start)|].
  eapply rtc_l; [exact (u_writer w_hash Cache.w_order 14 (mk_round 512 true None) (w_ask w_ads w_start))|].
  eapply rtc_l; [exact (u_ask w_hash Cache.w_order (w_clock 0) w_request w_client (w_write (w_ask w_ads w_start)))|].
  assert (exists f, rn_flights w_flying = [] ++ f :: []) as [f Hf] by (eexists; vm_compute; reflexivity).
  eapply rtc_l; [exact (u_cut w_hash Cache.w_order f [] [] w_flying Hf)|].
  eapply rtc_l; [exact (u_ask w_hash Cache.w_order (w_clock 0) w_request w_client (w_hang_up w_flying))|].
  apply rtc_once. exact (u_restart w_hash Cache.w_order default_config None w_block ∅ 0 w_waiting).
Qed.

(** Three questions: one row, one cut with its session and one lost with the
    restart. *)
Lemma questions_in_the_books_witness :
  questions w_restarted = 3 /\ stored w_restarted = 1 /\ rn_cut w_restarted = 1 /\ rn_stopped w_restarted = 1 /\
  wrap 64 (questions w_restarted) =
    wrap 64 (stored w_restarted + waiting w_restarted + dropped w_restarted + timed_out w_restarted
             + in_flight w_restarted + rn_failed w_restarted + rn_stopped w_restarted + rn_cut w_restarted).
Proof.
  split; [reflexivity|]. split; [reflexivity|]. split; [reflexivity|]. split; [reflexivity|].
  apply (questions_in_the_books w_hash Cache.w_order default_config None w_block ∅ 0 w_restarted), w_restarted_reached.
Defined.

Lemma log_is_what_was_asked_witness :
  length (t_queries (sy_db (rn_sys w_restarted))) = 1%nat /\
  Forall (fun row => exists a, a ∈ rn_asked w_restarted /\ event_for a (q_event row)) (t_queries (sy_db (rn_sys w_restarted))).
Proof.
  split; [reflexivity|].
  apply (log_is_what_was_asked w_hash Cache.w_order default_config None w_block ∅ 0 w_restarted), w_restarted_reached.
Defined.
End Witness.
