(* ===== verification/Boot.v ===== *)
(** * The start of the program, and what it starts (src/main.rs: [main])

    [Startup.v] has the command line and the configuration.  Here is the
    rest of [main]: the modes that exit, the storage, the first download of
    the lists, the registry, the resolver, and the tasks that are spawned
    with their addresses and periods.  What the file system, SQLite, the
    network and the clocks do is an argument. *)
From S2P Require Import Prelude Str Addr Acl Blocklist Config Startup Lists Oui Netinfo DnsMsg Cache Upstream Db Storage Alerts Devices Discovery Rows Resolver Daemon.
Open Scope Z_scope.

Record Args : Type := mk_args {
  ar_cli : Cli; no_fetch : bool; print_config : bool; check_only : bool; rebuild_db : bool }.

(* ------------------------------------------------------------------ *)
(** ** Tasks *)

Inductive Task : Type :=
  | ServeUdp (listen : SocketAddr)
  | ServeTcp (listen : SocketAddr)
  | CacheSweeper
  | AlertDrain
  | StormWatcher (window_mins threshold : Z) (every : Duration)
  | ArpPoller (every : Duration) (subnet : option Subnet) (iface : option string)
  | MdnsListener
  | DhcpListener
  | SubnetSweeper (subnet : Subnet) (every : Duration)
  | ReverseDns (upstream : SocketAddr) (gateway : option Z)
  | ThroughputSampler (every : Duration)
  | LatencySampler (upstream : SocketAddr) (every : Duration)
  | RefreshLists (every : Duration)
  | Dashboard (listen : SocketAddr).

Definition dns_listeners (cfg : Config) : list SocketAddr :=
  dns_listen (dns cfg) :: match dns_listen_v6 (dns cfg) with Some a => [a] | None => [] end.

(** A [Vec] indexed at 0: [None] is the panic. *)
Definition first_upstream (cfg : Config) : option SocketAddr := head (upstreams (dns cfg)).

Definition udp_tasks (cfg : Config) : list Task := map ServeUdp (dns_listeners cfg).
Definition tcp_tasks (cfg : Config) : list Task := if enable_tcp (dns cfg) then map ServeTcp (dns_listeners cfg) else [].
Definition alert_tasks (cfg : Config) (alerting : bool) : list Task :=
  if alerting then
    AlertDrain ::
    (if cfg_nxdomain_storm (alerts cfg) then
       [StormWatcher (nxdomain_window_mins (alerts cfg)) (nxdomain_threshold (alerts cfg))
          (from_secs (Z.max (scan_interval_secs (alerts cfg)) 30))]
     else [])
  else [].
Definition discovery_tasks (cfg : Config) (route : option DefaultRoute) (subnet : option Subnet) : list Task :=
  let d := discovery cfg in
  (if disc_arp d then
     [ArpPoller (from_secs (Z.max (arp_interval_secs d) 5)) subnet (match route with Some r => Some (rt_iface r) | None => None end)]
   else []) ++
  (if disc_mdns d then [MdnsListener] else []) ++
  (if disc_dhcp d then [DhcpListener] else []) ++
  (match subnet with
   | Some s => if disc_sweep d then [SubnetSweeper s (from_secs (Z.max (sweep_interval_secs d) 30))] else []
   | None => []
   end).
Definition refresh_tasks (cfg : Config) : list Task :=
  if blocking_enabled (blocking cfg) && (0 <? refresh_hours (blocking cfg))
  then [RefreshLists (from_secs (wrap 64 (refresh_hours (blocking cfg) * 3600)))] else [].
(** The web server, on the state the handlers share. *)
Definition dashboard_tasks (cfg : Config) : list Task := [Dashboard (web_listen (web cfg))].

(** What [main] spawns, in order; [None] is the panic of [upstreams[0]]. *)
Definition tasks (cfg : Config) (alerting : bool) (route : option DefaultRoute) (subnet : option Subnet)
    : option (list Task) :=
  let! reverse := if reverse_dns (discovery cfg) then
                    let! u := first_upstream cfg in
                    Some [ReverseDns u (match route with Some r => Some (gateway r) | None => None end)]
                  else Some [] in
  let! u := first_upstream cfg in
  Some (udp_tasks cfg ++ tcp_tasks cfg ++ [CacheSweeper] ++ alert_tasks cfg alerting
        ++ discovery_tasks cfg route subnet ++ reverse
        ++ [ThroughputSampler (from_secs 10); LatencySampler u (from_secs 60)]
        ++ refresh_tasks cfg ++ dashboard_tasks cfg).

(** The period of a task that ticks. *)
Definition period (t : Task) : option Duration :=
  match t with
  | StormWatcher _ _ d | ArpPoller d _ _ | SubnetSweeper _ d | ThroughputSampler d | LatencySampler _ d | RefreshLists d => Some d
  | _ => None
  end.

(* ------------------------------------------------------------------ *)
(** ** Lists, network, devices *)

Definition have_cache (cfg : Config) (fs : Files) : bool :=
  forallb (fun u => path_exists fs (cached_list_path cfg u)) (block_sources (blocking cfg)).

(** The download before the first start. *)
Definition first_run (skip : bool) (cfg : Config) (pid : Z) (dir_ok client_ok : bool) (env : nat -> FetchEnv)
    (w : World) (h : HealthMap) : World * HealthMap :=
  if blocking_enabled (blocking cfg) && negb skip && negb (have_cache cfg (files w))
  then let '(w, h, _) := refresh_sources cfg pid dir_ok client_ok env w h in (w, h)
  else (w, h).

Definition oui_database (cfg : Config) (read : string -> option string) : OuiDb :=
  match oui_file (discovery cfg) with
  | Some path => fst (load_ieee_csv Oui.new (read path))
  | None => Oui.new
  end.

(** The subnet to work on: configured, or that of the default route. *)
Definition lan (cfg : Config) (route_text : option string) (route : option DefaultRoute)
    : result CidrError (option Subnet) :=
  match disc_subnet (discovery cfg) with
  | Some s => let? n := parse_cidr s in Ok (Some n)
  | None => Ok (let! r := route in lan_subnet route_text (rt_iface r))
  end.

(* ------------------------------------------------------------------ *)
(** ** The whole start *)

Inductive StartError : Type :=
  | NotLoaded (e : LoadError) | NotPrintable | StateDir | NoStorage (e : StorageError) | BadSubnet (e : CidrError).

Section Boot.
Context `{Codec} `{Sqlite} (hash : option Z * option string * option string * bool -> Z).

Record Running : Type := mk_running {
  ru_cfg : Config;
  ru_world : World;
  ru_health : HealthMap;
  ru_alerts : option AlertSink;
  ru_subnet : option Subnet;
  ru_resolver : Resolver.Resolver (S := Shared);
  ru_tasks : list Task }.
Inductive Start : Type := Exit (code : Z) | Fails (e : StartError) | Panics | Runs (r : Running).

(** What the world does during a start. *)
Record BootEnv : Type := mk_boot_env {
  be_exists : bool;
  be_loaded : result LoadError Config;
  be_rebuild : option Z * option Conn * bool * option Z;
  be_printable : bool;
  be_state_dir : bool;
  be_parent : option string;
  be_mkdir : string -> bool;
  be_connect : bool -> option Conn;
  be_timeout : bool -> bool;
  be_world : World;
  be_pid : Z; be_dir_ok : bool; be_client_ok : bool; be_fetch : nat -> FetchEnv;
  be_read : string -> option string;
  be_known : option (list KnownDevice);
  be_now : Instant;
  be_route_text : option string }.

Definition exit_of {A} (r : result StorageError A) : Z := match r with Ok _ => 0 | Err _ => 1 end.

(** The registry as [main] fills it before any discovery runs. *)
Definition registry (cfg : Config) (env : BootEnv) (sink : option AlertSink) : Store :=
  let store := with_alerts (new_store (oui_database cfg (be_read env)) new_writer) sink in
  match be_known env with Some rows => fst (hydrate hash (be_now env) rows store) | None => store end.

(** From the storage on. *)
Definition run (args : Args) (env : BootEnv) (cfg : Config) : Start :=
  let '(w, h) := first_run (no_fetch args) cfg (be_pid env) (be_dir_ok env) (be_client_ok env) (be_fetch env)
                   (be_world env) (new_health cfg) in
  let blocklist := new_lock (build cfg (files w)) in
  let sink := spawn (alerts cfg) in
  let store := registry cfg env sink in
  let route := default_route (be_route_text env) in
  match lan cfg (be_route_text env) route with
  | Err e => Fails (BadSubnet e)
  | Ok subnet =>
      let resolver := new_resolver cfg subnet blocklist (mk_shared store new_writer) in
      match tasks cfg (is_some sink) route subnet with
      | None => Panics
      | Some ts => Runs (mk_running cfg w h sink subnet resolver ts)
      end
  end.

Definition main (args : Args) (env : BootEnv) : Start :=
  if check_only args then Exit (exit_code (check_config (ar_cli args) (be_exists env) (be_loaded env)))
  else
    match started_config (ar_cli args) (be_loaded env) with
    | Err e => Fails (NotLoaded e)
    | Ok cfg =>
        if rebuild_db args then
          let '(before, conn, timeout_set, after) := be_rebuild env in
          Exit (exit_of (rebuild_database before conn timeout_set after))
        else if print_config args then (if be_printable env then Exit 0 else Fails NotPrintable)
        else if negb (be_state_dir env) then Fails StateDir
        else
          match open (be_parent env) (be_mkdir env) (be_connect env false) (be_timeout env false) with
          | Err e => Fails (NoStorage e)
          | Ok _ =>
              match open (be_parent env) (be_mkdir env) (be_connect env true) (be_timeout env true) with
              | Err e => Fails (NoStorage e)
              | Ok _ => run args env cfg
              end
          end
    end.
End Boot.

(* ------------------------------------------------------------------ *)
(** ** Lemmas *)

Lemma validate_upstreams cfg : validate cfg = Ok tt -> upstreams (dns cfg) <> [].
Proof.
  unfold validate. rewrite !let_unit_ok. intros (Hu & _). rewrite ensure_ok in Hu.
  by apply negb_true_iff, bool_decide_eq_false in Hu.
Qed.
Lemma valid_has_upstream cfg : validate cfg = Ok tt -> exists u, first_upstream cfg = Some u.
Proof.
  intros Hu%validate_upstreams. unfold first_upstream. destruct (upstreams (dns cfg)) as [|u l]; [done|by exists u].
Qed.

Definition ticks (t : Task) : Prop := forall d, period t = Some d -> 0 < d.
(** A list of tasks written out: each period is positive, or there is none. *)
Ltac each_ticks :=
  repeat case_match; repeat (apply Forall_cons; split);
  try (by apply Forall_nil); intros ? Hd; simpl in Hd; (discriminate Hd || injection Hd as <-; unfold from_secs; lia).

(** Every task but the refresh of the lists ticks, and that one does unless
    its hours overflow. *)
Definition ticks_or_refreshes (t : Task) : Prop := ticks t \/ exists d, t = RefreshLists d.
Lemma quiet_ticks l : Forall (fun t => period t = None) l -> Forall ticks l.
Proof. intros Hl. eapply Forall_impl; [exact Hl|]. intros t Ht d Hd. congruence. Qed.
Lemma refresh_ticks cfg :
  Forall ticks_or_refreshes (refresh_tasks cfg) /\
  (refresh_hours (blocking cfg) * 3600 < 2 ^ 64 -> Forall ticks (refresh_tasks cfg)).
Proof.
  unfold refresh_tasks. destruct (blocking_enabled _), (Z.ltb_spec 0 (refresh_hours (blocking cfg))); simpl;
    try (by split; [|intros]; apply Forall_nil). split; [|intros Hr].
  - apply Forall_singleton. right. by eexists.
  - rewrite wrap_small by (unfold in_width; lia). each_ticks.
Qed.

Lemma tasks_of_valid cfg alerting route subnet : validate cfg = Ok tt ->
  exists ts, tasks cfg alerting route subnet = Some ts /\
    (forall a, a ∈ dns_listeners cfg -> ServeUdp a ∈ ts /\ (enable_tcp (dns cfg) = true -> ServeTcp a ∈ ts)) /\
    Dashboard (web_listen (web cfg)) ∈ ts /\
    (alerting = true -> AlertDrain ∈ ts) /\
    Forall ticks_or_refreshes ts /\
    (refresh_hours (blocking cfg) * 3600 < 2 ^ 64 -> Forall ticks ts).
Proof.
  intros (u & Hu)%valid_has_upstream. unfold tasks. rewrite Hu. set (reverse := if reverse_dns _ then _ else _).
  assert (exists l, reverse = Some l /\ Forall (fun t => period t = None) l) as (l & -> & Hl).
  { subst reverse. destruct (reverse_dns _); eexists; (split; [reflexivity|]); by repeat constructor. }
  destruct (refresh_ticks cfg) as [Hr Hr'].
  assert (forall l, Forall ticks l -> Forall ticks_or_refreshes l) as Hweak
    by (intros k Hk; eapply Forall_impl; [exact Hk|by left]).
  assert (Forall ticks (udp_tasks cfg) /\ Forall ticks (tcp_tasks cfg) /\ Forall ticks [CacheSweeper] /\
    Forall ticks (alert_tasks cfg alerting) /\ Forall ticks (discovery_tasks cfg route subnet) /\ Forall ticks l /\
    Forall ticks [ThroughputSampler (from_secs 10); LatencySampler u (from_secs 60)] /\ Forall ticks (dashboard_tasks cfg))
    as (T1 & T2 & T3 & T4 & T5 & T6 & T7 & T8).
  { split_and!.
    - apply quiet_ticks, Forall_fmap, Forall_true. done.
    - unfold tcp_tasks. destruct (enable_tcp _); [|constructor]. apply quiet_ticks, Forall_fmap, Forall_true. done.
    - each_ticks.
    - unfold alert_tasks. each_ticks.
    - unfold discovery_tasks. rewrite !Forall_app. split_and!; each_ticks.
    - by apply quiet_ticks.
    - each_ticks.
    - each_ticks. }
  eexists. split; [reflexivity|]. split; [|split; [|split; [|split]]].
  - intros a Ha. split.
    + apply elem_of_app. left. by apply list_elem_of_fmap_2.
    + intros Htcp. apply elem_of_app. right. apply elem_of_app. left. unfold tcp_tasks. rewrite Htcp.
      by apply list_elem_of_fmap_2.
  - do 7 (apply elem_of_app; right). apply elem_of_app. right. left.
  - intros ->. do 3 (apply elem_of_app; right). apply elem_of_app. left. left.
  - rewrite !Forall_app. split_and!; try (by apply Hweak); done.
  - intros H%Hr'. rewrite !Forall_app. by split_and!.
Qed.

Lemma first_run_cached skip cfg pid dir_ok client_ok env w h :
  have_cache cfg (files w) = true -> first_run skip cfg pid dir_ok client_ok env w h = (w, h).
Proof. intros Hc. unfold first_run. by rewrite Hc, andb_false_r. Qed.

Lemma registry_ok `{Codec} `{Sqlite} hash cfg env sink :
  (forall rows, be_known env = Some rows -> Forall (fun r => name_field_ok (kd_hostname r)) rows) ->
  store_ok (registry hash cfg env sink).
Proof.
  intros Hn. unfold registry. set (s := with_alerts _ _). assert (store_ok s) as Hs by apply new_store_ok.
  destruct (be_known env) as [rows|]; [|exact Hs]. apply hydrate_ok; [by apply Hn|exact Hs].
Qed.

(** What a start runs is the system of [Daemon.v], on the rows that were read. *)
Lemma run_is_started `{Codec} `{Sqlite} hash args env cfg db r :
  be_known env = Some (known_devices db) -> run hash args env cfg = Runs r ->
  ru_cfg r = cfg /\
  ru_resolver r = sy_resolver (started hash cfg (ru_subnet r) (r_blocklist (ru_resolver r))
                                 (oui_database cfg (be_read env)) (be_now env) db).
Proof.
  intros Hk. unfold run, registry. destruct (first_run _ _ _ _ _ _ _ _) as [w h]. rewrite Hk.
  destruct (lan cfg _ _) as [subnet|]; [|done]. cbv zeta. destruct (tasks _ _ _ _) as [ts|]; [|done].
  by intros [= <-].
Qed.
(** Rows of any earlier run are fit to be loaded. *)
Lemma known_fit `{Codec} hash order cfg lan bl o now s : iterates order ->
  rtc (system_step hash order) (started hash cfg lan bl o now empty_db) s ->
  forall rows, Some rows = Some (known_devices (sy_db s)) -> Forall (fun r => name_field_ok (kd_hostname r)) rows.
Proof. intros Ho Hs rows [= ->]. eapply known_devices_ok, sy_rows, system_reachable_ok; done. Qed.

(* ------------------------------------------------------------------ *)
(** ** Properties *)

(** The program runs, or the configured subnet cannot be read. *)
Definition starts `{Codec} `{Sqlite} (hash : option Z * option string * option string * bool -> Z) (args : Args)
    (env : BootEnv) (cfg : Config) : Prop :=
  (exists r, main hash args env = Runs r /\ ru_cfg r = cfg) \/
  exists s e, disc_subnet (discovery cfg) = Some s /\ parse_cidr s = Err e /\ main hash args env = Fails (BadSubnet e).

(** None of the modes that exit, and storage that opens. *)
Record fit_to_start `{Codec} `{Sqlite} (args : Args) (env : BootEnv) : Prop := mk_fit {
  fit_modes : check_only args = false /\ rebuild_db args = false /\ print_config args = false;
  fit_dir : be_state_dir env = true;
  fit_write : is_Some (ok (open (be_parent env) (be_mkdir env) (be_connect env false) (be_timeout env false)));
  fit_read : is_Some (ok (open (be_parent env) (be_mkdir env) (be_connect env true) (be_timeout env true))) }.

Lemma fit_runs `{Codec} `{Sqlite} hash args env cfg : fit_to_start args env ->
  started_config (ar_cli args) (be_loaded env) = Ok cfg -> main hash args env = run hash args env cfg.
Proof.
  intros [(Hco & Hrb & Hpc) Hdir [w Hw] [r Hr]] Hcfg. unfold main. rewrite Hco, Hrb, Hpc, Hdir, Hcfg. cbn [negb].
  destruct (open _ _ (be_connect env false) _) as [c|]; [|done]. by destruct (open _ _ (be_connect env true) _).
Qed.

Lemma fit_starts `{Codec} `{Sqlite} hash args env cfg : fit_to_start args env ->
  started_config (ar_cli args) (be_loaded env) = Ok cfg -> upstreams (dns cfg) <> [] -> starts hash args env cfg.
Proof.
  intros Hfit Hcfg Hu. unfold starts. rewrite (fit_runs hash args env cfg) by done. unfold run.
  destruct (first_run _ _ _ _ _ _ _ _) as [w h]. destruct (lan cfg _ _) as [subnet|e] eqn:Hlan; cbv zeta.
  - left. assert (exists ts, tasks cfg (is_some (spawn (alerts cfg))) (default_route (be_route_text env)) subnet = Some ts) as [ts ->].
    { unfold tasks, first_upstream. destruct (upstreams (dns cfg)); [done|]. destruct (reverse_dns _); by eexists. }
    by eexists.
  - right. unfold lan in Hlan. destruct (disc_subnet (discovery cfg)) as [s|] eqn:Hs; [|done].
    destruct (parse_cidr s) as [n|c] eqn:Hp; [done|]. injection Hlan as <-. by exists s, c.
Qed.

(** C24. The check against the start.  For an existing file, and storage that
    opens: what [--check-config] accepts is valid under the same command line
    and the program starts with it, unless the configured subnet, which it
    does not look at, cannot be read.  What it refuses either does not load,
    and then the program exits with the same error; or it is a file that
    loads with a [--web-listen] beyond loopback and no token of sixteen
    bytes, the one thing a start does not check again: the program starts
    with it all the same, under the same exception. *)
Theorem check_against_start `{Codec} `{Sqlite} hash from_toml contents args env :
  fit_to_start args env -> be_loaded env = load_or_default from_toml (Some (true, contents)) ->
  match check_config (ar_cli args) true (be_loaded env) with
  | ConfigNotFound => False
  | ConfigOk => exists cfg, be_loaded env = Ok cfg /\ validate (apply_overrides (ar_cli args) cfg) = Ok tt /\
      starts hash args env (apply_overrides (ar_cli args) cfg)
  | ConfigInvalid e =>
      (be_loaded env = Err e /\ main hash args env = Fails (NotLoaded e)) \/
      exists cfg a, be_loaded env = Ok cfg /\ e = Invalid WeakAdminToken /\
        cli_web_listen (ar_cli args) = Some a /\ is_loopback (sa_ip a) = false /\
        token_ok (admin_token (web cfg)) = false /\ starts hash args env (apply_overrides (ar_cli args) cfg)
  end.
Proof.
  intros Hfit Hload. destruct (be_loaded env) as [cfg|e] eqn:El.
  - assert (validate cfg = Ok tt) as Hv by by eapply (load_valid from_toml contents).
    assert (starts hash args env (apply_overrides (ar_cli args) cfg)) as Hs.
    { apply fit_starts; [done|by rewrite El|]. destruct (apply_overrides_keeps (ar_cli args) cfg) as [-> _].
      by apply validate_upstreams. }
    unfold check_config. cbn [negb]. destruct (validate (apply_overrides _ cfg)) as [[]|e] eqn:Ev; cbn [map_err].
    + by exists cfg.
    + right. destruct (overrides_refused _ _ _ Hv Ev) as (-> & Ht & a & Ha & Hl). by exists cfg, a.
  - left. split; [done|]. destruct (fit_modes _ _ Hfit) as (Hco & _). unfold main. by rewrite Hco, El.
Qed.

(** C25. What a start that passed the check serves: with a file that
    [--check-config] accepts, writable storage and none of the exiting modes,
    the program starts: it panics nowhere on the way and fails only when the
    configured subnet cannot be read.  What runs is a UDP server, and a TCP
    server when enabled, for every DNS address, the dashboard, and periodic
    tasks none of which has a period of zero, the refresh of the lists only
    provided its [refresh_hours], in seconds, fit 64 bits (they are not
    validated, and the product wraps); the lists on disk are in force,
    downloaded first only when one is missing; and the registry is consistent
    before discovery begins. *)
Theorem start_serves `{Codec} `{Sqlite} hash args env cfg0 w_conn r_conn :
  let cfg := apply_overrides (ar_cli args) cfg0 in
  check_only args = false -> rebuild_db args = false -> print_config args = false ->
  be_loaded env = Ok cfg0 -> check_config (ar_cli args) true (be_loaded env) = ConfigOk ->
  be_state_dir env = true ->
  open (be_parent env) (be_mkdir env) (be_connect env false) (be_timeout env false) = Ok w_conn ->
  open (be_parent env) (be_mkdir env) (be_connect env true) (be_timeout env true) = Ok r_conn ->
  (forall rows, be_known env = Some rows -> Forall (fun r => name_field_ok (kd_hostname r)) rows) ->
  match main hash args env with
  | Exit _ | Panics => False
  | Fails e => exists s c, disc_subnet (discovery cfg) = Some s /\ parse_cidr s = Err c /\ e = BadSubnet c
  | Runs r =>
      (forall a, a ∈ dns_listeners cfg ->
         ServeUdp a ∈ ru_tasks r /\ (enable_tcp (dns cfg) = true -> ServeTcp a ∈ ru_tasks r)) /\
      Dashboard (web_listen (web cfg)) ∈ ru_tasks r /\
      Forall ticks_or_refreshes (ru_tasks r) /\
      (refresh_hours (blocking cfg) * 3600 < 2 ^ 64 -> Forall ticks (ru_tasks r)) /\
      lock_ok (r_blocklist (ru_resolver r)) = Some (build cfg (files (ru_world r))) /\
      (have_cache cfg (files (be_world env)) = true -> ru_world r = be_world env) /\
      store_ok (sh_store (r_obs (ru_resolver r)))
  end.
Proof.
  intros cfg Hco Hrb Hpc Hload Hcheck Hdir Hw Hr Hnames.
  assert (validate cfg = Ok tt) as Hv.
  { unfold check_config in Hcheck. rewrite Hload in Hcheck. simpl in Hcheck. fold cfg in Hcheck.
    by destruct (validate cfg) as [[]|]. }
  rewrite (fit_runs hash args env cfg); [|split; rewrite ?Hw, ?Hr; by eauto|by rewrite Hload].
  unfold run. destruct (first_run _ _ _ _ _ _ _ _) as [w h] eqn:Hfirst.
  destruct (lan cfg _ _) as [subnet|e] eqn:Hlan; cbv zeta.
  - destruct (tasks_of_valid cfg (is_some (spawn (alerts cfg))) (default_route (be_route_text env)) subnet Hv)
      as (ts & -> & Hserve & Hdash & _ & Hall & Hticks).
    cbn [ru_tasks ru_resolver ru_world]. split_and!; [exact Hserve|exact Hdash|exact Hall|exact Hticks|reflexivity| |by apply registry_ok].
    intros Hc. rewrite first_run_cached in Hfirst by done. by injection Hfirst.
  - unfold lan in Hlan. destruct (disc_subnet (discovery cfg)) as [s|] eqn:Hs; [|done].
    destruct (parse_cidr s) as [n|c] eqn:Hp; [done|]. injection Hlan as <-. by exists s, c.
Qed.

Section Witness.
#[local] Existing Instance simple_hickory.
#[local] Existing Instance simple_codec.
#[local] Existing Instance simple_sqlite.

Definition w_args : Args := mk_args (mk_cli None None None) false false false false.
Definition w_boot (cfg : Config) : BootEnv :=
  mk_boot_env true (Ok cfg) (None, None, true, None) true true (Some "/var/lib/netwatch") (fun _ => true)
    (fun _ => Some (mk_file false NONE NONE 0 false)) (fun _ => true) (mk_world ∅ 0) 1 true true
    (fun _ => http_ok "0.0.0.0 ads.example") (fun _ => None) (Some []) 0 (Some route_table).

Lemma w_main_runs : exists r, main w_hash w_args (w_boot default_config) = Runs r /\
  length (ru_tasks r) = 13%nat /\ size (files (ru_world r)) = 1%nat.
Proof. eexists. split; [reflexivity|]. split; reflexivity. Qed.

(** The built-in configuration: what it starts, after a first download. *)
Lemma start_serves_witness :
  match main w_hash w_args (w_boot default_config) with
  | Runs r =>
      length (ru_tasks r) = 13%nat /\ size (files (ru_world r)) = 1%nat /\
      Dashboard (web_listen (web default_config)) ∈ ru_tasks r /\ Forall ticks (ru_tasks r)
  | _ => False
  end.
Proof.
  pose proof (start_serves w_hash w_args (w_boot default_config) default_config
    (mk_file true INCREMENTAL INCREMENTAL 0 false) (mk_file true INCREMENTAL INCREMENTAL 0 false)
    eq_refl eq_refl eq_refl eq_refl eq_refl eq_refl eq_refl eq_refl) as Hs.
  assert (forall rows, be_known (w_boot default_config) = Some rows ->
    Forall (fun r => name_field_ok (kd_hostname r)) rows) as Hn by (intros rows [= <-]; constructor).
  specialize (Hs Hn). destruct w_main_runs as (r & E & Ht & Hf). rewrite E in *.
  split; [exact Ht|]. split; [exact Hf|]. split; [apply Hs|]. by apply Hs.
Defined.

(** The command line opens the dashboard to the network without a token: the
    check refuses it and the program starts. *)
Definition w_open_args : Args := mk_args (mk_cli None (Some (mk_socket (V4 0) 8080)) None) false false false false.
Lemma check_against_start_witness :
  check_config (ar_cli w_open_args) true (be_loaded (w_boot default_config)) = ConfigInvalid (Invalid WeakAdminToken) /\
  exists cfg, be_loaded (w_boot default_config) = Ok cfg /\
    starts w_hash w_open_args (w_boot default_config) (apply_overrides (ar_cli w_open_args) cfg).
Proof.
  split; [reflexivity|].
  assert (fit_to_start w_open_args (w_boot default_config)) as Hfit by (by split; [split_and!|..|eexists|eexists]).
  pose proof (check_against_start w_hash (fun _ => Some default_config) (Some "") w_open_args (w_boot default_config) Hfit eq_refl) as Hc.
  change (check_config _ _ _) with (ConfigInvalid (Invalid WeakAdminToken)) in Hc.
  destruct Hc as [[Hc _]|(cfg & a & H1 & _ & _ & _ & _ & H2)]; [discriminate|by exists cfg].
Defined.

(** So many hours validate, and are a period of zero: the timer of the refresh
    task panics, and the lists are never refreshed (a debug build stops at the
    product). *)
Definition w_endless : Config :=
  let b := default_blocking in
  mk_config default_dns default_web default_storage default_discovery
    (mk_blocking_config (blocking_enabled b) (blocking_mode b) (block_sources b) (block_files b) (2 ^ 60) (disable_firefox_doh b) (state_dir b))
    default_alerts.
Example refresh_period_wraps : validate w_endless = Ok tt /\ refresh_tasks w_endless = [RefreshLists 0].
Proof. vm_compute. done. Qed.

(** A subnet without a prefix length passes the check, and the program exits
    at every start. *)
Definition w_bad_subnet : Config :=
  let d := default_discovery in
  mk_config default_dns default_web default_storage
    (mk_discovery_config (disc_arp d) (arp_interval_secs d) (disc_mdns d) (disc_dhcp d) (disc_sweep d)
       (sweep_interval_secs d) (reverse_dns d) (Some "192.168.1.0") None)
    default_blocking default_alerts.
Example check_passes_start_fails :
  check_config (ar_cli w_args) true (Ok w_bad_subnet) = ConfigOk /\
  main w_hash w_args (w_boot w_bad_subnet) = Fails (BadSubnet NotCidr).
Proof. vm_compute. done. Qed.
End Witness.

(** A start does not validate again: this command line opens the dashboard,
    and with it every changing request, to the whole network without a token,
    although [--check-config] refuses it. *)
Example override_escapes_validation :
  let cli := mk_cli None (Some (mk_socket (V4 0) 8080)) None in
  let loaded := load_or_default (fun _ => Some default_config) (Some (true, Some "")) in
  check_config cli true loaded = ConfigInvalid (Invalid WeakAdminToken) /\
  match started_config cli loaded with
  | Ok cfg => is_loopback (sa_ip (web_listen (web cfg))) = false /\ admin_token (web cfg) = None
  | Err _ => False
  end.
Proof. split; [reflexivity|]. split; reflexivity. Qed.
