(* ===== verification/Lifecycle.v ===== *)
(** * What becomes of the tasks, and of the process (src/main.rs, src/api.rs: [serve])

    [Boot.v] says which tasks a start spawns.  Here each task meets the
    kernel: a DNS listener that cannot be bound takes the process down, so
    that systemd starts it again; any other task that cannot do its work only
    ends, and so does one that panics.  Then the wait for a signal. *)
From S2P Require Import Prelude Str Addr Socket Config Netinfo Upstream Serve Discovery Boot.
Open Scope Z_scope.

(** What the kernel says to each task: to the calls of a DNS listener's
    attempts, with their delays; to those of a discovery listener; and to the
    dashboard's bind. *)
Record Kernel : Type := mk_kernel {
  k_dns : Task -> nat -> SockOp -> option IoError;
  k_takes : Task -> nat -> Duration;
  k_late : Task -> nat -> Duration;
  k_discovery : Task -> SockOp -> bool;
  k_web : SocketAddr -> bool }.

(** A task that goes on, one that returned, and one that ended the process. *)
Inductive Fate : Type := Serving | Over | ExitsProcess (code : Z).

(** [tokio::sync::Semaphore::new] panics past [usize::MAX >> 3] permits, and
    the panic ends the task, not the process. *)
Definition MAX_PERMITS : Z := Z.shiftr u64_max 3.
Definition semaphore (permits : Z) : Fate := if permits <=? MAX_PERMITS then Serving else Over.

(** [if let Err(e) = dns::serve_udp(..).await { std::process::exit(1) }]: the
    listener is bound, the semaphore made, and the loop runs; [limit] is the
    configured number of requests or connections.  [None] is a run out of
    fuel. *)
Definition dns_fate (k : Kernel) (now : Instant) (t : Task) (setup : SocketAddr -> list SockOp) (limit : Z)
    (listen : SocketAddr) : option Fate :=
  match bind_listener setup (k_dns k t) (k_takes k t) (k_late k t) listen 11 now with
  | Some (_, Ok _) => Some (semaphore limit)
  | Some (_, Err _) => Some (ExitsProcess 1)
  | None => None
  end.
Definition discovery_fate (k : Kernel) (t : Task) (ops : list SockOp) : Fate :=
  match listener_state (k_discovery k t) ops with Unavailable _ => Over | _ => Serving end.
(** [serve] of src/api.rs: no retry, and its error is only logged. *)
Definition dashboard_fate (k : Kernel) (listen : SocketAddr) : Fate := if k_web k listen then Serving else Over.

Definition fate (cfg : Config) (k : Kernel) (now : Instant) (t : Task) : option Fate :=
  match t with
  | ServeUdp a => dns_fate k now t udp_setup (max_udp_in_flight (dns cfg)) a
  | ServeTcp a => dns_fate k now t tcp_setup (max_tcp_connections (dns cfg)) a
  | MdnsListener => Some (discovery_fate k t mdns_setup)
  | DhcpListener => Some (discovery_fate k t dhcp_setup)
  | SubnetSweeper s _ => Some (if is_some (subnet_sweeper s []) then Serving else Over)
  | Dashboard a => Some (dashboard_fate k a)
  | _ => Some Serving
  end.

Inductive Process : Type := Up | Exited (code : Z).
Fixpoint process (cfg : Config) (k : Kernel) (now : Instant) (ts : list Task) : Process :=
  match ts with
  | [] => Up
  | t :: ts => match fate cfg k now t with Some (ExitsProcess c) => Exited c | _ => process cfg k now ts end
  end.

(** [shutdown_signal]: [sg_ctrl_c] completes on the signal and on an error
    alike; a SIGTERM stream that cannot be had leaves nothing to wait for. *)
Record Signals : Type := mk_signals { sg_ctrl_c : Outcome bool; sg_term : option (Outcome unit) }.
Definition sooner (a b : Outcome unit) : Outcome unit :=
  match a, b with
  | Ready t _, Ready u _ => Ready (Z.min t u) tt
  | Ready t _, Pending | Pending, Ready t _ => Ready t tt
  | Pending, Pending => Pending
  end.
Definition shutdown_signal (s : Signals) : Outcome unit :=
  sooner (match sg_ctrl_c s with Ready t _ => Ready t tt | Pending => Pending end)
    (match sg_term s with Some o => o | None => Ready 0 tt end).

(** The end of [main]: it waits for a signal, aborts the tasks and returns. *)
Definition stop (s : Signals) (ts : list Task) : Outcome (list Task * Process) :=
  and_then (shutdown_signal s) (fun _ => Ready 0 ([], Exited 0)).

(* ------------------------------------------------------------------ *)
(** ** Lemmas *)

Definition patient (k : Kernel) : Prop := forall t i, 0 <= k_takes k t i /\ 0 <= k_late k t i.

(** The address of a DNS listener, the calls that set it up, and its limit. *)
Definition dns_listener (cfg : Config) (t : Task) : option (SocketAddr * (SocketAddr -> list SockOp) * Z) :=
  match t with
  | ServeUdp a => Some (a, udp_setup, max_udp_in_flight (dns cfg))
  | ServeTcp a => Some (a, tcp_setup, max_tcp_connections (dns cfg))
  | _ => None
  end.

Lemma fate_dns cfg k now t a setup n : dns_listener cfg t = Some (a, setup, n) -> fate cfg k now t = dns_fate k now t setup n a.
Proof. destruct t; simpl; try done; by intros [= <- <- <-]. Qed.
Lemma fate_other cfg k now t : dns_listener cfg t = None -> exists f, fate cfg k now t = Some f /\ forall c, f <> ExitsProcess c.
Proof.
  destruct t; try done; intros _; eexists; (split; [reflexivity|]); intros c; try done; unfold discovery_fate, dashboard_fate;
    by repeat case_match.
Qed.

Lemma process_other cfg k now t ts : dns_listener cfg t = None -> process cfg k now (t :: ts) = process cfg k now ts.
Proof. intros Ht. simpl. destruct (fate_other cfg k now t Ht) as (f & -> & Hf). destruct f; try done. by destruct (Hf code). Qed.

(** A DNS listener is bound, or the process ends, and then for good reason. *)
Definition why_not (k : Kernel) (now : Instant) (t : Task) (a : SocketAddr) (setup : SocketAddr -> list SockOp) : Prop :=
  exists i e, (i < 11)%nat /\ run_setup (k_dns k t i) (setup a) = Err e /\
    (addr_in_use e = true ->
     now + BIND_RETRY_WINDOW <= attempt_end (fun i => mk_try (k_takes k t i) (run_setup (k_dns k t i) (setup a)) (k_late k t i))
                                  i 0 now (from_millis 250)).

Lemma dns_fate_cases k now t setup n a : patient k ->
  dns_fate k now t setup n a = Some (semaphore n) \/
  (dns_fate k now t setup n a = Some (ExitsProcess 1) /\ why_not k now t a setup).
Proof.
  intros Hp. unfold dns_fate, bind_listener. set (tries := fun i => mk_try _ _ _).
  destruct (bind_loop_ends tries (fun i => Hp t i) now BIND_RETRY_WINDOW ltac:(done)) as [[m res] E]. rewrite E.
  destruct res as [[]|f]; [by left|right]. split; [done|].
  pose proof (bind_loop_fuel _ _ _ _ _ _ _ _ E) as Hn.
  apply bind_loop_stop in E as (i & -> & Hres & _ & Hw). simpl in Hres, Hn, Hw.
  unfold verdict_of in Hres. destruct (run_setup (k_dns k t i) (setup a)) as [|e] eqn:Er; [done|].
  exists i, e. split_and!; [lia|done|]. intros Hu. apply Hw. by exists e.
Qed.
Lemma semaphore_spec n : semaphore n = if n <=? 2 ^ 61 - 1 then Serving else Over.
Proof. unfold semaphore. by assert (MAX_PERMITS = 2 ^ 61 - 1) as -> by reflexivity. Qed.

(** Some DNS listener of [ts] could not be had. *)
Definition no_listener (cfg : Config) (k : Kernel) (now : Instant) (ts : list Task) : Prop :=
  exists t a setup n, t ∈ ts /\ dns_listener cfg t = Some (a, setup, n) /\ why_not k now t a setup.

Lemma process_cases cfg k now ts : patient k ->
  (process cfg k now ts = Up /\
   forall t a setup n, t ∈ ts -> dns_listener cfg t = Some (a, setup, n) -> fate cfg k now t = Some (semaphore n)) \/
  (process cfg k now ts = Exited 1 /\ no_listener cfg k now ts).
Proof.
  intros Hp. induction ts as [|t ts IH]; [left; split; [done|]; by intros ? ? ? ? ?%elem_of_nil|].
  destruct (dns_listener cfg t) as [[[a setup] n]|] eqn:Ht.
  - cbn [process]. rewrite (fate_dns cfg k now t a setup n Ht).
    destruct (dns_fate_cases k now t setup n a Hp) as [E|[E Hwhy]]; rewrite E.
    + assert (match Some (semaphore n) with Some (ExitsProcess c) => Exited c | _ => process cfg k now ts end = process cfg k now ts)
        as -> by (unfold semaphore; by destruct (n <=? MAX_PERMITS)).
      destruct IH as [[-> IH]|[-> (u & b & s & m & Hu & Hx)]]; [left|right]; (split; [done|]).
      * intros u b s m [->|Hu]%elem_of_cons Hb; [|by eapply IH].
        rewrite Ht in Hb. injection Hb as <- <- <-. by rewrite (fate_dns _ _ _ _ _ _ _ Ht).
      * exists u, b, s, m. split; [by right|done].
    + right. split; [done|]. exists t, a, setup, n. split_and!; [by left|done|done].
  - rewrite (process_other _ _ _ _ _ Ht).
    destruct IH as [[-> IH]|[-> (u & b & s & m & Hu & Hx)]]; [left|right]; (split; [done|]).
    + intros u b s m [->|Hu]%elem_of_cons Hb; [congruence|by eapply IH].
    + exists u, b, s, m. split; [by right|done].
Qed.

(** The program is stopped by a signal, or for want of the stream of one. *)
Lemma stop_spec s ts :
  match stop s ts with
  | Ready t (rest, p) => rest = [] /\ p = Exited 0 /\
      ((exists b, sg_ctrl_c s = Ready t b) \/ sg_term s = Some (Ready t tt) \/ (sg_term s = None /\ t = 0))
  | Pending => sg_ctrl_c s = Pending /\ sg_term s = Some Pending
  end.
Proof.
  unfold stop, shutdown_signal. destruct (sg_ctrl_c s) as [t b|], (sg_term s) as [[u []|]|]; simpl; rewrite ?Z.add_0_r; split_and?; eauto.
  - destruct (Z.min_spec t u) as [[_ ->]|[_ ->]]; eauto.
  - destruct (Z.min_spec t 0) as [[_ ->]|[_ ->]]; eauto.
Qed.

(* ------------------------------------------------------------------ *)
(** ** Properties *)

(** C26. DNS or nothing, almost: with a validated configuration, once the
    listeners have had their time, either the process has exited with status
    1, for a listener whose last attempt failed and, if the address was in
    use, only after the whole window; or every DNS address is bound, over UDP,
    and over TCP when enabled, and served, provided the limit of its kind
    (requests in flight, connections) is at most the 2^61 - 1 permits a
    semaphore can have: with a limit beyond, which [validate] accepts, its
    task panics and the process stays up without that service.  A dashboard,
    discovery listener or sweeper that cannot run never stops the process.
    While it is up, it ends, with status 0 and every task aborted, at the
    first signal, or at once if SIGTERM cannot be listened for, and for
    nothing else. *)
Theorem dns_or_exit k now cfg alerting route subnet ts :
  validate cfg = Ok tt -> tasks cfg alerting route subnet = Some ts -> patient k ->
  match process cfg k now ts with
  | Up => forall a, a ∈ dns_listeners cfg ->
      fate cfg k now (ServeUdp a) = Some (if max_udp_in_flight (dns cfg) <=? 2 ^ 61 - 1 then Serving else Over) /\
      (enable_tcp (dns cfg) = true ->
       fate cfg k now (ServeTcp a) = Some (if max_tcp_connections (dns cfg) <=? 2 ^ 61 - 1 then Serving else Over))
  | Exited c => c = 1 /\ no_listener cfg k now ts
  end /\
  (forall discovery web,
     process cfg (mk_kernel (k_dns k) (k_takes k) (k_late k) discovery web) now ts = process cfg k now ts) /\
  forall s, match stop s ts with
  | Ready t (rest, p) => rest = [] /\ p = Exited 0 /\
      ((exists b, sg_ctrl_c s = Ready t b) \/ sg_term s = Some (Ready t tt) \/ (sg_term s = None /\ t = 0))
  | Pending => sg_ctrl_c s = Pending /\ sg_term s = Some Pending
  end.
Proof.
  intros Hv Ht Hp. split; [|split; [|intros; apply stop_spec]].
  - destruct (tasks_of_valid cfg alerting route subnet Hv) as (ts' & Ht' & Hserve & _). rewrite Ht in Ht'. injection Ht' as <-.
    destruct (process_cases cfg k now ts Hp) as [[-> Hup]|[-> Hwhy]]; [|by split].
    intros a [Hu Htcp]%Hserve. rewrite <-!semaphore_spec. split; [by eapply Hup|]. intros E. by eapply Hup; [apply Htcp|].
  - intros disc web. clear Ht. induction ts as [|t ts IH]; [done|].
    destruct (dns_listener cfg t) as [[[a setup] n]|] eqn:Hd; [|by rewrite !process_other by done].
    cbn [process]. by rewrite !(fate_dns cfg _ now t a setup n Hd), IH.
Qed.

Definition w_tasks : list Task :=
  [ServeUdp (mk_socket (V4 0) 53); ServeTcp (mk_socket (V4 0) 53); CacheSweeper; MdnsListener;
   Dashboard (mk_socket (V4 0) 8080)].
(** A kernel where port 53 is held for two attempts, mDNS and the dashboard
    for ever; and one where TCP is forbidden. *)
Definition w_kernel : Kernel :=
  mk_kernel (fun _ => w_busy_port) (fun _ _ => 0) (fun _ _ => 0) (fun _ _ => false) (fun _ => false).
Definition w_forbidden : Kernel :=
  mk_kernel (fun t _ op => match t, op with ServeTcp _, Bind _ => Some (mk_io_error false (Some 13)) | _, _ => None end)
    (fun _ _ => 0) (fun _ _ => 0) (fun _ _ => true) (fun _ => true).
Example two_kernels :
  map (fate default_config w_kernel 0) w_tasks = [Some Serving; Some Serving; Some Serving; Some Over; Some Over] /\
  process default_config w_kernel 0 w_tasks = Up /\ process default_config w_forbidden 0 w_tasks = Exited 1.
Proof. vm_compute. done. Qed.

Lemma w_tasks_default : exists ts, tasks default_config false None None = Some ts /\ process default_config w_kernel 0 ts = Up.
Proof. eexists. split; reflexivity. Qed.
Lemma dns_or_exit_witness :
  exists ts, tasks default_config false None None = Some ts /\ process default_config w_kernel 0 ts = Up /\
    fate default_config w_kernel 0 (ServeUdp (dns_listen (dns default_config))) = Some Serving /\
    forall discovery web, process default_config (mk_kernel (k_dns w_kernel) (k_takes w_kernel) (k_late w_kernel) discovery web) 0 ts = Up.
Proof.
  destruct w_tasks_default as (ts & Ht & Hup). exists ts. split; [exact Ht|]. split; [exact Hup|].
  destruct (dns_or_exit w_kernel 0 default_config false None None ts) as (H1 & H2 & _);
    [reflexivity|exact Ht|intros t i; simpl; lia|].
  rewrite Hup in H1, H2. split; [apply H1; by left|exact H2].
Defined.

(** A SIGTERM stream that cannot be had shuts the program down at once,
    instead of leaving it to the other signal. *)
Example no_sigterm_stops_at_once : shutdown_signal (mk_signals Pending None) = Ready 0 tt.
Proof. reflexivity. Qed.

(** The limits are not bounded above: with this one, which validates, the UDP
    task panics once its socket is bound, and the process stays up. *)
Definition w_unlimited : Config :=
  let d := default_dns in
  mk_config (mk_dns_config (dns_listen d) (dns_listen_v6 d) (enable_tcp d) (allow_from d) (upstreams d)
      (upstream_timeout_ms d) (upstream_udp_payload d) (2 ^ 62) (max_tcp_connections d)
      (request_timeout_ms d) (cache_enabled d) (cache_max_entries d) (cache_min_ttl d) (cache_max_ttl d))
    default_web default_storage default_discovery default_blocking default_alerts.
Example unlimited_is_not_served :
  validate w_unlimited = Ok tt /\ process w_unlimited w_kernel 0 w_tasks = Up /\
  map (fate w_unlimited w_kernel 0) (take 2 w_tasks) = [Some Over; Some Serving].
Proof. vm_compute. done. Qed.
