(* ===== verification/Api.v ===== *)
(** * The HTTP API (src/api.rs) and the scheduled refresh (src/main.rs)

    Who may change the resolver, what each changing request does to the
    manual lists, the block list and the cache, and what the reporting
    requests ask of the database.  A request is its Authorization header and
    its decoded body; routes, reports and the layers around the handlers are
    in [Web.v]. *)
From S2P Require Import Prelude Str Addr Acl Blocklist Config Lists DnsMsg Cache Upstream Db Resolver.
Open Scope Z_scope.

Definition BYPASS_QUERY_THRESHOLD : Z := 5.

Inductive StatusCode : Type := BAD_REQUEST | UNAUTHORIZED | CONFLICT | BAD_GATEWAY | INTERNAL_SERVER_ERROR.
(** What a client is told, with the values its text shows. *)
Inductive PublicMessage : Type :=
  | NotAValidDomain (domain : string)
  | AdminTokenRequired
  | RefreshRunning
  | AllSourcesFailed (attempted : nat) (detail : string).
(** A failure: its status, and what the client is told, if anything. *)
Record ApiError : Type := mk_api_error { ae_status : StatusCode; ae_public : option PublicMessage }.
#[export] Instance status_code_eq_dec : EqDecision StatusCode.
Proof. solve_decision. Defined.

Definition conflict (msg : PublicMessage) : ApiError := mk_api_error CONFLICT (Some msg).
Definition bad_gateway (msg : PublicMessage) : ApiError := mk_api_error BAD_GATEWAY (Some msg).
Definition unauthorized : ApiError := mk_api_error UNAUTHORIZED (Some AdminTokenRequired).
Definition bad_request (msg : PublicMessage) : ApiError := mk_api_error BAD_REQUEST (Some msg).
(** Any other error is logged, and the client is told nothing. *)
Definition internal_error : ApiError := mk_api_error INTERNAL_SERVER_ERROR None.

(* ------------------------------------------------------------------ *)
(** ** Authorisation *)

Fixpoint fold_xor (acc : Z) (a b : list Z) : Z :=
  match a, b with
  | x :: a, y :: b => fold_xor (Z.lor acc (Z.lxor x y)) a b
  | _, _ => acc
  end.
Definition constant_time_eq (a b : list Z) : bool :=
  if negb (length a =? length b)%nat then false else fold_xor 0 a b =? 0.

(** [to_str] is the header library's: [None] unless the value is visible
    ASCII. *)
Definition presented (to_str : string -> option string) (authorization : option string) : string :=
  default "" (let! v := authorization in let! s := to_str v in strip_prefix "Bearer " s).
Definition require_admin (to_str : string -> option string) (cfg : Config) (authorization : option string)
    : result ApiError unit :=
  match admin_token (web cfg) with
  | None => Ok tt
  | Some expected =>
      if negb (constant_time_eq (as_bytes (presented to_str authorization)) (as_bytes expected))
      then Err unauthorized else Ok tt
  end.

(* ------------------------------------------------------------------ *)
(** ** Requests that change the resolver *)

Section Mutations.
Context `{Codec} {S : Type} `{!QueryObserver S}.
Abbreviation Resolver := (Resolver.Resolver (S := S)).

Record App : Type := mk_app {
  ap_cfg : Config;
  ap_world : World;
  ap_resolver : Resolver;
  ap_health : HealthMap;
  (** Whether a refresh holds the refresh lock. *)
  ap_refreshing : bool }.

Definition set_files (fs : Files) (s : App) : App :=
  mk_app (ap_cfg s) (mk_world fs (seq (ap_world s))) (ap_resolver s) (ap_health s) (ap_refreshing s).
Definition set_world (w : World) (h : HealthMap) (s : App) : App :=
  mk_app (ap_cfg s) w (ap_resolver s) h (ap_refreshing s).

(** [rebuild] reads the lists on the blocking pool, then installs the
    result: two steps, with whatever else happens between them. *)
Definition rebuild_read (s : App) : Blocklist := build (ap_cfg s) (files (ap_world s)).
Definition install_blocklist (fresh : Blocklist) (r : Resolver) : Resolver :=
  match lock_ok (r_blocklist r) with
  | Some _ =>
      mk_resolver (r_cfg r) (r_acl r) (warned_denied r) (block_nxdomain r) (doh_disabled r)
        (lock_set (r_blocklist r) fresh) (r_cache r) (r_obs r) (r_stats r)
  | None => r
  end.
Definition rebuild_install (fresh : Blocklist) (s : App) : App * nat :=
  (mk_app (ap_cfg s) (ap_world s) (flush_cache (install_blocklist fresh (ap_resolver s))) (ap_health s) (ap_refreshing s),
   len fresh).
Definition rebuild (s : App) : App * nat := rebuild_install (rebuild_read s) s.

(** The handlers answer with the number of blocked domains. *)
Definition edit_list (edit : Files -> string -> string -> Files * result ManualError unit)
    (path : string) (domain : string) (s : App) : App * result ApiError nat :=
  if negb (is_valid_domain domain)
  then (s, Err (bad_request (NotAValidDomain domain)))
  else
    let '(fs, r) := edit (files (ap_world s)) path domain in
    let s := set_files fs s in
    match r with
    | Err _ => (s, Err internal_error)
    | Ok _ => let '(s, n) := rebuild s in (s, Ok n)
    end.

Definition add_deny (io : AppendOutcome) (domain : string) (s : App) : App * result ApiError nat :=
  edit_list (fun fs p d => append_manual fs p d io) (manual_deny_path (ap_cfg s)) domain s.
Definition remove_deny (io : WriteOutcome) (domain : string) (s : App) : App * result ApiError nat :=
  edit_list (fun fs p d => remove_manual fs p d io) (manual_deny_path (ap_cfg s)) domain s.
Definition add_allow (io : AppendOutcome) (domain : string) (s : App) : App * result ApiError nat :=
  edit_list (fun fs p d => append_manual fs p d io) (manual_allow_path (ap_cfg s)) domain s.
Definition remove_allow (io : WriteOutcome) (domain : string) (s : App) : App * result ApiError nat :=
  edit_list (fun fs p d => remove_manual fs p d io) (manual_allow_path (ap_cfg s)) domain s.

Definition failure_detail (o : RefreshOutcome) : string :=
  str_join "; " (map (fun p => fst p +:+ ": " +:+ snd p) (failures o)).

Definition reload (pid : Z) (dir_ok client_ok : bool) (env : nat -> FetchEnv) (s : App)
    : App * result ApiError (nat * RefreshOutcome) :=
  if ap_refreshing s then (s, Err (conflict RefreshRunning))
  else
    let '(w, h, o) := refresh_sources (ap_cfg s) pid dir_ok client_ok env (ap_world s) (ap_health s) in
    let s := set_world w h s in
    if total_failure o then
      (s, Err (bad_gateway (AllSourcesFailed (attempted o) (failure_detail o))))
    else let '(s, n) := rebuild s in (s, Ok (n, o)).

(** One tick of the scheduled refresh in [main]. *)
Definition scheduled_refresh (pid : Z) (dir_ok client_ok : bool) (env : nat -> FetchEnv) (s : App) : App :=
  if ap_refreshing s then s
  else
    let '(w, h, o) := refresh_sources (ap_cfg s) pid dir_ok client_ok env (ap_world s) (ap_health s) in
    let s := set_world w h s in
    if total_failure o then s else fst (rebuild s).

Definition api_flush_cache (s : App) : App :=
  mk_app (ap_cfg s) (ap_world s) (flush_cache (ap_resolver s)) (ap_health s) (ap_refreshing s).

(** The routes behind [require_admin]. *)
Inductive Mutation : Type :=
  | AddDeny (io : AppendOutcome) (domain : string)
  | RemoveDeny (io : WriteOutcome) (domain : string)
  | AddAllow (io : AppendOutcome) (domain : string)
  | RemoveAllow (io : WriteOutcome) (domain : string)
  | Reload (pid : Z) (dir_ok client_ok : bool) (env : nat -> FetchEnv)
  | FlushCache.
Definition handler (m : Mutation) (s : App) : App * option ApiError :=
  let failed {A} (p : App * result ApiError A) :=
    (fst p, match snd p with Err e => Some e | Ok _ => None end) in
  match m with
  | AddDeny io d => failed (add_deny io d s)
  | RemoveDeny io d => failed (remove_deny io d s)
  | AddAllow io d => failed (add_allow io d s)
  | RemoveAllow io d => failed (remove_allow io d s)
  | Reload pid dir_ok client_ok env => failed (reload pid dir_ok client_ok env s)
  | FlushCache => (api_flush_cache s, None)
  end.
Definition mutate (to_str : string -> option string) (authorization : option string) (m : Mutation) (s : App)
    : App * option ApiError :=
  match require_admin to_str (ap_cfg s) authorization with
  | Err e => (s, Some e)
  | Ok _ => handler m s
  end.
End Mutations.

(* ------------------------------------------------------------------ *)
(** ** Reporting requests *)

Section Reports.
Context (sql_like : string -> string -> bool) (group_order : list string -> list string).
Context (pick_row : list QueryRec -> option QueryRec).

(** Cleared form fields arrive as empty strings. *)
Definition filled (s : option string) : option string :=
  let! t := s in if is_empty (trim t) then None else Some t.

Record QueryParams : Type := mk_query_params {
  qp_limit : option Z; qp_offset : option Z;
  qp_search : option string; qp_client : option string; qp_status : option string }.
Definition queries_filter (p : QueryParams) : QueryFilter :=
  mk_filter (clamp 1 1000 (default 100 (qp_limit p))) (default 0 (qp_offset p))
    (filled (qp_search p)) (filled (qp_client p)) (filled (qp_status p)).
Definition api_queries (db : Db) (p : QueryParams) : list QueryRow :=
  recent_queries sql_like db (queries_filter p).

Record RangeParams : Type := mk_range { rp_hours : option Z; rp_limit : option Z; rp_minutes : option Z }.
Definition api_top_domains (now : Z) (blocked : bool) (db : Db) (p : RangeParams) : list Counted :=
  top_domains group_order pick_row now (default 24 (rp_hours p)) (default 15 (rp_limit p)) blocked db.
Definition api_query_types (now : Z) (db : Db) (p : RangeParams) : list Counted :=
  Db.query_types group_order now (default 24 (rp_hours p)) db.
Definition api_alerts (db : Db) (p : RangeParams) : list AlertRec :=
  alerts_query (clamp 1 500 (default 50 (rp_limit p))) db.
Definition api_bypass_suspects (now : Z) (db : Db) (p : RangeParams) : list BypassSuspect :=
  bypass_suspects now (clamp 1 (24 * 30) (default 24 (rp_hours p))) BYPASS_QUERY_THRESHOLD
    (clamp 1 200 (default 20 (rp_limit p))) db.
Definition timeseries_bucket (hours : Z) : Z := Z.max (Z.quot (hours * 3600) 120) 60.
Definition api_timeseries (now : Z) (db : Db) (p : RangeParams) : list Bucket :=
  let hours := clamp 1 (24 * 30) (default 24 (rp_hours p)) in
  timeseries now hours (timeseries_bucket hours) db.
Definition api_interfaces (now : Z) (db : Db) (p : RangeParams) : list IfaceSample :=
  iface_series now (clamp 1 1440 (default 30 (rp_minutes p))) db.
End Reports.

(* ------------------------------------------------------------------ *)
(** ** Authorisation: lemmas *)

Lemma fold_xor_zero a b acc : length a = length b -> fold_xor acc a b = 0 <-> acc = 0 /\ a = b.
Proof.
  revert b acc. induction a as [|x a IH]; intros [|y b] acc; simpl; try done; [naive_solver|].
  intros [= Hl]. rewrite (IH b _ Hl), Z.lor_eq_0_iff, Z.lxor_eq_0_iff. naive_solver.
Qed.

Lemma constant_time_eq_spec a b : constant_time_eq a b = true <-> a = b.
Proof.
  unfold constant_time_eq. destruct (Nat.eqb_spec (length a) (length b)) as [Hl|Hl]; simpl.
  - rewrite Z.eqb_eq, (fold_xor_zero a b 0 Hl). naive_solver.
  - split; [done|]. by intros ->.
Qed.

Lemma code_inj a b : code a = code b -> a = b.
Proof. unfold code. intros H%N2Z.inj. by rewrite <-(ascii_N_embedding a), <-(ascii_N_embedding b), H. Qed.
Lemma as_bytes_inj s t : as_bytes s = as_bytes t -> s = t.
Proof.
  revert t. induction s as [|a s IH]; intros [|b t]; simpl; try done.
  intros [= Hc Ht]. by rewrite (code_inj a b), (IH t).
Qed.

Lemma require_admin_ok to_str cfg auth :
  require_admin to_str cfg auth = Ok tt <->
  forall t, admin_token (web cfg) = Some t -> presented to_str auth = t.
Proof.
  unfold require_admin. destruct (admin_token (web cfg)) as [t|]; [|naive_solver].
  destruct (constant_time_eq _ _) eqn:E; simpl.
  - apply constant_time_eq_spec, as_bytes_inj in E. naive_solver.
  - split; [done|]. intros H. specialize (H t eq_refl). rewrite H in E.
    assert (constant_time_eq (as_bytes t) (as_bytes t) = true) by by apply constant_time_eq_spec. congruence.
Qed.
Lemma require_admin_err to_str cfg auth e : require_admin to_str cfg auth = Err e -> e = unauthorized.
Proof. unfold require_admin. repeat case_match; by intros [= <-]. Qed.

Lemma validate_token cfg :
  validate cfg = Ok tt -> is_loopback (sa_ip (web_listen (web cfg))) = false ->
  exists t, admin_token (web cfg) = Some t /\ 16 <= str_len (trim t).
Proof.
  unfold validate. rewrite !let_unit_ok, let_const_ok, !let_unit_ok.
  intros (_ & _ & _ & _ & Ht & _) Hl. rewrite Hl in Ht. simpl in Ht. rewrite ensure_ok in Ht.
  by apply token_ok_spec in Ht.
Qed.

(* ------------------------------------------------------------------ *)
(** ** Properties *)

Section Properties.
Context `{Codec} {S : Type} `{!QueryObserver S}.
Abbreviation App := (App (S := S)).

(** Beyond loopback, whoever is let in carries the configured token. *)
Lemma admitted_has_token to_str cfg auth :
  validate cfg = Ok tt -> is_loopback (sa_ip (web_listen (web cfg))) = false ->
  require_admin to_str cfg auth = Ok tt ->
  exists h t, auth = Some h /\ to_str h = Some ("Bearer " +:+ t) /\
    admin_token (web cfg) = Some t /\ 16 <= str_len (trim t).
Proof.
  intros Hv Hl E. destruct (validate_token _ Hv Hl) as (t & Ht & Hlen).
  assert (presented to_str auth = t) as Hp by by apply (proj1 (require_admin_ok _ _ _) E t Ht).
  unfold presented in Hp. destruct auth as [h|]; [|by subst t].
  destruct (to_str h) as [v|] eqn:Hs; [|by subst t].
  destruct (strip_prefix "Bearer " v) as [x|] eqn:Hx; [|by subst t].
  simpl in Hp. subst x. apply strip_prefix_spec in Hx. subst v. by exists h, t.
Qed.

(** Only the administrator changes what the network resolves: with a
    configuration that may be started and a dashboard that listens beyond
    loopback, a changing request either is refused with 401 and changes
    nothing, or carries the configured token, of at least sixteen characters
    and exact to the byte, as its bearer token. *)
Theorem only_admin_mutates to_str auth m (s s' : App) e :
  validate (ap_cfg s) = Ok tt -> is_loopback (sa_ip (web_listen (web (ap_cfg s)))) = false ->
  mutate to_str auth m s = (s', e) ->
  s' = s /\ e = Some unauthorized \/
  exists h t, auth = Some h /\ to_str h = Some ("Bearer " +:+ t) /\
    admin_token (web (ap_cfg s)) = Some t /\ 16 <= str_len (trim t) /\ (s', e) = handler m s.
Proof.
  intros Hv Hl. unfold mutate. destruct (require_admin to_str (ap_cfg s) auth) as [[]|e'] eqn:E.
  - intros Hm. right. destruct (admitted_has_token _ _ _ Hv Hl E) as (h & t & ? & ? & ? & ?).
    exists h, t. by rewrite Hm.
  - apply require_admin_err in E as ->. intros [= <- <-]. by left.
Qed.

Lemma flush_cache_facts (r : Resolver.Resolver (S := S)) :
  r_blocklist (flush_cache r) = r_blocklist r /\ doh_disabled (flush_cache r) = doh_disabled r /\
  resolver_cache_len (flush_cache r) = 0 /\ r_cfg (flush_cache r) = r_cfg r.
Proof.
  unfold flush_cache, resolver_cache_len. destruct (lock_ok (r_cache r)) as [c|] eqn:E.
  - cbn [set_cache r_cache r_blocklist doh_disabled r_cfg]. rewrite lock_ok_set. unfold lock_ok in E.
    destruct (lk_poisoned (r_cache r)); [done|]. unfold cache_len, clear. simpl. by rewrite map_size_empty.
  - by rewrite E.
Qed.

(** What a rebuild leaves: the lists on disk in force, and an empty cache. *)
Lemma rebuild_facts (s : App) :
  lk_poisoned (r_blocklist (ap_resolver s)) = false ->
  lock_ok (r_blocklist (ap_resolver (fst (rebuild s)))) = Some (build (ap_cfg s) (files (ap_world s))) /\
  resolver_cache_len (ap_resolver (fst (rebuild s))) = 0 /\
  ap_cfg (fst (rebuild s)) = ap_cfg s /\ ap_world (fst (rebuild s)) = ap_world s /\
  snd (rebuild s) = len (build (ap_cfg s) (files (ap_world s))).
Proof.
  intros Hp. unfold rebuild, rebuild_install. cbn [fst snd ap_resolver ap_cfg ap_world].
  destruct (flush_cache_facts (install_blocklist (rebuild_read s) (ap_resolver s))) as (-> & _ & -> & _).
  unfold install_blocklist, lock_ok. rewrite Hp. cbn [r_blocklist]. by unfold lock_set; rewrite Hp.
Qed.

Lemma edit_ok_blocks cfg fs raw d :
  blocking_enabled (blocking cfg) = true -> to_ascii_lowercase (trim raw) = d -> valid_domain d ->
  is_hosts_address d = false -> list_ready fs (manual_deny_path cfg) ->
  let bl := build cfg (fst (append_manual fs (manual_deny_path cfg) raw Appended)) in
  snd (append_manual fs (manual_deny_path cfg) raw Appended) = Ok tt /\
  (Blocklist.lookup bl d <> None \/ is_allowed bl d = true).
Proof.
  intros He Hraw Hv Hh Hd. pose proof (append_manual_line fs _ raw d Hraw Hv Hd) as Hl.
  destruct (append_manual fs (manual_deny_path cfg) raw Appended) as [fs' r]. cbn [fst snd].
  destruct Hl as (-> & _ & c & l & ? & ? & ?). split; [done|]. by eapply manual_line_denied.
Qed.

(** C19. The block button works end to end, where it can: with blocking
    enabled, a manual list that is not there yet or is text that ends its last
    line, the disk taking the line, and the lock of the list in force intact,
    a domain (not written as an address) is accepted, and the very next
    question for it, from any client, is answered at home without the network,
    and the cache holds no older answer, unless an allow rule covers the
    domain.  With blocking disabled, or a list whose last line is not ended,
    the API accepts the domain all the same and nothing is blocked. *)
Theorem deny_takes_effect order raw d (s : App) env request client msg q :
  blocking_enabled (blocking (ap_cfg s)) = true -> is_valid_domain raw = true ->
  to_ascii_lowercase (trim raw) = d -> valid_domain d -> is_hosts_address d = false ->
  list_ready (files (ap_world s)) (manual_deny_path (ap_cfg s)) ->
  lk_poisoned (r_blocklist (ap_resolver s)) = false ->
  question_of request = Some (msg, q) -> query_name q = d ->
  let s' := fst (add_deny Appended raw s) in let r := ap_resolver s' in
  is_ok (snd (add_deny Appended raw s)) = true /\ resolver_cache_len r = 0 /\
  (is_allowed (build (ap_cfg s') (files (ap_world s'))) d = true \/
   snd (handle order env request client r) = (0, to_vec (home_answer r msg q))).
Proof.
  intros He Hval Hraw Hv Hh Hready Hlock Hq Hname. cbv zeta. unfold add_deny, edit_list. rewrite Hval. cbn [negb].
  pose proof (edit_ok_blocks (ap_cfg s) (files (ap_world s)) raw d He Hraw Hv Hh Hready) as [Hok Hb].
  destruct (append_manual (files (ap_world s)) (manual_deny_path (ap_cfg s)) raw Appended) as [fs r0].
  cbn [fst snd] in Hok, Hb. subst r0.
  pose proof (rebuild_facts (set_files fs s) Hlock) as (Hbl & Hc & Hcfg & Hw & _).
  destruct (rebuild (set_files fs s)) as [s' n]. cbn [fst snd is_ok] in *.
  split; [done|]. split; [exact Hc|]. rewrite Hcfg, Hw. cbn [set_files ap_cfg ap_world files].
  destruct Hb as [Hb|Hb]; [right|by left].
  assert (exists label, verdict (query_name q) (ap_resolver s') = Some label) as [label Hver].
  { unfold verdict. case_match; [by eexists|]. unfold blocked_by. rewrite Hname, Hbl.
    assert (is_empty d = false) as -> by (destruct d; [by destruct Hv|done]).
    cbn [set_files ap_cfg ap_world files]. destruct (Blocklist.lookup _ d); [by eexists|done]. }
  by rewrite (handle_reply order _ _ _ _ _ _ (prepare_home (env_before env) request client _ msg q label Hq Hver)).
Qed.

(** C20. A reload never weakens the filter by failing: refused because another
    refresh runs it changes nothing at all, and when every source failed the
    block list in force and the cache stay as they were; when it succeeds,
    the lists on disk are in force and no answer from before is cached.  The
    scheduled refresh leaves exactly what a reload leaves. *)
Theorem reload_keeps_filtering pid dir_ok client_ok env (s s' : App) r :
  lk_poisoned (r_blocklist (ap_resolver s)) = false ->
  reload pid dir_ok client_ok env s = (s', r) ->
  scheduled_refresh pid dir_ok client_ok env s = s' /\
  match r with
  | Err e => ap_resolver s' = ap_resolver s /\ (ap_refreshing s = true -> s' = s /\ e = conflict RefreshRunning)
  | Ok (n, o) => ap_refreshing s = false /\ total_failure o = false /\
      lock_ok (r_blocklist (ap_resolver s')) = Some (build (ap_cfg s') (files (ap_world s'))) /\
      n = len (build (ap_cfg s') (files (ap_world s'))) /\ resolver_cache_len (ap_resolver s') = 0
  end.
Proof.
  intros Hlock. unfold reload, scheduled_refresh. destruct (ap_refreshing s) eqn:Er.
  { intros [= <- <-]. naive_solver. }
  destruct (refresh_sources _ _ _ _ _ _ _) as [[w h] o]. destruct (total_failure o) eqn:Et.
  { intros [= <- <-]. split; [done|]. by split. }
  pose proof (rebuild_facts (set_world w h s) Hlock) as (Hbl & Hc & Hcfg & Hw & Hn).
  destruct (rebuild (set_world w h s)) as [s1 n]. intros [= <- <-]. cbn [fst snd] in *.
  split; [done|]. split_and!; try done; rewrite ?Hcfg, ?Hw; done.
Qed.

(** The chart stays readable: at most about a hundred and twenty points. *)
Lemma timeseries_bucket_bounds hours :
  1 <= hours <= 720 -> 60 <= timeseries_bucket hours /\ hours * 3600 <= 121 * timeseries_bucket hours.
Proof.
  intros Hh. unfold timeseries_bucket. split; [lia|].
  rewrite Z.quot_div_nonneg by lia.
  pose proof (Z.div_mod (hours * 3600) 120 ltac:(lia)). pose proof (Z.mod_pos_bound (hours * 3600) 120 ltac:(lia)). lia.
Qed.
End Properties.

(* ------------------------------------------------------------------ *)
(** ** Witnesses *)

Section Witness.
#[local] Existing Instance simple_hickory.
#[local] Existing Instance simple_codec.
#[local] Existing Instance list_observer.

Definition w_token : string := "0123456789abcdef".
Definition w_api_cfg : Config :=
  mk_config default_dns (mk_web_config (mk_socket (V4 0) 8080) (Some w_token)) default_storage
    default_discovery default_blocking default_alerts.
Definition w_app : App (S := list QueryEvent) :=
  mk_app w_api_cfg (mk_world ∅ 0) w_r (new_health w_api_cfg) false.
Definition w_to_str (s : string) : option string := Some s.

Lemma only_admin_mutates_witness :
  mutate w_to_str None FlushCache w_app = (w_app, Some unauthorized) /\
  (w_app = w_app /\ Some unauthorized = Some unauthorized \/
   exists h t, None = Some h /\ w_to_str h = Some ("Bearer " +:+ t) /\
     admin_token (web (ap_cfg w_app)) = Some t /\ 16 <= str_len (trim t) /\
     (w_app, Some unauthorized) = handler FlushCache w_app).
Proof.
  split; [reflexivity|]. apply (only_admin_mutates w_to_str None FlushCache w_app); reflexivity.
Defined.

Example admin_is_let_in : snd (mutate w_to_str (Some ("Bearer " +:+ w_token)) FlushCache w_app) = None.
Proof. reflexivity. Qed.

(** An empty token, which [validate] only refuses beyond loopback, is
    presented by a request without any header. *)
Example empty_token_admits_everyone :
  require_admin w_to_str (mk_config default_dns (mk_web_config (mk_socket (V4 (ipv4 127 0 0 1)) 8080) (Some ""))
    default_storage default_discovery default_blocking default_alerts) None = Ok tt.
Proof. reflexivity. Qed.

Lemma deny_takes_effect_witness :
  let s' := fst (add_deny Appended "a.example" w_app) in
  is_ok (snd (add_deny Appended "a.example" w_app)) = true /\ resolver_cache_len (ap_resolver s') = 0 /\
  (is_allowed (build (ap_cfg s') (files (ap_world s'))) "a.example" = true \/
   snd (handle w_order (w_env 0 w_silent) w_request w_client (ap_resolver s'))
     = (0, to_vec (home_answer (ap_resolver s') (w_query 7 "a.example") (w_q "a.example")))).
Proof.
  apply (deny_takes_effect w_order "a.example" "a.example" w_app); try reflexivity.
  - split; reflexivity.
  - by left.
Defined.

(** Accepted and without effect: with a hand-edited list whose last line is
    not ended (the entry that was there is lost, too), or blocking disabled. *)
Definition w_unended : App (S := list QueryEvent) :=
  mk_app w_api_cfg (mk_world {[manual_deny_path w_api_cfg := "old.example"]} 0) w_r (new_health w_api_cfg) false.
Definition w_disabled : App (S := list QueryEvent) :=
  let b := default_blocking in
  let cfg := mk_config default_dns (web w_api_cfg) default_storage default_discovery
    (mk_blocking_config false (blocking_mode b) (block_sources b) (block_files b) (refresh_hours b) (disable_firefox_doh b) (state_dir b))
    default_alerts in
  mk_app cfg (mk_world ∅ 0) w_r (new_health cfg) false.
Example accepted_without_effect :
  Forall (fun s => is_ok (snd (add_deny Appended "a.example" s)) = true /\
    blocked_by "a.example" (ap_resolver (fst (add_deny Appended "a.example" s))) = None /\
    blocked_by "old.example" (ap_resolver (fst (add_deny Appended "a.example" s))) = None) [w_unended; w_disabled].
Proof. repeat constructor. Qed.

Lemma reload_keeps_filtering_witness :
  let s := mk_app (ap_cfg w_app) (ap_world w_app) (ap_resolver w_app) (ap_health w_app) true in
  scheduled_refresh 1 true true (fun _ => http_ok "") s = s /\ ap_resolver s = ap_resolver s /\
  (ap_refreshing s = true -> s = s /\ conflict RefreshRunning = conflict RefreshRunning).
Proof.
  cbv zeta. apply (reload_keeps_filtering 1 true true (fun _ => http_ok "")
    (mk_app (ap_cfg w_app) (ap_world w_app) (ap_resolver w_app) (ap_health w_app) true) _
    (Err (conflict RefreshRunning))); reflexivity.
Defined.

(** Rebuilds are not serialised: one that read the lists before an edit and
    installs its result after it undoes the edit, although the client that
    made it was told of success. *)
Example stale_rebuild_undoes_edit :
  let stale := rebuild_read w_app in
  let edited := add_deny Appended "a.example" w_app in
  let after := fst (rebuild_install stale (fst edited)) in
  is_ok (snd edited) = true /\
  blocked_by "a.example" (ap_resolver (fst edited)) = Some "deny.list" /\
  blocked_by "a.example" (ap_resolver after) = None.
Proof. split_and!; reflexivity. Qed.
End Witness.
