(* ===== verification/Shown.v ===== *)
(** * From the question to the dashboard (src/dns/mod.rs, src/db.rs, src/api.rs together)

    What a client asked is what the administrator sees: a question that was
    answered is counted as dropped or waits in the write queue; as long as the
    program runs and its transactions commit it gets into the table; and a row
    of the table is shown by the query log of the dashboard at its place,
    newest first, once, under the name of the device that has the address. *)
From S2P Require Import Prelude Str Addr Oui Netinfo Blocklist Config DnsMsg Cache Upstream Db Reports Monitor Resolver Alerts Devices Discovery Rows Daemon Ledger Api.
Open Scope Z_scope.

(* ------------------------------------------------------------------ *)
(** ** Rows of the query table *)

(** Identifiers are given out once. *)
Record ids_ok (db : Db) : Prop := mk_ids_ok {
  io_unique : NoDup (map q_id (t_queries db));
  io_below : Forall (fun q => q_id q < next_query db) (t_queries db) }.

Lemma apply_op_ids db op : ids_ok db -> ids_ok (apply_op db op).
Proof.
  intros [Hu Hb]. destruct op as [e| | | |]; try by split. split; cbn [apply_op t_queries next_query].
  - rewrite map_app. apply NoDup_app. split; [done|]. split; [|apply NoDup_singleton].
    intros i (q & -> & Hq)%list_elem_of_fmap Hi. apply list_elem_of_singleton in Hi.
    rewrite Forall_forall in Hb. specialize (Hb q Hq). simpl in *. lia.
  - apply Forall_app. split; [|by apply Forall_singleton; simpl; lia].
    eapply Forall_impl; [exact Hb|]. simpl. lia.
Qed.

Lemma filter_ids f (l : list QueryRec) : NoDup (map q_id l) -> NoDup (map q_id (List.filter f l)).
Proof.
  induction l as [|q l IH]; [done|]. intros [Hq Hl]%NoDup_cons. simpl. case_match; [|by apply IH].
  apply NoDup_cons. split; [|by apply IH]. intros (q' & Hid & Hq')%list_elem_of_fmap. apply Hq. rewrite Hid.
  apply list_elem_of_fmap_2. apply list_elem_of_In, filter_In in Hq' as [Hq' _]. by apply list_elem_of_In.
Qed.

Lemma db_step_ids a b : db_step a b -> ids_ok a -> ids_ok b.
Proof.
  intros [[] ops db|p days db] Ha; [|done|].
  - by apply (fold_left_inv ids_ok); [|intros; apply apply_op_ids].
  - apply (prune_inv ids_ok); [|by intros c d []; split..|done]. intros c d [Hu Hb]. split; [by apply filter_ids|by apply Forall_list_filter].
Qed.
Lemma db_reachable_ids db : rtc db_step empty_db db -> ids_ok db.
Proof.
  assert (forall a b, rtc db_step a b -> ids_ok a -> ids_ok b) as Hr
    by (induction 1; eauto using db_step_ids).
  intros Hd. apply (Hr _ _ Hd). by split; constructor.
Qed.

Lemma writer_round_steps retention round w db : rtc db_step db (snd (writer_round retention round w db)).
Proof.
  unfold writer_round, written_batch. destruct (w_pending _) as [|op l]; [done|]. cbn [snd].
  eapply rtc_l; [apply step_flush|]. destruct (rd_prune round) as [p|]; [apply rtc_once, step_prune|done].
Qed.

(* ------------------------------------------------------------------ *)
(** ** The query log, page by page *)

(** What the search form asks for: a part of the name, a client, a status;
    a field left blank asks for nothing. *)
Definition wanted (like : string -> string -> bool) (p : QueryParams) (q : QueryRec) : bool :=
  is_none_or (fun s => like ("%" +:+ s +:+ "%") (ev_domain (q_event q))) (filled (qp_search p))
  && is_none_or (fun c => (ev_client_ip (q_event q) =? c)%string) (filled (qp_client p))
  && is_none_or (fun s => (as_str (ev_status (q_event q)) =? s)%string) (filled (qp_status p)).

(** How many of the rows that [sel] selects are newer. *)
Definition newer (q q' : QueryRec) : bool := negb (q_id q' =? q_id q) && newest_first q' q.
Definition rank (sel : QueryRec -> bool) (db : Db) (q : QueryRec) : nat :=
  length (List.filter (newer q) (List.filter sel (t_queries db))).

(** A row as the log shows it. *)
Definition shown_as (db : Db) (q : QueryRec) : QueryRow :=
  mk_query_row (q_event q) (head (devices_at db (ev_client_ip (q_event q))) ≫= dr_hostname).

Lemma left_join_head db l : devices_ok (t_devices db) ->
  flat_map (left_join db) l = map (fun q => (q, head (devices_at db (ev_client_ip (q_event q))))) l.
Proof.
  intros Hd. induction l as [|q l IH]; [done|]. simpl. rewrite IH. unfold left_join.
  pose proof (devices_at_short db (ev_client_ip (q_event q)) Hd) as Hs.
  destruct (devices_at _ _) as [|d [|d' r]]; simpl in *; [done|done|lia].
Qed.

Lemma newest_first_total a b : newest_first a b = false -> newest_first b a = true.
Proof.
  unfold newest_first. rewrite orb_false_iff, andb_false_iff, orb_true_iff, andb_true_iff.
  rewrite !Z.ltb_lt, !Z.ltb_ge, !Z.eqb_eq, !Z.eqb_neq, !Z.leb_le, !Z.leb_gt. lia.
Qed.
Lemma newest_first_trans a b c : newest_first a b = true -> newest_first b c = true -> newest_first a c = true.
Proof.
  unfold newest_first. rewrite !orb_true_iff, !andb_true_iff, !Z.ltb_lt, !Z.eqb_eq, !Z.leb_le. lia.
Qed.
Lemma newest_first_antisym a b : newest_first a b = true -> newest_first b a = true -> q_id a = q_id b.
Proof.
  unfold newest_first. rewrite !orb_true_iff, !andb_true_iff, !Z.ltb_lt, !Z.eqb_eq, !Z.leb_le. lia.
Qed.

(** A sorted list holds an element behind exactly those that are newer. *)
Lemma sorted_rank (l1 l2 : list QueryRec) q :
  StronglySorted (fun a b => newest_first a b = true) (l1 ++ q :: l2) -> NoDup (map q_id (l1 ++ q :: l2)) ->
  List.filter (newer q) (l1 ++ q :: l2) = l1 /\ List.filter (fun q' => q_id q' =? q_id q) (l1 ++ q :: l2) = [q].
Proof.
  intros Hs Hn. rewrite map_app in Hn. apply NoDup_app in Hn as (_ & H12 & [Hq2 _]%NoDup_cons).
  assert (forall x, x ∈ l1 -> q_id x <> q_id q) as H1.
  { intros x Hx E. apply (H12 (q_id x)); [by apply list_elem_of_fmap_2|]. rewrite E. left. }
  assert (forall x, x ∈ l2 -> q_id x <> q_id q) as H2.
  { intros x Hx E. apply Hq2. rewrite <-E. by apply list_elem_of_fmap_2. }
  assert (forall x, x ∈ l1 -> newest_first x q = true) as Hb.
  { clear -Hs. induction l1 as [|y l1 IH]; intros x Hx; [by apply elem_of_nil in Hx|]. simpl in Hs.
    apply StronglySorted_inv in Hs as [Hs Hy]. apply elem_of_cons in Hx as [->|Hx]; [|by apply IH].
    apply Forall_app in Hy as [_ Hy]. by apply Forall_inv in Hy. }
  assert (forall x, x ∈ l2 -> newest_first q x = true) as Ha.
  { clear -Hs. induction l1 as [|y l1 IH]; [|apply IH; by apply StronglySorted_inv in Hs as [Hs _]].
    simpl in Hs. apply StronglySorted_inv in Hs as [_ Hs]. by rewrite Forall_forall in Hs. }
  split; rewrite List.filter_app; simpl.
  - unfold newer at 2. rewrite Z.eqb_refl. cbn [negb andb]. rewrite (filter_all _ l1), (filter_none _ l2), app_nil_r; [done|..].
    + intros x Hx. unfold newer. rewrite (proj2 (Z.eqb_neq _ _) (H2 x Hx)). simpl.
      destruct (newest_first x q) eqn:E; [|done]. by destruct (H2 x Hx), (newest_first_antisym _ _ E (Ha x Hx)).
    + intros x Hx. unfold newer. by rewrite (proj2 (Z.eqb_neq _ _) (H1 x Hx)), Hb.
  - rewrite Z.eqb_refl, (filter_none _ l1), (filter_none _ l2); [done|..]; intros x Hx; apply Z.eqb_neq; auto.
Qed.

(** The rows that match, newest first. *)
Definition matching (like : string -> string -> bool) (db : Db) (f : QueryFilter) : list QueryRec :=
  sort_by newest_first (List.filter (matches_filter like f) (t_queries db)).

Lemma joined_matching like db f : devices_ok (t_devices db) ->
  joined_queries like db f = map (fun q => (q, head (devices_at db (ev_client_ip (q_event q))))) (matching like db f).
Proof. intros Hd. unfold joined_queries, matching. rewrite left_join_head by done. by apply sort_by_map. Qed.

Lemma matching_at like db f q : ids_ok db -> q ∈ t_queries db -> matches_filter like f q = true ->
  matching like db f !! rank (matches_filter like f) db q = Some q /\
  List.filter (fun q' => q_id q' =? q_id q) (matching like db f) = [q].
Proof.
  intros [Hu _] Hq Hm. set (M := List.filter (matches_filter like f) (t_queries db)).
  assert (matching like db f ≡ₚ M) as HL by apply sort_by_perm.
  assert (StronglySorted (fun a b => newest_first a b = true) (matching like db f)) as Hs
    by (apply sort_by_sorted; [exact newest_first_total|exact newest_first_trans]).
  assert (NoDup (map q_id (matching like db f))) as Hn.
  { assert (map q_id (matching like db f) ≡ₚ map q_id M) as -> by by apply Permutation_map. by apply filter_ids. }
  assert (q ∈ matching like db f) as Hin.
  { rewrite HL. apply list_elem_of_In, filter_In. split; [by apply list_elem_of_In|done]. }
  apply list_elem_of_split in Hin as (l1 & l2 & E). rewrite E in Hs, Hn.
  destruct (sorted_rank l1 l2 q Hs Hn) as [Hr Ho]. split; [|by rewrite E].
  assert (rank (matches_filter like f) db q = length l1) as ->.
  { unfold rank. fold M. rewrite <-Hr, <-E. apply Permutation_length, filter_perm. by rewrite HL. }
  rewrite E. by apply list_lookup_middle.
Qed.

(** The page of the log that holds a row (a hundred rows, unless the request
    says otherwise, and at most a thousand) shows it at its place, and the
    whole log shows it once. *)
Definition on_the_log (like : string -> string -> bool) (db : Db) (p : QueryParams) (q : QueryRec) : Prop :=
  let first := Z.to_nat (default 0 (qp_offset p)) in
  let size := Z.to_nat (Z.max 1 (Z.min (default 100 (qp_limit p)) 1000)) in
  let j := rank (wanted like p) db q in
  ((first <= j < first + size)%nat -> api_queries like db p !! (j - first)%nat = Some (shown_as db q)) /\
  List.filter (fun r => q_id (fst r) =? q_id q) (joined_queries like db (queries_filter p))
    = [(q, head (devices_at db (ev_client_ip (q_event q))))].

Lemma page_size z : clamp 1 1000 z = Z.max 1 (Z.min z 1000).
Proof. unfold clamp. repeat case_match; lia. Qed.

Lemma row_on_the_log like db p q :
  devices_ok (t_devices db) -> ids_ok db -> q ∈ t_queries db -> wanted like p q = true ->
  on_the_log like db p q.
Proof.
  intros Hd Hi Hq Hm. destruct (matching_at like db (queries_filter p) q Hi Hq Hm) as [Hat Hone].
  unfold on_the_log. rewrite joined_matching by done. split.
  - rewrite <-page_size. intros Hj. unfold api_queries, recent_queries. rewrite joined_matching by done.
    rewrite clamp_id by (apply clamp_bounds; lia). change (wanted like p) with (matches_filter like (queries_filter p)) in *.
    change (default 0 (qp_offset p)) with (f_offset (queries_filter p)) in *.
    change (clamp 1 1000 (default 100 (qp_limit p))) with (f_limit (queries_filter p)) in *.
    rewrite !list_lookup_fmap. rewrite lookup_take_lt by lia. rewrite lookup_drop.
    replace (Z.to_nat (f_offset (queries_filter p)) + _)%nat with (rank (matches_filter like (queries_filter p)) db q) by lia.
    rewrite list_lookup_fmap, Hat. done.
  - revert Hone. generalize (matching like db (queries_filter p)) as l. clear. intros l.
    enough (forall g : QueryRec -> QueryRec * option DeviceRec, (forall x, fst (g x) = x) ->
      List.filter (fun r => q_id (fst r) =? q_id q) (map g l) = map g (List.filter (fun q' => q_id q' =? q_id q) l)) as H.
    { intros Hone. by rewrite H, Hone. }
    intros g Hg. induction l as [|x l IH]; [done|]. simpl. rewrite Hg, IH. by case_match.
Qed.

(* ------------------------------------------------------------------ *)
(** ** Through the queue *)

(** The backlog of [b] is that of [a] with more behind it. *)
Definition grows (a b : Writer) : Prop := exists l, backlog b = backlog a ++ l.
#[export] Instance grows_preorder : PreOrder grows.
Proof.
  split; [intros w; exists []; by rewrite app_nil_r|].
  intros a b c (l & Hb) (k & Hc). exists (l ++ k). by rewrite Hc, Hb, <-app_assoc.
Qed.
Lemma sends_grows P a b : sends P (Some a) (Some b) -> grows a b.
Proof.
  intros (l & _ & [= ->]). revert a. induction l as [|op l IH]; intros a; [exists []; by rewrite app_nil_r|].
  etransitivity; [|apply (IH (send op a))]. eexists. apply send_backlog.
Qed.
Lemma receive_grows w : grows w (receive w).
Proof. exists []. by rewrite receive_backlog, app_nil_r. Qed.

Lemma quiet_drops a b : quiet a b -> d_queries (w_dropped b) = d_queries (w_dropped a).
Proof.
  intros (l & Hl & [= ->]). revert a. induction Hl as [|op l Hk _ IH]; intros a; [done|].
  change (send_all (op :: l) a) with (send_all l (send op a)). rewrite IH. unfold send. case_match; [done|]. by destruct op.
Qed.

(** A round that prunes keeps what is not older than [ts]. *)
Definition retains (ts retention : Z) (round : Round) : Prop :=
  forall p, rd_prune round = Some p -> pr_now p - retention * 86400 <= ts.

Definition written (e : QueryEvent) (db : Db) : Prop := exists q, q ∈ t_queries db /\ q_event q = e.
(** In the table, or among the oldest [n] operations not yet written. *)
Definition pending (e : QueryEvent) (n : nat) (w : Writer) (db : Db) : Prop :=
  written e db \/ exists j, (j < n)%nat /\ backlog w !! j = Some (OpQuery e).

Lemma apply_op_keeps db op q : q ∈ t_queries db -> q ∈ t_queries (apply_op db op).
Proof. intros Hq. destruct op; try done. apply elem_of_app. by left. Qed.
Lemma apply_ops_written e ops db : written e db \/ OpQuery e ∈ ops -> written e (fold_left apply_op ops db).
Proof.
  revert db. induction ops as [|op ops IH]; intros db H; [by destruct H as [|?%elem_of_nil]|]. apply IH.
  destruct H as [(q & Hq & He)|[<-|Hop]%elem_of_cons]; [left..|by right].
  - exists q. split; [by apply apply_op_keeps|done].
  - eexists. split; [apply elem_of_app; right; apply list_elem_of_singleton; reflexivity|done].
Qed.
Lemma prune_written e p days db : pr_now p - days * 86400 <= ev_ts e -> written e db -> written e (prune p days db).
Proof.
  intros Hts Hw. unfold prune. destruct (pr_done p) as [|n]; [done|]. cbn [take fold_left].
  assert (forall ds db, Forall (fun d : Db -> Db => forall db, t_queries (d db) = t_queries db) ds ->
    t_queries (fold_left (fun db d => d db) ds db) = t_queries db) as Hkeep.
  { intros ds db0 Hds. revert db0. induction Hds as [|d ds Hd _ IH]; intros db0; [done|]. simpl. by rewrite IH, Hd. }
  unfold written. rewrite Hkeep; [|apply Forall_take; by repeat constructor].
  destruct Hw as (q & Hq & He). exists q. split; [|done]. apply list_elem_of_In, filter_In. split; [by apply list_elem_of_In|].
  rewrite He. apply negb_true_iff, Z.ltb_ge. exact Hts.
Qed.

Lemma writer_round_pending e n retention round w db :
  rd_commits round = true -> retains (ev_ts e) retention round -> pending e (S n) w db ->
  let p := writer_round retention round w db in pending e n (fst p) (snd p).
Proof.
  intros Hc Hr Hp p. destruct (writer_round_spec retention round w db) as (Happ & Hrest & _ & Hs). fold p in Hrest, Hs.
  pose proof (gathered_some round w) as Hsome. set (batch := w_pending (gathered round w)) in *.
  unfold pending. rewrite Hrest, Hs.
  assert (forall l, written e db \/ OpQuery e ∈ l -> written e (written_batch retention round l db)) as Hwritten.
  { intros l H. unfold written_batch, flush. rewrite Hc. apply apply_ops_written in H.
    destruct (rd_prune round) as [pr|] eqn:Er; [|done]. by apply prune_written; [apply Hr|]. }
  destruct Hp as [Hp|(j & Hj & Hq)]; [left; destruct batch; [done|]; apply Hwritten; by left|].
  rewrite Happ in Hq. destruct (decide (j < length batch)%nat) as [Hjk|Hjk].
  - left. rewrite lookup_app_l in Hq by done. destruct batch as [|op l] eqn:E; [done|].
    apply Hwritten. right. rewrite <-E in *. by apply (list_elem_of_lookup_2 _ j).
  - right. exists (j - length batch)%nat. rewrite lookup_app_r in Hq by lia. split; [|done].
    assert (backlog w <> []) as Hb by (rewrite Happ; intros [-> E]%app_nil; by rewrite E in Hq).
    specialize (Hsome Hb). destruct batch; [done|]. simpl in *. lia.
Qed.

Lemma grows_pending e n w w' db : grows w w' -> pending e n w db -> pending e n w' db.
Proof.
  intros (l & Hl) [H|(j & Hj & Hq)]; [by left|right]. exists j. split; [done|]. rewrite Hl. by apply lookup_app_l_Some.
Qed.

Section Shown.
Context `{Codec} (hash : option Z * option string * option string * bool -> Z).
Context (order : gmap Key Cache.Entry -> list (Key * Cache.Entry)).
#[local] Instance shown_observer : QueryObserver Shared := shared_observer hash.
Abbreviation Resolver := (Resolver.Resolver (S := Shared)).
Abbreviation queue_of r := (sh_writer (r_obs (r : Resolver))).

(** ** What an answer leaves in the queue *)

(** The event is last in the backlog, or one more query counts as dropped. *)
Definition recorded (a : Asked) (ts : Z) (w w' : Writer) : Prop :=
  (exists e l, event_for a e /\ ev_ts e = ts /\ backlog w' = l ++ [OpQuery e]) \/
  d_queries (w_dropped w') = wrap 64 (d_queries (w_dropped w) + 1).

Lemma touch_quiet ck ip r : quiet (queue_of r) (sh_writer (touch (ck_touch ck) (ck_touch_ts ck) ip (r_obs r))).
Proof. apply (through_quiet hash (touch_ip (ck_touch ck) (ck_touch_ts ck) ip)). intros. apply touch_steps. Qed.
Lemma learn_quiet ck m r : quiet (queue_of r) (sh_writer (learn (ck_learn ck) (ck_learn_ts ck) m (r_obs r))).
Proof. apply (through_quiet hash (learn_from_dns hash (ck_learn ck) (ck_learn_ts ck) m)). intros. apply learn_steps. Qed.

Lemma log_grows ck name t ip st el an bl r : grows (queue_of r) (queue_of (log ck name t ip st el an bl r)).
Proof.
  etransitivity; [eapply sends_grows, touch_quiet|]. apply (sends_grows (fun _ => True)). by apply sends_one.
Qed.
Lemma finish_grows ck client msg q key t res r : grows (queue_of r) (queue_of (fst (finish order ck client msg q key t res r))).
Proof.
  unfold finish. destruct res as [raw|e]; [destruct (from_vec raw) as [m|]|]; cbn [fst]; try apply log_grows.
  - etransitivity; [|apply log_grows]. etransitivity; [|eapply sends_grows, learn_quiet].
    by rewrite cache_store_queue.
  - etransitivity; [|apply log_grows]. done.
Qed.
Lemma daemon_grows r r' : daemon_step hash order r r' -> grows (queue_of r) (queue_of r').
Proof.
  destruct 1 as [r r' Hb|ck request client r|ck client msg q key t res r _|request r|r]; [..|done|done].
  - eapply sends_grows, background_quiet, Hb.
  - eapply sends_grows, (prepare_sent hash).
  - apply finish_grows.
Qed.

Lemma log_recorded ck request client msg q st el an bl r :
  question_of request = Some (msg, q) ->
  recorded (request, client) (ck_log_ts ck) (queue_of r)
    (queue_of (log ck (query_name q) (query_type q) (sa_ip client) st el an bl r)).
Proof.
  intros Hq. unfold log, recorded. cbn [set_obs r_obs record_query shown_observer shared_observer observe_query set_writer sh_writer].
  rewrite <-(quiet_drops _ _ (touch_quiet ck (sa_ip client) r)).
  set (w := sh_writer (touch _ _ _ _)). change (sh_writer (through _ (r_obs r))) with w.
  pose proof (send_backlog (OpQuery (mk_event (ck_log_ts ck) (show_ip (sa_ip client)) (query_name q) (show_rtype (query_type q)) st el an bl)) w) as Hb.
  unfold send in *. case_match; [left|by right].
  eexists _, (backlog w). split; [|split; [|exact Hb]]; [|done]. by exists msg, q.
Qed.

(** A question is answered at once (blocked, or from the cache), or when its
    upstreams have answered or failed. *)
Inductive answered (a : Asked) (ts : Z) : Resolver -> Resolver -> Prop :=
  | answered_at_once ck r r' out :
      is_question a = true -> ck_log_ts ck = ts ->
      prepare ck (fst a) (snd a) r = (r', Reply out) -> answered a ts r r'
  | answered_later ck msg q key t res r :
      question_of (fst a) = Some (msg, q) -> ck_log_ts ck = ts -> 0 <= t ->
      answered a ts r (fst (finish order ck (snd a) msg q key t res r)).

Lemma recorded_quiet a ts w1 w2 w3 : quiet w1 w2 -> recorded a ts w2 w3 -> recorded a ts w1 w3.
Proof. intros Hq [Hl|Hr]; [by left|right]. by rewrite Hr, (quiet_drops _ _ Hq). Qed.

Lemma answered_recorded a ts r r' : answered a ts r r' -> recorded a ts (queue_of r) (queue_of r').
Proof.
  destruct a as [request client]. destruct 1 as [ck r r' out Hq <- Hp|ck msg q key t res r Hq <- _]; cbn [fst snd] in *.
  - unfold is_question in Hq. cbn [fst] in Hq.
    destruct (prepare_cases request r) as [Hn|(msg & q & Hq' & [[label Hv]|Hv])]; [by rewrite Hn in Hq|..].
    + rewrite (prepare_home _ _ _ _ msg q label) in Hp by done. injection Hp as <- _.
      eapply recorded_quiet; [|by apply log_recorded with (msg := msg)]. done.
    + rewrite (prepare_lookup _ _ _ _ msg q) in Hp by done.
      pose proof (cache_lookup_queue (ck_lookup ck) (from_request msg (query_name q)) (set_stats add_total r)) as Hl.
      destruct (snd _) as [hit|]; [|done]. injection Hp as <- _.
      eapply recorded_quiet; [|by apply log_recorded with (msg := msg)]. cbn [set_stats r_obs]. by rewrite Hl.
  - unfold finish. destruct res as [raw|e]; [destruct (from_vec raw) as [m|]|]; cbn [fst].
    + eapply recorded_quiet; [|by apply log_recorded with (msg := msg)]. cbn [set_obs r_obs].
      etransitivity; [|apply learn_quiet]. by rewrite cache_store_queue.
    + by apply log_recorded with (msg := msg).
    + eapply recorded_quiet; [|by apply log_recorded with (msg := msg)]. done.
Qed.

Lemma answered_step a ts r r' : answered a ts r r' -> daemon_step hash order r r'.
Proof.
  destruct 1 as [ck r r' out _ _ Hp|ck msg q key t res r _ _ Ht]; [|by apply d_finish].
  replace r' with (fst (prepare ck (fst a) (snd a) r)) by by rewrite Hp. apply d_prepare.
Qed.

(* ------------------------------------------------------------------ *)
(** ** Going on without a restart *)

Definition resolver_moved (r : Resolver) (s : System) : System := mk_system r (sy_last s) (sy_db s).
Definition received_one (s : System) : System :=
  mk_system (write (receive (sy_writer s)) s) (sy_last s) (sy_db s).
Definition round_done (retention : Z) (round : Round) (s : System) : System :=
  let p := writer_round retention round (sy_writer s) (sy_db s) in
  mk_system (write (fst p) s) (sy_last s) (snd p).

(** The tasks go on, in any interleaving, while the writer writes [n] batches,
    which commit and prune nothing as recent as [ts]. *)
Inductive goes_on (ts : Z) : nat -> System -> System -> Prop :=
  | go_here s : goes_on ts 0 s s
  | go_task n r s s' : daemon_step hash order (sy_resolver s) r -> goes_on ts n (resolver_moved r s) s' -> goes_on ts n s s'
  | go_recorder n s1 s2 s3 : recorder_step s1 s2 -> goes_on ts n s2 s3 -> goes_on ts n s1 s3
  | go_receive n s s' : goes_on ts n (received_one s) s' -> goes_on ts n s s'
  | go_writer n retention round s s' :
      rd_commits round = true -> retains ts retention round ->
      goes_on ts n (round_done retention round s) s' -> goes_on ts (S n) s s'.

Lemma goes_on_steps ts n s s' : goes_on ts n s s' -> rtc (system_step hash order) s s'.
Proof.
  induction 1 as [s|n r s s' Hr _ IH|n s1 s2 s3 Hs _ IH|n s s' _ IH|n retention round s s' _ _ _ IH]; [done|..].
  - eapply rtc_l; [by apply s_daemon|exact IH].
  - eapply rtc_l; [by apply s_recorder|exact IH].
  - eapply rtc_l; [apply (s_receive hash order)|exact IH].
  - eapply rtc_l; [apply (s_writer hash order retention round)|exact IH].
Qed.

Lemma recorder_grows s s' : recorder_step s s' -> grows (sy_writer s) (sy_writer s') /\ sy_db s' = sy_db s.
Proof.
  destruct 1 as [now ts text s st|connect ts route upstream s Hc|ts client delivered k s Hk p]; (split; [|done]).
  - eapply sends_grows, throughput_quiet.
  - eapply sends_grows, latency_quiet.
  - eapply sends_grows, drain_one_quiet.
Qed.

Lemma goes_on_pending e n m s s' : goes_on (ev_ts e) n s s' ->
  pending e (n + m) (sy_writer s) (sy_db s) -> pending e m (sy_writer s') (sy_db s').
Proof.
  induction 1 as [s|n r s s' Hr _ IH|n s1 s2 s3 Hs _ IH|n s s' _ IH|n retention round s s' Hc Hret _ IH]; intros Hp; [done|apply IH..].
  - eapply grows_pending; [|exact Hp]. by apply daemon_grows.
  - destruct (recorder_grows _ _ Hs) as [Hg ->]. by eapply grows_pending.
  - eapply grows_pending; [apply receive_grows|exact Hp].
  - by apply writer_round_pending.
Qed.

Lemma system_step_db s s' : system_step hash order s s' -> rtc db_step (sy_db s) (sy_db s').
Proof.
  destruct 1 as [r s Hr|s s' Hr|s|retention round s p|cfg lan bl o now s]; [done| |done|apply writer_round_steps|done].
  by destruct (recorder_grows _ _ Hr) as [_ ->].
Qed.
Lemma system_db s s' : rtc (system_step hash order) s s' -> rtc db_step (sy_db s) (sy_db s').
Proof. induction 1 as [|s1 s2 s3 Hs _ IH]; [done|]. etransitivity; [by apply system_step_db|exact IH]. Qed.

(* ------------------------------------------------------------------ *)
(** ** Property *)

(** C16. What was asked is shown.  In any state the program can reach, over any
    number of restarts, an answered question either counts as one more dropped
    query, or its event (who asked, for what, when) gets to the dashboard:
    once the writer has written as many batches as operations were waiting,
    each committed and none followed by a prune that removes queries as recent
    as this one, whatever else went on, the event is a row of the log.  For every search
    that it matches, the page it belongs to, newest first, shows it at its
    place with the name of the device that has the address, and the log shows
    it no second time. *)
Theorem answered_is_shown cfg lan bl o now s a ts r :
  rtc (system_step hash order) (started hash cfg lan bl o now empty_db) s ->
  answered a ts (sy_resolver s) r ->
  let s1 := resolver_moved r s in
  d_queries (w_dropped (sy_writer s1)) = wrap 64 (d_queries (w_dropped (sy_writer s)) + 1) \/
  exists e, event_for a e /\ ev_ts e = ts /\
    forall n s2, goes_on ts n s1 s2 -> (length (backlog (sy_writer s1)) <= n)%nat ->
    exists q, q ∈ t_queries (sy_db s2) /\ q_event q = e /\
      forall like p, wanted like p q = true -> on_the_log like (sy_db s2) p q.
Proof.
  intros Hs Ha s1. destruct (answered_recorded _ _ _ _ Ha) as [(e & l & He & Hts & Hl)|Hd]; [right|by left].
  exists e. split; [done|]. split; [done|]. intros n s2 Hgo Hn.
  assert (rtc db_step empty_db (sy_db s2)) as Hdb.
  { apply (system_db (started hash cfg lan bl o now empty_db)). etransitivity; [exact Hs|].
    eapply rtc_l; [by eapply s_daemon, answered_step|by eapply goes_on_steps]. }
  assert (pending e (n + 0) (sy_writer s1) (sy_db s1)) as Hp.
  { right. exists (length l). change (backlog (sy_writer s1)) with (backlog (queue_of r)) in *.
    rewrite Hl in *. rewrite length_app in Hn. simpl in Hn. split; [lia|]. by apply list_lookup_middle. }
  subst ts. destruct (goes_on_pending _ _ _ _ _ Hgo Hp) as [(q & Hq & He')|(j & Hj & _)]; [|lia].
  exists q. split; [done|]. split; [done|]. intros like p Hm.
  apply row_on_the_log; [by apply db_reachable_ok|by apply db_reachable_ids|done|done].
Qed.
End Shown.

(* ------------------------------------------------------------------ *)
(** ** Witness *)

Section Witness.
#[local] Existing Instance simple_hickory.
#[local] Existing Instance simple_codec.
#[local] Instance w_shown_observer : QueryObserver Shared := shared_observer w_hash.

(** A blocked name is asked for; the writer takes the two operations that
    wait, and the first page of the log has the question. *)
Definition w_began : System := started w_hash default_config None w_block ∅ 0 empty_db.
Definition w_replied : Resolver.Resolver (S := Shared) := fst (prepare (w_clock 0) w_ads w_client (sy_resolver w_began)).
Definition w_later : System := round_done 14 (mk_round 512 true None) (resolver_moved w_replied w_began).
Definition w_page : QueryParams := mk_query_params None None None (Some "192.168.1.20") None.

Lemma w_replied_answered : answered w_hash Cache.w_order (w_ads, w_client) 0 (sy_resolver w_began) w_replied.
Proof.
  destruct (prepare (w_clock 0) w_ads w_client (sy_resolver w_began)) as [r [out|msg q key]] eqn:E.
  - apply (answered_at_once w_hash Cache.w_order (w_ads, w_client) 0 (w_clock 0) _ _ out); [reflexivity|reflexivity|].
    unfold w_replied. by rewrite E.
  - vm_compute in E. discriminate.
Qed.

Lemma answered_is_shown_witness :
  map (fun r => ev_domain (qr_event r)) (api_queries Db.w_like (sy_db w_later) w_page) = ["ads.example"] /\
  exists q, q ∈ t_queries (sy_db w_later) /\ on_the_log Db.w_like (sy_db w_later) w_page q.
Proof.
  split; [vm_compute; reflexivity|].
  destruct (answered_is_shown w_hash Cache.w_order default_config None w_block ∅ 0 w_began (w_ads, w_client) 0 w_replied
    (rtc_refl _ _) w_replied_answered) as [Hd|(e & (msg & q & Hq & Hip & _) & _ & Hshown)];
    [vm_compute in Hd; discriminate|].
  destruct (Hshown 1%nat w_later) as (row & Hrow & He & Hlog).
  - apply go_writer with (retention := 14) (round := mk_round 512 true None); [reflexivity|by intros now Hnow|apply go_here].
  - vm_compute. repeat constructor.
  - exists row. split; [exact Hrow|]. apply Hlog.
    unfold wanted. cbn -[show_ip]. rewrite He, Hip. reflexivity.
Defined.
End Witness.
