(* ===== verification/Control.v ===== *)
(** * The dashboard's requests and the refresh, interleaved (src/api.rs, src/main.rs, src/blocklist.rs)

    [Api.v] has each handler as one operation.  The runtime serves them
    concurrently: a handler gives way at every await, the blocking pool reads
    the lists while edits go on, and a client that hangs up takes its handler
    with it.  Here the handlers are tasks with the points between which
    others may run, and what holds of all their interleavings is proved:
    one refresh at a time, and what is in force was on disk.  The handlers of
    [Api.v] are the runs without interruption. *)
From S2P Require Import Prelude Str Addr Acl Blocklist Config Lists DnsMsg Cache Upstream Db Resolver Api.
Open Scope Z_scope.

(* ------------------------------------------------------------------ *)
(** ** The edits of a manual list, cut where others may run *)

(** [append_manual] up to the check for a duplicate: whether to write. *)
Definition append_wanted (fs : Files) (path domain : string) : bool :=
  negb (is_some_and (fun existing => existsb (fun l => (trim l =? to_ascii_lowercase (trim domain))%string) (lines existing))
          (read_to_string fs path)).
(** And the write.  The file is opened for appending: what it holds is what
    it holds now. *)
Definition append_write (fs : Files) (path domain : string) (io : AppendOutcome) : Files * result ManualError unit :=
  let old := default "" (fs !! path) in
  match io with
  | Appended => (<[path := old +:+ to_ascii_lowercase (trim domain) +:+ String newline ""]> fs, Ok tt)
  | AppendFailed part => (<[path := old +:+ part]> fs, Err ManualIo)
  | _ => (fs, Err ManualIo)
  end.

(** [remove_manual] up to the text it is to write, if the file can be read. *)
Definition remove_text (fs : Files) (path domain : string) : option string :=
  let! existing := read_to_string fs path in
  Some (str_join (String newline "") (kept_lines (to_ascii_lowercase (trim domain)) existing) +:+ String newline "").
Definition remove_write (fs : Files) (path text : string) (io : WriteOutcome) : Files * result ManualError unit :=
  let '(fs', done) := write_file fs path text io in (fs', if done then Ok tt else Err ManualIo).

Lemma append_manual_steps fs path domain io :
  is_valid_domain (to_ascii_lowercase (trim domain)) = true -> io <> MkdirFailed ->
  append_manual fs path domain io =
    if append_wanted fs path domain then append_write fs path domain io else (fs, Ok tt).
Proof.
  unfold is_valid_domain, append_manual, append_wanted. intros -> Hio. cbn [negb].
  destruct io; try done; by destruct (is_some_and _ _).
Qed.
Lemma remove_manual_steps fs path domain io :
  remove_manual fs path domain io =
    match remove_text fs path domain with Some text => remove_write fs path text io | None => (fs, Ok tt) end.
Proof. unfold remove_manual, remove_text. by destruct (read_to_string fs path). Qed.

(** The manual lists are not locked: a removal that read the file before
    another client's domain was added to it writes that domain away again,
    after its client was told of success. *)
Example removal_loses_addition :
  let deny := "lists/deny.list" in
  let fs := (<[deny := "a.example" +:+ String newline ""]> ∅ : Files) in
  let text := default "" (remove_text fs deny "a.example") in
  let added := append_write fs deny "b.example" Appended in
  snd added = Ok tt /\ snd (remove_write (fst added) deny text Written) = Ok tt /\
  append_wanted (fst added) deny "b.example" = false /\
  append_wanted (fst (remove_write (fst added) deny text Written)) deny "b.example" = true.
Proof. by vm_compute. Qed.

(* ------------------------------------------------------------------ *)
(** ** Tasks *)

(** Where a handler is while others run.  [guard] is whether it holds the
    refresh lock; [since] is how many states the files had had when its
    reading began. *)
Inductive Task : Type :=
  | Fetching (i : nat) (urls : list string) (o : RefreshOutcome)
  | Appending (path domain : string)
  | Rewriting (path text : string)
  | Reading (guard : bool) (since : nat)
  | Installing (guard : bool) (since : nat) (fresh : Blocklist).
Definition guarded (t : Task) : bool :=
  match t with Fetching _ _ _ => true | Reading g _ | Installing g _ _ => g | _ => false end.

Section Control.
Context `{Codec} {S : Type} `{!QueryObserver S}.
Abbreviation App := (App (S := S)).
Abbreviation Resolver := (Resolver.Resolver (S := S)).

(** The shared state, the tasks, the states the files have had (the present
    one first), and since which of them the list in force was read. *)
Record Control : Type := mk_control {
  ct_app : App; ct_tasks : gmap nat Task; ct_past : list Files; ct_from : nat }.
Abbreviation cfg_of c := (ap_cfg (ct_app c)).
Abbreviation files_of c := (files (ap_world (ct_app c))).

Definition set_lock (b : bool) (a : App) : App :=
  mk_app (ap_cfg a) (ap_world a) (ap_resolver a) (ap_health a) b.
Definition set_resolver (r : Resolver) (a : App) : App :=
  mk_app (ap_cfg a) (ap_world a) r (ap_health a) (ap_refreshing a).
(** The lock is let go when its guard is dropped. *)
Definition release (t : Task) (a : App) : App := if guarded t then set_lock false a else a.

Definition with_tasks (ts : gmap nat Task) (a : App) (c : Control) : Control :=
  mk_control a ts (ct_past c) (ct_from c).
(** The files were written. *)
Definition wrote (ts : gmap nat Task) (a : App) (c : Control) : Control :=
  mk_control a ts (files (ap_world a) :: ct_past c) (ct_from c).

(** What can be read while the files go through [states]: every file as it
    is in one of them. *)
Definition mixture (states : list Files) (fs : Files) : Prop :=
  forall p, exists fs', fs' ∈ states /\ fs !! p = fs' !! p.
Definition states_since (n : nat) (past : list Files) : list Files := take (length past - n + 1) past.

Inductive control_step : Control -> Control -> Prop :=
  (** A reload, or a tick of the scheduled refresh, that gets the lock.  When
      the directory or the client cannot be had, no source is fetched. *)
  | k_refresh id c dir_ok client_ok :
      ap_refreshing (ct_app c) = false -> ct_tasks c !! id = None ->
      let urls := block_sources (blocking (cfg_of c)) in
      let t := if negb dir_ok then Fetching 0 [] (refuse_all "list directory is not writable" urls)
               else if negb client_ok then Fetching 0 [] (refuse_all "HTTP client unavailable" urls)
               else Fetching 0 urls empty_outcome in
      control_step c (with_tasks (<[id := t]> (ct_tasks c)) (set_lock true (ct_app c)) c)
  (** One source is fetched. *)
  | k_fetch id i url urls o pid env w h o' c :
      ct_tasks c !! id = Some (Fetching i (url :: urls) o) ->
      refresh_one (cfg_of c) pid env url (ap_world (ct_app c), ap_health (ct_app c), o) = (w, h, o') ->
      control_step c (wrote (<[id := Fetching (Datatypes.S i) urls o']> (ct_tasks c)) (set_world w h (ct_app c)) c)
  | k_fetched id i o c :
      ct_tasks c !! id = Some (Fetching i [] o) ->
      control_step c
        (if total_failure o then with_tasks (delete id (ct_tasks c)) (set_lock false (ct_app c)) c
         else with_tasks (<[id := Reading true (length (ct_past c))]> (ct_tasks c)) (ct_app c) c)
  (** A domain is to be added to a manual list. *)
  | k_add id path domain c :
      is_valid_domain (to_ascii_lowercase (trim domain)) = true -> ct_tasks c !! id = None ->
      path = manual_deny_path (cfg_of c) \/ path = manual_allow_path (cfg_of c) ->
      let t := if append_wanted (files_of c) path domain then Appending path domain
               else Reading false (length (ct_past c)) in
      control_step c (with_tasks (<[id := t]> (ct_tasks c)) (ct_app c) c)
  | k_append id path domain io fs r c :
      ct_tasks c !! id = Some (Appending path domain) ->
      append_write (files_of c) path domain io = (fs, r) ->
      control_step c (wrote (if is_ok r then <[id := Reading false (Datatypes.S (length (ct_past c)))]> (ct_tasks c)
                             else delete id (ct_tasks c)) (set_files fs (ct_app c)) c)
  (** A domain is to be removed from one. *)
  | k_remove id path domain c :
      ct_tasks c !! id = None ->
      path = manual_deny_path (cfg_of c) \/ path = manual_allow_path (cfg_of c) ->
      let t := match remove_text (files_of c) path domain with
               | Some text => Rewriting path text
               | None => Reading false (length (ct_past c))
               end in
      control_step c (with_tasks (<[id := t]> (ct_tasks c)) (ct_app c) c)
  | k_rewrite id path text io fs r c :
      ct_tasks c !! id = Some (Rewriting path text) ->
      remove_write (files_of c) path text io = (fs, r) ->
      control_step c (wrote (if is_ok r then <[id := Reading false (Datatypes.S (length (ct_past c)))]> (ct_tasks c)
                             else delete id (ct_tasks c)) (set_files fs (ct_app c)) c)
  (** The lists have been read and parsed, file by file, while others wrote. *)
  | k_read id guard since fs c :
      ct_tasks c !! id = Some (Reading guard since) ->
      mixture (states_since since (ct_past c)) fs ->
      control_step c (with_tasks (<[id := Installing guard since (build (cfg_of c) fs)]> (ct_tasks c)) (ct_app c) c)
  | k_install id guard since fresh c :
      ct_tasks c !! id = Some (Installing guard since fresh) ->
      control_step c (mk_control (release (Installing guard since fresh) (fst (rebuild_install fresh (ct_app c))))
                        (delete id (ct_tasks c)) (ct_past c) since)
  (** The client hangs up, or the deadline passes: the handler is dropped. *)
  | k_drop id t c :
      ct_tasks c !! id = Some t ->
      control_step c (with_tasks (delete id (ct_tasks c)) (release t (ct_app c)) c)
  | k_flush c : control_step c (with_tasks (ct_tasks c) (api_flush_cache (ct_app c)) c)
  (** Requests are served: the list in force is only read. *)
  | k_serve r c :
      r_blocklist r = r_blocklist (ap_resolver (ct_app c)) ->
      control_step c (with_tasks (ct_tasks c) (set_resolver r (ct_app c)) c).

(** A start: the list in force is built from the files that are there. *)
Definition control_start (a : App) : Control :=
  mk_control (set_lock false a) ∅ [files (ap_world a)] 1.
Definition starts_built (a : App) : Prop :=
  lock_ok (r_blocklist (ap_resolver a)) = Some (build (ap_cfg a) (files (ap_world a))).

(* ------------------------------------------------------------------ *)
(** ** The lock *)

(** At most one task holds the lock, and it is taken exactly when one does. *)
Definition lock_inv (b : bool) (m : gmap nat Task) : Prop :=
  (forall i j ti tj, m !! i = Some ti -> m !! j = Some tj -> guarded ti = true -> guarded tj = true -> i = j) /\
  (b = true <-> exists i t, m !! i = Some t /\ guarded t = true).

Lemma lock_inv_free m : lock_inv false m <-> forall i t, m !! i = Some t -> guarded t = false.
Proof.
  split.
  - intros [_ Hb] i t Hi. destruct (guarded t) eqn:E; [|done]. assert (false = true) by (apply Hb; eauto). done.
  - intros Hf. split; [intros i j ti tj Hi _ Hg _; by rewrite (Hf _ _ Hi) in Hg|].
    split; [done|]. intros (i & t & Hi & Hg). by rewrite (Hf _ _ Hi) in Hg.
Qed.

Lemma lock_inv_update b m id t t' :
  m !! id = Some t -> guarded t' = guarded t -> lock_inv b m -> lock_inv b (<[id := t']> m).
Proof.
  intros Hid Hg [Hu Hb].
  assert (forall i x, <[id := t']> m !! i = Some x -> guarded x = true -> exists y, m !! i = Some y /\ guarded y = true) as Hback.
  { intros i x [[<- <-]|[_ Hi]]%lookup_insert_Some Hx; [exists t; by rewrite <-Hg|eauto]. }
  split.
  - intros i j ti tj Hi Hj Hgi Hgj. destruct (Hback i ti Hi Hgi) as (? & ? & ?), (Hback j tj Hj Hgj) as (? & ? & ?). eauto.
  - rewrite Hb. split; [|intros (i & x & Hi & Hx); destruct (Hback i x Hi Hx) as (y & ? & ?); eauto].
    intros (i & x & Hi & Hx). exists i. destruct (decide (i = id)) as [->|Hne].
    + exists t'. rewrite lookup_insert_eq. split; [done|congruence].
    + exists x. by rewrite lookup_insert_ne.
Qed.

Lemma lock_inv_new b m id t :
  m !! id = None -> guarded t = false -> lock_inv b m -> lock_inv b (<[id := t]> m).
Proof.
  intros Hid Hg [Hu Hb].
  assert (forall i x, guarded x = true -> <[id := t]> m !! i = Some x <-> m !! i = Some x) as Hsame.
  { intros i x Hx. rewrite lookup_insert_Some. split; [intros [[_ <-]|[_ ?]]; congruence|].
    intros Hi. right. split; [congruence|done]. }
  split; [|rewrite Hb].
  - intros i j ti tj Hi Hj Hgi Hgj. apply Hsame in Hi, Hj; eauto.
  - split; intros (i & x & Hi & Hx); exists i, x; (split; [|done]); by apply Hsame.
Qed.

Lemma lock_inv_acquire m id t :
  guarded t = true -> lock_inv false m -> lock_inv true (<[id := t]> m).
Proof.
  intros Hg Hf. rewrite lock_inv_free in Hf. split.
  - intros i j ti tj [[<- _]|[_ Hi]]%lookup_insert_Some [[<- _]|[_ Hj]]%lookup_insert_Some Hgi Hgj; try done.
    + by rewrite (Hf _ _ Hj) in Hgj.
    + by rewrite (Hf _ _ Hi) in Hgi.
    + by rewrite (Hf _ _ Hj) in Hgj.
  - split; [|done]. intros _. exists id, t. by rewrite lookup_insert_eq.
Qed.

Lemma lock_inv_end b m id t :
  m !! id = Some t -> lock_inv b m -> lock_inv (if guarded t then false else b) (delete id m).
Proof.
  intros Hid [Hu Hb]. destruct (guarded t) eqn:E.
  - apply lock_inv_free. intros i x [Hne Hi]%lookup_delete_Some. destruct (guarded x) eqn:Ex; [|done].
    destruct Hne. eauto.
  - split; [|rewrite Hb].
    + intros i j ti tj [_ Hi]%lookup_delete_Some [_ Hj]%lookup_delete_Some. eauto.
    + split; intros (i & x & Hi & Hx); exists i, x; (split; [|done]).
      * apply lookup_delete_Some. split; [congruence|done].
      * by apply lookup_delete_Some in Hi as [_ ?].
Qed.

Lemma release_refreshing t (a : App) : ap_refreshing (release t a) = if guarded t then false else ap_refreshing a.
Proof. unfold release. by case_match. Qed.

Lemma control_step_lock c c' :
  control_step c c' -> lock_inv (ap_refreshing (ct_app c)) (ct_tasks c) -> lock_inv (ap_refreshing (ct_app c')) (ct_tasks c').
Proof.
  destruct 1 as [id c dir_ok client_ok Hfree Hid urls t|id i url urls o pid env w h o' c Hid _|id i o c Hid
    |id path domain c _ Hid _ t|id path domain io fs r c Hid _|id path domain c Hid _ t|id path text io fs r c Hid _
    |id guard since fs c Hid _|id guard since fresh c Hid|id t c Hid|c|r c _]; intros Hl.
  - rewrite Hfree in Hl. apply lock_inv_acquire; [|done]. subst t. by repeat case_match.
  - by eapply lock_inv_update.
  - destruct (total_failure o); [exact (lock_inv_end _ _ _ _ Hid Hl)|by eapply lock_inv_update].
  - apply lock_inv_new; [done| |done]. subst t. by case_match.
  - destruct (is_ok r); [by eapply lock_inv_update|exact (lock_inv_end _ _ _ _ Hid Hl)].
  - apply lock_inv_new; [done| |done]. subst t. by case_match.
  - destruct (is_ok r); [by eapply lock_inv_update|exact (lock_inv_end _ _ _ _ Hid Hl)].
  - by eapply lock_inv_update.
  - cbn [ct_app ct_tasks]. rewrite release_refreshing. exact (lock_inv_end _ _ _ _ Hid Hl).
  - cbn [with_tasks ct_app ct_tasks]. rewrite release_refreshing. exact (lock_inv_end _ _ _ _ Hid Hl).
  - done.
  - done.
Qed.

(* ------------------------------------------------------------------ *)
(** ** What was on disk *)

Lemma mixture_weaken l1 l2 fs : l1 ⊆ l2 -> mixture l1 fs -> mixture l2 fs.
Proof. intros Hs Hm p. destruct (Hm p) as (fs' & Hin & E). exists fs'. split; [by apply Hs|done]. Qed.
Lemma mixture_one fs fs' : mixture [fs'] fs -> fs = fs'.
Proof. intros Hm. apply map_eq. intros p. by destruct (Hm p) as (x & ->%list_elem_of_singleton & ->). Qed.
Lemma mixture_self l fs : fs ∈ l -> mixture l fs.
Proof. intros Hin p. by exists fs. Qed.

Lemma states_since_grows n past x : (n <= length past)%nat -> states_since n past ⊆ states_since n (x :: past).
Proof.
  intros Hn. unfold states_since. cbn [length]. rewrite Nat.sub_succ_l by done. cbn [Nat.add take].
  intros y Hy. by right.
Qed.
Lemma states_since_now past x : states_since (length (x :: past)) (x :: past) = [x].
Proof. unfold states_since. by rewrite Nat.sub_diag. Qed.

(** The list [bl] was built from what the files were since state [n]. *)
Definition built_since (n : nat) (cfg : Config) (past : list Files) (bl : Blocklist) : Prop :=
  (n <= length past)%nat /\ exists fs, mixture (states_since n past) fs /\ bl = build cfg fs.

Lemma built_since_grows n cfg past x bl : built_since n cfg past bl -> built_since n cfg (x :: past) bl.
Proof.
  intros (Hn & fs & Hm & ->). split; [simpl; lia|]. exists fs. split; [|done].
  eapply mixture_weaken; [by apply states_since_grows|done].
Qed.

Definition task_ok (cfg : Config) (past : list Files) (t : Task) : Prop :=
  match t with
  | Reading _ n => (n <= length past)%nat
  | Installing _ n fresh => built_since n cfg past fresh
  | _ => True
  end.

Lemma task_ok_grows cfg past x t : task_ok cfg past t -> task_ok cfg (x :: past) t.
Proof. destruct t; simpl; try done; [lia|apply built_since_grows]. Qed.

Record force_ok (c : Control) : Prop := mk_force_ok {
  fo_now : head (ct_past c) = Some (files_of c);
  fo_force : exists bl, lock_ok (r_blocklist (ap_resolver (ct_app c))) = Some bl /\
               built_since (ct_from c) (cfg_of c) (ct_past c) bl;
  fo_tasks : map_Forall (fun _ t => task_ok (cfg_of c) (ct_past c) t) (ct_tasks c) }.

(** Steps that write no file. *)
Lemma force_ok_tasks c ts a :
  force_ok c -> ap_cfg a = cfg_of c -> files (ap_world a) = files_of c ->
  r_blocklist (ap_resolver a) = r_blocklist (ap_resolver (ct_app c)) ->
  map_Forall (fun _ t => task_ok (cfg_of c) (ct_past c) t) ts -> force_ok (with_tasks ts a c).
Proof. intros [H1 H2 H3] Ha Hf Hr Ht. split; cbn [with_tasks ct_app ct_past ct_from ct_tasks]; rewrite ?Ha, ?Hf, ?Hr; done. Qed.
(** And those that do. *)
Lemma force_ok_wrote c ts a :
  force_ok c -> ap_cfg a = cfg_of c -> ap_resolver a = ap_resolver (ct_app c) ->
  map_Forall (fun _ t => task_ok (cfg_of c) (files (ap_world a) :: ct_past c) t) ts -> force_ok (wrote ts a c).
Proof.
  intros [H1 (bl & Hb & Hs) H3] Ha Hr Ht. split; cbn [wrote ct_app ct_past ct_from ct_tasks]; rewrite ?Ha, ?Hr; try done.
  exists bl. split; [done|]. by apply built_since_grows.
Qed.
Lemma tasks_grow cfg past x (m : gmap nat Task) :
  map_Forall (fun _ t => task_ok cfg past t) m -> map_Forall (fun _ t => task_ok cfg (x :: past) t) m.
Proof. intros Hm i t Hi. apply task_ok_grows. exact (Hm i t Hi). Qed.

Lemma release_same t (a : App) :
  ap_cfg (release t a) = ap_cfg a /\ ap_world (release t a) = ap_world a /\ ap_resolver (release t a) = ap_resolver a.
Proof. unfold release. by case_match. Qed.

Lemma install_force fresh (r : Resolver) bl :
  lock_ok (r_blocklist r) = Some bl -> lock_ok (r_blocklist (install_blocklist fresh r)) = Some fresh.
Proof.
  intros E. unfold install_blocklist. rewrite E. cbn [r_blocklist]. unfold lock_ok, lock_set in *.
  by destruct (lk_poisoned (r_blocklist r)).
Qed.

Lemma force_ok_step c c' : control_step c c' -> force_ok c -> force_ok c'.
Proof.
  destruct 1 as [id c dir_ok client_ok Hfree Hid urls t|id i url urls o pid env w h o' c Hid _|id i o c Hid
    |id path domain c _ Hid _ t|id path domain io fs r c Hid _|id path domain c Hid _ t|id path text io fs r c Hid _
    |id guard since fs c Hid Hm|id guard since fresh c Hid|id t c Hid|c|r c Hr]; intros Hok;
    pose proof Hok as [Hnow Hforce Ht].
  - apply force_ok_tasks; try done. apply map_Forall_insert_2; [|done]. subst t. by repeat case_match.
  - apply force_ok_wrote; try done. apply map_Forall_insert_2; [done|]. by apply tasks_grow.
  - destruct (total_failure o); apply force_ok_tasks; try done.
    + by apply map_Forall_delete.
    + apply map_Forall_insert_2; [simpl; lia|done].
  - apply force_ok_tasks; try done. apply map_Forall_insert_2; [|done]. subst t. case_match; simpl; [done|lia].
  - apply force_ok_wrote; try done. apply (tasks_grow _ _ (files (ap_world (set_files fs (ct_app c))))) in Ht.
    destruct (is_ok r); [apply map_Forall_insert_2; [simpl; lia|done]|by apply map_Forall_delete].
  - apply force_ok_tasks; try done. apply map_Forall_insert_2; [|done]. subst t. case_match; simpl; [done|lia].
  - apply force_ok_wrote; try done. apply (tasks_grow _ _ (files (ap_world (set_files fs (ct_app c))))) in Ht.
    destruct (is_ok r); [apply map_Forall_insert_2; [simpl; lia|done]|by apply map_Forall_delete].
  - apply force_ok_tasks; try done. apply map_Forall_insert_2; [|done]. split; [exact (Ht _ _ Hid)|]. by exists fs.
  - destruct Hforce as (bl & Hb & _). pose proof (Ht _ _ Hid) as Hbuilt. cbn [task_ok] in Hbuilt.
    destruct (release_same (Installing guard since fresh) (fst (rebuild_install fresh (ct_app c)))) as (E1 & E2 & E3).
    split; cbn [ct_app ct_past ct_from ct_tasks]; rewrite ?E1, ?E2, ?E3; [exact Hnow| |by apply map_Forall_delete].
    exists fresh. split; [|exact Hbuilt]. cbn [rebuild_install fst ap_resolver].
    destruct (flush_cache_facts (install_blocklist fresh (ap_resolver (ct_app c)))) as (-> & _).
    by eapply install_force.
  - destruct (release_same t (ct_app c)) as (E1 & E2 & E3).
    apply force_ok_tasks; rewrite ?E1, ?E2, ?E3; try done. by apply map_Forall_delete.
  - apply force_ok_tasks; try done. cbn [api_flush_cache ap_resolver].
    by destruct (flush_cache_facts (ap_resolver (ct_app c))) as (-> & _).
  - by apply force_ok_tasks.
Qed.

Lemma control_start_force a : starts_built a -> force_ok (control_start a).
Proof.
  intros Hb. split; cbn [control_start ct_app ct_past ct_from ct_tasks set_lock ap_resolver ap_cfg ap_world head];
    [done| |apply map_Forall_empty].
  exists (build (ap_cfg a) (files (ap_world a))). split; [exact Hb|]. split; [done|]. exists (files (ap_world a)).
  split; [|done]. apply mixture_self. by left.
Qed.

Lemma control_run_inv (I : Control -> Prop) c c' :
  (forall x y, control_step x y -> I x -> I y) -> rtc control_step c c' -> I c -> I c'.
Proof. intros Hs. induction 1 as [|x y z Hxy _ IH]; [done|]. eauto. Qed.

(* ------------------------------------------------------------------ *)
(** ** The handlers of [Api.v], without interruption *)

Definition reaches (c : Control) (a : App) : Prop :=
  exists c', rtc control_step c c' /\ ct_app c' = a /\ ct_tasks c' = ct_tasks c.

Lemma set_files_same (a : App) : set_files (files (ap_world a)) a = a.
Proof. by destruct a as [cfg [fs n] r h b]. Qed.
Lemma set_lock_same (a : App) b : ap_refreshing a = b -> set_lock b a = a.
Proof. by intros <-; destruct a. Qed.

Lemma rebuild_run id g since c :
  head (ct_past c) = Some (files_of c) -> ct_tasks c !! id = Some (Reading g since) -> (since <= length (ct_past c))%nat ->
  rtc control_step c (mk_control (release (Reading g since) (fst (rebuild (ct_app c)))) (delete id (ct_tasks c)) (ct_past c) since).
Proof.
  intros Hnow Hid Hs. eapply rtc_l.
  - apply (k_read id g since (files_of c)); [done|]. apply mixture_self. unfold states_since.
    destruct (ct_past c) as [|x l]; [done|]. injection Hnow as ->. rewrite Nat.add_1_r. cbn [take]. by left.
  - eapply rtc_l; [apply (k_install id g since); cbn [with_tasks ct_tasks]; apply lookup_insert_eq|].
    cbn [with_tasks ct_app ct_tasks ct_past]. rewrite delete_insert_eq. done.
Qed.

(** The end of an edit: the files are written, the lists are rebuilt. *)
Lemma edit_run id c c1 :
  ct_tasks c !! id = None -> rtc control_step c c1 -> head (ct_past c1) = Some (files_of c1) ->
  ct_tasks c1 = <[id := Reading false (length (ct_past c1))]> (ct_tasks c) ->
  reaches c (fst (rebuild (ct_app c1))).
Proof.
  intros Hid Hr Hnow Hts. eexists. split; [etransitivity; [exact Hr|]|].
  - apply (rebuild_run id false (length (ct_past c1))); [done| |done]. rewrite Hts. apply lookup_insert_eq.
  - cbn [ct_app ct_tasks release guarded]. split; [done|]. by rewrite Hts, delete_insert_id.
Qed.

(** A write that failed ends its handler. *)
Lemma failed_run id t c c1 :
  ct_tasks c !! id = None -> rtc control_step c c1 -> ct_tasks c1 = delete id (<[id := t]> (ct_tasks c)) ->
  reaches c (ct_app c1).
Proof. intros Hid Hr Hts. exists c1. by rewrite Hts, delete_insert_id. Qed.

Lemma add_run id path io d c :
  ct_tasks c !! id = None -> head (ct_past c) = Some (files_of c) ->
  path = manual_deny_path (cfg_of c) \/ path = manual_allow_path (cfg_of c) ->
  reaches c (fst (edit_list (fun fs p d => append_manual fs p d io) path d (ct_app c))).
Proof.
  intros Hid Hnow Hpath. unfold edit_list. destruct (is_valid_domain d); cbn [negb fst]; [|by exists c].
  assert (io = MkdirFailed \/ io <> MkdirFailed) as [->|Hio] by (destruct io; by (left + right)).
  { unfold append_manual. destruct (negb _); cbn [fst]; rewrite set_files_same; by exists c. }
  destruct (is_valid_domain (to_ascii_lowercase (trim d))) eqn:Hd.
  2: { unfold append_manual. unfold is_valid_domain in Hd. rewrite Hd. cbn [negb fst]. rewrite set_files_same. by exists c. }
  rewrite (append_manual_steps _ _ _ _ Hd Hio).
  pose proof (k_add id path d c Hd Hid Hpath) as Hstep. cbv zeta in Hstep.
  destruct (append_wanted (files_of c) path d).
  - destruct (append_write (files_of c) path d io) as [fs r] eqn:Hw. cbn [fst].
    assert (control_step (with_tasks (<[id := Appending path d]> (ct_tasks c)) (ct_app c) c)
      (wrote (if is_ok r then <[id := Reading false (Datatypes.S (length (ct_past c)))]> (<[id := Appending path d]> (ct_tasks c))
              else delete id (<[id := Appending path d]> (ct_tasks c))) (set_files fs (ct_app c)) c)) as Hw'.
    { apply (k_append id path d io fs r (with_tasks _ _ c)); [apply lookup_insert_eq|exact Hw]. }
    destruct r as [u|e]; cbn [is_ok] in Hw'.
    + rewrite insert_insert_eq in Hw'.
      apply (edit_run id _ _ Hid (rtc_l _ _ _ _ Hstep (rtc_once _ _ Hw'))); done.
    + exact (failed_run id _ _ _ Hid (rtc_l _ _ _ _ Hstep (rtc_once _ _ Hw')) eq_refl).
  - cbn [fst]. rewrite set_files_same. apply (edit_run id _ _ Hid (rtc_once _ _ Hstep)); done.
Qed.

Lemma remove_run id path io d c :
  ct_tasks c !! id = None -> head (ct_past c) = Some (files_of c) ->
  path = manual_deny_path (cfg_of c) \/ path = manual_allow_path (cfg_of c) ->
  reaches c (fst (edit_list (fun fs p d => remove_manual fs p d io) path d (ct_app c))).
Proof.
  intros Hid Hnow Hpath. unfold edit_list. destruct (is_valid_domain d); cbn [negb fst]; [|by exists c].
  rewrite remove_manual_steps. pose proof (k_remove id path d c Hid Hpath) as Hstep. cbv zeta in Hstep.
  destruct (remove_text (files_of c) path d) as [text|].
  - destruct (remove_write (files_of c) path text io) as [fs r] eqn:Hw. cbn [fst].
    assert (control_step (with_tasks (<[id := Rewriting path text]> (ct_tasks c)) (ct_app c) c)
      (wrote (if is_ok r then <[id := Reading false (Datatypes.S (length (ct_past c)))]> (<[id := Rewriting path text]> (ct_tasks c))
              else delete id (<[id := Rewriting path text]> (ct_tasks c))) (set_files fs (ct_app c)) c)) as Hw'.
    { apply (k_rewrite id path text io fs r (with_tasks _ _ c)); [apply lookup_insert_eq|exact Hw]. }
    destruct r as [u|e]; cbn [is_ok] in Hw'.
    + rewrite insert_insert_eq in Hw'.
      apply (edit_run id _ _ Hid (rtc_l _ _ _ _ Hstep (rtc_once _ _ Hw'))); done.
    + exact (failed_run id _ _ _ Hid (rtc_l _ _ _ _ Hstep (rtc_once _ _ Hw')) eq_refl).
  - cbn [fst]. rewrite set_files_same. apply (edit_run id _ _ Hid (rtc_once _ _ Hstep)); done.
Qed.

(** The downloads, one source after the other. *)
Lemma fetch_run id pid env i urls o w h w' h' o' c :
  ct_tasks c !! id = Some (Fetching i urls o) -> head (ct_past c) = Some (files_of c) ->
  ap_world (ct_app c) = w -> ap_health (ct_app c) = h ->
  refresh_loop (cfg_of c) pid env i urls (w, h, o) = (w', h', o') ->
  exists c' j, rtc control_step c c' /\ ct_app c' = set_world w' h' (ct_app c) /\
    ct_tasks c' = <[id := Fetching j [] o']> (ct_tasks c) /\ head (ct_past c') = Some (files_of c').
Proof.
  revert i o w h c. induction urls as [|url urls IH]; intros i o w h c Hid Hnow Hw Hh; cbn [refresh_loop].
  - intros [= <- <- <-]. exists c, i. split; [done|]. split; [|split; [by rewrite insert_id|done]].
    destruct (ct_app c). simpl in *. by subst.
  - destruct (refresh_one (cfg_of c) pid (env i) url (w, h, o)) as [[w1 h1] o1] eqn:E. intros Hloop.
    pose proof (k_fetch id i url urls o pid (env i) w1 h1 o1 c Hid) as Hstep. rewrite Hw, Hh in Hstep.
    specialize (Hstep E).
    destruct (IH (Datatypes.S i) o1 w1 h1
      (wrote (<[id:=Fetching (Datatypes.S i) urls o1]> (ct_tasks c)) (set_world w1 h1 (ct_app c)) c))
      as (c' & j & Hr & Happ & Hts & Hn); [apply lookup_insert_eq|done|done|done|exact Hloop|].
    exists c', j. split; [by eapply rtc_l|]. split; [done|]. split; [|done].
    rewrite Hts. cbn [wrote ct_tasks]. by rewrite insert_insert_eq.
Qed.

(** What follows the downloads. *)
Lemma fetched_run id i o w h c c1 :
  ct_tasks c !! id = None -> ap_refreshing (ct_app c) = false ->
  rtc control_step c c1 -> ct_app c1 = set_lock true (set_world w h (ct_app c)) ->
  ct_tasks c1 = <[id := Fetching i [] o]> (ct_tasks c) -> head (ct_past c1) = Some (files_of c1) ->
  reaches c (if total_failure o then set_world w h (ct_app c) else fst (rebuild (set_world w h (ct_app c)))).
Proof.
  intros Hid Hfree Hr Happ Hts Hnow.
  pose proof (k_fetched id i o c1 ltac:(rewrite Hts; apply lookup_insert_eq)) as Hstep.
  destruct (total_failure o).
  - eexists. split; [eapply rtc_r; [exact Hr|exact Hstep]|]. cbn [with_tasks ct_app ct_tasks]. split.
    + rewrite Happ. unfold set_lock, set_world. simpl. by rewrite Hfree.
    + by rewrite Hts, delete_insert_id.
  - eexists. split; [etransitivity; [eapply rtc_r; [exact Hr|exact Hstep]|]|].
    + apply (rebuild_run id true (length (ct_past c1))); [done|apply lookup_insert_eq|done].
    + cbn [with_tasks ct_app ct_tasks ct_past release guarded]. split.
      * rewrite Happ. unfold rebuild, rebuild_install, rebuild_read, set_lock, set_world. simpl. by rewrite Hfree.
      * by rewrite Hts, insert_insert_eq, delete_insert_id.
Qed.

Lemma refresh_run id pid dir_ok client_ok env w h o c :
  ct_tasks c !! id = None -> head (ct_past c) = Some (files_of c) -> ap_refreshing (ct_app c) = false ->
  refresh_sources (cfg_of c) pid dir_ok client_ok env (ap_world (ct_app c)) (ap_health (ct_app c)) = (w, h, o) ->
  reaches c (if total_failure o then set_world w h (ct_app c) else fst (rebuild (set_world w h (ct_app c)))).
Proof.
  intros Hid Hnow Hfree. unfold refresh_sources.
  pose proof (k_refresh id c dir_ok client_ok Hfree Hid) as Hstep. cbv zeta in Hstep.
  assert (forall a : App, set_world (ap_world a) (ap_health a) a = a) as Hsame by by intros [].
  destruct dir_ok, client_ok; cbn [negb] in *; cycle 1.
  1-3: intros [= <- <- <-]; eapply (fetched_run id _ _ _ _ _ _ Hid Hfree (rtc_once _ _ Hstep)); try done; by rewrite Hsame.
  intros Hloop.
  destruct (fetch_run id pid env 0 (block_sources (blocking (cfg_of c))) empty_outcome (ap_world (ct_app c)) (ap_health (ct_app c))
    w h o (with_tasks (<[id := Fetching 0 (block_sources (blocking (cfg_of c))) empty_outcome]> (ct_tasks c))
             (set_lock true (ct_app c)) c)) as (c1 & j & Hr & Happ & Hts & Hn);
    [apply lookup_insert_eq|exact Hnow|done|done|exact Hloop|].
  apply (fetched_run id j o w h c c1 Hid Hfree); [by eapply rtc_l|exact Happ| |exact Hn].
  rewrite Hts. cbn [with_tasks ct_tasks]. by rewrite insert_insert_eq.
Qed.

Lemma control_step_now c c' : control_step c c' -> head (ct_past c) = Some (files_of c) -> head (ct_past c') = Some (files_of c').
Proof.
  destruct 1; intros Hn; try done; cbn [with_tasks wrote ct_past ct_app] in *.
  - by case_match.
  - by destruct (release_same (Installing guard since fresh) (fst (rebuild_install fresh (ct_app c)))) as (_ & -> & _).
  - by destruct (release_same t (ct_app c)) as (_ & -> & _).
Qed.


(** ** Properties *)

(** C22. One refresh at a time, whatever is asked of the dashboard and whoever
    hangs up: of all reloads and scheduled refreshes at most one is between
    its first download and its installed list, the lock is taken exactly
    while there is one, and so it is never left locked. *)
Theorem one_refresh_at_a_time a c :
  rtc control_step (control_start a) c ->
  (forall i j ti tj, ct_tasks c !! i = Some ti -> ct_tasks c !! j = Some tj ->
     guarded ti = true -> guarded tj = true -> i = j) /\
  (ap_refreshing (ct_app c) = true <-> exists i t, ct_tasks c !! i = Some t /\ guarded t = true).
Proof.
  intros Hr. refine (control_run_inv (fun c => lock_inv (ap_refreshing (ct_app c)) (ct_tasks c)) _ _ _ Hr _).
  - intros x y. apply control_step_lock.
  - cbn [control_start set_lock ct_app ct_tasks ap_refreshing]. by apply lock_inv_free.
Qed.

(** C21. The list in force was on disk.  Whatever edits, reloads, refreshes and
    rebuilds run at once, and whichever are dropped half-way, the list in
    force is always a complete one, built from contents its files have had
    since the rebuild that installed it began to read; and when no file was
    written since, it is exactly the list of the files as they are. *)
Theorem in_force_was_on_disk a c :
  rtc control_step (control_start a) c -> starts_built a ->
  exists bl, lock_ok (r_blocklist (ap_resolver (ct_app c))) = Some bl /\
    (exists fs, mixture (states_since (ct_from c) (ct_past c)) fs /\ bl = build (cfg_of c) fs) /\
    (ct_from c = length (ct_past c) -> bl = build (cfg_of c) (files_of c)).
Proof.
  intros Hr Ha. destruct (control_run_inv force_ok _ _ force_ok_step Hr (control_start_force a Ha)) as [Hnow (bl & Hb & Hn & fs & Hm & E) _].
  exists bl. split; [exact Hb|]. split; [by exists fs|]. intros Hfrom. rewrite Hfrom in Hm. rewrite E.
  destruct (ct_past c) as [|x past]; [done|]. injection Hnow as ->. rewrite states_since_now in Hm.
  by rewrite (mixture_one _ _ Hm).
Qed.

(** C23. The handlers of [Api.v] are the runs without interruption: from any
    reachable state, each request that changes the resolver can run through
    the steps of a task, undisturbed, and leaves exactly what its handler
    computes, with every other task where it was.  So what is proved of the
    handlers holds of the tasks whenever they are left alone. *)
Theorem handlers_are_runs a c m :
  rtc control_step (control_start a) c ->
  exists c', rtc control_step c c' /\ ct_app c' = fst (handler m (ct_app c)) /\ ct_tasks c' = ct_tasks c.
Proof.
  intros Hr. assert (head (ct_past c) = Some (files_of c)) as Hnow
    by exact (control_run_inv (fun c => head (ct_past c) = Some (files_of c)) _ _ control_step_now Hr eq_refl).
  assert (ct_tasks c !! fresh (dom (ct_tasks c)) = None) as Hid by (apply not_elem_of_dom, is_fresh).
  destruct m as [io d|io d|io d|io d|pid dir_ok client_ok env|]; cbn [handler fst].
  - apply (add_run _ _ io d c Hid Hnow). by left.
  - apply (remove_run _ _ io d c Hid Hnow). by left.
  - apply (add_run _ _ io d c Hid Hnow). by right.
  - apply (remove_run _ _ io d c Hid Hnow). by right.
  - unfold reload. destruct (ap_refreshing (ct_app c)) eqn:Hfree; [by exists c|].
    destruct (refresh_sources _ _ _ _ _ _ _) as [[w h] o] eqn:E.
    pose proof (refresh_run _ pid dir_ok client_ok env w h o c Hid Hnow Hfree E) as Hrun.
    destruct (total_failure o); [exact Hrun|]. destruct (rebuild _) as [s n]. exact Hrun.
  - eexists. split; [apply rtc_once, k_flush|]. done.
Qed.
End Control.

(* ------------------------------------------------------------------ *)
(** ** Witnesses *)

Section Witness.
#[local] Existing Instance simple_hickory.
#[local] Existing Instance simple_codec.
#[local] Existing Instance list_observer.
Abbreviation App := (App (S := list QueryEvent)).

Definition w_built : App := fst (rebuild w_app).
Definition w_deny : string := manual_deny_path w_api_cfg.
(** While a reload waits for its first download, a domain is blocked. *)
Definition w_c1 : Control := let c := control_start w_built in
  with_tasks (<[0%nat := Fetching 0 (block_sources (blocking w_api_cfg)) empty_outcome]> (ct_tasks c)) (set_lock true (ct_app c)) c.
Definition w_c2 : Control := with_tasks (<[1%nat := Appending w_deny "a.example"]> (ct_tasks w_c1)) (ct_app w_c1) w_c1.
Definition w_c3 : Control :=
  wrote (<[1%nat := Reading false 2]> (ct_tasks w_c2))
    (set_files (fst (append_write (files (ap_world (ct_app w_c2))) w_deny "a.example" Appended)) (ct_app w_c2)) w_c2.
Definition w_c4 : Control :=
  with_tasks (<[1%nat := Installing false 2 (build w_api_cfg (files (ap_world (ct_app w_c3))))]> (ct_tasks w_c3)) (ct_app w_c3) w_c3.
Definition w_c5 : Control :=
  mk_control (fst (rebuild_install (build w_api_cfg (files (ap_world (ct_app w_c3)))) (ct_app w_c4)))
    (delete 1%nat (ct_tasks w_c4)) (ct_past w_c4) 2.

Lemma w_c5_reached : rtc control_step (control_start w_built) w_c5.
Proof.
  eapply rtc_l; [apply (k_refresh 0 (control_start w_built) true true); reflexivity|].
  apply (rtc_l _ w_c1 w_c2); [apply (k_add 1 w_deny "a.example" w_c1); [reflexivity|reflexivity|by left]|].
  apply (rtc_l _ w_c2 w_c3); [apply (k_append 1 w_deny "a.example" Appended _ (Ok tt) w_c2); [apply lookup_insert_eq|reflexivity]|].
  apply (rtc_l _ w_c3 w_c4).
  { apply (k_read 1 false 2 (files (ap_world (ct_app w_c3))) w_c3); [apply lookup_insert_eq|].
    apply mixture_self. by left. }
  apply rtc_once. apply (k_install 1 false 2 _ w_c4). apply lookup_insert_eq.
Qed.
Lemma w_built_starts : starts_built w_built.
Proof. reflexivity. Qed.

Lemma one_refresh_at_a_time_witness :
  ap_refreshing (ct_app w_c5) = true /\
  (forall i j ti tj, ct_tasks w_c5 !! i = Some ti -> ct_tasks w_c5 !! j = Some tj ->
     guarded ti = true -> guarded tj = true -> i = j) /\
  (ap_refreshing (ct_app w_c5) = true <-> exists i t, ct_tasks w_c5 !! i = Some t /\ guarded t = true).
Proof. split; [reflexivity|]. apply (one_refresh_at_a_time w_built w_c5), w_c5_reached. Defined.

Lemma in_force_was_on_disk_witness :
  blocked_by "a.example" (ap_resolver w_built) = None /\
  blocked_by "a.example" (ap_resolver (ct_app w_c5)) = Some "deny.list" /\
  exists bl, lock_ok (r_blocklist (ap_resolver (ct_app w_c5))) = Some bl /\
    bl = build w_api_cfg (files (ap_world (ct_app w_c5))).
Proof.
  split; [reflexivity|]. split; [reflexivity|].
  destruct (in_force_was_on_disk w_built w_c5 w_c5_reached w_built_starts) as (bl & Hb & _ & Hnow).
  exists bl. split; [exact Hb|]. apply Hnow. reflexivity.
Defined.

(** While the reload still waits, a second one is refused, and another domain
    can be blocked. *)
Example second_reload_refused :
  handler (Reload 1 true true (fun _ => http_ok "")) (ct_app w_c5) = (ct_app w_c5, Some (conflict RefreshRunning)).
Proof. reflexivity. Qed.
Lemma handlers_are_runs_witness :
  let m := AddDeny Appended "b.example" in
  snd (handler m (ct_app w_c5)) = None /\
  blocked_by "b.example" (ap_resolver (fst (handler m (ct_app w_c5)))) = Some "deny.list" /\
  exists c', rtc control_step w_c5 c' /\ ct_app c' = fst (handler m (ct_app w_c5)) /\ ct_tasks c' = ct_tasks w_c5.
Proof.
  cbv zeta. split; [reflexivity|]. split; [reflexivity|].
  apply (handlers_are_runs w_built w_c5 (AddDeny Appended "b.example")), w_c5_reached.
Defined.
End Witness.
