(* ===== verification/Web.v ===== *)
(** * The web server (src/api.rs: [router], [status] and the middleware)

    A request as the framework hands it over, the table of routes, what every
    reporting route answers, and the three layers around them: the deadline,
    the security headers and the body limit.  [Api.v] has the changing
    handlers; here is when they run, and what they leave when the deadline
    cuts them short.  Parsing of bodies and query strings, and the answer to
    a request no route takes, are the framework's and arguments. *)
From S2P Require Import Prelude Str Float Addr Acl Blocklist Config Lists Netinfo DnsMsg Cache Upstream Db Reports Storage Devices Discovery Resolver Api.
Open Scope Z_scope.

Inductive Method : Type := GET | HEAD | POST | DELETE | OtherMethod.
#[export] Instance method_eq_dec : EqDecision Method.
Proof. solve_decision. Defined.

Record Request : Type := mk_request {
  rq_method : Method;
  rq_path : string;
  rq_authorization : option string;
  rq_query : string;
  rq_body : string }.

(* ------------------------------------------------------------------ *)
(** ** Routes *)

Inductive Report : Type :=
  | Index | Favicon | SummaryReport | QueriesReport | TopDomains | TopBlocked | TopClients | QueryTypes
  | TimeseriesReport | DevicesReport | BypassReport | AlertsReport | InterfacesReport | StatusReport.
Inductive Change : Type := ChDeny | ChAllow | ChReload | ChFlush.
Inductive Route : Type := Reading (r : Report) | Changing (c : Change).

Definition routes : list (string * Route) := [
  ("/", Reading Index); ("/favicon.svg", Reading Favicon); ("/api/summary", Reading SummaryReport);
  ("/api/queries", Reading QueriesReport); ("/api/top-domains", Reading TopDomains);
  ("/api/top-blocked", Reading TopBlocked); ("/api/top-clients", Reading TopClients);
  ("/api/query-types", Reading QueryTypes); ("/api/timeseries", Reading TimeseriesReport);
  ("/api/devices", Reading DevicesReport); ("/api/bypass-suspects", Reading BypassReport);
  ("/api/alerts", Reading AlertsReport); ("/api/interfaces", Reading InterfacesReport);
  ("/api/status", Reading StatusReport);
  ("/api/deny", Changing ChDeny); ("/api/allow", Changing ChAllow);
  ("/api/reload", Changing ChReload); ("/api/flush-cache", Changing ChFlush)].

Fixpoint find_route (path : string) (l : list (string * Route)) : option Route :=
  match l with
  | [] => None
  | (p, r) :: rest => if (p =? path)%string then Some r else find_route path rest
  end.
Definition route_of (path : string) : option Route := find_route path routes.

(** [get] also answers HEAD; [/api/deny] and [/api/allow] take two methods. *)
Definition method_allowed (r : Route) (m : Method) : bool :=
  match r, m with
  | Reading _, (GET | HEAD) => true
  | Changing (ChDeny | ChAllow), (POST | DELETE) => true
  | Changing (ChReload | ChFlush), POST => true
  | _, _ => false
  end.

Definition MAX_BODY_BYTES : Z := 16 * 1024.
Definition HTTP_TIMEOUT : Duration := from_secs 30.

(** The Display of a socket address. *)
Definition show_socket (a : SocketAddr) : string :=
  match sa_ip a with
  | V4 v => show_ipv4 v +:+ ":" +:+ show_uint (sa_port a)
  | V6 v => "[" +:+ show_ipv6 v +:+ "]:" +:+ show_uint (sa_port a)
  end.

(* ------------------------------------------------------------------ *)
(** ** The status report *)

Record IfaceStatus : Type := mk_iface_status {
  is_iface : string; is_rx_bytes : Z; is_tx_bytes : Z; is_rx_packets : Z; is_tx_packets : Z;
  is_rx_errors : Z; is_tx_errors : Z; is_rx_dropped : Z; is_tx_dropped : Z }.
Record LatencyStatus : Type := mk_latency_status { ls_target : string; ls_ms : F64; ls_ts : Z }.

Record Status : Type := mk_status_report {
  su_version : string; su_uptime_secs : Z; su_dns_listen : string; su_upstreams : list string;
  su_blocking_enabled : bool; su_blocking_mode : string; su_blocked_domains : nat;
  su_blocklist_sources : list SourceStat; su_blocklist_health : list SourceHealth; su_cache_entries : Z;
  su_stats : Stats;
  su_dropped_query_events : Z; su_dropped_device_events : Z; su_dropped_monitoring_events : Z;
  su_max_udp_in_flight : Z; su_max_tcp_connections : Z; su_allow_from : list string;
  su_storage : StorageSizes; su_discovery : DiscoveryStatus; su_system : SystemInfo;
  su_gateway : option string; su_lan_subnet : option string;
  su_interfaces : list IfaceStatus; su_latency : list LatencyStatus }.

Definition iface_status (c : IfaceCounters) : IfaceStatus :=
  mk_iface_status (ic_iface c) (rx_bytes c) (tx_bytes c) (rx_packets c) (tx_packets c)
    (rx_errors c) (tx_errors c) (rx_dropped c) (tx_dropped c).

(** The files of /proc and /sys a status request reads. *)
Record ProcFiles : Type := mk_proc {
  pf_version : string; pf_route : option string; pf_dev : option string;
  pf_uptime : option string; pf_loadavg : option string; pf_meminfo : option string;
  pf_soc : option string; pf_hwmon : option string; pf_temp : option string }.

(** What a handler answers; the page and the icon are constants. *)
Inductive Payload : Type :=
  | PPage | PIcon
  | PSummary (s : Summary) | PQueries (l : list QueryRow) | PDomains (l : list Counted)
  | PClients (l : list Counted) | PBuckets (l : list Bucket) | PDevices (l : list DeviceRow)
  | PSuspects (l : list BypassSuspect) | PAlerts (l : list AlertRec) | PIfaces (l : list IfaceRow)
  | PStatus (s : Status)
  | PDone
  | PError (msg : option PublicMessage)
  | PTimedOut
  | PFramework.
Record Reply : Type := mk_reply { rp_status : Z; rp_headers : list (string * string); rp_payload : Payload }.

Definition status_number (c : StatusCode) : Z :=
  match c with
  | BAD_REQUEST => 400 | UNAUTHORIZED => 401 | CONFLICT => 409 | BAD_GATEWAY => 502 | INTERNAL_SERVER_ERROR => 500
  end.
(** [ApiError::into_response]. *)
Definition error_reply (e : ApiError) : Reply := mk_reply (status_number (ae_status e)) [] (PError (ae_public e)).

(** [HeaderMap::insert] replaces what was there. *)
Definition insert_header (k v : string) (l : list (string * string)) : list (string * string) :=
  List.filter (fun p => negb (fst p =? k)%string) l ++ [(k, v)].
Definition CSP : string :=
  "default-src 'self'; script-src 'self' 'unsafe-inline'; style-src 'self' 'unsafe-inline'; img-src 'self' data:; connect-src 'self'; frame-ancestors 'none'; base-uri 'none'; form-action 'none'".
Definition SECURITY : list (string * string) :=
  [("content-security-policy", CSP); ("x-content-type-options", "nosniff");
   ("referrer-policy", "no-referrer"); ("x-frame-options", "DENY")].
Definition security_headers (r : Reply) : Reply :=
  mk_reply (rp_status r) (fold_left (fun l p => insert_header (fst p) (snd p) l) SECURITY (rp_headers r)) (rp_payload r).

Section Web.
Context `{Codec} {S : Type} `{!QueryObserver S} `{Sqlite}.
Abbreviation App := (App (S := S)).

(** [AppState]: the part [Api.v] changes, and what is only read. *)
Record Server : Type := mk_server {
  sv_app : App;
  sv_db : Lock (Db * Conn);
  sv_started : Instant;
  sv_drops : DropCounts;
  sv_discovery : Lock DiscoveryStatus }.
Definition set_app (a : App) (s : Server) : Server :=
  mk_server a (sv_db s) (sv_started s) (sv_drops s) (sv_discovery s).

(** What the engine and the framework contribute. *)
Record Engine : Type := mk_engine {
  en_like : string -> string -> bool;
  en_groups : list string -> list string;
  en_pick_joined : list (QueryRec * option DeviceRec) -> option (QueryRec * option DeviceRec);
  en_pick_row : list QueryRec -> option QueryRec;
  en_pick_latency : list (Z * string * F64) -> option (Z * string * F64);
  en_file_len : string -> option Z;
  en_to_str : string -> option string;
  en_query : string -> option QueryParams;
  en_range : string -> option RangeParams;
  (** The domain of a JSON body, or the status of its refusal. *)
  en_domain : string -> result Z string;
  (** The status of a request no route takes, or whose query is malformed. *)
  en_refuse : Request -> Z }.

(** What one database read meets: the blocking pool and SQLite. *)
Record ReadEnv : Type := mk_read_env { rd_joined : bool; rd_sql_ok : bool }.

(** [with_db] *)
Definition with_db {T} (env : ReadEnv) (db : Lock (Db * Conn)) (f : Db * Conn -> T) : result ApiError T :=
  if negb (rd_joined env) then Err internal_error
  else
    match lock_ok db with
    | None => Err internal_error
    | Some c => if rd_sql_ok env then Ok (f c) else Err internal_error
    end.

Definition status (en : Engine) (env : nat -> ReadEnv) (clock : Instant) (pf : ProcFiles) (s : Server)
    : result ApiError Status :=
  let? latency := with_db (env 0%nat) (sv_db s) (fun c => latest_latency (en_groups en) (en_pick_latency en) (fst c)) in
  let? storage := with_db (env 1%nat) (sv_db s)
                    (fun c => storage_sizes (en_file_len en) (snd c) (database (storage (ap_cfg (sv_app s))))) in
  let cfg := ap_cfg (sv_app s) in
  let r := ap_resolver (sv_app s) in
  let route := default_route (pf_route pf) in
  let lan := let! d := route in lan_subnet (pf_route pf) (rt_iface d) in
  let '(blocked_domains, srcs) := match lock_ok (r_blocklist r) with
                                  | Some bl => (len bl, sources bl)
                                  | None => (0%nat, [])
                                  end in
  Ok (mk_status_report (pf_version pf) (as_secs (duration_since clock (sv_started s)))
        (show_socket (dns_listen (dns cfg))) (map show_socket (upstreams (dns cfg)))
        (blocking_enabled (blocking cfg)) (blocking_mode (blocking cfg)) blocked_domains srcs
        (default [] (lock_ok (ap_health (sv_app s)))) (resolver_cache_len r)
        (r_stats r) (d_queries (sv_drops s)) (d_devices (sv_drops s)) (d_monitoring (sv_drops s))
        (max_udp_in_flight (dns cfg)) (max_tcp_connections (dns cfg)) (allow_from (dns cfg))
        storage (default default_status (lock_ok (sv_discovery s)))
        (system_info (pf_uptime pf) (pf_loadavg pf) (pf_meminfo pf) (pf_soc pf) (pf_hwmon pf) (pf_temp pf))
        (match route with Some d => Some (show_ipv4 (gateway d) +:+ " via " +:+ rt_iface d) | None => None end)
        (match lan with Some l => Some (show_subnet l) | None => None end)
        (map iface_status (default [] (iface_counters (pf_dev pf))))
        (map (fun '(target, ms, ts) => mk_latency_status target ms ts) latency)).

(* ------------------------------------------------------------------ *)
(** ** Reporting routes *)

Record World_ : Type := mk_seen {
  (** The clocks and files one request sees. *)
  se_now : Z; se_clock : Instant; se_proc : ProcFiles; se_env : nat -> ReadEnv }.

Definition report (en : Engine) (se : World_) (r : Report) (rq : Request) (s : Server) : Reply :=
  let read {T} (f : Db -> T) := with_db (se_env se 0%nat) (sv_db s) (fun c => f (fst c)) in
  let answer {T} (p : T -> Payload) (x : result ApiError T) :=
    match x with Ok t => mk_reply 200 [] (p t) | Err e => error_reply e end in
  let ranged (k : RangeParams -> Reply) :=
    match en_range en (rq_query rq) with Some p => k p | None => mk_reply (en_refuse en rq) [] PFramework end in
  match r with
  | Index => mk_reply 200 [("content-type", "text/html; charset=utf-8")] PPage
  | Favicon => mk_reply 200 [("content-type", "image/svg+xml")] PIcon
  | SummaryReport => answer PSummary (read (summary (se_now se)))
  | QueriesReport =>
      match en_query en (rq_query rq) with
      | Some p => answer PQueries (read (fun db => api_queries (en_like en) db p))
      | None => mk_reply (en_refuse en rq) [] PFramework
      end
  | TopDomains => ranged (fun p => answer PDomains (read (fun db => api_top_domains (en_groups en) (en_pick_row en) (se_now se) false db p)))
  | TopBlocked => ranged (fun p => answer PDomains (read (fun db => api_top_domains (en_groups en) (en_pick_row en) (se_now se) true db p)))
  | TopClients => ranged (fun p => answer PClients (read
      (top_clients (en_groups en) (en_pick_joined en) (se_now se) (default 24 (rp_hours p)) (default 15 (rp_limit p)))))
  | QueryTypes => ranged (fun p => answer PDomains (read (fun db => api_query_types (en_groups en) (se_now se) db p)))
  | TimeseriesReport => ranged (fun p => answer PBuckets (read (fun db => api_timeseries (se_now se) db p)))
  | DevicesReport => answer PDevices (read (devices (se_now se)))
  | BypassReport => ranged (fun p => answer PSuspects (read (fun db => api_bypass_suspects (se_now se) db p)))
  | AlertsReport => ranged (fun p => answer PAlerts (read (fun db => api_alerts db p)))
  | InterfacesReport => ranged (fun p => answer PIfaces (read
      (iface_rows (se_now se) (clamp 1 1440 (default 30 (rp_minutes p))))))
  | StatusReport => answer PStatus (status en (se_env se) (se_clock se) (se_proc se) s)
  end.

(* ------------------------------------------------------------------ *)
(** ** Changing routes and the deadline *)

(** The outcomes of the file system and the network for one request. *)
Record Io : Type := mk_io {
  io_append : AppendOutcome; io_write : WriteOutcome;
  io_pid : Z; io_dir_ok : bool; io_client_ok : bool; io_fetch : nat -> FetchEnv }.

(** The change a request asks for, or the status of its refusal. *)
Definition body_domain (en : Engine) (rq : Request) : result Z string :=
  if MAX_BODY_BYTES <? str_len (rq_body rq) then Err 413 else en_domain en (rq_body rq).
Definition change_of (en : Engine) (io : Io) (c : Change) (rq : Request) : result Z Mutation :=
  match c, rq_method rq with
  | ChDeny, DELETE => let? d := body_domain en rq in Ok (RemoveDeny (io_write io) d)
  | ChDeny, _ => let? d := body_domain en rq in Ok (AddDeny (io_append io) d)
  | ChAllow, DELETE => let? d := body_domain en rq in Ok (RemoveAllow (io_write io) d)
  | ChAllow, _ => let? d := body_domain en rq in Ok (AddAllow (io_append io) d)
  | ChReload, _ => Ok (Reload (io_pid io) (io_dir_ok io) (io_client_ok io) (io_fetch io))
  | ChFlush, _ => Ok FlushCache
  end.

(** Where a handler is when its time is up: in the download of the [k]-th
    list, before or after the temporary name was taken, or in the rebuild. *)
Inductive Stop : Type := InRefresh (k : nat) (named : bool) | InRebuild.

(** What a handler dropped there leaves; [None] when it never waits there. *)
Definition cut_edit (edit : Files -> string -> string -> Files * result ManualError unit) (path domain : string)
    (s : App) : option App :=
  if negb (is_valid_domain domain) then None
  else
    let '(fs, r) := edit (files (ap_world s)) path domain in
    if is_ok r then Some (set_files fs s) else None.
Definition cut_reload (stop : Stop) (pid : Z) (dir_ok client_ok : bool) (env : nat -> FetchEnv) (s : App) : option App :=
  if ap_refreshing s then None
  else
    match stop with
    | InRefresh k named =>
        if negb (dir_ok && client_ok) then None
        else
          match drop k (block_sources (blocking (ap_cfg s))) with
          | [] => None
          | url :: _ =>
              let '(w, h, _) := refresh_loop (ap_cfg s) pid env 0 (take k (block_sources (blocking (ap_cfg s))))
                                  (ap_world s, ap_health s, empty_outcome) in
              let w := if named then mk_world (files w) (wrap 64 (seq w + 1)) else w in
              Some (set_world w (set_health h url (on_attempt (fe_now (env k)))) s)
          end
    | InRebuild =>
        let '(w, h, o) := refresh_sources (ap_cfg s) pid dir_ok client_ok env (ap_world s) (ap_health s) in
        if total_failure o then None else Some (set_world w h s)
    end.
Definition cut (stop : Stop) (m : Mutation) (s : App) : option App :=
  match m, stop with
  | AddDeny io d, InRebuild => cut_edit (fun fs p d => append_manual fs p d io) (manual_deny_path (ap_cfg s)) d s
  | RemoveDeny io d, InRebuild => cut_edit (fun fs p d => remove_manual fs p d io) (manual_deny_path (ap_cfg s)) d s
  | AddAllow io d, InRebuild => cut_edit (fun fs p d => append_manual fs p d io) (manual_allow_path (ap_cfg s)) d s
  | RemoveAllow io d, InRebuild => cut_edit (fun fs p d => remove_manual fs p d io) (manual_allow_path (ap_cfg s)) d s
  | Reload pid dir_ok client_ok env, _ => cut_reload stop pid dir_ok client_ok env s
  | _, _ => None
  end.

Definition timed_out : Reply := mk_reply 504 [] PTimedOut.

(** A changing handler under the deadline. *)
Definition run_change (stop : option Stop) (m : Mutation) (s : App) : App * Reply :=
  match (let! p := stop in cut p m s) with
  | Some s' => (s', timed_out)
  | None =>
      let '(s', e) := handler m s in
      (s', match e with Some e => error_reply e | None => mk_reply 200 [] PDone end)
  end.

(** One request through [router]: [late] is whether a reading handler is
    overtaken by the deadline, [stop] where a changing one is. *)
Definition dispatch (en : Engine) (se : World_) (io : Io) (late : bool) (stop : option Stop) (rq : Request) (s : Server)
    : Server * Reply :=
  match route_of (rq_path rq) with
  | None => (s, mk_reply (en_refuse en rq) [] PFramework)
  | Some route =>
      if negb (method_allowed route (rq_method rq)) then (s, mk_reply (en_refuse en rq) [] PFramework)
      else
        match route with
        | Reading r => (s, if late then timed_out else report en se r rq s)
        | Changing c =>
            match require_admin (en_to_str en) (ap_cfg (sv_app s)) (rq_authorization rq) with
            | Err e => (s, error_reply e)
            | Ok _ =>
                match change_of en io c rq with
                | Err code => (s, mk_reply code [] PFramework)
                | Ok m => let '(a, r) := run_change stop m (sv_app s) in (set_app a s, r)
                end
            end
        end
  end.
Definition serve_request (en : Engine) (se : World_) (io : Io) (late : bool) (stop : option Stop) (rq : Request)
    (s : Server) : Server * Reply :=
  let '(s', r) := dispatch en se io late stop rq s in (s', security_headers r).

(* ------------------------------------------------------------------ *)
(** ** Lemmas *)

(** The values of one header. *)
Definition header_lines (k : string) (l : list (string * string)) : list (string * string) :=
  List.filter (fun p => (fst p =? k)%string) l.

Lemma header_lines_inserted k v l : header_lines k (insert_header k v l) = [(k, v)].
Proof.
  unfold header_lines, insert_header. rewrite List.filter_app. simpl. rewrite String.eqb_refl, filter_none; [done|].
  intros p Hp. apply list_elem_of_In, filter_In in Hp as [_ Hp]. by apply negb_true_iff.
Qed.
Lemma header_lines_other k k' v l : k' <> k -> header_lines k' (insert_header k v l) = header_lines k' l.
Proof.
  intros Hne. unfold header_lines, insert_header. rewrite List.filter_app. simpl.
  rewrite (proj2 (String.eqb_neq k k')) by done. rewrite app_nil_r.
  induction l as [|p l IH]; [done|]. simpl. destruct (String.eqb_spec (fst p) k) as [->|]; simpl.
  - by rewrite (proj2 (String.eqb_neq k k')), IH by done.
  - by rewrite IH.
Qed.

Lemma security_headers_all r k v : (k, v) ∈ SECURITY -> header_lines k (rp_headers (security_headers r)) = [(k, v)].
Proof.
  intros Hin. unfold security_headers. cbn [rp_headers]. generalize (rp_headers r) as l. unfold SECURITY in *. cbn [fold_left fst snd].
  intros l. rewrite !elem_of_cons in Hin. destruct Hin as [[= -> ->]|[[= -> ->]|[[= -> ->]|[[= -> ->]|Hn%elem_of_nil]]]];
    [..|done]; rewrite ?header_lines_other by done; apply header_lines_inserted.
Qed.

(** A handler that is cut leaves the lists in force and the cache alone. *)
Lemma cut_keeps_resolver stop m (s s' : App) : cut stop m s = Some s' -> ap_resolver s' = ap_resolver s /\ ap_cfg s' = ap_cfg s.
Proof.
  assert (forall edit p d s', cut_edit edit p d s = Some s' -> ap_resolver s' = ap_resolver s /\ ap_cfg s' = ap_cfg s) as He.
  { intros edit p d t. unfold cut_edit. destruct (is_valid_domain d); [|done]. destruct (edit _ _ _) as [fs r].
    simpl. destruct (is_ok r); [|done]. by intros [= <-]. }
  unfold cut. destruct m, stop; try done; try apply He; unfold cut_reload; destruct (ap_refreshing s); try done.
  - destruct (_ && _); [|done]. simpl. destruct (drop k _); [done|]. destruct (refresh_loop _ _ _ _ _ _) as [[w h] o].
    by intros [= <-].
  - destruct (refresh_sources _ _ _ _ _ _ _) as [[w h] o]. destruct (total_failure o); [done|]. by intros [= <-].
Qed.

Lemma find_route_in path l r : find_route path l = Some r -> (path, r) ∈ l.
Proof.
  induction l as [|[p x] l IH]; [done|]. simpl. destruct (String.eqb_spec p path) as [->|]; [intros [= ->]; left|].
  intros Hr. right. by apply IH.
Qed.

Lemma changing_paths path c : route_of path = Some (Changing c) ->
  path ∈ ["/api/deny"; "/api/allow"; "/api/reload"; "/api/flush-cache"].
Proof.
  intros Hr%find_route_in%list_elem_of_In.
  assert (forallb (fun p => match snd p with
    | Changing _ => existsb (String.eqb (fst p)) ["/api/deny"; "/api/allow"; "/api/reload"; "/api/flush-cache"]
    | Reading _ => true end) routes = true) as Hall by reflexivity.
  rewrite forallb_forall in Hall. specialize (Hall _ Hr). simpl fst in Hall. simpl snd in Hall. cbv beta iota in Hall.
  apply existsb_exists in Hall as (x & Hx%list_elem_of_In & ->%String.eqb_eq). exact Hx.
Qed.
End Web.

(* ------------------------------------------------------------------ *)
(** ** Properties *)

(** A request that may change something goes to one of the changing routes,
    and presents the configured token if there is one (without the header it
    presents the empty string).  Where the configuration is a valid one and the
    dashboard listens beyond loopback, there is one, of at least sixteen bytes,
    and it comes as the bearer token. *)
Definition authorised (en : Engine) (rq : Request) (cfg : Config) : Prop :=
  (rq_method rq = POST \/ rq_method rq = DELETE) /\
  rq_path rq ∈ ["/api/deny"; "/api/allow"; "/api/reload"; "/api/flush-cache"] /\
  (forall t, admin_token (web cfg) = Some t -> presented (en_to_str en) (rq_authorization rq) = t) /\
  (validate cfg = Ok tt -> is_loopback (sa_ip (web_listen (web cfg))) = false ->
   exists h t, rq_authorization rq = Some h /\ en_to_str en h = Some ("Bearer " +:+ t) /\
     admin_token (web cfg) = Some t /\ 16 <= str_len (trim t)).

(** C18. The whole surface of the web server: a request never touches the
    database, the counters or the discovery status, and what the program
    resolves with changes only through a POST or DELETE to one of the four
    changing paths that presents the configured token exactly to the byte, if
    a token is configured.  With a validated configuration whose dashboard
    listens beyond loopback a token is configured, of at least sixteen bytes,
    and the request carries it as its bearer token; on loopback it need not be
    (without one any request to those paths may change, and an empty one is
    presented by every request).  A request that runs out of time leaves the
    lists in force and the cache as they were, and every answer, errors and
    timeouts included, carries each security header exactly once, with its
    value. *)
Theorem requests_confined `{Codec} {S : Type} `{!QueryObserver S} `{Sqlite}
    en se io late stop rq (s : Server (S := S)) :
  let '(s', r) := serve_request en se io late stop rq s in
  s' = set_app (sv_app s') s /\
  (sv_app s' = sv_app s \/ authorised en rq (ap_cfg (sv_app s))) /\
  (rp_payload r = PTimedOut -> ap_resolver (sv_app s') = ap_resolver (sv_app s)) /\
  (forall k v, (k, v) ∈ SECURITY -> header_lines k (rp_headers r) = [(k, v)]).
Proof.
  unfold serve_request.
  assert (forall s : Server (S := S), s = set_app (sv_app s) s) as Hset by (by intros []).
  assert (let '(s', r) := dispatch en se io late stop rq s in
    s' = set_app (sv_app s') s /\ (sv_app s' = sv_app s \/ authorised en rq (ap_cfg (sv_app s))) /\
    (rp_payload r = PTimedOut -> ap_resolver (sv_app s') = ap_resolver (sv_app s))) as Hd; cycle 1.
  { destruct (dispatch en se io late stop rq s) as [s' r]. destruct Hd as (Ha & Hb & Hc).
    split; [exact Ha|]. split; [exact Hb|]. split; [exact Hc|]. intros k v. apply security_headers_all. }
  unfold dispatch. destruct (route_of (rq_path rq)) as [route|] eqn:Hr; [|by auto].
  destruct (method_allowed route (rq_method rq)) eqn:Hm; simpl; [|by auto].
  destruct route as [rep|c]; [by auto|].
  destruct (require_admin _ _ _) as [[]|e] eqn:Ha; [|by auto].
  destruct (change_of en io c rq) as [m|code]; [|by auto].
  destruct (run_change stop m (sv_app s)) as [a rep] eqn:Hrun.
  split; [done|]. split.
  - right. split_and!.
    + destruct c, (rq_method rq); try done; auto.
    + by apply (changing_paths (rq_path rq) c).
    + exact (proj1 (require_admin_ok _ _ _) Ha).
    + intros Hv Hl. by apply admitted_has_token.
  - simpl. unfold run_change in Hrun. destruct stop as [p|]; simpl in Hrun.
    + destruct (cut p m (sv_app s)) as [s'|] eqn:Hc.
      * injection Hrun as <- <-. intros _. by apply (cut_keeps_resolver p m).
      * destruct (handler m _) as [a' [e|]]; injection Hrun as <- <-; done.
    + destruct (handler m _) as [a' [e|]]; injection Hrun as <- <-; done.
Qed.

(* ------------------------------------------------------------------ *)
(** ** Witness *)

Section Witness.
#[local] Existing Instance simple_hickory.
#[local] Existing Instance simple_codec.
#[local] Existing Instance list_observer.
#[local] Existing Instance simple_sqlite.

Definition w_engine : Engine :=
  mk_engine (fun _ _ => true) w_groups w_head w_head w_head (fun _ => Some 4096) w_to_str
    (fun _ => Some (mk_query_params None None None None None)) (fun _ => Some (mk_range None None None))
    (fun b => if is_empty b then Err 422 else Ok b) (fun _ => 404).
Definition w_seen : World_ :=
  mk_seen 100 0 (mk_proc "1.0" None None None None None None None None) (fun _ => mk_read_env true true).
Definition w_io : Io := mk_io Appended Written 1 true true (fun _ => http_ok "").
Definition w_server : Server (S := list QueryEvent) :=
  mk_server w_app (new_lock (empty_db, mk_file true INCREMENTAL INCREMENTAL 0 false)) 0 no_drops (new_lock default_status).
Definition w_deny (auth : option string) : Request := mk_request POST "/api/deny" auth "" "a.example".
Definition w_bearer : option string := Some ("Bearer " +:+ w_token).

(** Beyond loopback, a request without the token is refused. *)
Lemma requests_confined_witness :
  let p := serve_request w_engine w_seen w_io false None (w_deny None) w_server in
  fst p = w_server /\ rp_status (snd p) = 401 /\ ~ authorised w_engine (w_deny None) w_api_cfg /\
  (sv_app (fst p) = sv_app w_server \/ authorised w_engine (w_deny None) w_api_cfg) /\
  header_lines "x-frame-options" (rp_headers (snd p)) = [("x-frame-options", "DENY")].
Proof.
  split; [reflexivity|]. split; [reflexivity|]. split.
  { intros (_ & _ & _ & Ha). destruct (Ha eq_refl eq_refl) as (h & t & Hh & _). discriminate. }
  pose proof (requests_confined w_engine w_seen w_io false None (w_deny None) w_server) as Hc.
  destruct (serve_request w_engine w_seen w_io false None (w_deny None) w_server) as [s' r].
  destruct Hc as (_ & Ha & _ & Hh). split; [exact Ha|]. apply Hh. by repeat (left || right).
Defined.

(** A status report of an empty program. *)
Example status_example :
  match snd (serve_request w_engine w_seen w_io false None (mk_request GET "/api/status" None "" "") w_server) with
  | mk_reply code _ (PStatus st) =>
      code = 200 /\ su_uptime_secs st = 0 /\ su_dns_listen st = "0.0.0.0:53" /\ free_bytes (su_storage st) = 0 /\
      incremental_vacuum (su_storage st) = true
  | _ => False
  end.
Proof. vm_compute. done. Qed.

(** The deadline can strike between the edit of the list and the rebuild: the
    client is told the request failed, the domain is not blocked now, and it
    is blocked after the next unrelated rebuild. *)
Example timeout_hides_an_edit :
  let '(s', r) := serve_request w_engine w_seen w_io false (Some InRebuild) (w_deny w_bearer) w_server in
  rp_status r = 504 /\
  blocked_by "a.example" (ap_resolver (sv_app s')) = None /\
  blocked_by "a.example" (ap_resolver (fst (rebuild (sv_app s')))) = Some "deny.list".
Proof. vm_compute. done. Qed.

(** A reload is dropped by the same deadline, although one download alone may
    take 120 seconds: the first of two lists is on disk, nothing is rebuilt. *)
Definition w_two_lists : App (S := list QueryEvent) :=
  let b := default_blocking in
  let cfg := mk_config default_dns (web w_api_cfg) default_storage default_discovery
    (mk_blocking_config true (blocking_mode b) ["http://a.example/l"; "http://b.example/l"] [] 24 true (state_dir b))
    default_alerts in
  mk_app cfg (mk_world ∅ 0) w_r (new_health cfg) false.
Definition w_reload : Request := mk_request POST "/api/reload" w_bearer "" "".
Example timeout_drops_a_reload :
  let io := mk_io Appended Written 1 true true (fun _ => http_ok "0.0.0.0 tracker.example") in
  let '(s', r) := serve_request w_engine w_seen io false (Some (InRefresh 1 true)) w_reload
                    (set_app w_two_lists w_server) in
  HTTP_TIMEOUT < from_secs 120 /\ rp_status r = 504 /\ size (files (ap_world (sv_app s'))) = 1%nat /\
  blocked_by "tracker.example" (ap_resolver (sv_app s')) = None.
Proof. vm_compute. done. Qed.
End Witness.
