(* ===== verification/Cases.v ===== *)
(** * The program's own unit tests, evaluated on the model

    The files [*Cases.v] translate the [#[test]] functions of src/: each is a
    definition of the test's name that evaluates to whether all its
    assertions hold, beside a proof that it does.  A model that departs from
    the code where the authors thought to look is caught here.  What a test
    needs of the outside (files, clocks, sockets, the database engine, the
    message library) is given to the model as the test sets it up. *)
From S2P Require Import Prelude Str.

(** [assert!] on each in turn; [assert_eq!]. *)
Definition asserts (l : list bool) : bool := forallb (fun b => b) l.
Definition same {A} `{EqDecision A} (a b : A) : bool := bool_decide (a = b).

(** [unwrap]: a test that panics has failed. *)
Notation "'unwrap' x ':=' o 'in' k" := (match o with Some x => k | None => false end)
  (at level 10, x pattern, o at level 100, k at level 200) : nw_scope.

(** [str::contains] of a string. *)
Fixpoint has (p s : string) : bool :=
  starts_with p s || match s with "" => false | String _ r => has p r end.
(** A step taken so often. *)
Definition repeated {A} (n : nat) (f : A -> A) (a : A) : A := fold_left (fun a _ => f a) (seq 0 n) a.

Lemma asserts_spec l : asserts l = true <-> Forall (fun b => b = true) l.
Proof. unfold asserts. rewrite forallb_forall, List.Forall_forall. done. Qed.
Lemma same_spec {A} `{EqDecision A} (a b : A) : same a b = true <-> a = b.
Proof. apply bool_decide_eq_true. Qed.
