(* ===== verification/AclCases.v ===== *)
(** * The unit tests of the access list (src/dns/acl.rs) *)
From S2P Require Import Prelude Str Addr Acl Cases.
Open Scope Z_scope.

(** [acl(&[..])] and [a.allows(ip(..))], both unwrapping. *)
Definition acl (entries : list string) : option Acl := ok (parse entries).
Definition answers_to (a : Acl) (admitted : bool) (s : string) : bool :=
  unwrap ip := parse_ip s in Bool.eqb (allows a ip) admitted.
Definition admits (a : Acl) (l : list string) : bool := forallb (answers_to a true) l.
Definition refuses (a : Acl) (l : list string) : bool := forallb (answers_to a false) l.
(** [a.trust_subnet(s.parse().unwrap(), prefix)]. *)
Definition trust (a : Acl) (s : string) (prefix : Z) : option (Acl * bool) :=
  let! network := parse_ipv4 s in Some (trust_subnet a network prefix).

Definition default_stance_allows_lan_and_refuses_the_internet : bool :=
  unwrap a := acl ["loopback"; "private"] in
  asserts [
    admits a ["192.168.1.42"; "10.0.0.7"; "172.16.5.1"; "172.31.255.254"; "127.0.0.1"; "::1";
              "169.254.10.1"; "100.64.0.1"; "fd12:3456::1"; "fe80::1"];
    refuses a ["8.8.8.8"; "1.1.1.1"; "203.0.113.9"; "2606:4700::1111"; "172.32.0.1"; "100.128.0.1"]].
Example default_stance_allows_lan_and_refuses_the_internet_passes :
  default_stance_allows_lan_and_refuses_the_internet = true.
Proof. reflexivity. Qed.

Definition explicit_cidrs_are_honoured_per_family : bool :=
  unwrap a := acl ["192.168.50.0/24"; "2001:db8::/32"] in
  asserts [
    admits a ["192.168.50.1"; "192.168.50.255"]; refuses a ["192.168.51.1"];
    admits a ["2001:db8::dead"]; refuses a ["2001:db9::1"; "10.0.0.1"]].
Example explicit_cidrs_are_honoured_per_family_passes : explicit_cidrs_are_honoured_per_family = true.
Proof. reflexivity. Qed.

Definition any_opens_it_up_and_says_so : bool :=
  unwrap a := acl ["any"] in
  unwrap p := acl ["private"] in
  asserts [admits a ["8.8.8.8"]; is_open_to_world a; negb (is_open_to_world p)].
Example any_opens_it_up_and_says_so_passes : any_opens_it_up_and_says_so = true.
Proof. reflexivity. Qed.

Definition empty_rules_fall_back_to_private_rather_than_denying_everything : bool :=
  unwrap a := ok (parse []) in
  asserts [admits a ["192.168.1.5"; "127.0.0.1"]; refuses a ["8.8.8.8"]].
Example empty_rules_fall_back_to_private_passes :
  empty_rules_fall_back_to_private_rather_than_denying_everything = true.
Proof. reflexivity. Qed.

Definition loopback_alone_excludes_the_lan : bool :=
  unwrap a := acl ["loopback"] in asserts [admits a ["127.0.0.1"]; refuses a ["192.168.1.5"]].
Example loopback_alone_excludes_the_lan_passes : loopback_alone_excludes_the_lan = true.
Proof. reflexivity. Qed.

Definition v4_mapped_v6_is_judged_on_its_v4_value : bool :=
  unwrap a := acl ["private"] in asserts [admits a ["::ffff:192.168.1.5"]; refuses a ["::ffff:8.8.8.8"]].
Example v4_mapped_v6_is_judged_on_its_v4_value_passes : v4_mapped_v6_is_judged_on_its_v4_value = true.
Proof. reflexivity. Qed.

Definition prefix_zero_matches_everything_in_its_family : bool :=
  unwrap a := acl ["0.0.0.0/0"] in asserts [admits a ["8.8.8.8"]; is_open_to_world a].
Example prefix_zero_matches_everything_in_its_family_passes : prefix_zero_matches_everything_in_its_family = true.
Proof. reflexivity. Qed.

Definition a_public_addressed_lan_is_trusted_under_the_private_stance : bool :=
  unwrap a := acl ["loopback"; "private"] in
  unwrap (a', changed) := trust a "203.0.113.0" 24 in
  asserts [refuses a ["203.0.113.50"]; changed; admits a' ["203.0.113.50"]; refuses a' ["8.8.8.8"; "203.0.114.1"]].
Example a_public_addressed_lan_is_trusted_passes : a_public_addressed_lan_is_trusted_under_the_private_stance = true.
Proof. reflexivity. Qed.

Definition trust_subnet_will_not_widen_an_explicit_narrow_choice : bool :=
  unwrap a := acl ["loopback"] in
  unwrap (a, a_changed) := trust a "192.0.2.0" 24 in
  unwrap b := acl ["10.1.0.0/16"] in
  unwrap (b, b_changed) := trust b "192.0.2.0" 24 in
  asserts [negb a_changed; refuses a ["192.0.2.2"]; negb b_changed; refuses b ["192.0.2.2"]; admits b ["10.1.2.3"]].
Example trust_subnet_will_not_widen_passes : trust_subnet_will_not_widen_an_explicit_narrow_choice = true.
Proof. reflexivity. Qed.

Definition trust_subnet_is_a_no_op_when_already_covered : bool :=
  unwrap a := acl ["private"] in
  unwrap (a, changed) := trust a "192.168.1.0" 24 in
  asserts [negb changed; admits a ["192.168.1.10"]].
Example trust_subnet_is_a_no_op_passes : trust_subnet_is_a_no_op_when_already_covered = true.
Proof. reflexivity. Qed.

Definition empty_rules_opt_into_lan_trust : bool :=
  unwrap a := ok (parse []) in
  unwrap (a, changed) := trust a "203.0.113.0" 24 in
  asserts [changed; admits a ["203.0.113.7"]].
Example empty_rules_opt_into_lan_trust_passes : empty_rules_opt_into_lan_trust = true.
Proof. reflexivity. Qed.

(** The message names the setting and the entry: the error is an [AclError],
    whose text begins with them. *)
Definition bad_entries_are_rejected_with_a_useful_message : bool :=
  forallb (fun bad =>
    match parse [bad] with
    | Err e => (ae_entry e =? bad)%string
    | Ok _ => false
    end) ["nonsense"; "192.168.1.0"; "192.168.1.0/33"; "not/an/ip"; "/24"].
Example bad_entries_are_rejected_passes : bad_entries_are_rejected_with_a_useful_message = true.
Proof. reflexivity. Qed.
