(* ===== verification/CacheCases.v ===== *)
(** * The unit tests of the answer cache (src/dns/cache.rs)

    Each test reads the clock within microseconds: an insertion at instant
    zero and lookups a microsecond later. *)
From S2P Require Import Prelude Str Addr DnsMsg WireCodec Cache Cases.
Open Scope Z_scope.
#[local] Existing Instance wire_hickory.
#[local] Existing Instance wire_codec.

Definition order (m : gmap Key Entry) : list (Key * Entry) := map_to_list m.
Definition store (k : Key) (m : Message) (c : Cache) : Cache * bool := insert order 0 0 k m c.
Definition found (k : Key) (c : Cache) : option CachedAnswer := snd (get 1000 k c).
Definition is_none {A} (o : option A) : bool := negb (is_some o).

Definition a_record (name : string) (ttl last : Z) : Record_ :=
  mk_record (wire_name name) ttl (A (ipv4 10 0 0 last)).
(** The fields of the SOA record, which the cache does not look into, as text. *)
Definition TYPE_SOA : Z := 6.
Definition soa_record (ttl : Z) : Record_ :=
  mk_record (wire_name "example.com.") ttl
    (OtherData TYPE_SOA ("ns.example.com. admin.example.com. 1 7200 3600 1209600 " +:+ show_uint ttl)).
Definition key (name : string) : Key := mk_key name TYPE_A 1 false false.
Definition of_code_with (code : Z) (ans auth : list Record_) : Message :=
  set_sections ans auth [] (set_response_code code (response 0)).

Definition each_record_keeps_its_own_ttl : bool :=
  let msg := of_code_with NoError [a_record "a.example.com." 60 1; a_record "b.example.com." 3600 2] [] in
  let '(c, stored) := store (key "example.com") msg (new_cache 10 30 86400) in
  unwrap hit := found (key "example.com") c in
  asserts [stored; same (map r_ttl (ca_answers hit)) [60; 3600]].
Example each_record_keeps_its_own_ttl_passes : each_record_keeps_its_own_ttl = true.
Proof. reflexivity. Qed.

Definition a_ttl_shorter_than_min_is_not_cached_rather_than_extended : bool :=
  let msg := of_code_with NoError [a_record "short.example.com." 5 1] [] in
  let '(c, stored) := store (key "short.example.com") msg (new_cache 10 30 86400) in
  asserts [negb stored; is_none (found (key "short.example.com") c)].
Example a_ttl_shorter_than_min_passes : a_ttl_shorter_than_min_is_not_cached_rather_than_extended = true.
Proof. reflexivity. Qed.

Definition max_ttl_can_shorten_an_entry_but_records_keep_their_ttl : bool :=
  let msg := of_code_with NoError [a_record "long.example.com." 100000 1] [] in
  let '(c, stored) := store (key "long.example.com") msg (new_cache 10 0 60) in
  unwrap hit := found (key "long.example.com") c in
  asserts [stored; same (map r_ttl (ca_answers hit)) [100000]].
Example max_ttl_can_shorten_an_entry_passes : max_ttl_can_shorten_an_entry_but_records_keep_their_ttl = true.
Proof. reflexivity. Qed.

Definition dnssec_and_cd_answers_are_kept_apart : bool :=
  let plain := of_code_with NoError [a_record "example.com." 300 1] [] in
  let with_do := mk_key "example.com" TYPE_A 1 true false in
  let with_cd := mk_key "example.com" TYPE_A 1 false true in
  let '(c, stored) := store (key "example.com") plain (new_cache 10 0 86400) in
  asserts [stored; is_none (found with_do c); is_none (found with_cd c); is_some (found (key "example.com") c)].
Example dnssec_and_cd_answers_are_kept_apart_passes : dnssec_and_cd_answers_are_kept_apart = true.
Proof. reflexivity. Qed.

Definition query_class_is_part_of_the_key : bool :=
  let msg := of_code_with NoError [a_record "example.com." 300 1] [] in
  let '(c, stored) := store (key "example.com") msg (new_cache 10 0 86400) in
  let chaos := mk_key "example.com" TYPE_A 3 false false in
  asserts [stored; is_none (found chaos c)].
Example query_class_is_part_of_the_key_passes : query_class_is_part_of_the_key = true.
Proof. reflexivity. Qed.

Definition the_clients_opt_record_is_never_stored : bool :=
  let msg := set_edns (set_max_payload edns_new 4096) (of_code_with NoError [a_record "example.com." 300 1] []) in
  let msg := set_sections (answers msg) [] [mk_record (wire_name ".") 0 (OtherData TYPE_OPT "")] msg in
  let '(c, stored) := store (key "example.com") msg (new_cache 10 0 86400) in
  unwrap hit := found (key "example.com") c in
  asserts [stored; forallb (fun r => negb (record_type r =? TYPE_OPT)) (ca_additionals hit)].
Example the_clients_opt_record_is_never_stored_passes : the_clients_opt_record_is_never_stored = true.
Proof. reflexivity. Qed.

Definition nxdomain_is_cached_off_the_soa_ttl : bool :=
  let msg := of_code_with NXDomain [] [soa_record 900] in
  let '(c, stored) := store (key "nope.example.com") msg (new_cache 10 0 86400) in
  unwrap hit := found (key "nope.example.com") c in
  asserts [stored; ca_response_code hit =? NXDomain; same (map r_ttl (ca_authorities hit)) [900]].
Example nxdomain_is_cached_off_the_soa_ttl_passes : nxdomain_is_cached_off_the_soa_ttl = true.
Proof. reflexivity. Qed.

Definition nodata_is_cached_off_the_soa_ttl : bool :=
  let msg := of_code_with NoError [] [soa_record 600] in
  let '(c, stored) := store (key "nodata.example.com") msg (new_cache 10 0 86400) in
  unwrap hit := found (key "nodata.example.com") c in
  asserts [stored; same (map r_ttl (ca_authorities hit)) [600]].
Example nodata_is_cached_off_the_soa_ttl_passes : nodata_is_cached_off_the_soa_ttl = true.
Proof. reflexivity. Qed.

Definition servfail_and_empty_answers_are_not_cached : bool :=
  let fail := of_code_with ServFail [a_record "example.com." 300 1] [] in
  let '(c, stored) := store (key "example.com") fail (new_cache 10 0 86400) in
  let '(_, bare_stored) := store (key "bare.example.com") (of_code_with NoError [] []) c in
  asserts [negb stored; negb bare_stored].
Example servfail_and_empty_answers_are_not_cached_passes : servfail_and_empty_answers_are_not_cached = true.
Proof. reflexivity. Qed.

Definition zero_ttl_is_never_cached : bool :=
  let msg := of_code_with NoError [a_record "once.example.com." 0 1] [] in
  negb (snd (store (key "once.example.com") msg (new_cache 10 0 86400))).
Example zero_ttl_is_never_cached_passes : zero_ttl_is_never_cached = true.
Proof. reflexivity. Qed.

(** [Message::query()], with one question. *)
Definition query_with (i : Z) (rd cd : bool) (qs : list Question) (e : option Edns) : Message :=
  mk_message (mk_metadata i Query OP_QUERY NoError false false rd false cd) qs [] [] [] e.

Definition key_from_request_captures_the_do_and_cd_bits : bool :=
  let req := query_with 0 false true [mk_question (wire_name "example.com.") TYPE_AAAA 1]
               (Some (set_dnssec_ok edns_new true)) in
  unwrap k := from_request req "example.com" in
  asserts [k_qtype k =? TYPE_AAAA; k_qclass k =? 1; k_dnssec_ok k; k_checking_disabled k].
Example key_from_request_captures_the_do_and_cd_bits_passes : key_from_request_captures_the_do_and_cd_bits = true.
Proof. reflexivity. Qed.

Definition response_edns_never_invents_an_opt_for_a_client_without_one : bool :=
  let bare := query_with 0 false false [] None in
  let with_edns := query_with 0 false false [] (Some (set_dnssec_ok (set_max_payload edns_new 65535) true)) in
  unwrap out := response_edns with_edns 1232 in
  asserts [is_none (response_edns bare 1232); e_max_payload out =? 1232; e_dnssec_ok out].
Example response_edns_never_invents_an_opt_passes :
  response_edns_never_invents_an_opt_for_a_client_without_one = true.
Proof. reflexivity. Qed.
