(* ===== verification/BlocklistCases.v ===== *)
(** * The unit tests of the block list (src/blocklist.rs)

    The parser's and the matcher's tests run as they are.  A test of the
    refresh has a directory, a source on a port that refuses connections, and
    sometimes one that answers: the file system and the responses are given. *)
From S2P Require Import Prelude Str Addr Acl Blocklist Config Lists DnsMsg Cache Upstream Db Resolver Api Cases.
Open Scope Z_scope.

Definition text (l : list string) : string := String.concat "" (map (fun s => s +:+ NL) l).
(** [let mut bl = Blocklist::default(); bl.ingest(..); ..]. *)
Definition loaded (l : list (string * string * bool)) : Blocklist :=
  fold_left (fun bl p => fst (ingest bl (fst (fst p)) (snd (fst p)) (snd p))) l empty_blocklist.
Definition blocked_as (bl : Blocklist) (source : string) (names : list string) : bool :=
  forallb (fun n => same (lookup bl n) (Some source)) names.
Definition passed (bl : Blocklist) (names : list string) : bool :=
  forallb (fun n => same (lookup bl n) None) names.

(* ------------------------------------------------------------------ *)
(** ** format_tests *)

Definition a_wildcard_rule_covers_the_domain_it_names : bool :=
  let bl := loaded [(text ["*.analytics.example.com"], "hagezi-wildcard", false)] in
  asserts [blocked_as bl "hagezi-wildcard" ["analytics.example.com"; "eu.analytics.example.com"]; passed bl ["example.com"]].
Example a_wildcard_rule_covers_passes : a_wildcard_rule_covers_the_domain_it_names = true.
Proof. reflexivity. Qed.

Definition a_wildcard_allow_also_covers_the_domain_it_names : bool :=
  let bl := loaded [(text ["*.cdn.example.com"], "block", false); (text ["*.cdn.example.com"], "allow", true)] in
  passed bl ["cdn.example.com"; "img.cdn.example.com"].
Example a_wildcard_allow_also_covers_passes : a_wildcard_allow_also_covers_the_domain_it_names = true.
Proof. reflexivity. Qed.

Definition adblock_plus_rules_are_parsed : bool :=
  let '(bl, n) := ingest empty_blocklist
    (text ["[Adblock Plus 2.0]"; "! Title: test"; "||ads.example.com^"; "||tracker.example.net^"]) "oisd-abp" false in
  asserts [(n =? 2)%nat; blocked_as bl "oisd-abp" ["ads.example.com"; "pixel.ads.example.com"]; passed bl ["example.com"]].
Example adblock_plus_rules_are_parsed_passes : adblock_plus_rules_are_parsed = true.
Proof. reflexivity. Qed.

Definition adblock_exceptions_become_allow_rules : bool :=
  let bl := loaded [(text ["||example.com^"; "@@||safe.example.com^"], "abp", false)] in
  asserts [blocked_as bl "abp" ["tracker.example.com"]; passed bl ["safe.example.com"]].
Example adblock_exceptions_become_allow_rules_passes : adblock_exceptions_become_allow_rules = true.
Proof. reflexivity. Qed.

Definition adblock_rules_we_cannot_honour_exactly_are_skipped : bool :=
  let '(bl, n) := ingest empty_blocklist
    (text ["||example.com^$third-party"; "||example.org/ads/banner.png"; "||*.example.net^"; "##.advert"]) "abp" false in
  asserts [(n =? 0)%nat; passed bl ["example.com"; "example.org"]].
Example adblock_rules_we_cannot_honour_passes : adblock_rules_we_cannot_honour_exactly_are_skipped = true.
Proof. reflexivity. Qed.

Definition hosts_format_is_unaffected : bool :=
  let bl := loaded [(text ["0.0.0.0 ads.example.com"; "127.0.0.1 localhost"], "sb", false)] in
  asserts [blocked_as bl "sb" ["ads.example.com"]; passed bl ["localhost"; "sub.ads.example.com"]].
Example hosts_format_is_unaffected_passes : hosts_format_is_unaffected = true.
Proof. reflexivity. Qed.

(* ------------------------------------------------------------------ *)
(** ** tests *)

Definition parses_hosts_and_bare_formats : bool :=
  let bl := loaded [(text ["# comment"; "0.0.0.0 ads.example.com"; "127.0.0.1 tracker.net"; "bare.org"; "0.0.0.0 localhost"],
                     "test", false)] in
  asserts [blocked_as bl "test" ["ads.example.com"; "tracker.net"; "bare.org"]; passed bl ["localhost"; "example.com"]].
Example parses_hosts_and_bare_formats_passes : parses_hosts_and_bare_formats = true.
Proof. reflexivity. Qed.

Definition wildcards_cover_the_apex_and_everything_under_it : bool :=
  let bl := loaded [(text ["*.doubleclick.net"], "test", false)] in
  asserts [blocked_as bl "test" ["stats.g.doubleclick.net"; "ad.doubleclick.net"; "doubleclick.net"];
           passed bl ["net"; "notdoubleclick.net"]].
Example wildcards_cover_the_apex_passes : wildcards_cover_the_apex_and_everything_under_it = true.
Proof. reflexivity. Qed.

Definition allowlist_overrides_blocklist : bool :=
  let bl := loaded [(text ["*.example.com"; "ads.example.com"], "test", false); (text ["ads.example.com"], "allow", true)] in
  asserts [passed bl ["ads.example.com"]; blocked_as bl "test" ["other.example.com"]].
Example allowlist_overrides_blocklist_passes : allowlist_overrides_blocklist = true.
Proof. reflexivity. Qed.

Definition rejects_junk_entries : bool :=
  asserts [forallb (fun e => negb (is_some (normalize e))) [""; "nodot"; "1.2.3.4"; "has space.com"; "bad..com"];
           is_some (normalize "ok.example.com")].
Example rejects_junk_entries_passes : rejects_junk_entries = true.
Proof. reflexivity. Qed.

Definition attributes_each_domain_to_the_right_list : bool :=
  let bl := loaded [(text ["ads.one.com"], "list-a", false); (text ["ads.two.com"], "list-b", false);
                    (text ["*.three.com"], "list-c", false)] in
  asserts [blocked_as bl "list-a" ["ads.one.com"]; blocked_as bl "list-b" ["ads.two.com"];
           blocked_as bl "list-c" ["x.three.com"]; (length (sources bl) =? 3)%nat].
Example attributes_each_domain_passes : attributes_each_domain_to_the_right_list = true.
Proof. reflexivity. Qed.

Definition a_list_ingested_twice_gets_one_source_slot : bool :=
  let bl := loaded [(text ["a.example.com"], "same-list", false); (text ["b.example.com"], "same-list", false)] in
  asserts [same (map ss_entries (sources bl)) [2%nat]; blocked_as bl "same-list" ["a.example.com"; "b.example.com"]].
Example a_list_ingested_twice_passes : a_list_ingested_twice_gets_one_source_slot = true.
Proof. reflexivity. Qed.

Definition allow_lists_do_not_create_source_slots : bool :=
  let bl := loaded [(text ["ads.example.com"], "blocklist", false); (text ["ads.example.com"], "allow.list", true)] in
  same (map ss_name (sources bl)) ["blocklist"].
Example allow_lists_do_not_create_source_slots_passes : allow_lists_do_not_create_source_slots = true.
Proof. reflexivity. Qed.

Definition first_list_to_claim_a_domain_keeps_the_attribution : bool :=
  let bl := loaded [(text ["dupe.example.com"], "first", false); (text ["dupe.example.com"], "second", false)] in
  blocked_as bl "first" ["dupe.example.com"].
Example first_list_to_claim_a_domain_passes : first_list_to_claim_a_domain_keeps_the_attribution = true.
Proof. reflexivity. Qed.

Definition strips_trailing_dot_and_uppercase : bool :=
  blocked_as (loaded [(text ["ADS.Example.COM."], "test", false)]) "test" ["ads.example.com"].
Example strips_trailing_dot_and_uppercase_passes : strips_trailing_dot_and_uppercase = true.
Proof. reflexivity. Qed.

(* ------------------------------------------------------------------ *)
(** ** refresh_tests *)

Definition cfg_with (urls : list string) (dir : string) : Config :=
  mk_config default_dns default_web default_storage default_discovery
    (mk_blocking_config (blocking_enabled default_blocking) (blocking_mode default_blocking) urls (block_files default_blocking)
       (refresh_hours default_blocking) (disable_firefox_doh default_blocking) dir) default_alerts.
Definition tmpdir : string := "/tmp/netwatch-test".
Definition refused : string := "http://127.0.0.1:1/list.txt".
(** A port nobody listens on; a server with a small body. *)
Definition refusing : FetchEnv := mk_fetch 1700000000 (Err "connection refused") Written true true.
Definition serving (body : string) : FetchEnv :=
  mk_fetch 1700000000 (Ok (mk_response 200 "200 OK" (Some (str_len body)) [Ok body])) Written true true.
Definition refresh_with (cfg : Config) (env : nat -> FetchEnv) (fs : Files) (h : HealthMap) : RefreshState :=
  refresh_sources cfg 1 true true env (mk_world fs 0) h.

Definition every_source_failing_is_reported_as_a_total_failure : bool :=
  let cfg := cfg_with [refused] tmpdir in
  let '(_, health, o) := refresh_with cfg (fun _ => refusing) ∅ (new_health cfg) in
  unwrap h := head (lk_value health) in
  asserts [(attempted o =? 1)%nat; (succeeded o =? 0)%nat; total_failure o; (length (failures o) =? 1)%nat;
           (sh_state h =? "error")%string; is_some (last_attempt h); negb (is_some (last_success h)); is_some (sh_error h)].
Example every_source_failing_passes : every_source_failing_is_reported_as_a_total_failure = true.
Proof. reflexivity. Qed.

Definition a_failure_after_a_success_is_stale_and_keeps_the_cached_list : bool :=
  let cfg := cfg_with [refused] tmpdir in
  let cached := cached_list_path cfg refused in
  let fs := (<[cached := text ["ads.example.com"]]> ∅ : Files) in
  let health := set_health (new_health cfg) refused
    (fun h => mk_health (sh_url h) (last_attempt h) (Some 1) (sh_bytes h) "ok" (sh_error h)) in
  let '(w, health, o) := refresh_with cfg (fun _ => refusing) fs health in
  unwrap h := head (lk_value health) in
  asserts [total_failure o; (sh_state h =? "stale")%string;
           same (read_to_string (files w) cached) (Some (text ["ads.example.com"]));
           is_some (lookup (build cfg (files w)) "ads.example.com")].
Example a_failure_after_a_success_passes : a_failure_after_a_success_is_stale_and_keeps_the_cached_list = true.
Proof. vm_compute. reflexivity. Qed.

Definition partial_success_is_not_a_total_failure : bool :=
  let cfg := cfg_with ["http://127.0.0.1:8081/good.txt"; "http://127.0.0.1:1/bad.txt"] tmpdir in
  let env (i : nat) := if (i =? 0)%nat then serving (text ["0.0.0.0 tracker.example.com"]) else refusing in
  let '(w, health, o) := refresh_with cfg env ∅ (new_health cfg) in
  asserts [(attempted o =? 2)%nat; (succeeded o =? 1)%nat; negb (total_failure o); (length (failures o) =? 1)%nat;
           same (map sh_state (lk_value health)) ["ok"; "error"];
           is_some_and (fun n => 0 <? n) (head (lk_value health) ≫= sh_bytes)].
Example partial_success_passes : partial_success_is_not_a_total_failure = true.
Proof. vm_compute. reflexivity. Qed.

(** A reload while another holds the lock backs off; one after it does not. *)
Definition concurrent_refreshes_are_serialised_by_the_lock : bool :=
  let app (held : bool) := @mk_app simple_hickory (list QueryEvent) (cfg_with [] tmpdir) (mk_world ∅ 0) w_r
                             (new_health (cfg_with [] tmpdir)) held in
  let tried (held : bool) := match snd (reload 1 true true (fun _ => refusing) (app held)) with
                             | Err e => bool_decide (ae_status e = CONFLICT)
                             | Ok _ => false end in
  asserts [tried true; negb (tried false)].
Example concurrent_refreshes_are_serialised_passes : concurrent_refreshes_are_serialised_by_the_lock = true.
Proof. reflexivity. Qed.

Definition temp_files_do_not_collide_and_are_cleaned_up : bool :=
  let cfg := cfg_with ["http://127.0.0.1:1/x.txt"] tmpdir in
  let '(w, _, _) := refresh_with cfg (fun _ => refusing) ∅ (new_health cfg) in
  same (map_to_list (files w)) [].
Example temp_files_do_not_collide_passes : temp_files_do_not_collide_and_are_cleaned_up = true.
Proof. reflexivity. Qed.
