(* ===== verification/AlertsCases.v ===== *)
(** * The unit tests of the alerts (src/alerts.rs) *)
From S2P Require Import Prelude Str Alerts Cases.
Open Scope Z_scope.

(** The sink, whose queue the test reads with [try_recv]. *)
Definition sink_with_cooldown (secs : Z) : AlertSink := mk_sink [] true (new_lock ∅) (from_secs secs).
(** The alerts are raised within the same moment; the clock does not matter. *)
Definition raised (secs : Z) (l : list Alert) : list Alert :=
  sk_queue (fold_left (fun s a => raise 0 a s) l (sink_with_cooldown secs)).

Definition a_repeated_condition_alerts_once : bool :=
  (length (raised 3600 (repeat (nxdomain_storm "192.168.1.5" 200 10) 5)) =? 1)%nat.
Example a_repeated_condition_alerts_once_passes : a_repeated_condition_alerts_once = true.
Proof. reflexivity. Qed.

Definition different_subjects_alert_independently : bool :=
  (length (raised 3600 [nxdomain_storm "192.168.1.5" 200 10; nxdomain_storm "192.168.1.9" 300 10]) =? 2)%nat.
Example different_subjects_alert_independently_passes : different_subjects_alert_independently = true.
Proof. reflexivity. Qed.

Definition different_kinds_about_one_subject_alert_independently : bool :=
  (length (raised 3600 [new_device "aa:bb:cc:dd:ee:01" None None; nxdomain_storm "aa:bb:cc:dd:ee:01" 200 10]) =? 2)%nat.
Example different_kinds_about_one_subject_passes : different_kinds_about_one_subject_alert_independently = true.
Proof. reflexivity. Qed.

Definition the_cooldown_expires : bool :=
  (length (raised 0 [nxdomain_storm "192.168.1.5" 200 10; nxdomain_storm "192.168.1.5" 250 10]) =? 2)%nat.
Example the_cooldown_expires_passes : the_cooldown_expires = true.
Proof. reflexivity. Qed.

(** The port refuses: the client has no answer. *)
Definition a_failed_delivery_reports_false_rather_than_erroring : bool :=
  negb (notify (fun _ => None) "http://127.0.0.1:1/topic" (new_device "aa:bb:cc:dd:ee:01" None None)).
Example a_failed_delivery_reports_false_passes : a_failed_delivery_reports_false_rather_than_erroring = true.
Proof. reflexivity. Qed.

Definition no_ntfy_url_means_no_client_rather_than_a_failure : bool := negb (build_client "" true).
Example no_ntfy_url_means_no_client_passes : no_ntfy_url_means_no_client_rather_than_a_failure = true.
Proof. reflexivity. Qed.

Definition is_severity (s t : Severity) : bool := (severity_str s =? severity_str t)%string.

Definition a_new_device_alert_names_the_device : bool :=
  let a := new_device "aa:bb:cc:dd:ee:01" (Some "living-room-tv") (Some "Samsung") in
  asserts [has "living-room-tv" (al_detail a); has "Samsung" (al_detail a); has "aa:bb:cc:dd:ee:01" (al_detail a);
           is_severity (al_severity a) Info].
Example a_new_device_alert_names_the_device_passes : a_new_device_alert_names_the_device = true.
Proof. reflexivity. Qed.

Definition an_unnamed_new_device_still_produces_a_usable_message : bool :=
  let a := new_device "aa:bb:cc:dd:ee:01" None None in
  asserts [has "aa:bb:cc:dd:ee:01" (al_detail a); negb (has "None" (al_detail a))].
Example an_unnamed_new_device_passes : an_unnamed_new_device_still_produces_a_usable_message = true.
Proof. reflexivity. Qed.

Definition a_storm_alert_is_a_warning_and_says_how_many : bool :=
  let a := nxdomain_storm "192.168.1.5" 412 10 in
  asserts [is_severity (al_severity a) Warning; has "412" (al_detail a); has "10 minutes" (al_detail a)].
Example a_storm_alert_is_a_warning_passes : a_storm_alert_is_a_warning_and_says_how_many = true.
Proof. reflexivity. Qed.
