(* ===== verification/DevicesCases.v ===== *)
(** * The unit tests of the device registry (src/devices.rs)

    The registry of a test has the built-in vendors and no writer; the
    hasher of the fingerprints is one that tells apart what the tests store. *)
From S2P Require Import Prelude Str Addr Oui Netinfo DnsMsg Db Alerts Devices Cases.
Open Scope Z_scope.

Definition hash_text (o : option string) : list Z :=
  match o with Some s => [256] ++ as_bytes s | None => [257] end.
Definition hash (x : option Z * option string * option string * bool) : Z :=
  let '(ip, name, vendor, randomized) := x in
  wrap 64 (fold_left (fun acc b => acc * 259 + b)
    (hash_text name ++ hash_text vendor ++ [if randomized then 1 else 2; match ip with Some a => a | None => -1 end]) 7).

(** [DeviceStore::new_for_test]. *)
Definition new_for_test : Store := mk_store (new_lock empty_inner) Oui.new None None.
Definition registry (s : Store) : Inner := lk_value (inner s).
Definition device (s : Store) (mac : string) : option Device := by_mac (registry s) !! mac.

(* ------------------------------------------------------------------ *)
(** ** Parsers *)

Definition dhcp_packet (mac : list Z) (hostname : option string) : list Z :=
  [1; 1; 6] ++ repeat 0 25 ++ mac ++ repeat 0 202 ++ [99; 130; 83; 99] ++ [53; 1; 1]
  ++ match hostname with Some h => [12; str_len h] ++ as_bytes h | None => [] end ++ [255].

Definition parses_dhcp_hostname_and_mac : bool :=
  same (parse_dhcp (dhcp_packet [184; 39; 235; 17; 34; 51] (Some "kitchen-pi"))) (Some ("b8:27:eb:11:22:33", Some "kitchen-pi")).
Example parses_dhcp_hostname_and_mac_passes : parses_dhcp_hostname_and_mac = true.
Proof. vm_compute. reflexivity. Qed.

Definition parses_dhcp_without_hostname : bool :=
  same (parse_dhcp (dhcp_packet [92; 207; 127; 170; 187; 204] None)) (Some ("5c:cf:7f:aa:bb:cc", None)).
Example parses_dhcp_without_hostname_passes : parses_dhcp_without_hostname = true.
Proof. vm_compute. reflexivity. Qed.

Definition ignores_dhcp_replies_and_runts : bool :=
  asserts [same (parse_dhcp (<[0%nat := 2]> (dhcp_packet [1; 2; 3; 4; 5; 6] (Some "x")))) None;
           same (parse_dhcp (repeat 0 10)) None].
Example ignores_dhcp_replies_and_runts_passes : ignores_dhcp_replies_and_runts = true.
Proof. vm_compute. reflexivity. Qed.

(** [pop] drops the end marker; an option then claims 200 bytes. *)
Definition survives_truncated_option_length : bool :=
  same (parse_dhcp (removelast (dhcp_packet [1; 2; 3; 4; 5; 6] None) ++ [12; 200])) (Some ("01:02:03:04:05:06", None)).
Example survives_truncated_option_length_passes : survives_truncated_option_length = true.
Proof. vm_compute. reflexivity. Qed.

Definition converts_ptr_names_to_ips : bool :=
  same (map ptr_name_to_ip ["42.1.168.192.in-addr.arpa."; "example.com."; "1.2.3.in-addr.arpa."])
       [Some (ipv4 192 168 1 42); None; None].
Example converts_ptr_names_to_ips_passes : converts_ptr_names_to_ips = true.
Proof. vm_compute. reflexivity. Qed.

Definition rejects_hostile_hostnames : bool :=
  asserts [is_some (sanitize_hostname "kitchen-ipad");
    forallb (fun h => negb (is_some (sanitize_hostname h)))
      [""; "has space"; "<script>alert(1)</script>"; "bell" +:+ String (of_code 7) "name"; "192.168.1.5";
       string_of_bytes (repeat 120 200)]].
Example rejects_hostile_hostnames_passes : rejects_hostile_hostnames = true.
Proof. vm_compute. reflexivity. Qed.

(* ------------------------------------------------------------------ *)
(** ** Writing as little as possible *)

Definition writes_for (s : Store) : nat :=
  length (List.filter (fun p => is_some (written_fingerprint (snd p))) (map_to_list (by_mac (registry s)))).
Definition wrote_at (t : Instant) (d : Device) : Device * bool := take_write_slot hash t d.
Definition with_name (n : string) (d : Device) : Device :=
  mk_dev (dv_mac d) (dv_ip d) (Some n) (dv_vendor d) (dv_randomized d) (written_fingerprint d) (last_seen_written d).
Definition with_ip (ip : Z) (d : Device) : Device :=
  mk_dev (dv_mac d) (Some ip) (dv_hostname d) (dv_vendor d) (dv_randomized d) (written_fingerprint d) (last_seen_written d).
Definition at_5 : Device := blank_device "aa:bb:cc:00:00:01" (Some (ipv4 192 168 1 5)).
Definition t0 : Instant := from_secs 5000.

Definition an_unchanged_device_is_not_rewritten : bool :=
  let '(d, w1) := wrote_at t0 (with_name "kitchen-pi" at_5) in
  let '(d, w2) := wrote_at t0 d in
  let '(d, w3) := wrote_at t0 d in
  asserts [w1; negb w2; negb w3].
Example an_unchanged_device_is_not_rewritten_passes : an_unchanged_device_is_not_rewritten = true.
Proof. vm_compute. reflexivity. Qed.

Definition a_changed_field_forces_a_write_immediately : bool :=
  let '(d, w1) := wrote_at t0 at_5 in
  let '(d, w2) := wrote_at t0 d in
  let '(d, w3) := wrote_at t0 (with_name "kitchen-pi" d) in
  let '(d, w4) := wrote_at t0 (with_ip (ipv4 192 168 1 6) d) in
  asserts [w1; negb w2; w3; w4].
Example a_changed_field_forces_a_write_passes : a_changed_field_forces_a_write_immediately = true.
Proof. vm_compute. reflexivity. Qed.

Definition last_seen_is_refreshed_on_a_heartbeat_not_per_query : bool :=
  let '(d, w1) := wrote_at t0 at_5 in
  let '(d, busy) := repeated 1000 (fun p => let '(d, w) := wrote_at (t0 + from_secs 30) (fst p) in (d, snd p || w)) (d, false) in
  let later := t0 + LAST_SEEN_HEARTBEAT + from_secs 1 in
  let '(d, w2) := wrote_at later d in
  let '(d, w3) := wrote_at later d in
  asserts [w1; negb busy; w2; negb w3].
Example last_seen_is_refreshed_on_a_heartbeat_passes : last_seen_is_refreshed_on_a_heartbeat_not_per_query = true.
Proof. vm_compute. reflexivity. Qed.

Definition seen (ip : Z) (mac : string) (s : Store) : Store := observe hash (mk_sight t0 0 t0) ip mac s.

Definition repeated_arp_observations_collapse_to_one_write : bool :=
  (writes_for (repeated 50 (seen (ipv4 192 168 1 5) "b8:27:eb:11:22:33") new_for_test) =? 1)%nat.
Example repeated_arp_observations_passes : repeated_arp_observations_collapse_to_one_write = true.
Proof. vm_compute. reflexivity. Qed.

(* ------------------------------------------------------------------ *)
(** ** Restarts and alerts *)

Definition known (mac : string) (ip : option string) : KnownDevice :=
  mk_known mac ip (Some "kitchen-ipad") (Some "Apple") false.
Definition hydrated (rows : list KnownDevice) (s : Store) : Store * Z := hydrate hash t0 rows s.

Definition hydrated_devices_are_not_treated_as_newly_seen : bool :=
  let '(s, loaded) := hydrated [known "b8:27:eb:11:22:33" (Some "192.168.1.5")] new_for_test in
  asserts [loaded =? 1; is_some (device s "b8:27:eb:11:22:33");
           same (ip_to_mac (registry s) !! ipv4 192 168 1 5) (Some "b8:27:eb:11:22:33")].
Example hydrated_devices_passes : hydrated_devices_are_not_treated_as_newly_seen = true.
Proof. vm_compute. reflexivity. Qed.

Definition hydration_does_not_immediately_rewrite_every_row : bool :=
  let '(s, _) := hydrated [known "b8:27:eb:11:22:33" (Some "192.168.1.5")] new_for_test in
  unwrap d := device s "b8:27:eb:11:22:33" in negb (snd (wrote_at t0 d)).
Example hydration_does_not_rewrite_passes : hydration_does_not_immediately_rewrite_every_row = true.
Proof. vm_compute. reflexivity. Qed.

Definition sink : AlertSink := mk_sink [] true (new_lock ∅) (from_secs 3600).
Definition alerts_of (s : Store) : list Alert := match alert_sink s with Some k => sk_queue k | None => [] end.

Definition a_restart_does_not_alert_for_devices_we_already_knew : bool :=
  let '(s, _) := hydrated [known "b8:27:eb:11:22:33" (Some "192.168.1.5"); known "b8:27:eb:44:55:66" (Some "192.168.1.6")]
                   (with_alerts new_for_test (Some sink)) in
  let s := seen (ipv4 192 168 1 6) "b8:27:eb:44:55:66" (seen (ipv4 192 168 1 5) "b8:27:eb:11:22:33" s) in
  (length (alerts_of s) =? 0)%nat.
Example a_restart_does_not_alert_passes : a_restart_does_not_alert_for_devices_we_already_knew = true.
Proof. vm_compute. reflexivity. Qed.

Definition a_genuinely_new_device_alerts_once : bool :=
  let '(s, _) := hydrated [known "b8:27:eb:11:22:33" (Some "192.168.1.5")] (with_alerts new_for_test (Some sink)) in
  let s1 := seen (ipv4 192 168 1 9) "aa:bb:cc:dd:ee:ff" s in
  let s2 := seen (ipv4 192 168 1 9) "aa:bb:cc:dd:ee:ff" s1 in
  asserts [same (map al_subject (alerts_of s1)) ["aa:bb:cc:dd:ee:ff"]; (length (alerts_of s2) =? 1)%nat].
Example a_genuinely_new_device_alerts_once_passes : a_genuinely_new_device_alerts_once = true.
Proof. vm_compute. reflexivity. Qed.

Definition hydration_survives_a_bad_ip_column : bool :=
  let '(s, loaded) := hydrated [known "b8:27:eb:11:22:33" (Some "not-an-ip")] new_for_test in
  asserts [loaded =? 1; (size (ip_to_mac (registry s)) =? 0)%nat].
Example hydration_survives_a_bad_ip_column_passes : hydration_survives_a_bad_ip_column = true.
Proof. vm_compute. reflexivity. Qed.

Definition touch_ip_from_the_query_path_is_debounced : bool :=
  let s := seen (ipv4 192 168 1 5) "b8:27:eb:11:22:33" new_for_test in
  let s' := repeated 1000 (touch_ip t0 0 (V4 (ipv4 192 168 1 5))) s in
  unwrap before := device s "b8:27:eb:11:22:33" in
  unwrap after := device s' "b8:27:eb:11:22:33" in
  same (last_seen_written before) (last_seen_written after).
Example touch_ip_from_the_query_path_passes : touch_ip_from_the_query_path_is_debounced = true.
Proof. vm_compute. reflexivity. Qed.

(** The test outruns the writer thread, which here does not get to run at
    all: the queue is left to itself. *)
Definition test_event (i : nat) : QueryEvent :=
  mk_event 0 "192.168.1.5" ("d" +:+ show_uint (Z.of_nat i) +:+ ".example.com") "A" Forwarded None None None.
Definition overrun (l : list nat) : Writer := send_all (map (fun i => OpQuery (test_event i)) l) new_writer.
Definition drop_counts_are_tracked_per_kind : bool :=
  let counts := w_dropped (overrun (seq 0 (Z.to_nat 20000))) in
  asserts [0 <? d_queries counts; d_devices counts =? 0].

(** Too many operations to run, but [send]'s accounting tells. *)
Lemma of_kind_queries l : of_kind 0 (map (fun i => OpQuery (test_event i)) l) = Z.of_nat (length l).
Proof. induction l as [|i l IH]; [done|]. cbn [map]. rewrite of_kind_cons, IH. cbn [op_kind length Nat.eqb]. lia. Qed.
Lemma of_kind_le k l : of_kind k l <= Z.of_nat (length l).
Proof. unfold of_kind. apply inj_le. induction l as [|x l IH]; simpl; [lia|]. case_match; simpl; lia. Qed.
Lemma queries_drop_no_device l w : d_devices (w_dropped (send_all (map (fun i => OpQuery (test_event i)) l) w)) = d_devices (w_dropped w).
Proof. revert w. induction l as [|i l IH]; intros w; [done|]. cbn [map]. etrans; [apply (IH (send _ w))|]. unfold send. by case_match. Qed.
Lemma overrun_drops l : CHANNEL < Z.of_nat (length l) < 2 ^ 64 ->
  0 < d_queries (w_dropped (overrun l)) /\ d_devices (w_dropped (overrun l)) = 0.
Proof.
  intros Hl. split; [|apply queries_drop_no_device].
  destruct (send_accounting (map (fun i => OpQuery (test_event i)) l) new_writer 0 ltac:(lia)) as (H1 & _ & H2);
    [done|done|rewrite of_kind_queries; simpl; lia|].
  fold (overrun l) in H1, H2. rewrite of_kind_queries in H2. change (of_kind 0 (w_queue new_writer)) with 0 in H2.
  pose proof (of_kind_le 0 (w_queue (overrun l))). cbn [drop_count new_writer no_drops w_dropped d_queries] in H2. lia.
Qed.
Example drop_counts_are_tracked_per_kind_passes : drop_counts_are_tracked_per_kind = true.
Proof.
  unfold drop_counts_are_tracked_per_kind. destruct (overrun_drops (seq 0 (Z.to_nat 20000))) as [H1 H2].
  - rewrite length_seq, Z2Nat.id by lia. unfold CHANNEL. lia.
  - cbv zeta. rewrite H2, (proj2 (Z.ltb_lt _ _) H1). reflexivity.
Qed.

(* ------------------------------------------------------------------ *)
(** ** Names and vendors *)

Definition resolves_pending_name_once_arp_arrives : bool :=
  let ip := ipv4 192 168 1 50 in
  let s := seen ip "b8:27:eb:99:88:77" (observe_name_for_ip hash t0 0 ip "living-room-tv" new_for_test) in
  unwrap d := device s "b8:27:eb:99:88:77" in
  asserts [same (dv_hostname d) (Some "living-room-tv"); same (dv_vendor d) (Some "Raspberry Pi Foundation")].
Example resolves_pending_name_passes : resolves_pending_name_once_arp_arrives = true.
Proof. vm_compute. reflexivity. Qed.

Definition flags_randomized_macs_instead_of_guessing_vendor : bool :=
  let s := seen (ipv4 192 168 1 60) "a2:11:22:33:44:55" new_for_test in
  unwrap d := device s "a2:11:22:33:44:55" in
  asserts [dv_randomized d; same (dv_vendor d) (Some "(randomized MAC)")].
Example flags_randomized_macs_passes : flags_randomized_macs_instead_of_guessing_vendor = true.
Proof. vm_compute. reflexivity. Qed.
