(* ===== verification/ConfigCases.v ===== *)
(** * The tests of the configuration (src/config.rs, tests/check_config.rs)

    The shipped example is translated value by value; decoding TOML is the
    library's, so what each text decodes to is given to the tests.  Where a
    test looks for words in a message, the error that has the message is
    compared. *)
From S2P Require Import Prelude Str Addr Acl Config Startup Cases.
Open Scope Z_scope.

#[local] Instance invalid_config_eq_dec : EqDecision InvalidConfig.
Proof. solve_decision. Defined.
#[local] Instance load_error_eq_dec : EqDecision LoadError.
Proof. solve_decision. Defined.
#[local] Instance check_verdict_eq_dec : EqDecision CheckVerdict.
Proof. solve_decision. Defined.

(** config.example.toml; the keys that are commented out are absent. *)
Definition example_config : Config := {|
  dns := {|
    dns_listen := mk_socket (V4 (ipv4 0 0 0 0)) 53;
    dns_listen_v6 := None;
    enable_tcp := true;
    allow_from := ["loopback"; "private"];
    upstreams := [mk_socket (V4 (ipv4 1 1 1 1)) 53; mk_socket (V4 (ipv4 9 9 9 9)) 53];
    upstream_timeout_ms := 2500;
    upstream_udp_payload := 1232;
    max_udp_in_flight := 128;
    max_tcp_connections := 64;
    request_timeout_ms := 10000;
    cache_enabled := true;
    cache_max_entries := 20000;
    cache_min_ttl := 30;
    cache_max_ttl := 86400 |};
  web := {| web_listen := mk_socket (V4 (ipv4 127 0 0 1)) 8080; admin_token := None |};
  storage := {| database := "/var/lib/netwatch/netwatch.db"; retention_days := 14; flush_interval_ms := 750 |};
  discovery := {|
    disc_arp := true; arp_interval_secs := 15; disc_mdns := true; disc_dhcp := false;
    disc_sweep := true; sweep_interval_secs := 120; reverse_dns := true;
    disc_subnet := None; oui_file := None |};
  blocking := {|
    blocking_enabled := true; blocking_mode := "zero_ip";
    block_sources := ["https://raw.githubusercontent.com/StevenBlack/hosts/master/hosts"];
    block_files := []; refresh_hours := 24; disable_firefox_doh := true;
    state_dir := "/var/lib/netwatch" |};
  alerts := {|
    alerts_enabled := true; ntfy_url := ""; cfg_new_device := true; cfg_nxdomain_storm := true;
    nxdomain_threshold := 50; nxdomain_window_mins := 10; scan_interval_secs := 300; cooldown_mins := 60 |} |}.

Definition accepts (c : Config) : bool := is_ok (validate c).
Definition refused_for (e : InvalidConfig) (c : Config) : bool := same (validate c) (Err e).

(* ------------------------------------------------------------------ *)
(** ** example_config_tests *)

Definition the_shipped_example_config_parses_and_validates : bool := accepts example_config.
Example the_shipped_example_config_passes_tests : the_shipped_example_config_parses_and_validates = true.
Proof. reflexivity. Qed.

Definition the_example_matches_the_built_in_defaults : bool :=
  let cfg := example_config in let d := default_config in
  asserts [
    same (dns_listen (Config.dns cfg)) (dns_listen (Config.dns d));
    same (allow_from (Config.dns cfg)) (allow_from (Config.dns d));
    upstream_udp_payload (Config.dns cfg) =? upstream_udp_payload (Config.dns d);
    max_udp_in_flight (Config.dns cfg) =? max_udp_in_flight (Config.dns d);
    max_tcp_connections (Config.dns cfg) =? max_tcp_connections (Config.dns d);
    request_timeout_ms (Config.dns cfg) =? request_timeout_ms (Config.dns d);
    cache_min_ttl (Config.dns cfg) =? cache_min_ttl (Config.dns d);
    same (web_listen (web cfg)) (web_listen (web d));
    Bool.eqb (disc_dhcp (discovery cfg)) (disc_dhcp (discovery d));
    (blocking_mode (blocking cfg) =? blocking_mode (blocking d))%string;
    retention_days (storage cfg) =? retention_days (storage d)].
Example the_example_matches_the_built_in_defaults_passes : the_example_matches_the_built_in_defaults = true.
Proof. reflexivity. Qed.
(** The test compares eleven keys; all of them agree. *)
Example the_example_is_the_default : example_config = default_config.
Proof. reflexivity. Qed.

(* ------------------------------------------------------------------ *)
(** ** listener_tests *)

Definition with_listen_v6 (a : SocketAddr) : Config :=
  let d := default_dns in
  mk_config (mk_dns_config (dns_listen d) (Some a) (enable_tcp d) (allow_from d) (upstreams d)
      (upstream_timeout_ms d) (upstream_udp_payload d) (max_udp_in_flight d) (max_tcp_connections d)
      (request_timeout_ms d) (cache_enabled d) (cache_max_entries d) (cache_min_ttl d) (cache_max_ttl d))
    default_web default_storage default_discovery default_blocking default_alerts.

Definition ipv6_listening_is_off_by_default : bool :=
  asserts [negb (is_some (dns_listen_v6 (Config.dns default_config))); accepts default_config].
Example ipv6_listening_is_off_by_default_passes : ipv6_listening_is_off_by_default = true.
Proof. reflexivity. Qed.

Definition an_ipv4_address_in_listen_v6_is_refused_with_the_fix : bool :=
  refused_for ListenV6NotIpv6 (with_listen_v6 (mk_socket (V4 (ipv4 0 0 0 0)) 53)).
Example an_ipv4_address_in_listen_v6_passes : an_ipv4_address_in_listen_v6_is_refused_with_the_fix = true.
Proof. reflexivity. Qed.

Definition a_real_ipv6_listener_validates : bool := accepts (with_listen_v6 (mk_socket (V6 0) 53)).
Example a_real_ipv6_listener_validates_passes : a_real_ipv6_listener_validates = true.
Proof. reflexivity. Qed.

(* ------------------------------------------------------------------ *)
(** ** web_auth_tests *)

Definition web_cfg (listen : SocketAddr) (token : option string) : Config :=
  mk_config default_dns (mk_web_config listen token) default_storage default_discovery default_blocking default_alerts.
Definition everywhere : SocketAddr := mk_socket (V4 (ipv4 0 0 0 0)) 8080.
Definition real_token : string := "0123456789abcdef0123456789abcdef".

Definition the_default_dashboard_is_loopback_only : bool :=
  asserts [is_loopback (sa_ip (web_listen (web default_config))); accepts default_config].
Example the_default_dashboard_is_loopback_only_passes : the_default_dashboard_is_loopback_only = true.
Proof. reflexivity. Qed.

Definition exposing_the_dashboard_without_a_token_is_refused_at_startup : bool :=
  asserts [refused_for WeakAdminToken (web_cfg everywhere None);
           negb (accepts (web_cfg everywhere (Some "hunter2")));
           negb (accepts (web_cfg (mk_socket (V4 (ipv4 192 168 1 5)) 8080) (Some "   ")))].
Example exposing_the_dashboard_without_a_token_passes :
  exposing_the_dashboard_without_a_token_is_refused_at_startup = true.
Proof. reflexivity. Qed.

Definition exposing_the_dashboard_with_a_real_token_is_allowed : bool := accepts (web_cfg everywhere (Some real_token)).
Example exposing_the_dashboard_with_a_real_token_passes : exposing_the_dashboard_with_a_real_token_is_allowed = true.
Proof. reflexivity. Qed.

Definition a_token_on_loopback_is_honoured_rather_than_ignored : bool :=
  let c := web_cfg (mk_socket (V4 (ipv4 127 0 0 1)) 8080) (Some real_token) in
  asserts [accepts c; is_some (admin_token (web c))].
Example a_token_on_loopback_is_honoured_passes : a_token_on_loopback_is_honoured_rather_than_ignored = true.
Proof. reflexivity. Qed.

(* ------------------------------------------------------------------ *)
(** ** tests/check_config.rs: the exit code of [--check-config] *)

(** [check(&path)]: the file's contents, if there is one, and what the TOML
    library makes of them. *)
Definition check_file (decoded : option (option Config)) : CheckVerdict :=
  let from_toml (_ : string) := default None decoded in
  check_config (mk_cli None None None) (is_some decoded) (load from_toml (Some "")).

Definition the_shipped_example_config_passes : bool :=
  let out := check_file (Some (Some example_config)) in
  asserts [exit_code out =? 0; same out ConfigOk].
Example the_shipped_example_config_is_ok : the_shipped_example_config_passes = true.
Proof. reflexivity. Qed.

(** A key set twice is no TOML. *)
Definition a_duplicate_key_fails_with_a_nonzero_exit : bool :=
  let out := check_file (Some None) in
  asserts [exit_code out =? 1; same out (ConfigInvalid ParseError)].
Example a_duplicate_key_fails_passes : a_duplicate_key_fails_with_a_nonzero_exit = true.
Proof. reflexivity. Qed.

Definition a_semantically_invalid_config_also_fails : bool :=
  let out := check_file (Some (Some (web_cfg everywhere None))) in
  asserts [exit_code out =? 1; same out (ConfigInvalid (Invalid WeakAdminToken))].
Example a_semantically_invalid_config_passes : a_semantically_invalid_config_also_fails = true.
Proof. reflexivity. Qed.

Definition a_missing_file_says_so_rather_than_claiming_ok : bool :=
  let out := check_file None in asserts [exit_code out =? 0; same out ConfigNotFound].
Example a_missing_file_says_so_passes : a_missing_file_says_so_rather_than_claiming_ok = true.
Proof. reflexivity. Qed.
