(* ===== verification/OuiCases.v ===== *)
(** * The unit tests of the vendor table (src/oui.rs) *)
From S2P Require Import Prelude Str Oui Cases.
Open Scope Z_scope.

Definition finds_builtin_vendors : bool :=
  let db := Oui.new in
  same (map (lookup db) ["b8:27:eb:11:22:33"; "B827EB112233"; "5c-cf-7f-aa-bb-cc"; "ff:ff:ff:ff:ff:ff"])
    [Some "Raspberry Pi Foundation"; Some "Raspberry Pi Foundation"; Some "Espressif (ESP8266)"; None].
Example finds_builtin_vendors_passes : finds_builtin_vendors = true.
Proof. vm_compute. reflexivity. Qed.

Definition detects_randomized_macs : bool :=
  same (map is_randomized ["06:11:22:33:44:55"; "a2:11:22:33:44:55"; "b8:27:eb:11:22:33"; "00:0c:29:aa:bb:cc"])
    [true; true; false; false].
Example detects_randomized_macs_passes : detects_randomized_macs = true.
Proof. reflexivity. Qed.

Definition normalizes_notations : bool :=
  same (map normalize ["B8-27-EB-11-22-33"; "b827eb112233"; "00:00:00:00:00:00"; "not-a-mac"])
    [Some "b8:27:eb:11:22:33"; Some "b8:27:eb:11:22:33"; None; None].
Example normalizes_notations_passes : normalizes_notations = true.
Proof. reflexivity. Qed.
