(* ===== verification/NetinfoCases.v ===== *)
(** * The unit tests of the network state (src/netinfo.rs) *)
From S2P Require Import Prelude Str Float Addr Netinfo Cases.
Open Scope Z_scope.

Definition text (l : list string) : string := String.concat "" (map (fun s => s +:+ String newline "") l).
(** A line of tab-separated fields. *)
Definition tabbed (l : list string) : string := str_join (String (of_code 9) "") l.

Definition ROUTE_SAMPLE : string := text [
  tabbed ["Iface"; "Destination"; "Gateway "; "Flags"; "RefCnt"; "Use"; "Metric"; "Mask"; ""; "MTU"; "Window"; "IRTT"];
  tabbed ["eth0"; "00000000"; "0101A8C0"; "0003"; "0"; "0"; "202"; "00000000"; "0"; "0"; "0"];
  tabbed ["eth0"; "0001A8C0"; "00000000"; "0001"; "0"; "0"; "202"; "00FFFFFF"; "0"; "0"; "0"];
  tabbed ["wlan0"; "0000FEA9"; "00000000"; "0001"; "0"; "0"; "303"; "0000FFFF"; "0"; "0"; "0"]].

Definition decodes_the_pi_throttling_bitmask : bool :=
  let bits := 5 * 65536 + 5 in
  let both := describe_throttled bits in
  asserts [
    same (map parse_throttled_bits ["0x0"; "0x50005"; "50005"; "nonsense"]) [Some 0; Some bits; Some bits; None];
    same (map describe_throttled [0; 1; 65536]) [""; "now: undervoltage"; "since boot: undervoltage"];
    has "now: undervoltage, throttled" both; has "since boot: undervoltage, throttled" both].
Example decodes_the_pi_throttling_bitmask_passes : decodes_the_pi_throttling_bitmask = true.
Proof. vm_compute. reflexivity. Qed.

Definition parses_default_gateway : bool :=
  unwrap r := parse_default_route ROUTE_SAMPLE in
  asserts [(rt_iface r =? "eth0")%string; gateway r =? ipv4 192 168 1 1].
Example parses_default_gateway_passes : parses_default_gateway = true.
Proof. vm_compute. reflexivity. Qed.

Definition parses_lan_subnet_and_skips_link_local : bool :=
  unwrap s := parse_lan_subnet ROUTE_SAMPLE "eth0" in
  asserts [network s =? ipv4 192 168 1 0; prefix_len s =? 24; same (parse_lan_subnet ROUTE_SAMPLE "wlan0") None].
Example parses_lan_subnet_and_skips_link_local_passes : parses_lan_subnet_and_skips_link_local = true.
Proof. vm_compute. reflexivity. Qed.

Definition subnet_contains_and_enumerates : bool :=
  unwrap s := ok (parse_cidr "192.168.1.0/24") in
  asserts [contains s (ipv4 192 168 1 57); negb (contains s (ipv4 192 168 2 57)); (length (hosts s) =? 254)%nat;
           same (hosts s !! 0%nat) (Some (ipv4 192 168 1 1)); same (hosts s !! 253%nat) (Some (ipv4 192 168 1 254))].
Example subnet_contains_and_enumerates_passes : subnet_contains_and_enumerates = true.
Proof. vm_compute. reflexivity. Qed.

Definition refuses_to_enumerate_huge_subnets : bool :=
  unwrap s := ok (parse_cidr "10.0.0.0/8") in same (hosts s) [].
Example refuses_to_enumerate_huge_subnets_passes : refuses_to_enumerate_huge_subnets = true.
Proof. vm_compute. reflexivity. Qed.

Definition parses_arp_table_skipping_incomplete : bool :=
  let entries := parse_arp_table (text [
    "IP address       HW type     Flags       HW address            Mask     Device";
    "192.168.1.1      0x1         0x2         b8:27:eb:aa:bb:cc     *        eth0";
    "192.168.1.99     0x1         0x0         00:00:00:00:00:00     *        eth0";
    "192.168.1.42     0x1         0x2         5c:cf:7f:11:22:33     *        eth0"]) in
  asserts [(length entries =? 2)%nat; same (option_map arp_mac (entries !! 0%nat)) (Some "b8:27:eb:aa:bb:cc");
           same (option_map arp_ip (entries !! 1%nat)) (Some (ipv4 192 168 1 42))].
Example parses_arp_table_skipping_incomplete_passes : parses_arp_table_skipping_incomplete = true.
Proof. vm_compute. reflexivity. Qed.

Definition parses_iface_counters : bool :=
  let c := parse_iface_counters (text [
    "Inter-|   Receive                                                |  Transmit";
    " face |bytes    packets errs drop fifo frame compressed multicast|bytes    packets errs drop fifo colls carrier compressed";
    "    lo: 1000      10    0    0    0     0          0         0     1000      10    0    0    0     0       0          0";
    "  eth0: 5000      50    1    2    0     0          0         3     6000      60    4    5    0     0       0          0"]) in
  unwrap eth0 := head c in
  asserts [(length c =? 1)%nat; (ic_iface eth0 =? "eth0")%string; rx_bytes eth0 =? 5000; tx_bytes eth0 =? 6000;
           rx_errors eth0 =? 1; tx_dropped eth0 =? 5].
Example parses_iface_counters_passes : parses_iface_counters = true.
Proof. vm_compute. reflexivity. Qed.
