(* ===== verification/DbCases.v ===== *)
(** * The unit tests of the event store (src/db.rs)

    The tests open a database in memory, so every batch commits; the clock
    of the tests does not move while one runs. *)
From S2P Require Import Prelude Str Float Db Reports Storage Cases.
Open Scope Z_scope.

(** [now], for the length of a test. *)
Definition clock : Z := 1700000000.
Definition like (p s : string) : bool := true.
Definition groups_of (l : list string) : list string := remove_dups l.
Definition any_row {A} (l : list A) : option A := head l.

Definition device (mac ip host : string) : WriteOp :=
  OpDevice mac (Some ip) (Some host) (Some "Test") false 1000000.
Definition query (ip domain : string) : WriteOp :=
  OpQuery (mk_event clock ip domain "A" Forwarded (Some 5) None None).
Definition flushed (ops : list WriteOp) (db : Db) : Db := flush true ops db.

(* ------------------------------------------------------------------ *)
(** ** Devices that are present and silent *)

Definition bypass_suspects_finds_the_present_but_silent_device : bool :=
  let present mac ip host := OpDevice mac (Some ip) (Some host) (Some "Test") false clock in
  let db := flushed [present "aa:bb:cc:00:00:01" "192.168.1.50" "chatty-laptop";
                     present "aa:bb:cc:00:00:02" "192.168.1.51" "silent-tv"] empty_db in
  let traffic := map (fun i => query "192.168.1.50" ("host" +:+ show_uint (Z.of_nat i) +:+ ".example.com")) (seq 0 50) in
  let suspects := bypass_suspects clock 24 5 20 (flushed traffic db) in
  unwrap s := head suspects in
  asserts [(length suspects =? 1)%nat; same (dr_mac (bs_device s)) "aa:bb:cc:00:00:02"; bs_queries s =? 0].
Example bypass_suspects_finds_the_silent_device_passes : bypass_suspects_finds_the_present_but_silent_device = true.
Proof. vm_compute. reflexivity. Qed.

Definition bypass_suspect_counts_do_not_fan_out_across_devices : bool :=
  let at_ mac ip := OpDevice mac (Some ip) None None false clock in
  let db := flushed [at_ "aa:bb:cc:00:00:01" "192.168.1.50"] empty_db in
  let db := flushed [at_ "a2:bb:cc:00:00:02" "192.168.1.50"] db in
  let db := flushed [query "192.168.1.50" "example.com"] db in
  forallb (fun s => bs_queries s <=? 1) (bypass_suspects clock 24 5 20 db).
Example bypass_suspect_counts_passes : bypass_suspect_counts_do_not_fan_out_across_devices = true.
Proof. vm_compute. reflexivity. Qed.

Definition bypass_suspects_ignores_devices_that_are_no_longer_around : bool :=
  let gone := OpDevice "aa:bb:cc:00:00:03" (Some "192.168.1.99") None None false (clock - 30 * 86400) in
  match bypass_suspects clock 24 5 20 (flushed [gone] empty_db) with [] => true | _ => false end.
Example bypass_suspects_ignores_the_gone_passes : bypass_suspects_ignores_devices_that_are_no_longer_around = true.
Proof. vm_compute. reflexivity. Qed.

(* ------------------------------------------------------------------ *)
(** ** One holder per address *)

(** A phone changes its MAC and comes back on the same address. *)
Definition rotated : Db :=
  flushed [device "a2:bb:cc:00:00:02" "192.168.1.50" "phone-new"]
    (flushed [device "aa:bb:cc:00:00:01" "192.168.1.50" "phone-old"] empty_db).

Definition an_ip_is_only_ever_held_by_one_device : bool :=
  asserts [(length (devices_at rotated "192.168.1.50") =? 1)%nat; (length (t_devices rotated) =? 2)%nat].
Example an_ip_is_held_by_one_device_passes : an_ip_is_only_ever_held_by_one_device = true.
Proof. vm_compute. reflexivity. Qed.

Definition query_rows_are_not_duplicated_by_the_device_join : bool :=
  let db := flushed [query "192.168.1.50" "example.com"] rotated in
  let rows := recent_queries like db (mk_filter 100 0 None None None) in
  let clients := top_clients groups_of any_row clock 24 10 db in
  unwrap row := head rows in
  unwrap client := head clients in
  asserts [(length rows =? 1)%nat; same (qr_client_name row) (Some "phone-new");
           (length clients =? 1)%nat; count client =? 1].
Example query_rows_are_not_duplicated_passes : query_rows_are_not_duplicated_by_the_device_join = true.
Proof. vm_compute. reflexivity. Qed.

Definition later_sightings_do_not_erase_a_known_hostname : bool :=
  let db := flushed [device "aa:bb:cc:00:00:01" "192.168.1.60" "kitchen-pi"] empty_db in
  let db := flushed [OpDevice "aa:bb:cc:00:00:01" (Some "192.168.1.60") None None false 2000000] db in
  unwrap d := find_device "aa:bb:cc:00:00:01" (t_devices db) in
  asserts [same (dr_hostname d) (Some "kitchen-pi"); dr_last_seen d =? 2000000].
Example later_sightings_keep_the_hostname_passes : later_sightings_do_not_erase_a_known_hostname = true.
Proof. vm_compute. reflexivity. Qed.

(** [|block_percent - 50| < 0.01]: here it is 50 exactly. *)
Definition summary_counts_blocked_and_cached_separately : bool :=
  let ads status := OpQuery (mk_event clock "192.168.1.11" "ads.example.com" "A" status None None None) in
  let s := summary clock (flushed (query "192.168.1.10" "example.com" :: map ads [Blocked; Blocked; Cached]) empty_db) in
  asserts [total_24h s =? 4; blocked_24h s =? 2; cached_24h s =? 1; clients_24h s =? 2;
           same (block_percent s) (of_int 50)].
Example summary_counts_separately_passes : summary_counts_blocked_and_cached_separately = true.
Proof. vm_compute. reflexivity. Qed.

(* ------------------------------------------------------------------ *)
(** ** A database made before it could shrink *)

(** The file SQLite makes: write-ahead logging writes the header, so the
    pragma that follows changes nothing; [fl_wish] is what VACUUM would set. *)
Definition legacy (free : Z) : File := mk_file true Storage.NONE Storage.NONE free false.

Definition maintenance_is_harmless_on_a_legacy_database : bool :=
  let conn := match execute_batch (H := simple_sqlite) SCHEMA (legacy 3) with Ok c => c | Err _ => legacy 3 end in
  match maintain (H := simple_sqlite) conn with
  | Some (Ok after) =>
      asserts [negb (incremental_vacuum_available (H := simple_sqlite) conn);
               negb (incremental_vacuum (storage_sizes (H := simple_sqlite) (fun _ => None) after "legacy.db"))]
  | _ => false
  end.
Example maintenance_is_harmless_passes : maintenance_is_harmless_on_a_legacy_database = true.
Proof. vm_compute. reflexivity. Qed.
