(* ===== verification/DnsCases.v ===== *)
(** * The unit tests of the resolver and the DNS servers (src/dns/mod.rs)

    Messages are in the wire format; the mock upstreams of the tests are
    [Script]s, a black hole is one that never answers.  Of the tests that
    bind real sockets, the two that want an IPv4 listener beside the IPv6 one
    run against [claims], what binding takes of a port. *)
From S2P Require Import Prelude Str Addr Socket Acl Blocklist Config DnsMsg WireCodec Cache Upstream Db Resolver Serve Cases.
Open Scope Z_scope.
#[local] Existing Instance wire_hickory.
#[local] Existing Instance wire_codec.

(** The tests look at the answers and the counters; of the log they keep the
    events, and no device registry. *)
#[refine] #[local] Instance event_log : QueryObserver (list QueryEvent) := {|
  touch _ _ _ s := s; learn _ _ _ s := s; record_query e s := e :: s;
  offered s := Z.of_nat (length s) |}.
Proof. all: try reflexivity. intros e s. f_equal. simpl length. lia. Defined.

Definition order (m : gmap Key Cache.Entry) : list (Key * Cache.Entry) := map_to_list m.
Abbreviation TestResolver := (Resolver (S := list QueryEvent)).

Definition q (name : string) (qtype : Z) : Question := mk_question (wire_name name) qtype 1.
Definition request_msg (name : string) (qtype i : Z) : Message :=
  mk_message (mk_metadata i Query OP_QUERY NoError false false true false false) [q name qtype] [] [] [] None.
Definition query_bytes (name : string) (qtype : Z) : string := default "" (to_vec (request_msg name qtype 4660)).
Definition host (i : Z) (a : Z) : Record_ :=
  mk_record (wire_name ("host" +:+ show_uint i +:+ ".example.com.")) 300 (A a).

(** A reply with [n] addresses, or a truncated one without any. *)
Definition reply_for (req : Message) (n : nat) (truncated : bool) : Message :=
  let r := set_queries (queries req) (response (id (metadata req))) in
  if truncated then truncate r
  else set_sections (map (fun i => host i (ipv4 10 0 (i / 256) (i mod 256))) (map Z.of_nat (seq 0 n))) [] [] r.

Definition with_dns (f : DnsConfig -> DnsConfig) (c : Config) : Config :=
  mk_config (f (Config.dns c)) (web c) (storage c) (discovery c) (blocking c) (alerts c).
Definition with_canary (on : bool) (c : Config) : Config :=
  let b := blocking c in
  mk_config (Config.dns c) (web c) (storage c) (discovery c)
    (mk_blocking_config (blocking_enabled b) (blocking_mode b) (block_sources b) (block_files b)
       (refresh_hours b) on (state_dir b)) (alerts c).
(** The settings the tests change, the others as they were. *)
Definition upstream_cfg (ups : list SocketAddr) (upstream_ms request_ms : Z) (cache : bool) (d : DnsConfig) : DnsConfig :=
  mk_dns_config (dns_listen d) (dns_listen_v6 d) (enable_tcp d) (allow_from d) ups upstream_ms
    (upstream_udp_payload d) (max_udp_in_flight d) (max_tcp_connections d) request_ms cache
    (cache_max_entries d) (cache_min_ttl d) (cache_max_ttl d).
Definition in_flight_cfg (n : Z) (d : DnsConfig) : DnsConfig :=
  mk_dns_config (dns_listen d) (dns_listen_v6 d) (enable_tcp d) (allow_from d) (upstreams d) (upstream_timeout_ms d)
    (upstream_udp_payload d) n (max_tcp_connections d) (request_timeout_ms d) (cache_enabled d)
    (cache_max_entries d) (cache_min_ttl d) (cache_max_ttl d).
Definition allow_cfg (l : list string) (d : DnsConfig) : DnsConfig :=
  mk_dns_config (dns_listen d) (dns_listen_v6 d) (enable_tcp d) l (upstreams d) (upstream_timeout_ms d)
    (upstream_udp_payload d) (max_udp_in_flight d) (max_tcp_connections d) (request_timeout_ms d) (cache_enabled d)
    (cache_max_entries d) (cache_min_ttl d) (cache_max_ttl d).

Definition test_resolver (cfg : Config) : option TestResolver :=
  match parse (allow_from (Config.dns cfg)) with
  | Ok a => Some (mk_resolver (Config.dns cfg) a false (blocking_mode (blocking cfg) =? "nxdomain")%string
      (disable_firefox_doh (blocking cfg)) (new_lock empty_blocklist) (new_lock (new_cache 10 30 300)) [] default_stats)
  | Err _ => None
  end.

Definition local (port : Z) : SocketAddr := mk_socket (V4 (ipv4 127 0 0 1)) port.
Definition tick : Clock := mk_clock 0 0 0 0 0 0 0 0.
Definition no_tcp : TcpScript := mk_tcp false 0 false "" false.
Definition script (udp : list (Duration * UdpEvent)) (tcp : TcpScript) : Script :=
  mk_script (fun _ => true) true true udp tcp.
(** A port nobody answers on, and a port nobody listens on. *)
Definition blackhole (i : nat) : Script := script [] no_tcp.
Definition unreachable (i : nat) : Script := script [(1000, RecvError)] no_tcp.
(** A mock that answers the request it reads. *)
Definition mock (wire : string) (udp : Message -> Message) (tcp : option (Message -> Message)) : option (nat -> Script) :=
  let! req := from_vec wire in
  let! dgram := to_vec (udp req) in
  let! stream := match tcp with
                 | Some f => let! full := to_vec (f req) in Some (mk_tcp true 1000 true (to_be_bytes (str_len full) +:+ full) false)
                 | None => Some no_tcp
                 end in
  Some (fun _ => script [(1000, Datagram dgram)] stream).

(* ------------------------------------------------------------------ *)
(** ** Binding: the clock is paused, so a wait takes just its length *)

Definition bound {T} (results : nat -> result IoError T) (window : Duration) : option (nat * result BindFailure T) :=
  bind_with_retry (fun i => mk_try 0 (results i) 0) 100 0 window.
Definition AddrInUse : IoError := mk_io_error true (Some 98).
Definition PermissionDenied : IoError := mk_io_error false (Some 13).

Definition bind_retry_succeeds_immediately_without_retrying : bool :=
  unwrap (calls, r) := bound (fun _ => Ok 42) (from_secs 5) in
  asserts [same (ok r) (Some 42); (calls =? 1)%nat].
Example bind_retry_succeeds_immediately_passes : bind_retry_succeeds_immediately_without_retrying = true.
Proof. vm_compute. reflexivity. Qed.

Definition bind_retry_recovers_from_a_transient_conflict : bool :=
  unwrap (calls, r) := bound (fun n => if (n <? 2)%nat then Err AddrInUse else Ok 42) (from_secs 30) in
  asserts [same (ok r) (Some 42); (calls =? 3)%nat].
Example bind_retry_recovers_passes : bind_retry_recovers_from_a_transient_conflict = true.
Proof. vm_compute. reflexivity. Qed.

(** The hint; what was being bound is put before it by the caller. *)
Definition bind_retry_gives_up_after_the_window_and_reports_why : bool :=
  unwrap (calls, r) := bound (T := Z) (fun _ => Err AddrInUse) (from_millis 900) in
  match r with
  | Err e => asserts [has "CAP_NET_BIND_SERVICE" (bf_hint e); (2 <=? calls)%nat]
  | Ok _ => false
  end.
Example bind_retry_gives_up_passes : bind_retry_gives_up_after_the_window_and_reports_why = true.
Proof. vm_compute. reflexivity. Qed.

Definition bind_retry_does_not_retry_permission_denied : bool :=
  unwrap (calls, r) := bound (T := Z) (fun _ => Err PermissionDenied) (from_secs 30) in
  asserts [negb (is_some (ok r)); (calls =? 1)%nat].
Example bind_retry_permission_denied_passes : bind_retry_does_not_retry_permission_denied = true.
Proof. vm_compute. reflexivity. Qed.

(** Linux, with [bindv6only] at 0: what a bound socket claims of its port, by
    whether the family is IPv6.  A socket is refused what another claims. *)
Definition claims (addr : SocketAddr) (setup : list SockOp) : list bool :=
  if is_ipv6 addr then true :: (if bool_decide (OnlyV6 ∈ setup) then [] else [false]) else [false].
Definition kernel (taken wanted : list bool) (op : SockOp) : option IoError :=
  match op with
  | Bind _ => if existsb (fun c => existsb (Bool.eqb c) taken) wanted then Some AddrInUse else None
  | _ => None
  end.
Definition coexist (setup : SocketAddr -> list SockOp) : bool :=
  let v6 := mk_socket (V6 0) 40053 in
  let v4 := mk_socket (V4 0) 40053 in
  let first := claims v6 (setup v6) in
  asserts [is_ok (run_setup (kernel [] first) (setup v6));
           is_ok (run_setup (kernel first (claims v4 (setup v4))) (setup v4))].

Definition v6_and_v4_udp_listeners_coexist_on_the_same_port : bool := coexist udp_setup.
Example v6_and_v4_udp_listeners_coexist_passes : v6_and_v4_udp_listeners_coexist_on_the_same_port = true.
Proof. vm_compute. reflexivity. Qed.
Definition v6_and_v4_tcp_listeners_coexist_on_the_same_port : bool := coexist tcp_setup.
Example v6_and_v4_tcp_listeners_coexist_passes : v6_and_v4_tcp_listeners_coexist_on_the_same_port = true.
Proof. vm_compute. reflexivity. Qed.
(** Without IPV6_V6ONLY the second listener would fail. *)
Example coexistence_needs_only_v6 :
  coexist (fun a => List.filter (fun op => negb (bool_decide (op = OnlyV6))) (udp_setup a)) = false.
Proof. vm_compute. reflexivity. Qed.

(* ------------------------------------------------------------------ *)
(** ** The Firefox canary *)

(** What a request is answered, read back. *)
Definition answered (net : nat -> Script) (wire : string) (r : TestResolver) : TestResolver * option Message :=
  let '(r, (_, out)) := handle order (mk_env tick tick net (fun r => r)) wire (local 5300) r in
  (r, out ≫= from_vec).
Definition rcode (m : Message) : Z := response_code (metadata m).
(** No upstream can be reached: [127.0.0.1:1]. *)
Definition nowhere : Config -> Config := with_dns (upstream_cfg [local 1] 50 500 true).

Definition the_firefox_canary_is_nxdomain_even_in_zero_ip_mode : bool :=
  unwrap r := test_resolver (with_canary true default_config) in
  unwrap resp := snd (answered blackhole (query_bytes "use-application-dns.net." TYPE_A) r) in
  asserts [(blocking_mode (blocking default_config) =? "zero_ip")%string; rcode resp =? NXDomain;
           match answers resp with [] => true | _ => false end].
Example the_firefox_canary_passes : the_firefox_canary_is_nxdomain_even_in_zero_ip_mode = true.
Proof. vm_compute. reflexivity. Qed.

Definition the_canary_is_left_alone_when_disabled : bool :=
  unwrap r := test_resolver (nowhere (with_canary false default_config)) in
  unwrap resp := snd (answered unreachable (query_bytes "use-application-dns.net." TYPE_A) r) in
  negb (rcode resp =? NXDomain).
Example the_canary_is_left_alone_passes : the_canary_is_left_alone_when_disabled = true.
Proof. vm_compute. reflexivity. Qed.

Definition a_lookalike_subdomain_is_not_intercepted : bool :=
  unwrap r := test_resolver (nowhere default_config) in
  unwrap resp := snd (answered unreachable (query_bytes "foo.use-application-dns.net." TYPE_A) r) in
  negb (rcode resp =? NXDomain).
Example a_lookalike_subdomain_passes : a_lookalike_subdomain_is_not_intercepted = true.
Proof. vm_compute. reflexivity. Qed.

Definition sinkhole_returns_null_address_for_a : bool :=
  unwrap request := from_vec (query_bytes "ads.example.com." TYPE_A) in
  unwrap r := test_resolver default_config in
  let resp := sinkhole (block_nxdomain r) (udp_payload_limit r) request TYPE_A in
  asserts [rcode resp =? NoError; 
           match map r_data (answers resp) with [A a] => a =? 0 | _ => false end; id (metadata resp) =? 4660].
Example sinkhole_returns_null_address_passes : sinkhole_returns_null_address_for_a = true.
Proof. vm_compute. reflexivity. Qed.

Definition OP_UPDATE : Z := 5.
Definition refuses_non_query_opcodes : bool :=
  let msg := mk_message (mk_metadata 7 Query OP_UPDATE NoError false false false false false) [] [] [] [] None in
  let resp := error_response msg Refused 1232 in
  asserts [rcode resp =? Refused; id (metadata resp) =? 7].
Example refuses_non_query_opcodes_passes : refuses_non_query_opcodes = true.
Proof. vm_compute. reflexivity. Qed.

(* ------------------------------------------------------------------ *)
(** ** Upstreams *)

Definition upstream : SocketAddr := local 5353.
Definition forwarded (cfg : Config) (net : nat -> Script) (req : Message) : option (result UpstreamError string) :=
  let! r := test_resolver cfg in
  let! wire := to_vec req in
  Some (snd (ask_upstreams net wire req r)).
Definition one_upstream (upstream_ms : Z) : Config :=
  with_dns (upstream_cfg [upstream] upstream_ms (request_timeout_ms (Config.dns default_config)) true) default_config.

(** Truncated over UDP, [n] addresses over TCP. *)
Definition answers_over_tcp (n : nat) (req : Message) : option Message :=
  let! wire := to_vec req in
  let! net := mock wire (fun m => reply_for m 0 true) (Some (fun m => reply_for m n false)) in
  let! res := forwarded (one_upstream (upstream_timeout_ms (Config.dns default_config))) net req in
  ok res ≫= from_vec.

Definition upstream_tc_answer_is_retried_over_tcp : bool :=
  unwrap got := answers_over_tcp 40 (request_msg "big.example.com." TYPE_A 16962) in
  asserts [negb (truncation (metadata got)); (length (answers got) =? 40)%nat].
Example upstream_tc_answer_passes : upstream_tc_answer_is_retried_over_tcp = true.
Proof. vm_compute. reflexivity. Qed.

Definition a_client_without_edns_still_gets_a_large_answer_via_tcp : bool :=
  let req := request_msg "nedns.example.com." TYPE_A 8738 in
  unwrap got := answers_over_tcp 30 req in
  asserts [negb (is_some (edns req)); (length (answers got) =? 30)%nat].
Example a_client_without_edns_passes : a_client_without_edns_still_gets_a_large_answer_via_tcp = true.
Proof. vm_compute. reflexivity. Qed.

(** The same identifier, another name. *)
Definition evil_reply (req : Message) : Message :=
  set_sections [mk_record (wire_name "attacker.example.net.") 300 (A (ipv4 6 6 6 6))] [] []
    (set_queries [q "attacker.example.net." TYPE_A] (response (id (metadata req)))).
Definition a_reply_to_a_different_question_is_rejected : bool :=
  let req := request_msg "victim.example.com." TYPE_A 4369 in
  unwrap wire := to_vec req in
  unwrap net := mock wire evil_reply None in
  unwrap res := forwarded (one_upstream 400) net req in
  match res with Err DifferentQuestion => true | _ => false end.
Example a_reply_to_a_different_question_passes : a_reply_to_a_different_question_is_rejected = true.
Proof. vm_compute. reflexivity. Qed.

Definition request_with_edns (i payload : Z) : Message :=
  set_edns (set_max_payload edns_new payload) (request_msg "example.com." TYPE_A i).
Definition an_oversized_client_edns_is_clamped_before_going_upstream : bool :=
  let req := request_with_edns 7 65535 in
  unwrap original := to_vec req in
  unwrap sent := from_vec (clamp_upstream_payload original req 1232) in
  max_payload sent =? 1232.
Example an_oversized_client_edns_passes : an_oversized_client_edns_is_clamped_before_going_upstream = true.
Proof. vm_compute. reflexivity. Qed.

Definition a_request_already_within_the_limit_is_forwarded_byte_for_byte : bool :=
  let req := request_with_edns 9 512 in
  unwrap original := to_vec req in
  same (clamp_upstream_payload original req 1232) original.
Example a_request_within_the_limit_passes : a_request_already_within_the_limit_is_forwarded_byte_for_byte = true.
Proof. vm_compute. reflexivity. Qed.

(* ------------------------------------------------------------------ *)
(** ** Limits and budgets *)

(** A datagram is received and, if it was let in, its task runs until it
    waits for the upstreams. *)
Definition receive_and_run (s : UdpServer (S := list QueryEvent)) (wire : string) : UdpServer :=
  let s' := udp_receive (local 5300) wire s in
  let i := length (us_tasks s) in
  match us_tasks s' !! i with Some t => run_task i t tick s' | None => s' end.

Definition udp_saturation_sheds_work_instead_of_queueing_it : bool :=
  let cfg := with_dns (fun d => in_flight_cfg 4 (upstream_cfg [upstream] 30000 30000 false d)) default_config in
  unwrap r := test_resolver cfg in
  let requests := map (fun i => default "" (to_vec (request_msg "stall.example.com." TYPE_A (Z.of_nat i)))) (seq 0 60) in
  let s := fold_left receive_and_run requests (serve_udp_start r) in
  let started := Z.of_nat (length (us_tasks s)) + Z.of_nat (length (us_sent s)) in
  asserts [started <=? max_udp_in_flight (Config.dns cfg); 0 <? udp_overload_drops (r_stats (us_resolver s));
           us_permits s =? 0].
Example udp_saturation_sheds_work_passes : udp_saturation_sheds_work_instead_of_queueing_it = true.
Proof. vm_compute. reflexivity. Qed.

Definition a_permit_is_released_when_the_request_finishes : bool :=
  unwrap r := test_resolver (with_dns (in_flight_cfg 1) default_config) in
  let held := udp_receive (local 5300) (query_bytes "example.com." TYPE_A) (serve_udp_start r) in
  asserts [us_permits held =? 0; us_permits (end_task 0 held) =? 1].
Example a_permit_is_released_passes : a_permit_is_released_when_the_request_finishes = true.
Proof. vm_compute. reflexivity. Qed.

Definition a_request_that_outlives_its_budget_gets_servfail : bool :=
  unwrap r := test_resolver (with_dns (upstream_cfg [upstream] 30000 150 false) default_config) in
  unwrap wire := to_vec (request_msg "slow.example.com." TYPE_A 119) in
  let '(r, out) := answered blackhole wire r in
  unwrap resp := out in
  asserts [rcode resp =? ServFail; id (metadata resp) =? 119; request_timeouts (r_stats r) =? 1].
Example a_request_that_outlives_its_budget_passes : a_request_that_outlives_its_budget_gets_servfail = true.
Proof. vm_compute. reflexivity. Qed.

(* ------------------------------------------------------------------ *)
(** ** Who is served *)

(** [resolver.allows] for each address in turn. *)
Fixpoint allow_each (l : list string) (r : TestResolver) : option (TestResolver * list bool) :=
  match l with
  | [] => Some (r, [])
  | s :: l =>
      let! ip := parse_ip s in
      let '(r, b) := resolver_allows ip r in
      let! p := allow_each l r in
      Some (fst p, b :: snd p)
  end.

Definition default_config_refuses_to_serve_the_internet : bool :=
  unwrap r := test_resolver default_config in
  unwrap (r, l) := allow_each ["192.168.1.20"; "127.0.0.1"; "8.8.8.8"; "203.0.113.7"] r in
  asserts [same l [true; true; false; false]; denied (r_stats r) =? 2; negb (Acl.is_open_to_world (r_acl r))].
Example default_config_refuses_the_internet_passes : default_config_refuses_to_serve_the_internet = true.
Proof. vm_compute. reflexivity. Qed.

Definition allow_from_any_is_respected_when_set_deliberately : bool :=
  unwrap r := test_resolver (with_dns (allow_cfg ["any"]) default_config) in
  unwrap (r, l) := allow_each ["8.8.8.8"] r in
  asserts [same l [true]; denied (r_stats r) =? 0; Acl.is_open_to_world (r_acl r)].
Example allow_from_any_is_respected_passes : allow_from_any_is_respected_when_set_deliberately = true.
Proof. vm_compute. reflexivity. Qed.

Definition a_malformed_allow_from_is_rejected_at_config_load : bool :=
  let cfg := with_dns (allow_cfg ["not-a-subnet"]) default_config in
  negb (is_ok (parse (allow_from (Config.dns cfg)))).
Example a_malformed_allow_from_passes : a_malformed_allow_from_is_rejected_at_config_load = true.
Proof. vm_compute. reflexivity. Qed.

(* ------------------------------------------------------------------ *)
(** ** The size of an answer *)

Definition answer_to (request : string) (l : list Record_) : option string :=
  let! req := from_vec request in
  to_vec (set_sections l [] [] (set_queries (queries req) (response 4660))).

Definition small_answers_pass_through_unchanged : bool :=
  let request := query_bytes "example.com." TYPE_A in
  unwrap bytes := answer_to request [mk_record (wire_name "example.com.") 300 (A (ipv4 1 2 3 4))] in
  same (fit_udp request bytes 4096) (Some bytes).
Example small_answers_pass_through_passes : small_answers_pass_through_unchanged = true.
Proof. vm_compute. reflexivity. Qed.

Definition oversized_answers_come_back_truncated : bool :=
  let request := query_bytes "example.com." TYPE_A in
  unwrap bytes := answer_to request (map (fun i => host i (ipv4 10 0 0 i)) (map Z.of_nat (seq 0 100))) in
  unwrap out := fit_udp request bytes 4096 in
  unwrap parsed := from_vec out in
  asserts [512 <? str_len bytes; truncation (metadata parsed);
           match answers parsed with [] => true | _ => false end; id (metadata parsed) =? 4660; str_len out <=? 512].
Example oversized_answers_come_back_truncated_passes : oversized_answers_come_back_truncated = true.
Proof. vm_compute. reflexivity. Qed.

Definition edns_opt_is_echoed_back : bool :=
  let req := set_edns (set_max_payload edns_new 4096) (request_msg "ads.example.com." TYPE_A 16962) in
  let resp := base_response req 4096 in
  asserts [is_some (edns resp); max_payload resp =? 4096].
Example edns_opt_is_echoed_back_passes : edns_opt_is_echoed_back = true.
Proof. vm_compute. reflexivity. Qed.
