(* ===== verification/ApiCases.v ===== *)
(** * The unit tests of the HTTP API (src/api.rs) *)
From S2P Require Import Prelude Str Api Cases.
Open Scope Z_scope.

Definition token_comparison_is_length_safe_and_correct : bool :=
  let eq a b := constant_time_eq (as_bytes a) (as_bytes b) in
  asserts [eq "abc" "abc"; negb (eq "abc" "abd"); negb (eq "abc" "ab"); negb (eq "" "x"); eq "" "";
           negb (eq "secret" "secret-longer")].
Example token_comparison_is_length_safe_passes : token_comparison_is_length_safe_and_correct = true.
Proof. reflexivity. Qed.

(** The one message an unauthorised client is given carries no value. *)
Definition an_unauthorized_reply_says_nothing_useful_to_an_attacker : bool :=
  asserts [bool_decide (ae_status unauthorized = UNAUTHORIZED);
           match ae_public unauthorized with Some AdminTokenRequired => true | _ => false end].
Example an_unauthorized_reply_passes : an_unauthorized_reply_says_nothing_useful_to_an_attacker = true.
Proof. reflexivity. Qed.

Definition unexpected_errors_do_not_leak_internal_detail : bool :=
  asserts [bool_decide (ae_status internal_error = INTERNAL_SERVER_ERROR); negb (is_some (ae_public internal_error))].
Example unexpected_errors_pass : unexpected_errors_do_not_leak_internal_detail = true.
Proof. reflexivity. Qed.
